(* ===== verification/_CoqProject ===== *)
-Q . S2P
Prelude.v
RouterTypes.v
Partition.v
LoadBalance.v
RouterDb.v
Pool.v
ThriftConn.v
Registry.v
Pullers.v
Router.v
ConfigManager.v
LaserTypes.v
ThriftWire.v
LaserWire.v
LaserRoundTrip.v
LaserService.v
LaserClient.v
LaserBatch.v
ControlStatus.v
GoLib.v
Doubles.v
LaserMethods.v
LaserRpc.v
LaserRemote.v
ControlData.v
ShardMetrics.v
ShardAssigner.v
StatusManager.v
ShardManager.v
ShardAssignment.v
ReduceMetrics.v
NodeManager.v
ConsulModel.v
ConfigValidator.v
Inventory.v
Catalog.v
Context.v
ServiceManager.v
Mail.v
Tickets.v
Ansible.v
Users.v
Curl.v
Api.v
ApiServices.v
Routes.v
KeyCheck.v
VersionChange.v
Metrics.v
Prometheus.v
Reports.v
Startup.v
Agreement.v
