(* ===== verification/Prelude.v ===== *)
(** * LaserDB: a verification development for its Go code

    LaserDB is a distributed key-value store.  Its servers register themselves
    in consul; a client finds the servers of a service there, keeps them in a
    routing table, hashes a key to a partition and the partition to a shard,
    chooses one of the shard's servers and calls it over a pooled thrift
    connection.  The Go SDK does so ([src/sdk/go/common/service_router] and
    [src/sdk/go/laser_client]).  The control plane ([src/control]) keeps clusters,
    nodes and tables in MySQL, assigns shards to nodes, watches what the nodes
    report, and publishes the configuration that the clients read.  This
    development models both.

    ** The parts, and where they are modelled

    - [Prelude.v]: machine integers with their wrap-around, panics and fuel
      (the type [go]), strings, the parameters CityHash, random draws and map
      order, tactics, generic lemmas.
    - [RouterTypes.v]: the data of the router ([registry.go], [router.go]) and
      the paths of the consul store ([node.go]).
    - [Partition.v]: key formats, partitions and shards ([lib/format.go],
      [lib/partition.go]).
    - [LoadBalance.v]: the balancers ([load_balance.go]); [Select] is the
      interface [LoadBalance].
    - [RouterDb.v]: the routing table ([router_db.go]); the critical sections of
      [UpdateServers] are steps a reader can come between.
    - [Pool.v]: the connection pool ([pool.go]).  A goroutine is a [thread], its
      position in [Aquire], [aquire] or [release] between two critical
      sections; [thread_step] moves it, [pool_step] moves any of them or closes
      the pool, and [reachable] is the closure.
    - [ThriftConn.v]: the connections in the pool, transports and [ConnGroup]
      ([thrift.go]), and executions of the pool.
    - [Registry.v]: [ConsulRegistry] ([registry.go]) over the class [ConsulKV]
      of the consul client, whose laws are [ConsulKVLaws].  What subscribers are
      told is returned as a list of notifications.
    - [Pullers.v]: the pullers and pushers with their tickers
      ([service_puller.go], [service_pusher.go]).
    - [Router.v]: the router ([router.go]): it owns the registry, the routing
      table, the pullers, pushers and balancers, delivers notifications, and
      discovers servers.  Its locks are in the state; taking one that is held by
      the same chain of calls is a [Deadlock].
    - [ConfigManager.v]: table schemas and cluster ([lib/config_manager.go]), a
      subscriber of the router.
    - [LaserTypes.v]: the thrift data the client uses ([if/laser/ttypes.go]).
    - [ThriftWire.v]: what reading and writing a thrift struct is made of (fields,
      scalars, lists, maps), over the class [Protocol]; the [token]s of a protocol
      and its laws [ProtocolLaws].
    - [LaserWire.v], [LaserRoundTrip.v]: [Read] and [Write] of every struct of
      [ttypes.go], and that what is written is read back.
    - [LaserService.v], [LaserMethods.v]: the generated client and processor
      ([if/laser/laserservice.go]).  The first has what is the same for every
      method, [send], [recv], [processor_Read], [processor_Run] and
      [processor_Write] of a [method]; the second has the 48 methods, each with its
      structs, its calls and its function of the processor.
    - [LaserRpc.v]: a call through the wire to a handler and back; goroutines that
      share a client.
    - [LaserRemote.v]: the client of [LaserClient.v] on top of all that.
    - [LaserClient.v]: the client ([laser_client.go], [metrics.go]): route
      information, calls with retries, the commands on one key.
    - [LaserBatch.v]: the batch operations of [laser_client.go]: grouping keys
      by server, one goroutine for each group, putting the answers together.
    - [ControlStatus.v]: the statuses every operation of the control plane
      returns ([common/errors.go]).
    - [GoLib.v], [Doubles.v]: sorting, doubles, numbers and white space in strings;
      how large the results of operations on doubles are.
    - [ControlData.v]: the rows of the database and the queries that list them
      ([service/*.go], [params/params.go]).
    - [ShardMetrics.v]: the cache of what the nodes report ([metrics_info.go]),
      which the four next parts read.
    - [ShardAssigner.v]: dividing a table's shards ([table_shard_assigner.go]).
    - [StatusManager.v]: leaders, followers and how they are marked ([shard_status.go]).
    - [ReduceMetrics.v]: making followers unavailable to lower the load
      ([reduce_metrics.go]).
    - [ShardManager.v], [ShardAssignment.v]: the groups in memory, the
      assignment of shards to nodes by weight, and its versions
      ([shard_manager.go]); definitions in the first, theorems in both.
    - [NodeManager.v]: nodes in the database, shards as text, and the snapshot of
      the cluster the shard manager gets ([node_manager.go], [base.go]).
    - [ConsulModel.v]: generating the configuration and publishing it
      ([consul.go]).
    - [ConfigValidator.v]: whether a group may be the master, and what is not
      synchronised ([config_validator.go]); it reads the cache too.
    - [Inventory.v], [Catalog.v]: storing, changing and deleting the other rows
      ([database.go], [table.go], [machine.go] and their like); operations in the
      first, theorems in the second.
    - [Context.v], [Startup.v]: configuration, connection to the database, and the
      server from its configuration file to listening ([context/*.go], [cmd/*.go],
      [base.go], [timer.go], [shard_control_actors.go]).
    - [ServiceManager.v]: services registered for the clients
      ([service_manager.go]).
    - [Mail.v], [Tickets.v]: mails over SMTP, tickets and what accepting one
      creates ([send_mail.go], [ticket.go]).
    - [Ansible.v]: ansible operations in goroutines over shared files
      ([ansible_operation_manager.go]), a step relation.
    - [Users.v]: sessions, the login server and access to addresses ([user.go],
      [middlerware/*.go]).
    - [Curl.v]: the HTTP client ([common/curl/*.go]).
    - [Api.v], [ApiServices.v], [Routes.v]: the handlers of [src/control/apis], first
      those of the rows, then the others, and the routes they are registered under
      with their middleware ([router.go]).
    - [KeyCheck.v], [VersionChange.v]: asking the servers of a key, and passing
      versions on to the batch manager ([keycheck.go], [version_change.go]).
    - [Metrics.v], [Prometheus.v], [Reports.v]: the tables of metrics with their SQL,
      the queries, and the reports that measure nodes in goroutines and add them up
      ([*_metrics.go], [system_index.go], [report_data_collector.go]).
    - [Agreement.v]: the control plane and the client together.

    ** What the theorems show

    - Batches: [group] loses and duplicates no key; a detailed read returns at
      each index the entry of its key, whatever way the goroutines interleave;
      the options the goroutines share can send keys to the wrong server.
    - Calls: a call to a known address returns within its retries and never
      panics, except for a wrapped exception; a new client has every metric.
    - The wire: requests and replies survive being written and read, fields of
      another version are skipped, a struct without a required field and a union
      without exactly one are refused.
    - Remote calls: for every method, over any protocol and network that keep their
      promises, a call returns what the handler answers; so it does for goroutines
      that share a client; and the SDK's client returns it with its status.
    - Routing: what a lookup finds after an update of the table, what readers
      see during one, that discovery returns servers of the table, and that a
      batch discovery answers for exactly the identifiers asked for.
    - The pool: its accounts, that a connection has one holder, who can wait for
      ever; and what a second close, a transport error and the pool's key do.
    - Partitions, shards and addresses: ranges, with the one hash out of range.
    - Balancers: totality, fairness, proportionality, preference, termination,
      and where the configurable weights do not terminate.
    - Registration, configuration and timers: a registration is discovered once,
      a pull of a configuration settles, a puller has one ticker, a
      configuration does not depend on the order of a map; and where versions,
      subscriptions, restarts and intervals go wrong.
    - Agreement: once the control plane has published its cluster and a client
      has read it, both compute the same shard of a partition.
    - Assignment: shards given to nodes without any are given once each and all
      of them; what a rebalance after adding a node does instead; a manager stays
      well formed; a version written is read back.
    - The cache and its readers: what a synchronisation stores, the shards of a
      table, balanced lists, how followers are marked, and which shards a reduction
      of load may take away.
    - Nodes and rows: node ids and addresses stay unique, what a change of role
      does, shards survive being written as text; the service of databases refines
      a catalogue; adding machines panics exactly at a line that is no address.
    - Publishing: what was published is read back and found synchronised, tables
      change last, and a group is found ready to be the master exactly when its shards
      are complete, available and as the database has them, on nodes that only lead
      or only follow.
    - The interface of the control plane: databases through HTTP refine a catalogue;
      every route is registered with its middleware where the frontend's pages are
      there, and none where they are not; who has access; what deciding on a ticket
      does, by the name its request gives; one ansible operation for each group;
      rollbacks are for a table that was found; keys are asked of every server.
    - Reports: totals are the sums of what was measured, in any order of the
      goroutines; what an unreachable Prometheus looks like; the SQL put together by
      hand; when the server starts, panics or ends.

    ** Conventions, bounds and fuel

    Go integers are [Z] in the range of their type; an operation that can leave
    it is wrapped with [wrapu] or [wraps].  [/] and [%] are [Z.quot] and
    [Z.rem].  A pointer is an [option], a slice a list, a map a [gmap]; ranging
    over a map follows a [MapOrder], any order, and theorems hold for all.  An
    operation that can panic returns [go].  Loops without a bound take fuel and
    return [OutOfFuel] when it runs out: the recursion of [Gcd] with the fuel
    [gcd_fuel], proved enough; the loop of the configurable weights, where
    termination is a theorem and so is non-termination; the pulls a notification
    causes, where two levels are proved enough.  The loops of a call have a
    bound in the code, [TimeoutRetry] and [ConnectionRetry], from which their
    fuel is computed.  Reading a struct takes fuel for its fields, more than there
    are on the wire: ten is enough for what is written here, whatever its size.

    Code outside the repository is a class or an argument: CityHash, crypto/rand
    and math/rand, the float conversions that Go leaves to the implementation,
    consul's key-value client and its HTTP interface, encoding/json, base64,
    fbthrift, the clock, the network, the call stack ([Runtime]).  Package [sort]
    is [GoSort], any algorithm that sorts; doubles are the standard library's
    [spec_float] at binary64.  gorm is a class for each way it is used ([Gorm] for
    lists, [NodeStore], [ShardStoreDb], [RowStore], [AssocStore]); a transaction
    works on a copy of the database's state that a rollback drops.  viper, gin and its
    binding, the validator, SMTP, net/http, ansible with its files, Prometheus and
    cron are classes in the files that use them ([Viper], [Gin], [GinBinding],
    [StructValidator], [Smtp], [HttpClient], [AnsibleWorld], [PrometheusWorld],
    [Cron], [HtmlTemplates], [Listen]); fbthrift's protocols are [Protocol] and [Messages].  Goroutines that are
    waited for run in an order that theorems quantify over.  The laws of
    these classes are fields or hypotheses, and witnesses instantiate them.

    ** What is not modelled

    Metrics beyond counting, sockets and the serving of HTTP, logging ([logger]), the
    process itself ([main.go], the version command), reading the machine's address
    ([common/ip]), generated API documentation, the getters of the generated structs
    that return a field, and the generated command-line program
    ([laser_service-remote.go], which does not compile).  The bytes of a protocol are
    fbthrift's: the model stops at its methods.  The C++ server and client, the Java
    batch manager and the web frontend are not Go. *)

From Stdlib Require Export ZArith Lia Ascii String.
From stdpp Require Export base tactics option list gmap strings fin_maps sorting numbers pretty.

#[global] Open Scope string_scope.
#[global] Open Scope list_scope.
#[global] Open Scope Z_scope.

(** ** Machine integers

    A Go integer is a [Z] in the range of its type; the wrap-around of an
    operation or a conversion is written out with [wrapu] and [wraps].  [int]
    is 64 bits wide, as on every platform the services run on.  Go's [/] and
    [%] truncate: they are [Z.quot] and [Z.rem]. *)

(** [wrapu w z]: the value of [z] in an unsigned [w]-bit Go integer. *)
Definition wrapu (w z : Z) : Z := z `mod` 2 ^ w.

(** [wraps w z]: the value of [z] in a signed (two's complement) one. *)
Definition wraps (w z : Z) : Z := (z + 2 ^ (w - 1)) `mod` 2 ^ w - 2 ^ (w - 1).

Abbreviation u16 := (wrapu 16).
Abbreviation u32 := (wrapu 32).
Abbreviation u64 := (wrapu 64).
Abbreviation i32 := (wraps 32).
Abbreviation i64 := (wraps 64).

Definition MinInt64 : Z := - 2 ^ 63.
Definition MaxInt64 : Z := 2 ^ 63 - 1.

(** [2^32 - 1], the shard number of a service that is not sharded; both
    [lib/partition.go] and [service_router/router.go] declare it. *)
Definition UINT32MAX : Z := 4294967295.

(** ** Run-time panics and loops without a bound

    A Go operation that can panic returns a [go] value; [Panic] carries the
    reason.  A loop the language does not bound is run with fuel, and
    [OutOfFuel] says that the fuel did not suffice.  Sequencing is stdpp's
    [x ← c; k]. *)

Inductive panic :=
  | Deadlock (* no panic: the goroutines involved wait for each other for ever *)
  | IntegerDivideByZero
  | IndexOutOfRange
  | NilPointerDereference
  | NonPositiveTickerInterval
  | ExplicitPanic (msg : string).

Inductive go (A : Type) :=
  | Ret (a : A)
  | Panic (p : panic)
  | OutOfFuel.
Arguments Ret {A} a.
Arguments Panic {A} p.
Arguments OutOfFuel {A}.

#[export] Instance panic_eq_dec : EqDecision panic.
Proof. solve_decision. Defined.

#[export] Instance go_ret : MRet go := λ A a, Ret a.
#[export] Instance go_bind : MBind go := λ A B f c,
  match c with Ret a => f a | Panic p => Panic p | OutOfFuel => OutOfFuel end.
#[export] Instance go_fmap : FMap go := λ A B f c,
  match c with Ret a => Ret (f a) | Panic p => Panic p | OutOfFuel => OutOfFuel end.

(** Whether a run returns. *)
Definition returns {A} (r : go A) : bool := match r with Ret _ => true | _ => false end.

(** Go's integer [%] and [/]: a zero divisor panics. *)
Definition go_rem (a b : Z) : go Z :=
  if Z.eqb b 0 then Panic IntegerDivideByZero else Ret (Z.rem a b).

(** Indexing a slice: [s[i]], out of range panics. *)
Definition go_index {A} (s : list A) (i : Z) : go A :=
  if Z.ltb i 0 then Panic IndexOutOfRange
  else match s !! Z.to_nat i with
       | Some a => Ret a
       | None => Panic IndexOutOfRange
       end.

(** Dereferencing a pointer, [None] being [nil]. *)
Definition go_deref {A} (p : option A) : go A :=
  match p with Some a => Ret a | None => Panic NilPointerDereference end.

(** Left-to-right loop over a slice, threading a state that may panic. *)
Fixpoint go_fold {S A} (f : S → A → go S) (l : list A) (s : S) : go S :=
  match l with
  | [] => Ret s
  | a :: l' => s' ← f s a; go_fold f l' s'
  end.

(** ** Strings *)

(** [len(s)] of a Go string counts bytes. *)
Definition len (s : string) : Z := Z.of_nat (String.length s).

(** [strings.Contains(s, sub)]. *)
Definition strings_Contains (s sub : string) : bool :=
  match String.index 0 sub s with Some _ => true | None => false end.

(** [strconv.Itoa] and [%d]: decimal digits, with a sign for negatives. *)
Definition Itoa (z : Z) : string := pretty z.

(** [strings.Split(s, sep)] for a separator of one byte: the pieces between
    the separators, at least one. *)
Fixpoint strings_Split (sep : Ascii.ascii) (s : string) : list string :=
  match s with
  | EmptyString => [EmptyString]
  | String c s' =>
      if Ascii.eqb c sep then EmptyString :: strings_Split sep s'
      else match strings_Split sep s' with
           | piece :: rest => String c piece :: rest
           | [] => [String c EmptyString]
           end
  end.

(** [strings.Join(l, sep)]. *)
Fixpoint strings_Join (sep : string) (l : list string) : string :=
  match l with
  | [] => ""
  | [s] => s
  | s :: l' => s +:+ sep +:+ strings_Join sep l'
  end.

(** A decimal digit, and the value of a non-empty string of digits. *)
Definition digit (c : Ascii.ascii) : option Z :=
  let n := Z.of_N (Ascii.N_of_ascii c) in
  if (Z.leb 48 n && Z.leb n 57)%bool then Some (n - 48) else None.

Fixpoint digits_acc (s : string) (acc : Z) : option Z :=
  match s with
  | EmptyString => Some acc
  | String c s' => d ← digit c; digits_acc s' (acc * 10 + d)
  end.

Definition digits (s : string) : option Z :=
  match s with EmptyString => None | _ => digits_acc s 0 end.

(** The value [strconv.Atoi] returns next to its error: [0] for a string that
    is no number, the nearest [int64] for one out of range. *)
Definition Atoi (s : string) : Z :=
  let clamp z := Z.max MinInt64 (Z.min z MaxInt64) in
  match s with
  | String c s' =>
      if Ascii.eqb c "-"%char then default 0 ((λ n, clamp (- n)) <$> digits s')
      else if Ascii.eqb c "+"%char then default 0 (clamp <$> digits s')
      else default 0 (clamp <$> digits s)
  | EmptyString => 0
  end.

(** ** Hashing

    [github.com/zentures/cityhash] is a package the code calls: the function
    is a parameter.  What the code relies on is its Go type, a [uint64]. *)

Class CityHash := {
  CityHash64WithSeed : string → Z → Z → Z;
  CityHash64WithSeed_range :
    ∀ s l seed, 0 ≤ CityHash64WithSeed s l seed < 2 ^ 64
}.

(** The only shape in which the code calls it: all the bytes of a string. *)
Definition city `{CityHash} (s : string) (seed : Z) : Z :=
  CityHash64WithSeed s (u32 (len s)) seed.

(** ** Randomness

    What the calls [rand.Int(_, n)] and [rand.Prime(_, bits)] of
    [crypto/rand] return to one call of the code.  [rand.Int] is uniform in
    [0, n); [rand.Prime] returns a number of the given bit length.  A theorem
    for every [Randomness] holds for every draw. *)

Class Randomness := {
  rand_Int : Z → Z;
  rand_Prime : Z → Z;
  rand_Int_range : ∀ n, 0 < n → 0 ≤ rand_Int n < n;
  rand_Prime_range : ∀ bits, 2 ≤ bits → 2 ^ (bits - 1) ≤ rand_Prime bits < 2 ^ bits
}.

(** ** Iteration order of maps

    Go leaves the order of [range] over a map unspecified.  A [MapOrder] is
    one choice of it; a theorem stated for every [MapOrder] holds whichever
    order the run-time takes. *)

Class MapOrder := {
  map_range : ∀ {K : Type} `{Countable K} {V : Type}, gmap K V → list (K * V);
  map_range_perm : ∀ {K : Type} `{Countable K} {V : Type} (m : gmap K V),
    map_range m ≡ₚ map_to_list m
}.

(** ** Slices in a map of slices: [m[k] = append(m[k], v)] *)

Definition map_append {K V} `{Countable K} (m : gmap K (list V)) (k : K) (v : V)
  : gmap K (list V) := <[k := default [] (m !! k) ++ [v]]> m.

(** [map_append] for every pair of a list, in order. *)
Definition map_append_all {K V} `{Countable K} (m : gmap K (list V))
    (l : list (K * V)) : gmap K (list V) :=
  foldl (λ m kv, map_append m kv.1 kv.2) m l.

(** The values paired with [k], in order. *)
Definition assoc_values {K V} `{EqDecision K} (k : K) (l : list (K * V)) : list V :=
  snd <$> filter (λ kv, kv.1 = k) l.

(** The values of a map, flattened. *)
Definition map_collect {K A V} `{Countable K} (f : A → list V) (m : gmap K A) : list V :=
  map_to_list m ≫= λ kv, f kv.2.

(** The sum of a list of integers. *)
Definition sum_values (l : list Z) : Z := foldr Z.add 0 l.

(** ** Automation *)

Create HintDb laser.

(** Case analysis on the scrutinee of a [match] or an [if] in the goal. *)
Ltac split_match :=
  match goal with
  | |- context [match ?x with _ => _ end] =>
      lazymatch x with
      | context [match _ with _ => _ end] => fail
      | _ => destruct x eqn:?
      end
  end.

(** The same in a hypothesis. *)
Ltac split_match_in H :=
  match type of H with
  | context [match ?x with _ => _ end] =>
      lazymatch x with
      | context [match _ with _ => _ end] => fail
      | _ => destruct x eqn:?
      end
  end.

(** Boolean comparisons of [Z] to propositions, everywhere. *)
Ltac b2p :=
  repeat match goal with
  | H : (_ && _)%bool = true |- _ => apply andb_true_iff in H as [??]
  | H : (_ || _)%bool = false |- _ => apply orb_false_iff in H as [??]
  | H : negb _ = true |- _ => apply negb_true_iff in H
  | H : negb _ = false |- _ => apply negb_false_iff in H
  | H : Z.eqb _ _ = true |- _ => apply Z.eqb_eq in H
  | H : Z.eqb _ _ = false |- _ => apply Z.eqb_neq in H
  | H : Z.ltb _ _ = true |- _ => apply Z.ltb_lt in H
  | H : Z.ltb _ _ = false |- _ => apply Z.ltb_ge in H
  | H : Z.leb _ _ = true |- _ => apply Z.leb_le in H
  | H : Z.leb _ _ = false |- _ => apply Z.leb_gt in H
  | H : String.eqb _ _ = true |- _ => apply String.eqb_eq in H
  | H : String.eqb _ _ = false |- _ => apply String.eqb_neq in H
  | H : bool_decide _ = true |- _ => apply bool_decide_eq_true_1 in H
  | H : bool_decide _ = false |- _ => apply bool_decide_eq_false_1 in H
  end.

(** Case analysis on every remaining [match], then the easy cases. *)
Ltac cases := repeat (split_match; simplify_eq/=); b2p; try done; try lia.

(** ** Lemmas on machine integers *)

Lemma pow2_split w : 1 ≤ w → 2 ^ w = 2 * 2 ^ (w - 1).
Proof. intros. rewrite <- Z.pow_succ_r by lia. f_equal; lia. Qed.

Lemma wrapu_range w z : 0 ≤ w → 0 ≤ wrapu w z < 2 ^ w.
Proof. intros. apply Z.mod_pos_bound. lia. Qed.

Lemma wraps_range w z : 1 ≤ w → - 2 ^ (w - 1) ≤ wraps w z < 2 ^ (w - 1).
Proof.
  intros Hw. unfold wraps. pose proof (pow2_split w Hw).
  pose proof (Z.mod_pos_bound (z + 2 ^ (w - 1)) (2 ^ w) ltac:(lia)). lia.
Qed.

Lemma wrapu_small w z : 0 ≤ z < 2 ^ w → wrapu w z = z.
Proof. apply Z.mod_small. Qed.

Lemma wraps_small w z : 1 ≤ w → - 2 ^ (w - 1) ≤ z < 2 ^ (w - 1) → wraps w z = z.
Proof.
  intros Hw Hz. unfold wraps. pose proof (pow2_split w Hw).
  rewrite Z.mod_small; lia.
Qed.

Lemma wrapu_idemp w z : 0 ≤ w → wrapu w (wrapu w z) = wrapu w z.
Proof. intros. apply wrapu_small, wrapu_range; lia. Qed.

(** The conversions between [int64] and [uint64] lose nothing. *)
Lemma wraps_wrapu w z : 1 ≤ w → wraps w (wrapu w z) = wraps w z.
Proof.
  intros Hw. unfold wraps, wrapu. f_equal. rewrite Zplus_mod_idemp_l. done.
Qed.

Lemma wrapu_wraps w z : 1 ≤ w → wrapu w (wraps w z) = wrapu w z.
Proof.
  intros Hw. unfold wraps, wrapu. rewrite Zminus_mod_idemp_l. f_equal. lia.
Qed.

Lemma wrapu_add_l w a b : wrapu w (wrapu w a + b) = wrapu w (a + b).
Proof. unfold wrapu. apply Zplus_mod_idemp_l. Qed.

Lemma wraps_add_l w a b : wraps w (wraps w a + b) = wraps w (a + b).
Proof.
  unfold wraps. f_equal.
  replace ((a + 2 ^ (w - 1)) `mod` 2 ^ w - 2 ^ (w - 1) + b + 2 ^ (w - 1))
    with ((a + 2 ^ (w - 1)) `mod` 2 ^ w + b) by lia.
  rewrite Zplus_mod_idemp_l. f_equal. lia.
Qed.

Lemma wraps_add_r w a b : wraps w (a + wraps w b) = wraps w (a + b).
Proof. rewrite Z.add_comm, wraps_add_l. by rewrite Z.add_comm. Qed.

Lemma wraps_idem w a : wraps w (wraps w a) = wraps w a.
Proof. pose proof (wraps_add_l w a 0) as H. by rewrite !Z.add_0_r in H. Qed.

Lemma wraps_zero w : 1 ≤ w → wraps w 0 = 0.
Proof. intros Hw. apply wraps_small; [done|]. pose proof (Z.pow_pos_nonneg 2 (w - 1) ltac:(lia) ltac:(lia)). lia. Qed.

Lemma i64_range z : MinInt64 ≤ i64 z ≤ MaxInt64.
Proof. pose proof (wraps_range 64 z ltac:(lia)). unfold MinInt64, MaxInt64. lia. Qed.

Lemma city_range `{CityHash} s seed : 0 ≤ city s seed < 2 ^ 64.
Proof. apply CityHash64WithSeed_range. Qed.

#[export] Hint Resolve wrapu_range wraps_range i64_range city_range : laser.

(** ** Lemmas on maps of slices *)

Section MapAppend.
Context {K V : Type} `{Countable K}.
Implicit Types (m : gmap K (list V)) (l : list (K * V)) (k : K).

Lemma lookup_map_append m k k' v :
  map_append m k v !! k' =
    if decide (k = k') then Some (default [] (m !! k) ++ [v]) else m !! k'.
Proof. apply lookup_insert. Qed.

Lemma assoc_values_cons k k' v l :
  assoc_values k ((k', v) :: l) =
    if decide (k' = k) then v :: assoc_values k l else assoc_values k l.
Proof. unfold assoc_values. rewrite filter_cons. cbn. by case_decide. Qed.

Lemma assoc_values_app k l1 l2 :
  assoc_values k (l1 ++ l2) = assoc_values k l1 ++ assoc_values k l2.
Proof. unfold assoc_values. by rewrite filter_app, fmap_app. Qed.

Lemma elem_of_assoc_values k v l : v ∈ assoc_values k l ↔ (k, v) ∈ l.
Proof.
  unfold assoc_values. rewrite list_elem_of_fmap. split.
  - intros ([k' v'] & -> & [? ?]%list_elem_of_filter). naive_solver.
  - intros. exists (k, v). by rewrite list_elem_of_filter.
Qed.

(** What a loop of appends leaves in the map: the old slice with the new
    values behind it, in the order of the loop. *)
Lemma lookup_map_append_all m l k :
  map_append_all m l !! k =
    match assoc_values k l with
    | [] => m !! k
    | vs => Some (default [] (m !! k) ++ vs)
    end.
Proof.
  revert m. induction l as [|[k' v] l IH] using list_ind; intros m; [done|].
  change (map_append_all m ((k', v) :: l)) with (map_append_all (map_append m k' v) l).
  rewrite IH, lookup_map_append, assoc_values_cons.
  case_decide; subst; [|done].
  destruct (assoc_values k l); cbn; [done|]. by rewrite <- app_assoc.
Qed.

Lemma lookup_map_append_all_empty l k :
  map_append_all ∅ l !! k =
    match assoc_values k l with [] => None | vs => Some vs end.
Proof. rewrite lookup_map_append_all, lookup_empty. by destruct assoc_values. Qed.
End MapAppend.

(** A function that gives a list no duplicates is injective on it. *)
Lemma NoDup_fmap_inj {A B} (f : A → B) l a b :
  NoDup (f <$> l) → a ∈ l → b ∈ l → f a = f b → a = b.
Proof.
  induction l as [|c l IH]; cbn [fmap list_fmap]; [by intros _ ?%elem_of_nil|].
  intros [Hc Hnd]%NoDup_cons [->|Ha]%elem_of_cons [->|Hb]%elem_of_cons E; auto.
  - destruct Hc. rewrite E. by apply list_elem_of_fmap_2.
  - destruct Hc. rewrite <- E. by apply list_elem_of_fmap_2.
Qed.

(** ** Lemmas on iteration orders *)

Lemma elem_of_map_range `{MapOrder} {K V} `{Countable K} (m : gmap K V) k v :
  (k, v) ∈ map_range m ↔ m !! k = Some v.
Proof. rewrite map_range_perm. apply elem_of_map_to_list. Qed.

Lemma NoDup_fst_map_range `{MapOrder} {K V} `{Countable K} (m : gmap K V) :
  NoDup (map_range m).*1.
Proof. rewrite map_range_perm. apply NoDup_fst_map_to_list. Qed.

Lemma list_to_map_range `{MapOrder} {K V} `{Countable K} (m : gmap K V) :
  list_to_map (map_range m) = m.
Proof.
  rewrite <- (list_to_map_to_list m) at 2.
  apply list_to_map_proper; [apply NoDup_fst_map_range|apply map_range_perm].
Qed.

(** Writing a list of pairs with distinct keys into a map. *)
Lemma foldl_insert_union {K V} `{Countable K} (m : gmap K V) (l : list (K * V)) :
  NoDup l.*1 → foldl (λ m kv, <[kv.1 := kv.2]> m) m l = list_to_map l ∪ m.
Proof.
  revert m. induction l as [|[k v] l IH]; intros m Hl.
  { by rewrite list_to_map_nil, map_empty_union. }
  cbn [fmap list_fmap fst] in Hl. apply NoDup_cons in Hl as [Hk Hl].
  cbn [foldl fst snd]. rewrite IH by done. rewrite list_to_map_cons.
  rewrite <- insert_union_l, <- insert_union_r; [done|].
  by apply not_elem_of_list_to_map_1.
Qed.

(** [for k, v := range m' { m[k] = v }], in any order. *)
Lemma foldl_insert_range `{MapOrder} {K V} `{Countable K} (m m' : gmap K V) :
  foldl (λ m kv, <[kv.1 := kv.2]> m) m (map_range m') = m' ∪ m.
Proof.
  rewrite foldl_insert_union by apply NoDup_fst_map_range. by rewrite list_to_map_range.
Qed.

(** [for k, v := range m { r[k] = f(v) }] into an empty map. *)
Lemma foldl_insert_fmap `{MapOrder} {K V W} `{Countable K} (f : V → W) (m : gmap K V) :
  foldl (λ r kv, <[kv.1 := f kv.2]> r) ∅ (map_range m) = f <$> m.
Proof.
  assert (∀ r (l : list (K * V)), foldl (λ r kv, <[kv.1 := f kv.2]> r) r l =
            foldl (λ r kv, <[kv.1 := kv.2]> r) r (prod_map id f <$> l)) as ->.
  { intros r l. revert r. induction l as [|[k v] l IH]; intros r; [done|]. apply IH. }
  assert ((prod_map id f <$> map_range m).*1 = (map_range m).*1) as E.
  { rewrite <- list_fmap_compose. apply list_fmap_ext. by intros ? []. }
  rewrite foldl_insert_union by (rewrite E; apply NoDup_fst_map_range).
  by rewrite map_union_empty, list_to_map_fmap, list_to_map_range.
Qed.

(** Nested loops, and a loop with two results. *)
Lemma foldl_bind {S A B} (f : S → B → S) (g : A → list B) l s :
  foldl (λ s a, foldl f s (g a)) s l = foldl f s (l ≫= g).
Proof.
  revert s. induction l as [|a l IH]; intros s; [done|].
  cbn [foldl mbind list_bind]. rewrite foldl_app. apply IH.
Qed.

Lemma foldl_pair {S T A} (f : S → A → S) (g : T → A → T) l s t :
  foldl (λ st a, (f st.1 a, g st.2 a)) (s, t) l = (foldl f s l, foldl g t l).
Proof. revert s t. induction l as [|a l IH]; intros s t; [done|]. apply IH. Qed.

(** A loop that updates the values of a map in place, each key once. *)
Definition map_update {K V A} `{Countable K} (key : A → K) (f : A → V → V)
    (m : gmap K V) (a : A) : gmap K V :=
  match m !! key a with None => m | Some v => <[key a := f a v]> m end.

Lemma lookup_map_update {K V A} `{Countable K} (key : A → K) (f : A → V → V) m a k :
  map_update key f m a !! k = if decide (k = key a) then f a <$> m !! k else m !! k.
Proof.
  unfold map_update. destruct (decide (k = key a)) as [->|Hne].
  - destruct (m !! key a) eqn:E; [by rewrite lookup_insert_eq|done].
  - destruct (m !! key a); [by rewrite lookup_insert_ne|done].
Qed.

Lemma foldl_map_update {K V A} `{Countable K} (key : A → K) (f : A → V → V) l (m : gmap K V) k :
  NoDup (key <$> l) →
  (∀ a, a ∈ l → key a = k → foldl (map_update key f) m l !! k = f a <$> m !! k) ∧
  (k ∉ key <$> l → foldl (map_update key f) m l !! k = m !! k).
Proof.
  induction l as [|a0 l IH] using rev_ind; intros Hnd.
  { split; [by intros ? ?%elem_of_nil|done]. }
  rewrite fmap_app in *. apply NoDup_app in Hnd as (Hnd & Hdisj & _).
  destruct (IH Hnd) as [IH1 IH2]. rewrite foldl_app. cbn [foldl]. rewrite lookup_map_update. split.
  - intros a [Ha|Ha%list_elem_of_singleton]%elem_of_app <-.
    + rewrite decide_False; [by apply IH1|]. intros E.
      apply (Hdisj (key a)); [by apply list_elem_of_fmap_2|]. rewrite E. left.
    + subst a0. rewrite decide_True by done. rewrite IH2; [done|].
      intros Hin. apply (Hdisj (key a)); [done|left].
  - intros Hk. rewrite decide_False by set_solver. apply IH2. set_solver.
Qed.

Lemma foldl_delete_lookup {K V} `{Countable K} (m : gmap K V) (l : list K) k :
  foldl (λ m k, delete k m) m l !! k = if decide (k ∈ l) then None else m !! k.
Proof.
  revert m. induction l as [|k' l IH]; intros m; cbn [foldl].
  { by rewrite decide_False by apply not_elem_of_nil. }
  rewrite IH. destruct (decide (k ∈ l)); [by rewrite decide_True by (by right)|].
  destruct (decide (k = k')) as [->|].
  - rewrite lookup_delete_eq, decide_True by (by left). done.
  - rewrite lookup_delete_ne, decide_False by (done || by intros [|]%elem_of_cons). done.
Qed.

(** ** Lemmas on indexing and on loops that may panic *)

Lemma go_index_Some {A} (l : list A) i a :
  0 ≤ i → l !! Z.to_nat i = Some a → go_index l i = Ret a.
Proof. intros Hi Ha. unfold go_index. destruct (Z.ltb_spec i 0); [lia|]. by rewrite Ha. Qed.

Lemma go_index_Ret {A} (l : list A) i a :
  go_index l i = Ret a → 0 ≤ i < Z.of_nat (length l) ∧ l !! Z.to_nat i = Some a.
Proof.
  unfold go_index. destruct (Z.ltb_spec i 0); [done|].
  destruct (l !! Z.to_nat i) eqn:E; [|done]. intros; simplify_eq.
  split; [|done]. apply lookup_lt_Some in E. lia.
Qed.

Lemma returns_Ret {A} (r : go A) : returns r = true → ∃ a, r = Ret a.
Proof. destruct r; [by eexists|done..]. Qed.

Lemma go_fold_app {S A} (f : S → A → go S) l1 l2 s :
  go_fold f (l1 ++ l2) s = (s' ← go_fold f l1 s; go_fold f l2 s').
Proof.
  revert s. induction l1 as [|a l1 IH]; intros s; [done|]. cbn.
  destruct (f s a); cbn; [apply IH|done..].
Qed.

(** An invariant of the loop body is an invariant of the loop. *)
Lemma go_fold_inv {S A} (P : S → Prop) (f : S → A → go S) l s s' :
  (∀ s a s', a ∈ l → P s → f s a = Ret s' → P s') →
  P s → go_fold f l s = Ret s' → P s'.
Proof.
  revert s. induction l as [|a l IH]; intros s Hf Hs Hl; cbn in Hl.
  { by simplify_eq. }
  destruct (f s a) as [s1| |] eqn:E; [|done..]. cbn in Hl.
  eapply IH, Hl; [|eapply Hf, E; [left|done]].
  intros. eapply Hf; [by right|..]; done.
Qed.

Lemma go_fold_total {S A} (f : S → A → go S) l s :
  (∀ s a, a ∈ l → ∃ s', f s a = Ret s') → ∃ s', go_fold f l s = Ret s'.
Proof.
  revert s. induction l as [|a l IH]; intros s Hf; cbn; [by eexists|].
  destruct (Hf s a) as [s1 ->]; [left|]. cbn. apply IH.
  intros. apply Hf. by right.
Qed.

(** ** Lemmas on flattened maps *)

Section Collect.
Context {K A V : Type} `{Countable K} (f : A → list V).
Implicit Types (m : gmap K A).

Lemma map_collect_empty : map_collect f (∅ : gmap K A) = [].
Proof. unfold map_collect. by rewrite map_to_list_empty. Qed.

Lemma map_collect_insert m k a :
  map_collect f (<[k := a]> m) ≡ₚ f a ++ map_collect f (delete k m).
Proof.
  rewrite <- insert_delete_eq. unfold map_collect.
  rewrite map_to_list_insert by apply lookup_delete_eq. done.
Qed.

Lemma map_collect_delete m k :
  map_collect f m ≡ₚ from_option f [] (m !! k) ++ map_collect f (delete k m).
Proof.
  destruct (m !! k) as [a|] eqn:E; cbn [from_option].
  - rewrite <- map_collect_insert, insert_id by done. done.
  - by rewrite delete_id.
Qed.

(** Replacing a value by one with more in it adds just that. *)
Lemma map_collect_grow m k a l :
  f a ≡ₚ from_option f [] (m !! k) ++ l →
  map_collect f (<[k := a]> m) ≡ₚ map_collect f m ++ l.
Proof.
  intros Ha. rewrite map_collect_insert, (map_collect_delete m k), Ha, <- !(assoc_L (++)).
  f_equiv. apply (comm (++)).
Qed.
End Collect.

Lemma map_collect_fmap {K A V W} `{Countable K} (f : A → list V) (g : V → W) (m : gmap K A) :
  g <$> map_collect f m = map_collect (λ a, g <$> f a) m.
Proof.
  unfold map_collect. induction (map_to_list m) as [|[k a] l IH]; [done|].
  cbn [mbind list_bind]. rewrite fmap_app. f_equal. exact IH.
Qed.

(** A loop of appends keeps every value. *)
Lemma map_collect_append_all {K V} `{Countable K} (l : list (K * V)) :
  map_collect id (map_append_all ∅ l) ≡ₚ l.*2.
Proof.
  induction l as [|[k v] l IH] using rev_ind.
  { unfold map_append_all. cbn [foldl]. by rewrite map_collect_empty. }
  unfold map_append_all. rewrite foldl_app, fmap_app, <- IH. cbn [foldl].
  apply map_collect_grow. cbn [fst snd]. unfold map_append_all.
  by destruct (foldl _ ∅ l !! k).
Qed.

(** Looking up every key of a map that has the keys of [m] collects [m]. *)
Lemma map_collect_lookup {K A V} `{Countable K} (m : gmap K (list V)) (m' : gmap K A) :
  dom m ⊆ dom m' →
  (map_to_list m' ≫= λ kv, default [] (m !! kv.1)) ≡ₚ map_collect id m.
Proof.
  revert m. induction m' as [|k a m' Hk IH] using map_ind; intros m Hdom.
  { rewrite dom_empty_L in Hdom. assert (m = ∅) as -> by (apply dom_empty_inv_L; set_solver).
    by rewrite map_collect_empty, map_to_list_empty. }
  rewrite (map_collect_delete id m k), map_to_list_insert by done. cbn [mbind list_bind].
  cbn [fst]. apply Permutation_app_head. rewrite <- IH.
  - erewrite Forall_bind_ext; [done|]. apply Forall_forall. intros [k' a'] Hin.
    apply elem_of_map_to_list in Hin. cbn. rewrite lookup_delete_ne; [done|]. naive_solver.
  - rewrite dom_delete_L. rewrite dom_insert_L in Hdom. set_solver.
Qed.

(** ** Lemmas on strings *)

(** *** Concatenation *)

Lemma string_append_nil_r (s : string) : s +:+ "" = s.
Proof. induction s as [|c s IH]; [done|]. change (String c (s +:+ "") = String c s). by rewrite IH. Qed.

Lemma string_append_assoc (s t u : string) : (s +:+ t) +:+ u = s +:+ (t +:+ u).
Proof.
  induction s as [|c s IH]; [done|].
  change (String c ((s +:+ t) +:+ u) = String c (s +:+ (t +:+ u))). by rewrite IH.
Qed.

Lemma string_length_append (s t : string) :
  String.length (s +:+ t) = (String.length s + String.length t)%nat.
Proof.
  induction s as [|c s IH]; [done|].
  change (S (String.length (s +:+ t)) = S (String.length s + String.length t)). by rewrite IH.
Qed.

Lemma append_inj_r (s t u : string) : s +:+ u = t +:+ u → s = t.
Proof.
  revert t. induction s as [|c s IH]; intros [|d t] Heq; [done|..].
  - apply (f_equal String.length) in Heq. rewrite !string_length_append in Heq. cbn in Heq. lia.
  - apply (f_equal String.length) in Heq. rewrite !string_length_append in Heq. cbn in Heq. lia.
  - change (String c (s +:+ u) = String d (t +:+ u)) in Heq. injection Heq as -> Heq.
    f_equal. by apply IH.
Qed.

(** No separator in a piece. *)
Fixpoint no_sep (sep : Ascii.ascii) (s : string) : bool :=
  match s with
  | EmptyString => true
  | String c s => negb (Ascii.eqb c sep) && no_sep sep s
  end.

Lemma strings_Split_last sep s : no_sep sep s = true → strings_Split sep s = [s].
Proof.
  induction s as [|c s IH]; cbn; [done|]. intros [Hc Hs]%andb_true_iff.
  apply negb_true_iff in Hc. by rewrite Hc, IH.
Qed.

Lemma strings_Split_app sep s rest :
  no_sep sep s = true →
  strings_Split sep (s +:+ String sep rest) = s :: strings_Split sep rest.
Proof.
  induction s as [|c s IH]; cbn [no_sep String.append strings_Split].
  { intros _. change ("" +:+ String sep rest) with (String sep rest). cbn [strings_Split]. by rewrite Ascii.eqb_refl. }
  intros [Hc Hs]%andb_true_iff. apply negb_true_iff in Hc.
  change (String c s +:+ String sep rest) with (String c (s +:+ String sep rest)).
  cbn [strings_Split]. by rewrite Hc, IH.
Qed.

(** Splitting undoes joining, for at least one piece without the separator. *)
Lemma strings_Split_sep sep s rest :
  strings_Split sep (s +:+ String sep rest) = strings_Split sep s ++ strings_Split sep rest.
Proof.
  induction s as [|c s IH].
  - change ("" +:+ String sep rest) with (String sep rest). cbn [strings_Split]. by rewrite Ascii.eqb_refl.
  - change (String c s +:+ String sep rest) with (String c (s +:+ String sep rest)). cbn [strings_Split].
    rewrite IH. destruct (Ascii.eqb c sep); [done|]. by destruct (strings_Split sep s) eqn:E; [destruct s; cbn in E; repeat case_match|].
Qed.

Lemma strings_Split_Join sep l :
  l ≠ [] → Forall (λ s, no_sep sep s = true) l →
  strings_Split sep (strings_Join (String sep "") l) = l.
Proof.
  intros Hne Hl. induction Hl as [|s l Hs Hl IH]; [done|]. destruct l as [|s' l].
  - by apply strings_Split_last.
  - change (strings_Join (String sep "") (s :: s' :: l))
      with (s +:+ String sep (strings_Join (String sep "") (s' :: l))).
    rewrite strings_Split_app by done. by rewrite IH.
Qed.

(** The decimal digits of a number. *)
Lemma digit_char x : (x < 10)%N → digit (pretty_N_char x) = Some (Z.of_N x).
Proof.
  intros Hx.
  assert (x = 0 ∨ x = 1 ∨ x = 2 ∨ x = 3 ∨ x = 4 ∨ x = 5 ∨ x = 6 ∨ x = 7 ∨ x = 8 ∨ x = 9)%N
    as Hc by lia.
  by repeat destruct Hc as [->|Hc]; [..|subst].
Qed.

Lemma digits_acc_pretty x s : digits_acc (pretty_N_go x s) 0 = digits_acc s (Z.of_N x).
Proof.
  revert s. induction (N.lt_wf_0 x) as [x _ IH]. intros s.
  destruct (decide (x = 0%N)) as [->|Hx]; [by rewrite pretty_N_go_0|].
  rewrite pretty_N_go_step by lia. rewrite IH by (apply N.div_lt; lia).
  cbn [digits_acc]. rewrite digit_char by (apply N.mod_lt; lia). cbn. f_equal.
  rewrite N2Z.inj_div, N2Z.inj_mod. pose proof (Z.div_mod (Z.of_N x) 10). lia.
Qed.

(** Every byte of a string is a digit. *)
Fixpoint all_digits (s : string) : bool :=
  match s with
  | EmptyString => true
  | String c s => match digit c with Some _ => all_digits s | None => false end
  end.

Lemma all_digits_pretty x s : all_digits s = true → all_digits (pretty_N_go x s) = true.
Proof.
  revert s. induction (N.lt_wf_0 x) as [x _ IH]. intros s Hs.
  destruct (decide (x = 0%N)) as [->|Hx]; [by rewrite pretty_N_go_0|].
  rewrite pretty_N_go_step by lia. apply IH; [apply N.div_lt; lia|].
  cbn [all_digits]. by rewrite digit_char by (apply N.mod_lt; lia).
Qed.

Lemma Itoa_digits n : 0 ≤ n → all_digits (Itoa n) = true ∧ digits (Itoa n) = Some n ∧ Itoa n ≠ "".
Proof.
  intros Hn. destruct n as [|p|p]; [by vm_compute|change (Itoa (Zpos p)) with (pretty_N_go (Npos p) "")|lia].
  pose proof (digits_acc_pretty (Npos p) "") as Hd.
  change (digits_acc "" (Z.of_N (Npos p))) with (Some (Zpos p)) in Hd.
  pose proof (all_digits_pretty (Npos p) "" eq_refl) as Ha.
  destruct (pretty_N_go (Npos p) "") eqn:E; [discriminate Hd|]. split_and!; [done|exact Hd|done].
Qed.

Lemma all_digits_no_sep sep s : digit sep = None → all_digits s = true → no_sep sep s = true.
Proof.
  intros Hsep. induction s as [|c s IH]; [done|]. cbn.
  destruct (Ascii.eqb_spec c sep) as [->|]; [by rewrite Hsep|]. by destruct (digit c); [apply IH|].
Qed.

(** ** Lemmas on sums *)

Lemma sum_values_app l1 l2 : sum_values (l1 ++ l2) = sum_values l1 + sum_values l2.
Proof. unfold sum_values. induction l1; cbn; lia. Qed.

#[export] Instance sum_values_perm : Proper ((≡ₚ) ==> (=)) sum_values.
Proof. unfold sum_values. induction 1; cbn in *; lia. Qed.

Lemma sum_values_nonneg l : Forall (λ y, 0 ≤ y) l → 0 ≤ sum_values l.
Proof. unfold sum_values. induction 1; cbn; lia. Qed.

Lemma sum_values_elem l x : Forall (λ y, 0 ≤ y) l → x ∈ l → x ≤ sum_values l.
Proof.
  induction 1 as [|y l Hy Hl IH]; [by intros ?%elem_of_nil|].
  change (sum_values (y :: l)) with (y + sum_values l).
  pose proof (sum_values_nonneg l Hl). intros [->|Hx]%elem_of_cons; [lia|].
  specialize (IH Hx). lia.
Qed.

(** ** A concrete hash and a concrete order

    For evaluating the model on an input: a small polynomial hash with the
    type of the real one, and the enumeration order of stdpp's maps. *)

Definition toy_hash (s : string) (l seed : Z) : Z :=
  u64 (foldl (λ h c, h * 131 + Z.of_N (Ascii.N_of_ascii c)) (seed * 131 + l)
        (String.list_ascii_of_string s)).

Definition toy_city : CityHash.
Proof.
  refine {| CityHash64WithSeed := toy_hash |}.
  intros. apply wrapu_range. lia.
Defined.

(** The draws that return the value [z] clamped to what was asked for. *)
Definition fixed_draws (z : Z) : Randomness.
Proof.
  refine {| rand_Int := λ n, Z.max 0 (Z.min z (n - 1));
            rand_Prime := λ bits, Z.max (2 ^ (bits - 1)) (Z.min z (2 ^ bits - 1)) |}.
  - intros. lia.
  - intros bits ?. pose proof (pow2_split bits ltac:(lia)).
    pose proof (Z.pow_pos_nonneg 2 (bits - 1) ltac:(lia) ltac:(lia)). lia.
Defined.

Definition stdpp_order : MapOrder :=
  {| map_range K _ _ V m := map_to_list m;
     map_range_perm K _ _ V m := Permutation_refl _ |}.

(** An automatic primary key: one more than the largest. *)
Definition fresh_Z (l : list Z) : Z := 1 + foldr Z.max 0 l.

Lemma fresh_Z_spec l : fresh_Z l ≠ 0 ∧ fresh_Z l ∉ l.
Proof.
  assert (0 ≤ foldr Z.max 0 l ∧ ∀ z, z ∈ l → z ≤ foldr Z.max 0 l) as [Hpos Hmax].
  { induction l as [|x l [IH IH']]; cbn; [by split; [|intros z ?%elem_of_nil]|].
    split; [lia|]. intros z [->|Hz]%elem_of_cons; [lia|]. specialize (IH' z Hz). lia. }
  unfold fresh_Z. split; [lia|]. intros Hin%Hmax. lia.
Qed.
