(* ===== verification/RouterTypes.v ===== *)
(** * The data of the service router

    The structs, constants and registry paths of [sdk/go/common/service_router]
    ([registry.go], [router.go], [node.go]) that its components share.  A Go
    slice field that the code compares with [nil] is an [option] of a list,
    [None] being [nil]; every other slice is a list. *)

From S2P Require Import Prelude.

(** ** Constants *)

Definition ServerProtocol_HTTP : string := "http".
Definition ServerProtocol_THRIFT : string := "thrift".
Definition ServerProtocol_REDIS : string := "redis".

Definition ServerStatus_AVAILABLE : string := "available".
Definition ServerStatus_UNAVAILABLE : string := "unavailable".
Definition ServerStatus_UNKNOWN : string := "unknown".

Definition DEFAULT_DC : string := "default".

Definition ShardType_ALL : string := "0".
Definition ShardType_LEADER : string := "1".
Definition ShardType_FOLLOWER : string := "2".

Definition LoadBalanceMethod_RANDOM : string := "random".
Definition LoadBalanceMethod_ROUNDROBIN : string := "roundrobin".
Definition LoadBalanceMethod_LOCALFIRST : string := "localfirst".
Definition LoadBalanceMethod_CONSISTENT : string := "consistent".
Definition LoadBalanceMethod_CONFIGURABLE_WEIGHT : string := "configurable_weight".
Definition LoadBalanceMethod_ACTIVE_WEIGHT : string := "active_weight".
Definition LoadBalanceMethod_USER_DEFINED : string := "user_defined".
Definition LoadBalanceMethod_IPRANGEFIRST : string := "iprangefirst".
Definition LoadBalanceMethod_STATIC_WEIGHT : string := "static_weight".

Definition SupportedLoadBalanceMethod : gmap string bool :=
  list_to_map
    [ (LoadBalanceMethod_RANDOM, true);
      (LoadBalanceMethod_ROUNDROBIN, true);
      (LoadBalanceMethod_LOCALFIRST, true);
      (LoadBalanceMethod_CONSISTENT, false);
      (LoadBalanceMethod_CONFIGURABLE_WEIGHT, true);
      (LoadBalanceMethod_ACTIVE_WEIGHT, false);
      (LoadBalanceMethod_IPRANGEFIRST, true);
      (LoadBalanceMethod_STATIC_WEIGHT, true);
      (LoadBalanceMethod_USER_DEFINED, false) ].

(** ** Errors *)

(** An error: the message, and whether [errors.As] finds a
    [thrift.TransportException] in it. *)
Record error := mkError { err_msg : string; err_transport : bool }.

#[export] Instance error_eq_dec : EqDecision error.
Proof. solve_decision. Defined.

(** ** Structs *)

Record Server := mkServer {
  sv_Host : string;
  sv_Port : Z;
  sv_ServiceName : string;
  sv_Protocol : string;
  sv_Status : string;
  sv_UpdateTime : Z;
  sv_Weight : Z;
  sv_ShardList : option (list Z);
  sv_AvailableShardList : option (list Z);
  sv_FollowerShardList : option (list Z);
  sv_FollowerAvailableShardList : option (list Z);
  sv_OtherSettings : option (gmap string string);
  sv_PartitionList : option (list Z);
  sv_IsEdgeNode : bool;
  sv_Idc : string;
  sv_Dc : string
}.

#[export] Instance Server_eq_dec : EqDecision Server.
Proof. solve_decision. Defined.

(** [&Server{}]: every field at its zero value. *)
Definition Server_zero : Server :=
  mkServer "" 0 "" "" "" 0 0 None None None None None None false "" "".

Abbreviation ServerList := (list Server).

Record BalanceLocalFirstConfig := mkBalanceLocalFirstConfig {
  blf_LocalIp : string;
  blf_DiffRange : Z
}.

Record ServerAddress := mkServerAddress {
  sa_Host : string;
  sa_Port : Z
}.

#[export] Instance ServerAddress_eq_dec : EqDecision ServerAddress.
Proof. solve_decision. Defined.

Record ServiceRouterConfig := mkServiceRouterConfig {
  src_TtlInMs : Z;
  src_LoadBalanceMethod : string;
  src_TotalShards : Z;
  src_PullInterval : Z
}.

#[export] Instance ServiceRouterConfig_eq_dec : EqDecision ServiceRouterConfig.
Proof. solve_decision. Defined.

(** [ServiceRouterConfig{}]. *)
Definition ServiceRouterConfig_zero : ServiceRouterConfig :=
  mkServiceRouterConfig 0 "" 0 0.

Record ServiceConfig := mkServiceConfig {
  sc_Router : ServiceRouterConfig;
  sc_Configs : option (gmap string string)
}.

#[export] Instance ServiceConfig_eq_dec : EqDecision ServiceConfig.
Proof. solve_decision. Defined.

Definition DefaultServiceRouterConfig : ServiceRouterConfig :=
  {| src_TtlInMs := 300000;
     src_LoadBalanceMethod := LoadBalanceMethod_RANDOM;
     src_TotalShards := 0;
     src_PullInterval := 3 |}.

(** A load balancer the user of the router supplies: the name of its Go type
    and its [Select]. *)
Record UserBalance := mkUserBalance {
  ub_TypeName : string;
  ub_Select : ServerList → option Server
}.

Record ClientOption := mkClientOption {
  co_ServiceName : string;
  co_ShardId : Z;
  co_ShardType : string;
  co_Protocol : string;
  co_Loadbalance : string;
  co_TargetServerAddress : ServerAddress;
  co_UserBalance : option UserBalance;
  co_LocalFirstConfig : BalanceLocalFirstConfig;
  co_PartitionHash : Z;
  co_RouteToEdgeNode : bool;
  co_Idc : string;
  co_Dc : string
}.

(** [ip.GetLocalIPv4Str] asks the operating system: the local address is an
    argument. *)
Definition DefaultBalanceLocalFirstConfig (localIp : string) : BalanceLocalFirstConfig :=
  {| blf_LocalIp := localIp; blf_DiffRange := 256 |}.

Definition DefaultClientOption (localIp : string) : ClientOption :=
  {| co_ServiceName := "";
     co_ShardId := UINT32MAX;
     co_ShardType := ShardType_LEADER;
     co_Protocol := "";
     co_Loadbalance := LoadBalanceMethod_LOCALFIRST;
     co_TargetServerAddress := mkServerAddress "" 0;
     co_UserBalance := None;
     co_LocalFirstConfig := DefaultBalanceLocalFirstConfig localIp;
     co_PartitionHash := 0;
     co_RouteToEdgeNode := false;
     co_Idc := "";
     co_Dc := DEFAULT_DC |}.

Definition ClientOptionFactory (localIp serviceName protocol : string) : ClientOption :=
  let config := DefaultClientOption localIp in
  {| co_ServiceName := serviceName;
     co_ShardId := co_ShardId config;
     co_ShardType := co_ShardType config;
     co_Protocol := protocol;
     co_Loadbalance := co_Loadbalance config;
     co_TargetServerAddress := co_TargetServerAddress config;
     co_UserBalance := co_UserBalance config;
     co_LocalFirstConfig := co_LocalFirstConfig config;
     co_PartitionHash := co_PartitionHash config;
     co_RouteToEdgeNode := co_RouteToEdgeNode config;
     co_Idc := co_Idc config;
     co_Dc := co_Dc config |}.

(** The field updates the code makes on structs it holds by value. *)

Definition set_sv_Dc (dc : string) (s : Server) : Server :=
  mkServer (sv_Host s) (sv_Port s) (sv_ServiceName s) (sv_Protocol s) (sv_Status s)
    (sv_UpdateTime s) (sv_Weight s) (sv_ShardList s) (sv_AvailableShardList s)
    (sv_FollowerShardList s) (sv_FollowerAvailableShardList s) (sv_OtherSettings s)
    (sv_PartitionList s) (sv_IsEdgeNode s) (sv_Idc s) dc.

Definition set_sv_Status (st : string) (s : Server) : Server :=
  mkServer (sv_Host s) (sv_Port s) (sv_ServiceName s) (sv_Protocol s) st
    (sv_UpdateTime s) (sv_Weight s) (sv_ShardList s) (sv_AvailableShardList s)
    (sv_FollowerShardList s) (sv_FollowerAvailableShardList s) (sv_OtherSettings s)
    (sv_PartitionList s) (sv_IsEdgeNode s) (sv_Idc s) (sv_Dc s).

Definition set_co_Dc (dc : string) (o : ClientOption) : ClientOption :=
  mkClientOption (co_ServiceName o) (co_ShardId o) (co_ShardType o) (co_Protocol o)
    (co_Loadbalance o) (co_TargetServerAddress o) (co_UserBalance o)
    (co_LocalFirstConfig o) (co_PartitionHash o) (co_RouteToEdgeNode o)
    (co_Idc o) dc.

(** ** Registry paths ([node.go]) *)

Definition CONSUL_REGISTRY_KV_PREFIX : string := "ads-core/services/".
Definition CONSUL_REGISTRY_KV_NODES : string := "/nodes/".
Definition CONSUL_REGISTRY_KV_CONFIG : string := "/config/".
Definition CONSUL_REGISTRY_KV_CONFIG_ROUTER : string := "router".
Definition CONSUL_REGISTRY_KV_CONFIG_CONFIGS : string := "configs/".
Definition CONSUL_REGISTRY_KV_CONFIG_VERSION : string := "version".
Definition CONSUL_REGISTRY_KV_KEY_SPLIT : string := ":".

Definition GetNodeName (server : Server) : string :=
  sv_Protocol server +:+ CONSUL_REGISTRY_KV_KEY_SPLIT +:+ sv_Host server
    +:+ CONSUL_REGISTRY_KV_KEY_SPLIT +:+ Itoa (sv_Port server).

Definition GetNodesPath (server : Server) : string :=
  CONSUL_REGISTRY_KV_PREFIX +:+ sv_ServiceName server +:+ CONSUL_REGISTRY_KV_NODES.

Definition GetNodePath (server : Server) : string :=
  GetNodesPath server +:+ GetNodeName server.

Definition GetConfigPath (server : Server) : string :=
  CONSUL_REGISTRY_KV_PREFIX +:+ sv_ServiceName server +:+ CONSUL_REGISTRY_KV_CONFIG.

Definition GetConfigVersionPath (server : Server) : string :=
  GetConfigPath server +:+ CONSUL_REGISTRY_KV_CONFIG_VERSION.

Definition GetConfigsPath (server : Server) : string :=
  GetConfigPath server +:+ CONSUL_REGISTRY_KV_CONFIG_CONFIGS.

Definition GetRouterConfigPath (server : Server) : string :=
  GetConfigPath server +:+ CONSUL_REGISTRY_KV_CONFIG_ROUTER.

Definition GetServices (server : Server) : string := CONSUL_REGISTRY_KV_PREFIX.
