(* ===== verification/Partition.v ===== *)
(** * Partitions and shards ([sdk/go/laser_client/lib/format.go], [partition.go])

    A key is hashed to a partition of its table, a partition to a shard of the
    cluster.  The hash is the parameter [CityHash]; the arithmetic around it
    is the code's, on [int64] and [uint32]. *)

From S2P Require Import Prelude.

Section Partition.
Context `{CityHash}.

(** ** Key formats *)

Inductive KeyType :=
  | KeyType_DEFAULT
  | KeyType_COMPOSITE
  | KeyType_TTL_SORT.

Record LaserKeyFormatBase := mkLaserKeyFormatBase {
  primaryKeys : list string;
  columns : list string;
  keyType : KeyType
}.

Definition NewLaserKeyFormatBase (pks cols : list string) (kt : KeyType)
  : LaserKeyFormatBase :=
  {| primaryKeys := pks; columns := cols; keyType := kt |}.

Definition GetKeyHash (kfb : LaserKeyFormatBase) : Z :=
  i64 (foldl (λ res key, city key res) 0 (primaryKeys kfb)).

Definition GetPrimaryKeys (kfb : LaserKeyFormatBase) : list string := primaryKeys kfb.
Definition GetColumns (kfb : LaserKeyFormatBase) : list string := columns kfb.
Definition GetKeyType (kfb : LaserKeyFormatBase) : KeyType := keyType kfb.

Definition NewLaserKeyFormat (pks cols : list string) : LaserKeyFormatBase :=
  NewLaserKeyFormatBase pks cols KeyType_DEFAULT.

(** ** Partitions *)

Definition abs (v : Z) : Z := if Z.ltb v 0 then i64 (-1 * v) else v.

(** The partition of a key; a table with no partition makes [%] panic. *)
Definition GetPartitionId (dbName tableName : string) (formatKey : LaserKeyFormatBase)
    (partitionNumber : Z) : go Z :=
  let key := city dbName (u64 (GetKeyHash formatKey)) in
  let key := city tableName key in
  r ← go_rem (abs (i64 key)) partitionNumber;
  mret (u32 r).

Inductive DbRole := DbRole_LEADER | DbRole_Follower.

Record PartitionInfo := mkPartition {
  databaseName : string;
  tableName : string;
  partitionId : Z;
  shardId : Z;
  dbRole : DbRole
}.

Definition NewPartition (dbName tbName : string) (pid : Z) : PartitionInfo :=
  {| databaseName := dbName; tableName := tbName; partitionId := pid;
     shardId := 0; dbRole := DbRole_LEADER |}.

Definition GetPartitionHash (p : PartitionInfo) : Z :=
  let key := city (databaseName p) (u64 (partitionId p)) in
  let key := city (tableName p) key in
  i64 key.

(** ** Shards *)

Definition getShardId (partitionHash shardNumber : Z) : Z :=
  if Z.eqb shardNumber 0 then UINT32MAX
  else Z.rem (abs partitionHash) shardNumber.

Definition GetShardIdByShardNumber (p : PartitionInfo) (shardNumber : Z) : Z :=
  getShardId (GetPartitionHash p) shardNumber.

(** ** Lemmas *)

Lemma abs_nonneg v :
  MinInt64 < v ≤ MaxInt64 → abs v = Z.abs v ∧ 0 ≤ abs v ≤ MaxInt64.
Proof.
  unfold abs, MinInt64, MaxInt64. intros Hv.
  destruct (Z.ltb_spec v 0); [rewrite wraps_small by lia|]; lia.
Qed.

(** The one [int64] whose negation does not fit. *)
Lemma abs_MinInt64 : abs MinInt64 = MinInt64.
Proof. reflexivity. Qed.

Lemma GetPartitionHash_range p : MinInt64 ≤ GetPartitionHash p ≤ MaxInt64.
Proof. apply i64_range. Qed.

(** Go's [%] on an [int64] made non-negative by [abs]: in range except for
    [MinInt64], whose remainder is non-positive. *)
Lemma rem_abs_range v n :
  MinInt64 ≤ v ≤ MaxInt64 → 0 < n →
  if decide (v = MinInt64) then Z.rem (abs v) n = - (2 ^ 63 `mod` n)
  else 0 ≤ Z.rem (abs v) n < n.
Proof.
  intros Hv Hn. case_decide as Hm.
  - rewrite Hm, abs_MinInt64. unfold MinInt64.
    rewrite Z.rem_opp_l by lia. f_equal. apply Z.rem_mod_nonneg; lia.
  - destruct (abs_nonneg v ltac:(lia)) as [_ Ha]. apply Z.rem_bound_pos; lia.
Qed.

(** ** Properties *)

(** C16: the shard of a partition.  Where the cluster has [n > 0] shards, the
    shard id of a partition hash is a shard, [0 <= id < n], exactly when the
    hash is not the [int64] minimum or [n] divides [2^63]; with no shards the
    id is [UINT32MAX], the id of an unsharded service. *)
Theorem getShardId_in_range h n :
  MinInt64 ≤ h ≤ MaxInt64 → 0 ≤ n →
  if decide (n = 0) then getShardId h n = UINT32MAX
  else (0 ≤ getShardId h n < n ↔ h ≠ MinInt64 ∨ 2 ^ 63 `mod` n = 0).
Proof.
  intros Hh Hn. unfold getShardId. case_decide as H0.
  { by rewrite H0. }
  destruct (Z.eqb_spec n 0); [lia|].
  pose proof (rem_abs_range h n Hh ltac:(lia)) as Hr.
  pose proof (Z.mod_pos_bound (2 ^ 63) n ltac:(lia)).
  case_decide; subst; lia.
Qed.

Lemma getShardId_in_range_witness :
  0 ≤ getShardId MinInt64 3 < 3 ↔ MinInt64 ≠ MinInt64 ∨ 2 ^ 63 `mod` 3 = 0.
Proof.
  apply (getShardId_in_range MinInt64 3); unfold MinInt64, MaxInt64; lia.
Defined.

(** The partition of a key.  For a table with [n] partitions
    ([0 < n <= 2^31]) [GetPartitionId] returns, and what it returns is a
    partition, [0 <= pid < n], exactly when the key's hash is not the [int64]
    minimum or [n] divides [2^63]; with no partitions it panics. *)
Theorem GetPartitionId_in_range dbName tbName fk n :
  0 ≤ n ≤ 2 ^ 31 →
  if decide (n = 0)
  then GetPartitionId dbName tbName fk n = Panic IntegerDivideByZero
  else ∃ pid, GetPartitionId dbName tbName fk n = Ret pid ∧
    (0 ≤ pid < n ↔
       i64 (city tbName (city dbName (u64 (GetKeyHash fk)))) ≠ MinInt64 ∨
       2 ^ 63 `mod` n = 0).
Proof.
  intros Hn. unfold GetPartitionId, go_rem. case_decide as H0.
  { by rewrite H0. }
  destruct (Z.eqb_spec n 0); [lia|]. eexists; split; [reflexivity|]. cbn.
  set (k := i64 _) in *.
  assert (MinInt64 ≤ k ≤ MaxInt64) as Hk by apply i64_range.
  pose proof (rem_abs_range k n Hk ltac:(lia)) as Hr.
  pose proof (Z.mod_pos_bound (2 ^ 63) n ltac:(lia)) as Hm.
  case_decide as Hd.
  - rewrite Hr. destruct (decide (2 ^ 63 `mod` n = 0)) as [E|].
    + rewrite E, wrapu_small; lia.
    + assert (u32 (- (2 ^ 63 `mod` n)) = 2 ^ 32 - 2 ^ 63 `mod` n) as ->; [|lia].
      unfold wrapu. rewrite <- (Z_mod_plus_full _ 1), Z.mod_small; lia.
  - rewrite wrapu_small; lia.
Qed.

End Partition.

Lemma GetPartitionId_in_range_witness :
  ∃ pid, GetPartitionId (H:=toy_city) "db" "t" (NewLaserKeyFormat ["k"] []) 7 = Ret pid ∧
    (0 ≤ pid < 7 ↔
       i64 (city (H:=toy_city) "t" (city (H:=toy_city) "db"
         (u64 (GetKeyHash (H:=toy_city) (NewLaserKeyFormat ["k"] []))))) ≠ MinInt64 ∨
       2 ^ 63 `mod` 7 = 0).
Proof.
  apply (GetPartitionId_in_range (H:=toy_city) "db" "t" (NewLaserKeyFormat ["k"] []) 7). lia.
Defined.
