(* ===== verification/LoadBalance.v ===== *)
(** * Load balancing ([sdk/go/common/service_router/load_balance.go])

    The six balancers of the router, each a state (where it has one) and a
    [Select] on a list of servers.  [Select] returns [None] for the pair
    [(nil, false)] and [Some s] for [(&s, true)]. *)

From S2P Require Import Prelude RouterTypes.

(** Converting a [float64] outside the range of [int32] to [int32] gives an
    implementation-dependent value (Go specification, Conversions): a
    parameter, of which only the type is known. *)
Class FloatConversion := {
  float64_to_int32_overflow : Z → Z;
  float64_to_int32_overflow_range :
    ∀ z, - 2 ^ 31 ≤ float64_to_int32_overflow z < 2 ^ 31
}.

Section LoadBalance.
Context `{FloatConversion}.

(** [int32(f)] for a float whose value is the integer [z]. *)
Definition float64_to_int32 (z : Z) : Z :=
  if (Z.leb (- 2 ^ 31) z && Z.ltb z (2 ^ 31))%bool then z
  else float64_to_int32_overflow z.

(** One octet: [total += int32(float64(t) * math.Pow(256, i)); i--]. *)
Definition IpToInt_octet (acc : Z * Z) (v : string) : Z * Z :=
  (i32 (acc.1 + float64_to_int32 (Atoi v * 256 ^ acc.2)), acc.2 - 1).

Definition IpToInt (ip : string) : Z :=
  let arr := strings_Split "."%char ip in
  if decide (length arr ≠ 4%nat) then 0
  else u32 (foldl IpToInt_octet (0, 3) arr).1.

(** ** LoadBalanceRandom *)

Definition Random_Select `{Randomness} (serverList : ServerList) : option Server :=
  match serverList with
  | [] => None
  | _ => serverList !! Z.to_nat (rand_Int (Z.of_nat (length serverList)))
  end.

(** ** LoadBalanceRoundrobin: the state is the [uint64] request counter *)

Definition NewLoadBalanceRoundrobin : Z := 0.

Definition Roundrobin_Select (request : Z) (serverList : ServerList)
  : Z * option Server :=
  match serverList with
  | [] => (request, None)
  | _ =>
      let req := u64 (request + 1) in
      (req, serverList !! Z.to_nat (req `mod` Z.of_nat (length serverList)))
  end.

(** ** LoadBalanceLocalFirst *)

Record LocalFirst := mkLocalFirst {
  lf_localIp : Z;
  lf_config : BalanceLocalFirstConfig
}.

Definition NewLoadBalanceLocalFirst (config : BalanceLocalFirstConfig) : LocalFirst :=
  {| lf_localIp := IpToInt (blf_LocalIp config); lf_config := config |}.

(** The loop over the servers: [inl s] returns [s] at once, [inr refers]
    falls through with the servers in range. *)
Fixpoint LocalFirst_loop (lb : LocalFirst) (servers refers : ServerList)
  : Server + ServerList :=
  match servers with
  | [] => inr refers
  | server :: rest =>
      let ip := IpToInt (sv_Host server) in
      if Z.eqb ip 0 then LocalFirst_loop lb rest refers
      else if Z.eqb ip (lf_localIp lb) then inl server
      else
        let diff := i32 (u32 (ip - lf_localIp lb)) in
        if Z.leb (Z.abs diff) (blf_DiffRange (lf_config lb))
        then LocalFirst_loop lb rest (refers ++ [server])
        else LocalFirst_loop lb rest refers
  end.

Definition LocalFirst_Select `{Randomness} (lb : LocalFirst) (serverList : ServerList)
  : option Server :=
  match serverList with
  | [] => None
  | _ =>
      match LocalFirst_loop lb serverList [] with
      | inl server => Some server
      | inr refers =>
          let refers := match refers with [] => serverList | _ => refers end in
          refers !! Z.to_nat (rand_Int (Z.of_nat (length refers)))
      end
  end.

(** ** LoadBalanceIpRangeFirst *)

Definition NewLoadBalanceIpRangeFirst (config : BalanceLocalFirstConfig) : LocalFirst :=
  {| lf_localIp := IpToInt (blf_LocalIp config); lf_config := config |}.

Fixpoint IpRangeFirst_loop (lb : LocalFirst) (servers refers : ServerList) : ServerList :=
  match servers with
  | [] => refers
  | server :: rest =>
      let ip := IpToInt (sv_Host server) in
      if Z.eqb ip 0 then IpRangeFirst_loop lb rest refers
      else
        let diff := u32 (ip - lf_localIp lb) in
        if Z.leb (Z.abs diff) (blf_DiffRange (lf_config lb))
        then IpRangeFirst_loop lb rest (refers ++ [server])
        else IpRangeFirst_loop lb rest refers
  end.

Definition IpRangeFirst_Select `{Randomness} (lb : LocalFirst) (serverList : ServerList)
  : option Server :=
  match serverList with
  | [] => None
  | _ =>
      let refers := IpRangeFirst_loop lb serverList [] in
      let refers := match refers with [] => serverList | _ => refers end in
      refers !! Z.to_nat (rand_Int (Z.of_nat (length refers)))
  end.

(** ** LoadBalanceStaticWeight *)

Definition weightSum (serverList : ServerList) : Z :=
  foldl (λ sum server, u32 (sum + sv_Weight server)) 0 serverList.

Fixpoint StaticWeight_pick (servers : ServerList) (idx : Z) : option Server :=
  match servers with
  | [] => None
  | server :: rest =>
      if Z.ltb idx (sv_Weight server) then Some server
      else StaticWeight_pick rest (u64 (idx - sv_Weight server))
  end.

Definition StaticWeight_Select `{Randomness} (serverList : ServerList) : option Server :=
  match serverList with
  | [] => None
  | _ =>
      if Z.eqb 0 (weightSum serverList)
      then serverList !! Z.to_nat (rand_Int (Z.of_nat (length serverList)))
      else StaticWeight_pick serverList (rand_Prime 32 `mod` weightSum serverList)
  end.

(** ** LoadBalanceConfigurableWeight *)

Record CurrentStateWrapper := mkCurrentStateWrapper {
  currentIndex : Z;
  currentWeight : Z
}.

Definition NewLoadBalanceConfigurableWeight : CurrentStateWrapper :=
  {| currentIndex := -1; currentWeight := 0 |}.

(** [Gcd] recurses on [uint32]s; [gcd_fuel] bounds the depth. *)
Fixpoint Gcd_fuel (fuel : nat) (a b : Z) : go Z :=
  match fuel with
  | O => OutOfFuel
  | S fuel =>
      r ← go_rem a b;
      if Z.eqb r 0 then mret b else Gcd_fuel fuel b r
  end.

Definition gcd_fuel : nat := 65.

Definition Gcd (a b : Z) : go Z := Gcd_fuel gcd_fuel a b.
#[global] Arguments Gcd : simpl never.

Definition max (a b : Z) : Z := if Z.ltb b a then a else b.

(** The first loop, [for index = 0; index < length-1; index++], on the
    weights: [index] servers are behind, [prev] is the gcd so far. *)
Fixpoint ConfigurableWeight_scan (index : nat) (gcdWeight maxWeight : Z)
    (weights : list Z) : go (Z * Z) :=
  match weights with
  | [] => mret (gcdWeight, maxWeight)
  | [w] => mret (gcdWeight, max maxWeight w)
  | w :: ((w' :: _) as rest) =>
      let maxWeight := max maxWeight w in
      g ← (if decide (index = 0%nat) then Gcd w w' else Gcd gcdWeight w);
      ConfigurableWeight_scan (S index) g maxWeight rest
  end.

(** One round of the second loop: [inl] goes round again. *)
Definition ConfigurableWeight_round (serverList : ServerList) (gcdWeight maxWeight : Z)
    (state : CurrentStateWrapper)
  : go (CurrentStateWrapper + CurrentStateWrapper * option Server) :=
  let length := Z.of_nat (length serverList) in
  let idx := Z.rem (currentIndex state + 1) length in
  let cw :=
    if Z.eqb idx 0 then
      let w := i64 (currentWeight state - gcdWeight) in
      if Z.leb w 0 then maxWeight else w
    else currentWeight state in
  let state := {| currentIndex := idx; currentWeight := cw |} in
  if (Z.eqb idx 0 && Z.eqb cw 0)%bool then mret (inr (state, None))
  else
    server ← go_index serverList idx;
    if Z.leb (u32 cw) (sv_Weight server) then mret (inr (state, Some server))
    else mret (inl state).

Fixpoint ConfigurableWeight_loop (fuel : nat) (serverList : ServerList)
    (gcdWeight maxWeight : Z) (state : CurrentStateWrapper)
  : go (CurrentStateWrapper * option Server) :=
  match fuel with
  | O => OutOfFuel
  | S fuel =>
      r ← ConfigurableWeight_round serverList gcdWeight maxWeight state;
      match r with
      | inl state => ConfigurableWeight_loop fuel serverList gcdWeight maxWeight state
      | inr res => mret res
      end
  end.

Definition ConfigurableWeight_Select (fuel : nat) (state : CurrentStateWrapper)
    (serverList : ServerList) : go (CurrentStateWrapper * option Server) :=
  match serverList with
  | [] => mret (state, None)
  | _ =>
      '(gcdWeight, maxWeight) ← ConfigurableWeight_scan 0 0 0 (sv_Weight <$> serverList);
      ConfigurableWeight_loop fuel serverList gcdWeight maxWeight state
  end.

(** ** The [LoadBalance] interface

    A balancer the router keeps, and [Select] on it; the balancer's new state
    goes back into the router's table.  [fuel] bounds the one loop that has
    no bound of its own. *)

Inductive LoadBalance :=
  | LoadBalanceRandom
  | LoadBalanceRoundrobin (request : Z)
  | LoadBalanceLocalFirst (lb : LocalFirst)
  | LoadBalanceIpRangeFirst (lb : LocalFirst)
  | LoadBalanceStaticWeight
  | LoadBalanceConfigurableWeight (state : CurrentStateWrapper)
  | LoadBalanceUserDefined (ub : UserBalance).

Definition Select `{Randomness} (fuel : nat) (lb : LoadBalance) (serverList : ServerList)
  : go (LoadBalance * option Server) :=
  match lb with
  | LoadBalanceRandom => mret (lb, Random_Select serverList)
  | LoadBalanceRoundrobin request =>
      let '(req, s) := Roundrobin_Select request serverList in
      mret (LoadBalanceRoundrobin req, s)
  | LoadBalanceLocalFirst l => mret (lb, LocalFirst_Select l serverList)
  | LoadBalanceIpRangeFirst l => mret (lb, IpRangeFirst_Select l serverList)
  | LoadBalanceStaticWeight => mret (lb, StaticWeight_Select serverList)
  | LoadBalanceConfigurableWeight st =>
      '(st, s) ← ConfigurableWeight_Select fuel st serverList;
      mret (LoadBalanceConfigurableWeight st, s)
  | LoadBalanceUserDefined ub => mret (lb, ub_Select ub serverList)
  end.

(** ** Lemmas: picking at random, and the loops as filters *)

(** Picking the element a draw below the length names. *)
Lemma rand_pick_elem `{Randomness} {A} (l : list A) :
  l ≠ [] → ∃ a, l !! Z.to_nat (rand_Int (Z.of_nat (length l))) = Some a ∧ a ∈ l.
Proof.
  intros Hl. assert (length l ≠ 0%nat) by (by destruct l).
  pose proof (rand_Int_range (Z.of_nat (length l)) ltac:(lia)).
  destruct (lookup_lt_is_Some_2 l (Z.to_nat (rand_Int (Z.of_nat (length l)))))
    as [a Ha]; [lia|].
  exists a. split; [done|]. by eapply list_elem_of_lookup_2.
Qed.

(** A server with an address, the local one, one within the range. *)
Definition has_ip (s : Server) : Prop := IpToInt (sv_Host s) ≠ 0.
Definition is_local (lb : LocalFirst) (s : Server) : Prop :=
  has_ip s ∧ IpToInt (sv_Host s) = lf_localIp lb.
Definition in_range (lb : LocalFirst) (s : Server) : Prop :=
  has_ip s ∧ Z.abs (i32 (u32 (IpToInt (sv_Host s) - lf_localIp lb)))
               ≤ blf_DiffRange (lf_config lb).
Definition in_range_above (lb : LocalFirst) (s : Server) : Prop :=
  has_ip s ∧ u32 (IpToInt (sv_Host s) - lf_localIp lb) ≤ blf_DiffRange (lf_config lb).

#[local] Instance is_local_dec lb s : Decision (is_local lb s).
Proof. unfold is_local, has_ip. apply _. Defined.
#[local] Instance in_range_dec lb s : Decision (in_range lb s).
Proof. unfold in_range, has_ip. apply _. Defined.
#[local] Instance in_range_above_dec lb s : Decision (in_range_above lb s).
Proof. unfold in_range_above, has_ip. apply _. Defined.

Lemma LocalFirst_loop_spec lb servers refers :
  LocalFirst_loop lb servers refers =
    match filter (is_local lb) servers with
    | s :: _ => inl s
    | [] => inr (refers ++ filter (in_range lb) servers)
    end.
Proof.
  revert refers. induction servers as [|s servers IH]; intros refers; cbn [LocalFirst_loop].
  { by rewrite app_nil_r. }
  rewrite !filter_cons.
  destruct (Z.eqb_spec (IpToInt (sv_Host s)) 0) as [E|E].
  { rewrite IH, !decide_False; [done|unfold in_range, is_local, has_ip; tauto..]. }
  destruct (Z.eqb_spec (IpToInt (sv_Host s)) (lf_localIp lb)) as [E'|E'].
  { by rewrite (decide_True _ _ (conj E E' : is_local lb s)). }
  rewrite (decide_False (P := is_local lb s)) by (unfold is_local; tauto).
  destruct (Z.leb_spec (Z.abs (i32 (u32 (IpToInt (sv_Host s) - lf_localIp lb))))
              (blf_DiffRange (lf_config lb))) as [L|L]; rewrite IH.
  - rewrite (decide_True _ _ (conj E L : in_range lb s)).
    destruct (filter (is_local lb) servers); [|done]. by rewrite <- app_assoc.
  - rewrite (decide_False (P := in_range lb s)); [done|]. unfold in_range. lia.
Qed.

Lemma IpRangeFirst_loop_spec lb servers refers :
  IpRangeFirst_loop lb servers refers = refers ++ filter (in_range_above lb) servers.
Proof.
  revert refers. induction servers as [|s servers IH]; intros refers; cbn [IpRangeFirst_loop].
  { by rewrite app_nil_r. }
  rewrite filter_cons.
  destruct (Z.eqb_spec (IpToInt (sv_Host s)) 0) as [E|E].
  { rewrite IH, decide_False; [done|unfold in_range_above, has_ip; tauto]. }
  rewrite Z.abs_eq by (apply wrapu_range; lia).
  destruct (Z.leb_spec (u32 (IpToInt (sv_Host s) - lf_localIp lb))
              (blf_DiffRange (lf_config lb))) as [L|L]; rewrite IH.
  - rewrite (decide_True _ _ (conj E L : in_range_above lb s)). by rewrite <- app_assoc.
  - rewrite (decide_False (P := in_range_above lb s)); [done|]. unfold in_range_above. lia.
Qed.

(** ** Lemmas: the weighted choice *)

(** The reference: every server as often as its weight says. *)
Fixpoint expand (l : ServerList) : list Server :=
  match l with
  | [] => []
  | s :: l => replicate (Z.to_nat (sv_Weight s)) s ++ expand l
  end.

(** Weights are [uint32]s. *)
Definition weights_ok (l : ServerList) : Prop :=
  Forall (λ s, 0 ≤ sv_Weight s < 2 ^ 32) l.

Fixpoint total_weight (l : ServerList) : Z :=
  match l with [] => 0 | s :: l => sv_Weight s + total_weight l end.

Lemma total_weight_nonneg l : weights_ok l → 0 ≤ total_weight l.
Proof. induction 1 as [|s l Hs Hl IH]; cbn in *; lia. Qed.

Lemma length_expand l :
  weights_ok l → Z.of_nat (length (expand l)) = total_weight l.
Proof.
  induction 1 as [|s l Hs Hl IH]; [done|].
  cbn in *. rewrite length_app, length_replicate. lia.
Qed.

Lemma weightSum_wrap l : weightSum l = u32 (total_weight l).
Proof.
  assert (∀ z, foldl (λ sum s, u32 (sum + sv_Weight s)) (u32 z) l
               = u32 (z + total_weight l)) as E.
  { induction l as [|s l IH]; intros z; cbn; [by rewrite Z.add_0_r|].
    rewrite wrapu_add_l, IH. f_equal. lia. }
  apply (E 0).
Qed.

Lemma weightSum_nonneg l : 0 ≤ weightSum l.
Proof. rewrite weightSum_wrap. apply wrapu_range. lia. Qed.

Lemma StaticWeight_pick_expand l idx :
  weights_ok l → 0 ≤ idx < 2 ^ 64 →
  StaticWeight_pick l idx = expand l !! Z.to_nat idx.
Proof.
  intros Hl. revert idx. induction Hl as [|s l Hs Hl IH]; intros idx Hi; [done|].
  cbn. destruct (Z.ltb_spec idx (sv_Weight s)).
  - rewrite lookup_app_l by (rewrite length_replicate; lia).
    rewrite lookup_replicate_2; [done|lia].
  - rewrite wrapu_small by lia. rewrite IH by lia.
    rewrite lookup_app_r by (rewrite length_replicate; lia).
    rewrite length_replicate. f_equal. lia.
Qed.

(** ** Lemmas: the gcd *)

Lemma gcd_step a b : 0 < b → Z.gcd a b = Z.gcd b (a `mod` b).
Proof. intros. by rewrite (Z.gcd_comm b), Z.gcd_mod, Z.gcd_comm by lia. Qed.

Lemma Gcd_fuel_spec k fuel a b :
  (2 * k + 1 ≤ fuel)%nat → 0 ≤ a → 0 < b < 2 ^ Z.of_nat k →
  Gcd_fuel fuel a b = Ret (Z.gcd a b).
Proof.
  revert fuel a b. induction k as [|k IH]; intros fuel a b Hf Ha Hb; [lia|].
  destruct fuel as [|fuel]; [lia|]. cbn. unfold go_rem at 1.
  destruct (Z.eqb_spec b 0); [lia|]. cbn.
  rewrite Z.rem_mod_nonneg by lia.
  pose proof (Z.mod_pos_bound a b ltac:(lia)).
  rewrite (gcd_step a b) by lia.
  destruct (Z.eqb_spec (a `mod` b) 0) as [E|E].
  { rewrite E, Z.gcd_0_r, Z.abs_eq by lia. done. }
  set (r := a `mod` b) in *. destruct fuel as [|fuel]; [lia|]. cbn.
  unfold go_rem. destruct (Z.eqb_spec r 0); [done|]. cbn.
  rewrite Z.rem_mod_nonneg by lia.
  pose proof (Z.mod_pos_bound b r ltac:(lia)).
  rewrite (gcd_step b r) by lia.
  destruct (Z.eqb_spec (b `mod` r) 0) as [E'|E'].
  { rewrite E', Z.gcd_0_r, Z.abs_eq by lia. done. }
  apply IH; [lia..|]. split; [lia|].
  rewrite Nat2Z.inj_succ, Z.pow_succ_r in Hb by lia.
  destruct (decide (2 * r ≤ b)); [lia|].
  rewrite (Z.mod_eq b r) by lia.
  assert (b / r = 1) as ->; [|lia].
  symmetry. apply (Z.div_unique_pos b r 1 (b - r)); lia.
Qed.

Lemma Gcd_spec a b : 0 ≤ a → 0 < b < 2 ^ 32 → Gcd a b = Ret (Z.gcd a b).
Proof. intros. apply (Gcd_fuel_spec 32); [unfold gcd_fuel; lia|done|done]. Qed.

Lemma max_spec a b : max a b = Z.max a b.
Proof. unfold max. destruct (Z.ltb_spec b a); lia. Qed.

(** ** Lemmas: one balancer at a time *)

Lemma Random_Select_elem `{Randomness} l :
  l ≠ [] → ∃ s, Random_Select l = Some s ∧ s ∈ l.
Proof. intros Hl. unfold Random_Select. destruct l; [done|]. by apply rand_pick_elem. Qed.

Lemma Roundrobin_Select_elem request l :
  l ≠ [] → ∃ req s, Roundrobin_Select request l = (req, Some s) ∧ s ∈ l.
Proof.
  intros Hl. destruct l as [|s0 l]; [done|]. unfold Roundrobin_Select.
  set (n := length (s0 :: l)). set (i := u64 _ `mod` _).
  assert (0 ≤ i < Z.of_nat n) by (apply Z.mod_pos_bound; cbn in *; lia).
  destruct (lookup_lt_is_Some_2 (s0 :: l) (Z.to_nat i)) as [s Hs]; [lia|].
  rewrite Hs. eexists _, s. split; [done|]. by eapply list_elem_of_lookup_2.
Qed.

(** The pool the random choice of [LocalFirst_Select] is made from. *)
Lemma or_all_nonempty (l refers : ServerList) :
  l ≠ [] → (match refers with [] => l | _ => refers end) ≠ [].
Proof. by destruct refers. Qed.

Lemma LocalFirst_Select_elem `{Randomness} lb l :
  l ≠ [] → ∃ s, LocalFirst_Select lb l = Some s ∧ s ∈ l ∧
    ((∃ s', s' ∈ l ∧ is_local lb s') → is_local lb s) ∧
    ((∃ s', s' ∈ l ∧ in_range lb s') → is_local lb s ∨ in_range lb s).
Proof.
  intros Hl. unfold LocalFirst_Select. rewrite LocalFirst_loop_spec. cbn [app].
  destruct (filter (is_local lb) l) as [|s ls] eqn:E.
  - destruct (rand_pick_elem _ (or_all_nonempty l (filter (in_range lb) l) Hl))
      as (s & Hs & Hin).
    exists s. split; [by destruct l|].
    assert (∀ s', s' ∈ l → ¬ is_local lb s') as Hno.
    { intros s' ??. assert (s' ∈ filter (is_local lb) l) as Hf
        by (by apply list_elem_of_filter). rewrite E in Hf. by apply elem_of_nil in Hf. }
    destruct (filter (in_range lb) l) as [|s1 l1] eqn:E1.
    + split; [done|]. split; [naive_solver|]. intros (s' & Hs' & Hr).
      assert (s' ∈ filter (in_range lb) l) as Hf by (by apply list_elem_of_filter).
      rewrite E1 in Hf. by apply elem_of_nil in Hf.
    + rewrite <- E1 in Hin. apply list_elem_of_filter in Hin as [??]. naive_solver.
  - assert (s ∈ filter (is_local lb) l) as Hf by (rewrite E; left).
    apply list_elem_of_filter in Hf as [??]. exists s. destruct l; naive_solver.
Qed.

Lemma IpRangeFirst_Select_elem `{Randomness} lb l :
  l ≠ [] → ∃ s, IpRangeFirst_Select lb l = Some s ∧ s ∈ l ∧
    ((∃ s', s' ∈ l ∧ in_range_above lb s') → in_range_above lb s).
Proof.
  intros Hl. unfold IpRangeFirst_Select. rewrite IpRangeFirst_loop_spec. cbn [app].
  destruct (rand_pick_elem _ (or_all_nonempty l (filter (in_range_above lb) l) Hl))
    as (s & Hs & Hin).
  exists s. split; [by destruct l|].
  destruct (filter (in_range_above lb) l) as [|s1 l1] eqn:E1.
  - split; [done|]. intros (s' & Hs' & Hr).
    assert (s' ∈ filter (in_range_above lb) l) as Hf by (by apply list_elem_of_filter).
    rewrite E1 in Hf. by apply elem_of_nil in Hf.
  - rewrite <- E1 in Hin. apply list_elem_of_filter in Hin as [??]. naive_solver.
Qed.

Lemma expand_elem l s : s ∈ expand l → s ∈ l.
Proof.
  induction l as [|s' l IH]; cbn; [done|].
  rewrite elem_of_app, elem_of_cons. intros [[-> _]%elem_of_replicate|]; auto.
Qed.

(** The draw of the weighted choice points into the expanded list. *)
Lemma StaticWeight_draw_lt `{Randomness} l :
  weights_ok l → weightSum l ≠ 0 →
  0 ≤ rand_Prime 32 `mod` weightSum l < total_weight l.
Proof.
  intros Hw Hz. pose proof (total_weight_nonneg l Hw).
  rewrite weightSum_wrap in *. pose proof (wrapu_range 32 (total_weight l) ltac:(lia)).
  pose proof (Z.mod_pos_bound (rand_Prime 32) (u32 (total_weight l)) ltac:(lia)).
  pose proof (Z.mod_le (total_weight l) (2 ^ 32) ltac:(lia) ltac:(lia)).
  unfold wrapu in *. lia.
Qed.

Lemma StaticWeight_Select_elem `{Randomness} l :
  weights_ok l → l ≠ [] → ∃ s, StaticWeight_Select l = Some s ∧ s ∈ l.
Proof.
  intros Hw Hl. unfold StaticWeight_Select. destruct (Z.eqb_spec 0 (weightSum l)).
  - destruct l; [done|]. by apply rand_pick_elem.
  - pose proof (weightSum_nonneg l). assert (0 < weightSum l) by lia.
    pose proof (rand_Prime_range 32 ltac:(lia) : 2 ^ 31 ≤ _ < 2 ^ 32).
    assert (rand_Prime 32 `mod` weightSum l ≤ rand_Prime 32) by (apply Z.mod_le; lia).
    pose proof (StaticWeight_draw_lt l Hw ltac:(lia)) as Hd.
    pose proof (length_expand l Hw).
    destruct (lookup_lt_is_Some_2 (expand l)
      (Z.to_nat (rand_Prime 32 `mod` weightSum l))) as [s Hs]; [lia|].
    exists s. split.
    + destruct l; [done|]. rewrite StaticWeight_pick_expand; [done|done|lia].
    + by eapply expand_elem, list_elem_of_lookup_2.
Qed.

(** [n] calls of [Roundrobin_Select] on the same list. *)
Fixpoint Roundrobin_run (n : nat) (request : Z) (l : ServerList) : list (option Server) :=
  match n with
  | O => []
  | S n => let '(req, s) := Roundrobin_Select request l in s :: Roundrobin_run n req l
  end.

Lemma length_Roundrobin_run n r l : length (Roundrobin_run n r l) = n.
Proof.
  revert r. induction n as [|n IH]; intros r; [done|]. cbn.
  destruct (Roundrobin_Select r l). cbn. by rewrite IH.
Qed.

Lemma lookup_Roundrobin_run n r l (i : nat) :
  l ≠ [] → 0 ≤ r → r + Z.of_nat n < 2 ^ 64 → (i < n)%nat →
  Roundrobin_run n r l !! i
    = Some (l !! Z.to_nat ((r + 1 + Z.of_nat i) `mod` Z.of_nat (length l))).
Proof.
  intros Hl. revert r i. induction n as [|n IH]; intros r i Hr Hn Hi; [lia|].
  cbn. destruct l as [|s0 l0]; [done|]. cbn [Roundrobin_Select].
  set (l := s0 :: l0) in *. rewrite wrapu_small by lia.
  destruct i as [|i]; cbn [lookup list_lookup].
  - by rewrite Z.add_0_r.
  - rewrite IH by (done || lia). do 4 f_equal. lia.
Qed.

(** ** Lemmas: the configurable-weight loop *)

Lemma ConfigurableWeight_scan_cons index g m w w' ws :
  ConfigurableWeight_scan index g m (w :: w' :: ws) =
    (g' ← (if decide (index = 0%nat) then Gcd w w' else Gcd g w);
     ConfigurableWeight_scan (S index) g' (max m w) (w' :: ws)).
Proof. reflexivity. Qed.

Lemma gcd_bound a b : 0 < b < 2 ^ 32 → 0 < Z.gcd a b < 2 ^ 32.
Proof.
  intros. pose proof (Z.gcd_nonneg a b).
  pose proof (Z.divide_pos_le _ b ltac:(lia) (Z.gcd_divide_r a b)).
  assert (Z.gcd a b ≠ 0) by (rewrite Z.gcd_eq_0; lia). lia.
Qed.

(** The first loop on positive weights: it cannot panic, the gcd it leaves is
    positive from two servers on, and the maximum is attained. *)
Lemma ConfigurableWeight_scan_spec index g0 m0 ws :
  ws ≠ [] → Forall (λ w, 0 < w < 2 ^ 32) ws → 0 ≤ g0 < 2 ^ 32 → 0 ≤ m0 →
  (index ≠ 0%nat → 0 < g0) →
  ∃ g m, ConfigurableWeight_scan index g0 m0 ws = Ret (g, m) ∧
    (index ≠ 0%nat ∨ (2 ≤ length ws)%nat → 0 < g) ∧ 0 ≤ g < 2 ^ 32 ∧
    (m = m0 ∨ m ∈ ws) ∧ m0 ≤ m ∧ Forall (λ w, w ≤ m) ws.
Proof.
  intros Hne Hws. revert index g0 m0. induction Hws as [|w ws Hw Hws IH]; [done|].
  intros index g0 m0 Hg Hm Hi. destruct ws as [|w' ws].
  { cbn. rewrite max_spec. eexists g0, _. split; [done|]. split; [cbn; intros [|]; auto; lia|].
    split; [done|]. split; [|split; [lia|constructor; [lia|done]]].
    destruct (Z.max_spec m0 w) as [[? ->]|[? ->]]; [right; left|by left]. }
  rewrite ConfigurableWeight_scan_cons, max_spec.
  assert (∃ g, (if decide (index = 0%nat) then Gcd w w' else Gcd g0 w) = Ret g ∧
    0 < g < 2 ^ 32) as (g & -> & Hgp).
  { pose proof (Forall_inv Hws) as Hw'. cbn in Hw'.
    case_decide; (rewrite Gcd_spec by lia); (eexists; split; [done|]);
      apply gcd_bound; lia. }
  destruct (IH ltac:(done) (S index) g (Z.max m0 w)) as (g' & m & E & H1 & H2 & H3 & H4 & H5);
    [lia..|]. exists g', m. split; [exact E|]. split; [intros _; apply H1; left; lia|].
  split; [done|]. split; [|split; [lia|constructor; [lia|done]]].
  destruct H3 as [->|]; [|by right; right].
  destruct (Z.max_spec m0 w) as [[? ->]|[? ->]]; [right; left|by left].
Qed.

Section ConfigurableLoop.
Variables (l : ServerList) (g m : Z).
Hypothesis Hl : l ≠ [].
Hypothesis Hg : 0 ≤ g < 2 ^ 32.
Hypothesis Hm : 0 < m < 2 ^ 32.
Hypothesis Hmax : ∃ s, s ∈ l ∧ sv_Weight s = m.
Hypothesis Hle : Forall (λ s, sv_Weight s ≤ m) l.

Abbreviation n := (Z.of_nat (length l)).

(** The loop returns a server of the list from this state on. *)
Definition loop_returns (idx cw : Z) : Prop :=
  ∃ k, ∀ fuel, (k ≤ fuel)%nat → ∃ st s,
    ConfigurableWeight_loop fuel l g m {| currentIndex := idx; currentWeight := cw |}
      = Ret (st, Some s) ∧ s ∈ l ∧ 0 < currentWeight st ≤ sv_Weight s.

Lemma n_pos : 0 < n.
Proof. assert (length l ≠ 0%nat) by (by destruct l). lia. Qed.

(** A round in the middle of a pass: a hit, or the next index. *)
Lemma round_inside idx cw :
  0 ≤ idx → idx + 1 < n → 0 < cw < 2 ^ 32 →
  (∀ s, l !! Z.to_nat (idx + 1) = Some s → sv_Weight s < cw → loop_returns (idx + 1) cw) →
  loop_returns idx cw.
Proof.
  intros Hi Hn Hc Hnext.
  destruct (lookup_lt_is_Some_2 l (Z.to_nat (idx + 1))) as [s Hs]; [lia|].
  assert (∀ fuel, ConfigurableWeight_loop (S fuel) l g m (mkCurrentStateWrapper idx cw) =
    if Z.leb cw (sv_Weight s)
    then Ret (mkCurrentStateWrapper (idx + 1) cw, Some s)
    else ConfigurableWeight_loop fuel l g m (mkCurrentStateWrapper (idx + 1) cw)) as E.
  { intros fuel. cbn [ConfigurableWeight_loop]. unfold ConfigurableWeight_round. cbn -[Z.rem go_index].
    rewrite Z.rem_small by lia. destruct (Z.eqb_spec (idx + 1) 0); [lia|]. cbn -[go_index].
    rewrite (go_index_Some _ _ s) by (done || lia). cbn.
    rewrite wrapu_small by lia. by destruct (Z.leb cw (sv_Weight s)). }
  destruct (Z.leb_spec cw (sv_Weight s)) as [Hle'|Hgt].
  - exists 1%nat. intros [|fuel] ?; [lia|]. rewrite E. eexists _, s. cbn.
    split; [done|]. split; [by eapply list_elem_of_lookup_2|cbn; lia].
  - destruct (Hnext s Hs Hgt) as [k Hk]. exists (S k). intros [|fuel] ?; [lia|].
    rewrite E. apply Hk. lia.
Qed.

(** The round that starts a pass, from any index before it. *)
Lemma round_wrap idx cw cw' :
  -1 ≤ idx → Z.rem (idx + 1) n = 0 → 0 ≤ cw < 2 ^ 32 →
  cw' = (if Z.leb (cw - g) 0 then m else cw - g) →
  (∀ s, l !! 0%nat = Some s → sv_Weight s < cw' → loop_returns 0 cw') →
  loop_returns idx cw.
Proof.
  intros Hi Hr Hc Hcw Hnext. pose proof n_pos.
  destruct (lookup_lt_is_Some_2 l 0) as [s Hs]; [lia|].
  assert (0 < cw' < 2 ^ 32) as Hc'.
  { subst. destruct (Z.leb_spec (cw - g) 0); lia. }
  assert (∀ fuel, ConfigurableWeight_loop (S fuel) l g m (mkCurrentStateWrapper idx cw) =
    if Z.leb cw' (sv_Weight s)
    then Ret (mkCurrentStateWrapper 0 cw', Some s)
    else ConfigurableWeight_loop fuel l g m (mkCurrentStateWrapper 0 cw')) as E.
  { intros fuel. cbn [ConfigurableWeight_loop]. unfold ConfigurableWeight_round. cbn -[Z.rem go_index].
    rewrite Hr. cbn -[go_index]. rewrite (wraps_small 64) by lia. rewrite <- Hcw.
    destruct (Z.eqb_spec cw' 0); [lia|]. rewrite (go_index_Some _ _ s) by done. cbn.
    rewrite wrapu_small by lia. by destruct (Z.leb cw' (sv_Weight s)). }
  destruct (Z.leb_spec cw' (sv_Weight s)) as [Hle'|Hgt].
  - exists 1%nat. intros [|fuel] ?; [lia|]. rewrite E. eexists _, s. cbn.
    split; [done|]. split; [by eapply list_elem_of_lookup_2|cbn; lia].
  - destruct (Hnext s Hs Hgt) as [k Hk]. exists (S k). intros [|fuel] ?; [lia|].
    rewrite E. apply Hk. lia.
Qed.

(** Ahead of a server that is heavy enough the loop returns. *)
Lemma hit_ahead d idx cw (j : nat) s :
  0 ≤ idx → idx + Z.of_nat d + 1 = n → 0 < cw < 2 ^ 32 →
  idx < Z.of_nat j → l !! j = Some s → cw ≤ sv_Weight s → loop_returns idx cw.
Proof.
  revert idx. induction d as [|d IH]; intros idx Hi Hn Hc Hj Hs Hw.
  { apply lookup_lt_Some in Hs. lia. }
  apply round_inside; [lia..|]. intros s' Hs' Hlt.
  apply IH; [lia..| |done|done].
  destruct (decide (Z.of_nat j = idx + 1)) as [E|]; [|lia].
  rewrite <- E, Nat2Z.id in Hs'. simplify_eq. lia.
Qed.

(** To the end of the pass. *)
Lemma advance d idx cw :
  0 ≤ idx → idx + Z.of_nat d + 1 = n → 0 < cw < 2 ^ 32 →
  loop_returns (n - 1) cw → loop_returns idx cw.
Proof.
  revert idx. induction d as [|d IH]; intros idx Hi Hn Hc Hend.
  { by replace idx with (n - 1) by lia. }
  apply round_inside; [lia..|]. intros _ _ _. apply IH; [lia..|done].
Qed.

(** A pass whose level is at most the maximum meets the heaviest server. *)
Lemma pass_hits idx cw cw' :
  -1 ≤ idx → Z.rem (idx + 1) n = 0 → 0 ≤ cw < 2 ^ 32 →
  cw' = (if Z.leb (cw - g) 0 then m else cw - g) → cw' ≤ m → loop_returns idx cw.
Proof.
  intros Hi Hr Hc Hcw Hcm. eapply round_wrap; [done..|]. intros s0 Hs0 Hlt.
  destruct Hmax as (s & [j Hj]%list_elem_of_lookup_1 & Hw). pose proof n_pos.
  assert (0 < cw') by (subst cw'; destruct (Z.leb_spec (cw - g) 0); lia).
  apply (hit_ahead (length l - 1) 0 cw' j s); [lia..| |done|lia].
  destruct j as [|j]; [simplify_eq; lia|lia].
Qed.

Lemma wrap_returns idx cw :
  -1 ≤ idx → Z.rem (idx + 1) n = 0 → 0 ≤ cw < 2 ^ 32 → (0 < g ∨ cw ≤ m) →
  loop_returns idx cw.
Proof.
  intros Hi Hr Hc. revert idx Hi Hr. pose proof n_pos.
  induction (Z.lt_wf 0 cw) as [cw _ IH]. intros idx Hi Hr Hgm.
  destruct (decide ((if Z.leb (cw - g) 0 then m else cw - g) ≤ m)) as [|Hbig].
  { by eapply pass_hits. }
  destruct (Z.leb_spec (cw - g) 0) as [|Hpos]; [lia|].
  eapply round_wrap; [done..|]. intros s0 Hs0 Hlt.
  destruct (Z.leb_spec (cw - g) 0); [lia|].
  apply (advance (length l - 1)); [lia..|]. apply IH; [lia..| |lia].
  replace (n - 1 + 1) with n by lia. apply Z.rem_same. lia.
Qed.

Lemma loop_terminates idx cw :
  -1 ≤ idx → 0 ≤ cw < 2 ^ 32 → (0 < g ∨ cw ≤ m) → (0 < cw ∨ Z.rem (idx + 1) n = 0) →
  loop_returns idx cw.
Proof.
  intros Hi Hc Hgm Hz. pose proof n_pos.
  destruct (decide (Z.rem (idx + 1) n = 0)) as [|Hr]; [by apply wrap_returns|].
  pose proof (Z.rem_bound_pos (idx + 1) n ltac:(lia) ltac:(lia)).
  set (i := Z.rem (idx + 1) n) in *.
  assert (loop_returns (i - 1) cw) as [k Hk].
  { apply (advance (Z.to_nat (n - i))); [lia..|].
    apply wrap_returns; [lia| |done..]. replace (n - 1 + 1) with n by lia.
    apply Z.rem_same. lia. }
  exists (S k). intros [|fuel] ?; [lia|]. destruct (Hk (S fuel) ltac:(lia)) as (st & s & E & Hs).
  exists st, s. split; [|done]. rewrite <- E. cbn [ConfigurableWeight_loop].
  unfold ConfigurableWeight_round. cbn -[Z.rem].
  replace (i - 1 + 1) with i by lia. fold i. rewrite (Z.rem_small i n) by lia. done.
Qed.
End ConfigurableLoop.

Lemma ConfigurableWeight_loop_elem fuel l g m st st' s :
  ConfigurableWeight_loop fuel l g m st = Ret (st', Some s) → s ∈ l.
Proof.
  revert st. induction fuel as [|fuel IH]; intros st; [done|]. cbn [ConfigurableWeight_loop].
  destruct (ConfigurableWeight_round l g m st) as [[st1|res]| |] eqn:E; cbn; try done.
  { apply IH. }
  intros [= ->]. revert E. unfold ConfigurableWeight_round. cbv zeta.
  set (idx := Z.rem _ _). set (cw := if Z.eqb idx 0 then _ else _).
  destruct (_ && _)%bool; [by intros [= ]|].
  destruct (go_index l idx) as [s1| |] eqn:E1; cbn; try done.
  destruct (Z.leb (u32 cw) (sv_Weight s1)); intros [= <- <-] || intros [= ].
  apply go_index_Ret in E1 as [_ ?]. by eapply list_elem_of_lookup_2.
Qed.

(** ** Lemmas: dotted addresses *)

(** The decimal octets, by evaluation. *)
Lemma octets_ok :
  Forall (λ n, no_sep "."%char (Itoa n) = true ∧ Atoi (Itoa n) = n) (seqZ 0 256).
Proof. apply (bool_decide_unpack _). vm_compute. exact I. Qed.

Lemma octet_ok n : 0 ≤ n < 256 → no_sep "."%char (Itoa n) = true ∧ Atoi (Itoa n) = n.
Proof. intros. pose proof octets_ok as Ho. rewrite Forall_forall in Ho. apply Ho, elem_of_seqZ. lia. Qed.

Lemma float64_to_int32_small z : - 2 ^ 31 ≤ z < 2 ^ 31 → float64_to_int32 z = z.
Proof.
  intros. unfold float64_to_int32.
  destruct (Z.leb_spec (- 2 ^ 31) z), (Z.ltb_spec z (2 ^ 31)); done || lia.
Qed.

(** The text form of an address. *)
Definition dotted (a b c d : Z) : string :=
  Itoa a +:+ "." +:+ Itoa b +:+ "." +:+ Itoa c +:+ "." +:+ Itoa d.

(** Addresses.  For octets in range, [IpToInt] of the text [a.b.c.d] is
    the address as a number where the first octet is below 128; from 128 on
    the first term leaves the range of [int32] and the result holds the
    implementation-dependent conversion of that term instead. *)
Theorem IpToInt_dotted a b c d :
  0 ≤ a < 256 → 0 ≤ b < 256 → 0 ≤ c < 256 → 0 ≤ d < 256 →
  IpToInt (dotted a b c d) =
    if decide (a < 128) then a * 2 ^ 24 + b * 2 ^ 16 + c * 2 ^ 8 + d
    else u32 (float64_to_int32_overflow (a * 2 ^ 24) + b * 2 ^ 16 + c * 2 ^ 8 + d).
Proof.
  intros Ha Hb Hc Hd.
  destruct (octet_ok a Ha) as [Sa Aa], (octet_ok b Hb) as [Sb Ab],
    (octet_ok c Hc) as [Sc Ac], (octet_ok d Hd) as [Sd Ad].
  unfold IpToInt.
  change (dotted a b c d) with (Itoa a +:+ String "." (Itoa b +:+ String "."
    (Itoa c +:+ String "." (Itoa d)))).
  rewrite (strings_Split_app _ _ _ Sa), (strings_Split_app _ _ _ Sb),
    (strings_Split_app _ _ _ Sc), (strings_Split_last _ _ Sd).
  rewrite decide_False by (cbn; lia). unfold foldl, IpToInt_octet. cbn [fst snd].
  rewrite Aa, Ab, Ac, Ad.
  change (256 ^ (3 - 1)) with (2 ^ 16). change (256 ^ (3 - 1 - 1)) with (2 ^ 8).
  change (256 ^ (3 - 1 - 1 - 1)) with 1. change (256 ^ 3) with (2 ^ 24).
  rewrite (float64_to_int32_small (b * _)), (float64_to_int32_small (c * _)),
    (float64_to_int32_small (d * _)) by lia.
  repeat (rewrite (wraps_add_l 32), <- ?Z.add_assoc). rewrite wrapu_wraps by lia.
  case_decide.
  - rewrite float64_to_int32_small by lia. rewrite wrapu_small; lia.
  - unfold float64_to_int32. destruct (Z.ltb_spec (a * 2 ^ 24) (2 ^ 31)); [lia|].
    rewrite andb_false_r. f_equal. lia.
Qed.

(** ** Properties of the balancers *)

(** The balancers whose loop is bounded by the list. *)
Definition bounded (lb : LoadBalance) : Prop :=
  match lb with
  | LoadBalanceConfigurableWeight _ | LoadBalanceUserDefined _ => False
  | _ => True
  end.

(** C37: random, round-robin, local-first, ip-range-first and static-weight
    selection are total and sound: [Select] returns for every state and every
    list, it refuses exactly the empty list, and a server it returns is a
    server of the list. *)
Theorem Select_total_sound `{Randomness} fuel lb l :
  bounded lb → weights_ok l →
  ∃ lb' r, Select fuel lb l = Ret (lb', r) ∧ (r = None ↔ l = []) ∧
    ∀ s, r = Some s → s ∈ l.
Proof.
  intros Hb Hw. destruct (decide (l = [])) as [->|Hl].
  { destruct lb; try done; eexists _, None; (split; [reflexivity|done]). }
  assert (∀ r, (∃ s, r = Some s ∧ s ∈ l) →
    (r = None ↔ l = []) ∧ ∀ s, r = Some s → s ∈ l) as Hr by naive_solver.
  destruct lb as [|request|lf|lf| | |]; try done; cbn [Select].
  - eexists _, _. split; [reflexivity|]. by apply Hr, Random_Select_elem.
  - destruct (Roundrobin_Select_elem request l Hl) as (req & s & -> & ?).
    eexists _, _. split; [reflexivity|]. apply Hr. eauto.
  - eexists _, _. split; [reflexivity|]. apply Hr.
    destruct (LocalFirst_Select_elem lf l Hl) as (s & ? & ? & _). eauto.
  - eexists _, _. split; [reflexivity|]. apply Hr.
    destruct (IpRangeFirst_Select_elem lf l Hl) as (s & ? & ? & _). eauto.
  - eexists _, _. split; [reflexivity|]. by apply Hr, StaticWeight_Select_elem.
Qed.

(** Round robin is fair: as many calls as there are servers return the
    list itself, rotated to where the request counter points, so every server
    once (up to the overflow of the [uint64] counter). *)
Theorem Roundrobin_fair request l :
  l ≠ [] → 0 ≤ request → request + Z.of_nat (length l) < 2 ^ 64 →
  Roundrobin_run (length l) request l
    = Some <$> rotate (Z.to_nat ((request + 1) `mod` Z.of_nat (length l))) l.
Proof.
  intros Hl Hr Hn. apply list_eq. intros i.
  assert (length l ≠ 0%nat) by (by destruct l).
  destruct (decide (i < length l)%nat) as [Hi|Hi].
  - rewrite lookup_Roundrobin_run by done. rewrite list_lookup_fmap.
    rewrite lookup_rotate_r by done. unfold rotate_nat_add.
    set (k := (request + 1) `mod` _). pose proof (Z.mod_pos_bound (request + 1) (Z.of_nat (length l)) ltac:(lia)).
    rewrite (Z2Nat.id k) by lia.
    replace ((k + Z.of_nat i) `mod` Z.of_nat (length l))
      with ((request + 1 + Z.of_nat i) `mod` Z.of_nat (length l))
      by (unfold k; rewrite Zplus_mod_idemp_l; done).
    set (j := Z.to_nat _). destruct (lookup_lt_is_Some_2 l j) as [s Hs].
    { unfold j. pose proof (Z.mod_pos_bound (request + 1 + Z.of_nat i) (Z.of_nat (length l))
        ltac:(lia)). lia. }
    by rewrite Hs.
  - rewrite !lookup_ge_None_2; [done| |].
    + rewrite length_fmap, length_rotate. lia.
    + rewrite length_Roundrobin_run. lia.
Qed.

(** The static-weight choice is proportional to the weights: where their
    sum fits a [uint32] and is not zero, the draw indexes the list in which
    every server is repeated as often as its weight says, of length the sum
    of the weights. *)
Theorem StaticWeight_proportional `{Randomness} l :
  weights_ok l → 0 < total_weight l < 2 ^ 32 →
  StaticWeight_Select l = expand l !! Z.to_nat (rand_Prime 32 `mod` total_weight l) ∧
  Z.of_nat (length (expand l)) = total_weight l.
Proof.
  intros Hw Ht. split; [|by apply length_expand].
  assert (weightSum l = total_weight l) as Es
    by (rewrite weightSum_wrap; apply wrapu_small; lia).
  pose proof (Z.mod_pos_bound (rand_Prime 32) (total_weight l) ltac:(lia)).
  unfold StaticWeight_Select. rewrite Es.
  destruct (Z.eqb_spec 0 (total_weight l)); [lia|]. destruct l as [|s l]; [cbn in *; lia|].
  apply StaticWeight_pick_expand; [done|lia].
Qed.

(** Local first.  Where the list has a server with the local address such
    a server is chosen, and otherwise, where it has servers whose address
    differs from the local one by at most the range, one of those. *)
Theorem LocalFirst_prefers_local `{Randomness} config l :
  l ≠ [] →
  let lb := NewLoadBalanceLocalFirst config in
  ∃ s, LocalFirst_Select lb l = Some s ∧ s ∈ l ∧
    ((∃ s', s' ∈ l ∧ is_local lb s') → is_local lb s) ∧
    ((∃ s', s' ∈ l ∧ in_range lb s') → is_local lb s ∨ in_range lb s).
Proof. intros Hl lb. by apply LocalFirst_Select_elem. Qed.

(** The ip-range choice looks upwards only.  The servers it prefers are
    those from the local address up to the range above it; a server below the
    local address, however close, is not preferred, as the difference of the
    [uint32]s wraps around (the local-first choice converts it to [int32]). *)
Theorem IpRangeFirst_upwards `{Randomness} config l :
  l ≠ [] → 0 ≤ blf_DiffRange config < 2 ^ 31 →
  let lb := NewLoadBalanceIpRangeFirst config in
  (∃ s, IpRangeFirst_Select lb l = Some s ∧ s ∈ l ∧
    ((∃ s', s' ∈ l ∧ in_range_above lb s') → in_range_above lb s)) ∧
  ∀ s, has_ip s → Z.abs (IpToInt (sv_Host s) - IpToInt (blf_LocalIp config)) < 2 ^ 31 →
    (in_range_above lb s ↔
       0 ≤ IpToInt (sv_Host s) - IpToInt (blf_LocalIp config) ≤ blf_DiffRange config).
Proof.
  intros Hl Hd lb. split; [by apply IpRangeFirst_Select_elem|]. intros s Hs Hr.
  unfold in_range_above. cbn [lb NewLoadBalanceIpRangeFirst lf_localIp lf_config].
  set (d := IpToInt (sv_Host s) - _) in *. destruct (decide (0 ≤ d)).
  - rewrite wrapu_small by lia. naive_solver lia.
  - assert (u32 d = d + 2 ^ 32) as ->; [|lia].
    unfold wrapu. rewrite <- (Z_mod_plus_full _ 1), Z.mod_small; lia.
Qed.

(** Positive [uint32] weights. *)
Definition weights_pos (l : ServerList) : Prop := Forall (λ s, 0 < sv_Weight s < 2 ^ 32) l.

(** What the first loop computes, as the second one needs it. *)
Lemma ConfigurableWeight_scan_servers l :
  l ≠ [] → weights_pos l →
  ∃ g m, ConfigurableWeight_scan 0 0 0 (sv_Weight <$> l) = Ret (g, m) ∧
    ((2 ≤ length l)%nat → 0 < g) ∧ 0 ≤ g < 2 ^ 32 ∧ 0 < m < 2 ^ 32 ∧
    (∃ s, s ∈ l ∧ sv_Weight s = m) ∧ Forall (λ s, sv_Weight s ≤ m) l.
Proof.
  intros Hl Hw. unfold weights_pos in Hw.
  destruct (ConfigurableWeight_scan_spec 0 0 0 (sv_Weight <$> l))
    as (g & m & E & Hg & Hg0 & Hm & Hm0 & Hle); 
    [by destruct l|by apply Forall_fmap|lia|lia|done|].
  rewrite length_fmap in Hg.
  apply (Forall_fmap sv_Weight (λ w, w ≤ m)) in Hle.
  assert (∃ s, s ∈ l ∧ sv_Weight s = m) as (s & Hs & Em).
  { destruct Hm as [->|(s & -> & ?)%list_elem_of_fmap]; [|eauto].
    destruct l as [|s l]; [done|]. apply Forall_cons in Hw as [H0 _], Hle as [H1 _].
    change (sv_Weight s ≤ 0) in H1. exfalso. lia. }
  rewrite Forall_forall in Hw. pose proof (Hw s Hs) as Hws. cbn in Hws.
  exists g, m. split_and!; try lia; [exact E|eauto|exact Hle].
Qed.

(** C38: the configurable-weight loop ends.  With positive weights, a state
    the balancer can be in (index from [-1], level a [uint32], level 0 only
    before the first call) and at least two servers, or a level no higher
    than the one server's weight, [Select] returns: some fuel suffices and
    more does not change that.  The server is one of the list, with a weight
    of at least the level reached. *)
Theorem ConfigurableWeight_terminates st l :
  l ≠ [] → weights_pos l →
  -1 ≤ currentIndex st → 0 ≤ currentWeight st < 2 ^ 32 →
  (currentWeight st = 0 → currentIndex st = -1) →
  ((2 ≤ length l)%nat ∨ ∀ s, s ∈ l → currentWeight st ≤ sv_Weight s) →
  ∃ k, ∀ fuel, (k ≤ fuel)%nat → ∃ st' s,
    ConfigurableWeight_Select fuel st l = Ret (st', Some s) ∧ s ∈ l ∧
    0 < currentWeight st' ≤ sv_Weight s.
Proof.
  intros Hl Hw Hi Hc Hz Hn.
  destruct (ConfigurableWeight_scan_servers l Hl Hw)
    as (g & m & E & Hg2 & Hg & Hm & (s & Hs & Hsm) & Hle).
  destruct (loop_terminates l g m Hl Hg Hm (ex_intro _ s (conj Hs Hsm)) Hle
    (currentIndex st) (currentWeight st)) as [k Hk]; [done|done|..].
  - destruct Hn as [Hn|Hn]; [auto|]. right. rewrite <- Hsm. by apply Hn.
  - destruct (decide (currentWeight st = 0)) as [E0|]; [right|left; lia].
    rewrite Hz by done. done.
  - exists k. intros fuel Hf. destruct (Hk fuel Hf) as (st' & s' & E' & Hs').
    exists st', s'. split; [|done]. unfold ConfigurableWeight_Select.
    destruct l; [done|]. rewrite E. destruct st. apply E'.
Qed.

(** Where it does not.  One server that is lighter than the level an
    earlier, longer list left behind keeps the loop going for ever: the gcd
    of a list of one stays 0, so the level never falls.  No fuel is enough,
    and the code holds the balancer's lock. *)
Theorem ConfigurableWeight_diverges fuel st s :
  -1 ≤ currentIndex st → 0 < sv_Weight s < currentWeight st → currentWeight st < 2 ^ 32 →
  ConfigurableWeight_Select fuel st [s] = OutOfFuel.
Proof.
  intros Hi Hw Hc. unfold ConfigurableWeight_Select.
  change (ConfigurableWeight_scan 0 0 0 (sv_Weight <$> [s])) with (Ret (0, max 0 (sv_Weight s))).
  cbn [mbind go_bind]. destruct st as [idx cw]. cbn in *. revert idx Hi.
  induction fuel as [|fuel IH]; intros idx Hi; [done|].
  cbn [ConfigurableWeight_loop]. unfold ConfigurableWeight_round. cbn -[Z.rem go_index].
  rewrite Z.rem_1_r. cbn -[go_index]. rewrite Z.sub_0_r, (wraps_small 64) by lia.
  destruct (Z.leb_spec cw 0); [lia|]. destruct (Z.eqb_spec cw 0); [lia|].
  change (go_index [s] 0) with (Ret s). cbn [mbind go_bind].
  rewrite wrapu_small by lia. destruct (Z.leb_spec cw (sv_Weight s)); [lia|].
  cbn. apply IH. lia.
Qed.
End LoadBalance.

(** ** Witnesses *)

(** What amd64 does: the minimum. *)
Definition amd64_float : FloatConversion.
Proof. refine {| float64_to_int32_overflow := λ _, - 2 ^ 31 |}. intros. lia. Defined.

(** A server with a host and a weight. *)
Definition weighted (host : string) (w : Z) : Server :=
  mkServer host 8080 "s" ServerProtocol_THRIFT ServerStatus_AVAILABLE 0 w
    None None None None None None false "" DEFAULT_DC.

Definition local_config : BalanceLocalFirstConfig := mkBalanceLocalFirstConfig "10.0.1.7" 256.

Lemma weighted_ok hosts_weights :
  forallb (λ hw, Z.ltb 0 hw.2 && Z.ltb hw.2 (2 ^ 32))%bool hosts_weights = true →
  weights_pos ((λ hw, weighted hw.1 hw.2) <$> hosts_weights).
Proof.
  intros Hf. apply Forall_fmap, Forall_forall. intros [h w] Hin.
  rewrite forallb_forall in Hf. specialize (Hf (h, w)). cbn in *.
  apply list_elem_of_In in Hin. specialize (Hf Hin). b2p. lia.
Qed.

Lemma weights_pos_ok l : weights_pos l → weights_ok l.
Proof. intros Hl. eapply Forall_impl; [exact Hl|]. cbn. lia. Qed.

Definition two_servers : ServerList :=
  (λ hw, weighted hw.1 hw.2) <$> [("10.0.1.6", 3); ("10.0.9.9", 5)].

Lemma two_servers_pos : weights_pos two_servers.
Proof. by apply weighted_ok. Qed.

Lemma IpToInt_dotted_witness :
  IpToInt (H:=amd64_float) (dotted 192 168 0 1) =
    u32 (- 2 ^ 31 + 168 * 2 ^ 16 + 0 * 2 ^ 8 + 1).
Proof. apply (IpToInt_dotted (H:=amd64_float) 192 168 0 1); lia. Defined.

Lemma Select_total_sound_witness :
  ∃ lb' r, Select (H:=amd64_float) (H0:=fixed_draws 1) 0 LoadBalanceStaticWeight two_servers
      = Ret (lb', r) ∧ (r = None ↔ two_servers = []) ∧ ∀ s, r = Some s → s ∈ two_servers.
Proof.
  apply (Select_total_sound (H:=amd64_float) (H0:=fixed_draws 1)); [exact I|].
  apply weights_pos_ok, two_servers_pos.
Defined.

Lemma Roundrobin_fair_witness :
  Roundrobin_run 2 0 two_servers = Some <$> rotate 1 two_servers.
Proof. apply (Roundrobin_fair 0 two_servers); [done|lia|reflexivity]. Defined.

Lemma StaticWeight_proportional_witness :
  StaticWeight_Select (H0:=fixed_draws 7) two_servers
    = expand two_servers !! Z.to_nat (rand_Prime (Randomness:=fixed_draws 7) 32 `mod` 8) ∧
  Z.of_nat (length (expand two_servers)) = 8.
Proof.
  apply (StaticWeight_proportional (H0:=fixed_draws 7) two_servers); [|by vm_compute].
  apply weights_pos_ok, two_servers_pos.
Defined.

Lemma LocalFirst_prefers_local_witness :
  let lb := NewLoadBalanceLocalFirst (H:=amd64_float) local_config in
  ∃ s, LocalFirst_Select (H:=amd64_float) (H0:=fixed_draws 0) lb two_servers = Some s ∧
    s ∈ two_servers ∧
    ((∃ s', s' ∈ two_servers ∧ is_local (H:=amd64_float) lb s') →
      is_local (H:=amd64_float) lb s) ∧
    ((∃ s', s' ∈ two_servers ∧ in_range (H:=amd64_float) lb s') →
      is_local (H:=amd64_float) lb s ∨ in_range (H:=amd64_float) lb s).
Proof.
  apply (LocalFirst_prefers_local (H:=amd64_float) (H0:=fixed_draws 0) local_config two_servers).
  done.
Defined.

Lemma IpRangeFirst_upwards_witness :
  let lb := NewLoadBalanceIpRangeFirst (H:=amd64_float) local_config in
  ¬ in_range_above (H:=amd64_float) lb (weighted "10.0.1.6" 3).
Proof.
  intros lb Hin.
  destruct (IpRangeFirst_upwards (H:=amd64_float) (H0:=fixed_draws 0) local_config two_servers)
    as [_ Hr]; [done|by vm_compute|].
  apply (Hr (weighted "10.0.1.6" 3)) in Hin; [|by vm_compute..].
  destruct Hin as [Hin _]. by vm_compute in Hin.
Defined.

Lemma ConfigurableWeight_terminates_witness :
  ∃ k, ∀ fuel, (k ≤ fuel)%nat → ∃ st' s,
    ConfigurableWeight_Select fuel NewLoadBalanceConfigurableWeight two_servers
      = Ret (st', Some s) ∧ s ∈ two_servers ∧ 0 < currentWeight st' ≤ sv_Weight s.
Proof.
  apply (ConfigurableWeight_terminates NewLoadBalanceConfigurableWeight two_servers);
    [done|apply two_servers_pos|cbn; lia|cbn; lia|done|left; cbn; lia].
Defined.

(** The level 5 is what one call on [two_servers] leaves behind. *)
Lemma ConfigurableWeight_diverges_witness :
  ConfigurableWeight_Select 3 NewLoadBalanceConfigurableWeight two_servers
    = Ret (mkCurrentStateWrapper 1 5, Some (weighted "10.0.9.9" 5)) ∧
  ConfigurableWeight_Select 1000 (mkCurrentStateWrapper 1 5) [weighted "10.0.1.6" 3] = OutOfFuel.
Proof.
  split; [by vm_compute|].
  apply (ConfigurableWeight_diverges 1000 (mkCurrentStateWrapper 1 5)); cbn; lia.
Defined.
