(* ===== verification/RouterDb.v ===== *)
(** * The routing table ([sdk/go/common/service_router/router_db.go])

    [RouterDbImpl] maps a service key, a hash of service, protocol, shard,
    role and data centre, to the servers that serve it.  [UpdateServers]
    writes the table in several critical sections; the model keeps them apart
    as a list of writes, each atomic, so that what a reader sees between them
    can be stated. *)

From S2P Require Import Prelude RouterTypes.

Record RouterDbImpl := mkRouterDbImpl {
  services : gmap Z ServerList;
  lastPartitionKeys : gmap string (list Z);
  configs : gmap string ServiceConfig
}.

(** The instance [GetRouterDb] creates, once. *)
Definition GetRouterDb : RouterDbImpl :=
  {| services := ∅; lastPartitionKeys := ∅; configs := ∅ |}.

Definition set_services (m : gmap Z ServerList) (rd : RouterDbImpl) : RouterDbImpl :=
  mkRouterDbImpl m (lastPartitionKeys rd) (configs rd).
Definition set_lastPartitionKeys (m : gmap string (list Z)) (rd : RouterDbImpl)
  : RouterDbImpl := mkRouterDbImpl (services rd) m (configs rd).

(** ** Configurations *)

(** The copy of the table of configurations. *)
Definition GetConfigs `{MapOrder} (rd : RouterDbImpl) : gmap string ServiceConfig :=
  foldl (λ result kv, <[kv.1 := kv.2]> result) ∅ (map_range (configs rd)).

Definition GetServiceConfig `{MapOrder} (rd : RouterDbImpl) (serviceName : string)
  : option (gmap string string) :=
  match configs rd !! serviceName with
  | Some config =>
      match sc_Configs config with
      | Some m => Some (foldl (λ result kv, <[kv.1 := kv.2]> result) ∅ (map_range m))
      | None => None
      end
  | None => None
  end.

Definition GetServiceRouterConfig (rd : RouterDbImpl) (serviceName : string)
  : ServiceRouterConfig :=
  match configs rd !! serviceName with
  | Some config => sc_Router config
  | None => DefaultServiceRouterConfig
  end.

Definition UpdateConfig (serviceName : string) (config : ServiceConfig)
    (rd : RouterDbImpl) : RouterDbImpl :=
  mkRouterDbImpl (services rd) (lastPartitionKeys rd)
    (<[serviceName := config]> (configs rd)).

Definition RouterDb_ConfigNotify (serviceName : string) (config : ServiceConfig)
    (rd : RouterDbImpl) : RouterDbImpl := UpdateConfig serviceName config rd.

(** ** Servers *)

(** The servers of a list that are fresh and available at the time [now],
    in milliseconds. *)
Fixpoint PickServers_loop (now : Z) (routerConfig : ServiceRouterConfig)
    (serviceList : ServerList) : ServerList :=
  match serviceList with
  | [] => []
  | s :: rest =>
      if Z.ltb (u64 (sv_UpdateTime s + src_TtlInMs routerConfig)) (u64 now)
      then PickServers_loop now routerConfig rest
      else if negb (String.eqb (sv_Status s) ServerStatus_AVAILABLE)
      then PickServers_loop now routerConfig rest
      else s :: PickServers_loop now routerConfig rest
  end.

Definition PickServers (now : Z) (rd : RouterDbImpl) (serviceName : string)
    (serviceList : ServerList) : ServerList :=
  PickServers_loop now (GetServiceRouterConfig rd serviceName) serviceList.

Section RouterDb.
Context `{CityHash}.

Definition GetServiceKey (serviceName protocol : string) (routerId : Z)
    (shardType dc : string) : Z :=
  let key := city dc (u64 routerId) in
  let key := city serviceName key in
  let key := city protocol key in
  let key := city shardType key in
  i64 key.

(** The two maps the loop of [UpdateServers] fills. *)
Abbreviation ServersByKey := (gmap Z ServerList).

(** The body of the loop over the picked servers. *)
Definition UpdateServers_server (serviceName : string)
    (acc : ServersByKey * ServersByKey) (sv : Server) : ServersByKey * ServersByKey :=
  let '(shardServers, partitionServers) := acc in
  let sv := if Z.eqb (len (sv_Dc sv)) 0 then set_sv_Dc DEFAULT_DC sv else sv in
  let key routerId shardType :=
    GetServiceKey serviceName (sv_Protocol sv) routerId shardType (sv_Dc sv) in
  if sv_IsEdgeNode sv then
    (shardServers,
     foldl (λ m partitionHash, map_append m (key partitionHash ShardType_FOLLOWER) sv)
       partitionServers (default [] (sv_PartitionList sv)))
  else
    let availableShardList := default [] (sv_AvailableShardList sv) in
    let followerAvailableShardList := default [] (sv_FollowerAvailableShardList sv) in
    let availableShardList :=
      if (Nat.eqb (length (default [] (sv_ShardList sv))) 0 &&
          Nat.eqb (length (default [] (sv_FollowerShardList sv))) 0)%bool
      then availableShardList ++ [UINT32MAX] else availableShardList in
    let shardServers :=
      foldl (λ m shardId,
        map_append (map_append m (key shardId ShardType_LEADER) sv)
          (key shardId ShardType_ALL) sv)
        shardServers availableShardList in
    let shardServers :=
      foldl (λ m shardId,
        map_append (map_append m (key shardId ShardType_FOLLOWER) sv)
          (key shardId ShardType_ALL) sv)
        shardServers followerAvailableShardList in
    (shardServers, partitionServers).

(** The servers the update works on: the picked ones, all if none is. *)
Definition UpdateServers_picked (now : Z) (rd : RouterDbImpl) (serviceName : string)
    (serverList : ServerList) : ServerList :=
  let pickedResult := PickServers now rd serviceName serverList in
  if Nat.eqb (length pickedResult) 0 then serverList else pickedResult.

(** ** The critical sections of [UpdateServers], one definition each *)

(** Clean the partitions registered by the previous update, under both
    locks. *)
Definition write_clean (serviceName : string) (rd : RouterDbImpl) : RouterDbImpl :=
  match lastPartitionKeys rd !! serviceName with
  | Some keys =>
      set_lastPartitionKeys (<[serviceName := []]> (lastPartitionKeys rd))
        (set_services (foldl (λ m key, delete key m) (services rd) keys) rd)
  | None => rd
  end.

Definition write_make (serviceName : string) (rd : RouterDbImpl) : RouterDbImpl :=
  match lastPartitionKeys rd !! serviceName with
  | Some _ => rd
  | None => set_lastPartitionKeys (<[serviceName := []]> (lastPartitionKeys rd)) rd
  end.

Definition write_partition (serviceName : string) (kv : Z * ServerList)
    (rd : RouterDbImpl) : RouterDbImpl :=
  set_lastPartitionKeys (map_append (lastPartitionKeys rd) serviceName kv.1)
    (set_services (<[kv.1 := kv.2]> (services rd)) rd).

Definition write_shard (kv : Z * ServerList) (rd : RouterDbImpl) : RouterDbImpl :=
  set_services (<[kv.1 := kv.2]> (services rd)) rd.

(** The writes of one call, in order; the two maps are ranged over in the
    order the run-time takes. *)
Definition UpdateServers_writes `{MapOrder} (now : Z) (rd : RouterDbImpl)
    (serviceName : string) (serverList : ServerList)
  : list (RouterDbImpl → RouterDbImpl) :=
  if Nat.eqb (length serverList) 0 then []
  else
    let pickedResult := UpdateServers_picked now rd serviceName serverList in
    let '(shardServers, partitionServers) :=
      foldl (UpdateServers_server serviceName) (∅, ∅) pickedResult in
    [write_clean serviceName; write_make serviceName]
      ++ (write_partition serviceName <$> map_range partitionServers)
      ++ (write_shard <$> map_range shardServers).

Definition run_writes (ws : list (RouterDbImpl → RouterDbImpl)) (rd : RouterDbImpl)
  : RouterDbImpl := foldl (λ rd w, w rd) rd ws.

Definition UpdateServers `{MapOrder} (now : Z) (serviceName : string)
    (serverList : ServerList) (rd : RouterDbImpl) : RouterDbImpl :=
  run_writes (UpdateServers_writes now rd serviceName serverList) rd.

Definition RouterDb_ServiceNotify `{MapOrder} (now : Z) (serviceName : string)
    (services : ServerList) (rd : RouterDbImpl) : RouterDbImpl :=
  UpdateServers now serviceName services rd.

(** ** Lookups *)

Definition SelectServers (rd : RouterDbImpl) (serviceName protocol : string)
    (routerId : Z) (shardType dc : string) : option ServerList :=
  services rd !! GetServiceKey serviceName protocol routerId shardType dc.

Definition BatchSelectServers (rd : RouterDbImpl) (serviceName protocol : string)
    (routerIds : list Z) (shardType dc : string) : gmap Z ServerList :=
  foldl (λ result routerId,
    match SelectServers rd serviceName protocol routerId shardType dc with
    | Some serverList => <[routerId := serverList]> result
    | None => result
    end) ∅ routerIds.

(** ** What one server registers *)

Definition normalise (sv : Server) : Server :=
  if Z.eqb (len (sv_Dc sv)) 0 then set_sv_Dc DEFAULT_DC sv else sv.

(** The shards a server leads: with no shard list of its own, the shard of an
    unsharded service as well. *)
Definition leader_shards (sv : Server) : list Z :=
  let available := default [] (sv_AvailableShardList sv) in
  if (Nat.eqb (length (default [] (sv_ShardList sv))) 0 &&
      Nat.eqb (length (default [] (sv_FollowerShardList sv))) 0)%bool
  then available ++ [UINT32MAX] else available.

Definition follower_shards (sv : Server) : list Z :=
  default [] (sv_FollowerAvailableShardList sv).

(** The (router id, role) pairs of a server, in the order of the loops. *)
Definition shard_roles (sv : Server) : list (Z * string) :=
  if sv_IsEdgeNode sv then []
  else (leader_shards sv ≫= λ r, [(r, ShardType_LEADER); (r, ShardType_ALL)])
    ++ (follower_shards sv ≫= λ r, [(r, ShardType_FOLLOWER); (r, ShardType_ALL)]).

Definition partition_roles (sv : Server) : list (Z * string) :=
  if sv_IsEdgeNode sv
  then (λ r, (r, ShardType_FOLLOWER)) <$> default [] (sv_PartitionList sv) else [].

(** The entries [(key, server)] for a list of servers. *)
Definition entries (serviceName : string) (roles : Server → list (Z * string))
    (l : ServerList) : list (Z * Server) :=
  l ≫= λ sv, (λ rs, (GetServiceKey serviceName (sv_Protocol sv) rs.1 rs.2 (sv_Dc sv), sv))
    <$> roles sv.

(** ** Lemmas: the loop as appends of entries *)

Lemma map_append_all_app {V} (m : gmap Z (list V)) l1 l2 :
  map_append_all m (l1 ++ l2) = map_append_all (map_append_all m l1) l2.
Proof. apply foldl_app. Qed.

(** A loop whose body appends two entries. *)
Lemma foldl_append2 {V} (f g : Z → Z) (v : V) (m : gmap Z (list V)) l :
  foldl (λ m r, map_append (map_append m (f r) v) (g r) v) m l
    = map_append_all m (l ≫= λ r, [(f r, v); (g r, v)]).
Proof. revert m. induction l as [|r l IH]; intros m; [done|]. apply IH. Qed.

Lemma foldl_append1 {V} (f : Z → Z) (v : V) (m : gmap Z (list V)) l :
  foldl (λ m r, map_append m (f r) v) m l = map_append_all m ((λ r, (f r, v)) <$> l).
Proof. revert m. induction l as [|r l IH]; intros m; [done|]. apply IH. Qed.

Lemma fmap_pairs {A} (f : Z * string → A) (l : list Z) a b :
  f <$> (l ≫= λ r, [(r, a); (r, b)]) = l ≫= λ r, [f (r, a); f (r, b)].
Proof. induction l as [|r l IH]; [done|]. cbn. by rewrite <- IH. Qed.

Lemma entries_cons sn roles sv l :
  entries sn roles (sv :: l) = entries sn roles [sv] ++ entries sn roles l.
Proof. unfold entries. cbn [mbind list_bind]. by rewrite app_nil_r. Qed.

Lemma UpdateServers_server_entries sn m1 m2 sv :
  UpdateServers_server sn (m1, m2) sv =
    (map_append_all m1 (entries sn shard_roles [normalise sv]),
     map_append_all m2 (entries sn partition_roles [normalise sv])).
Proof.
  unfold UpdateServers_server, entries. fold (normalise sv). cbn [mbind list_bind].
  rewrite !app_nil_r. set (s := normalise sv). unfold shard_roles, partition_roles.
  destruct (sv_IsEdgeNode s).
  - rewrite foldl_append1, <- list_fmap_compose. done.
  - rewrite !foldl_append2, <- map_append_all_app, fmap_app, !fmap_pairs. done.
Qed.

Lemma UpdateServers_collect sn l m1 m2 :
  foldl (UpdateServers_server sn) (m1, m2) l =
    (map_append_all m1 (entries sn shard_roles (normalise <$> l)),
     map_append_all m2 (entries sn partition_roles (normalise <$> l))).
Proof.
  revert m1 m2. induction l as [|sv l IH]; intros m1 m2; [done|].
  cbn [foldl fmap list_fmap]. rewrite UpdateServers_server_entries, IH.
  change (list_fmap _ _ normalise l) with (normalise <$> l).
  rewrite (entries_cons sn shard_roles (normalise sv) (normalise <$> l)).
  rewrite (entries_cons sn partition_roles (normalise sv) (normalise <$> l)).
  by rewrite !map_append_all_app.
Qed.

Lemma elem_of_entries sn roles l k s :
  (k, s) ∈ entries sn roles l ↔ s ∈ l ∧ ∃ r st, (r, st) ∈ roles s ∧
    k = GetServiceKey sn (sv_Protocol s) r st (sv_Dc s).
Proof.
  unfold entries. rewrite list_elem_of_bind. split.
  - intros (sv & ([r st] & E & ?)%list_elem_of_fmap & ?). simplify_eq/=. eauto 6.
  - intros (? & r & st & ? & ->). exists s. split; [|done].
    apply list_elem_of_fmap. by exists (r, st).
Qed.

(** ** Lemmas: the table after the writes *)

Section Writes.
Context `{MapOrder}.

Lemma run_writes_app ws1 ws2 rd :
  run_writes (ws1 ++ ws2) rd = run_writes ws2 (run_writes ws1 rd).
Proof. apply foldl_app. Qed.

Lemma write_shard_all kvs rd :
  run_writes (write_shard <$> kvs) rd =
    set_services (foldl (λ m kv, <[kv.1 := kv.2]> m) (services rd) kvs) rd.
Proof.
  revert rd. induction kvs as [|kv kvs IH]; intros rd; [by destruct rd|].
  cbn [fmap list_fmap]. change (run_writes ?w (?f rd)) with (run_writes w (f rd)).
  cbn [run_writes foldl]. fold (run_writes (write_shard <$> kvs) (write_shard kv rd)).
  by rewrite IH.
Qed.

Lemma write_partition_all sn kvs rd :
  run_writes (write_partition sn <$> kvs) rd =
    set_lastPartitionKeys (foldl (λ m kv, map_append m sn kv.1) (lastPartitionKeys rd) kvs)
      (set_services (foldl (λ m kv, <[kv.1 := kv.2]> m) (services rd) kvs) rd).
Proof.
  revert rd. induction kvs as [|kv kvs IH]; intros rd; [by destruct rd|].
  cbn [fmap list_fmap run_writes foldl].
  fold (run_writes (write_partition sn <$> kvs) (write_partition sn kv rd)).
  by rewrite IH.
Qed.

(** The keys the previous update registered for partitions. *)
Definition old_partition_keys (rd : RouterDbImpl) (sn : string) : list Z :=
  default [] (lastPartitionKeys rd !! sn).

Lemma write_clean_services sn rd k :
  services (write_clean sn rd) !! k =
    if decide (k ∈ old_partition_keys rd sn) then None else services rd !! k.
Proof.
  unfold write_clean, old_partition_keys.
  destruct (lastPartitionKeys rd !! sn) as [keys|]; cbn [default services].
  - apply foldl_delete_lookup.
  - by rewrite decide_False by apply not_elem_of_nil.
Qed.

Lemma write_make_services sn rd : services (write_make sn rd) = services rd.
Proof. unfold write_make. by destruct (lastPartitionKeys rd !! sn). Qed.

(** The table after an update, key by key. *)
Lemma UpdateServers_services now sn l rd k :
  l ≠ [] →
  let picked := normalise <$> UpdateServers_picked now rd sn l in
  services (UpdateServers now sn l rd) !! k =
    match assoc_values k (entries sn shard_roles picked) with
    | [] =>
        match assoc_values k (entries sn partition_roles picked) with
        | [] => if decide (k ∈ old_partition_keys rd sn) then None else services rd !! k
        | vs => Some vs
        end
    | vs => Some vs
    end.
Proof.
  intros Hl picked. unfold UpdateServers, UpdateServers_writes.
  destruct (Nat.eqb_spec (length l) 0) as [E|_]; [by apply nil_length_inv in E|].
  rewrite UpdateServers_collect. fold picked. rewrite !run_writes_app.
  rewrite write_shard_all, write_partition_all. cbn [set_services set_lastPartitionKeys services].
  rewrite !foldl_insert_range, !lookup_union, !lookup_map_append_all_empty.
  cbn [run_writes foldl]. rewrite write_make_services, write_clean_services.
  destruct (assoc_values k (entries sn shard_roles picked)) as [|v vs]; [|by rewrite union_Some_l].
  rewrite (left_id_L None (∪)).
  destruct (assoc_values k (entries sn partition_roles picked)) as [|v vs]; [|by rewrite union_Some_l].
  by rewrite (left_id_L None (∪)).
Qed.

(** What a reader that takes the lock during the update can see: the table
    after some of the writes. *)
Definition visible (now : Z) (sn : string) (l : ServerList) (rd rd' : RouterDbImpl) : Prop :=
  ∃ ws1 ws2, UpdateServers_writes now rd sn l = ws1 ++ ws2 ∧ rd' = run_writes ws1 rd.

(** A property that every write of a list keeps holds after any prefix. *)
Lemma run_writes_inv (P : RouterDbImpl → Prop) ws rd :
  Forall (λ w, ∀ rd, P rd → P (w rd)) ws → P rd → P (run_writes ws rd).
Proof.
  intros Hws. revert rd. induction Hws as [|w ws Hw Hws IH]; intros rd Hrd; [done|].
  apply (IH (w rd)). by apply Hw.
Qed.

End Writes.

Lemma PickServers_loop_filter now rc l :
  PickServers_loop now rc l =
    filter (λ s, u64 now ≤ u64 (sv_UpdateTime s + src_TtlInMs rc) ∧
                 sv_Status s = ServerStatus_AVAILABLE) l.
Proof.
  induction l as [|s l IH]; [done|]. cbn [PickServers_loop]. rewrite filter_cons.
  destruct (Z.ltb_spec (u64 (sv_UpdateTime s + src_TtlInMs rc)) (u64 now)).
  { rewrite decide_False by lia. done. }
  destruct (String.eqb_spec (sv_Status s) ServerStatus_AVAILABLE) as [E|E]; cbn [negb].
  - rewrite decide_True by done. by rewrite IH.
  - rewrite decide_False by naive_solver. done.
Qed.

Lemma BatchSelectServers_lookup rd sn p rs st dc r :
  BatchSelectServers rd sn p rs st dc !! r =
    if decide (r ∈ rs) then SelectServers rd sn p r st dc else None.
Proof.
  unfold BatchSelectServers.
  assert (∀ m : gmap Z ServerList, foldl (λ result r, match SelectServers rd sn p r st dc with
      | Some l => <[r := l]> result | None => result end) m rs !! r =
    if decide (r ∈ rs) then (SelectServers rd sn p r st dc ∪ m !! r) else m !! r) as E.
  { induction rs as [|r' rs IH]; intros m; cbn [foldl].
    { by rewrite decide_False by apply not_elem_of_nil. }
    rewrite IH. destruct (decide (r = r')) as [->|Hne].
    - rewrite (decide_True (P := r' ∈ r' :: rs)) by left.
      destruct (SelectServers rd sn p r' st dc) as [l|].
      + rewrite lookup_insert_eq. case_decide; by rewrite ?union_Some_l.
      + by rewrite (left_id_L None (∪)); case_decide.
    - rewrite (decide_ext (r ∈ r' :: rs) (r ∈ rs)) by (rewrite elem_of_cons; naive_solver).
      destruct (SelectServers rd sn p r' st dc); [|done].
      by rewrite lookup_insert_ne by done. }
  rewrite E, lookup_empty. by destruct (SelectServers rd sn p r st dc).
Qed.

(** ** Properties *)

(** What a list of servers registers, as (protocol, router id, role, data
    centre), and that none of it has the service key of another tuple. *)
Definition registrations (l : ServerList) : list (string * Z * string * string) :=
  l ≫= λ sv, (λ rs, (sv_Protocol sv, rs.1, rs.2, sv_Dc sv))
    <$> shard_roles sv ++ partition_roles sv.

Definition no_collision (sn : string) (l : ServerList) (t : string * Z * string * string)
  : Prop :=
  Forall (λ t', GetServiceKey sn t'.1.1.1 t'.1.1.2 t'.1.2 t'.2
                  = GetServiceKey sn t.1.1.1 t.1.1.2 t.1.2 t.2 → t' = t)
    (registrations l).

(** The servers of a list for one protocol, router id, role and data centre,
    in the order of the list; one that registers the role twice is there
    twice. *)
Fixpoint serving (roles : Server → list (Z * string)) (p : string) (r : Z)
    (st dc : string) (l : ServerList) : ServerList :=
  match l with
  | [] => []
  | s :: l =>
      (if decide (sv_Protocol s = p ∧ sv_Dc s = dc)
       then (λ _, s) <$> filter (λ rs, rs = (r, st)) (roles s) else [])
      ++ serving roles p r st dc l
  end.

(** Under no collision the entries of a key are the servers of its role. *)
Lemma entries_serving_one sn s p r st dc roles :
  Forall (λ rs, GetServiceKey sn (sv_Protocol s) rs.1 rs.2 (sv_Dc s)
                  = GetServiceKey sn p r st dc →
                (sv_Protocol s, rs.1, rs.2, sv_Dc s) = (p, r, st, dc)) roles →
  assoc_values (GetServiceKey sn p r st dc)
    ((λ rs, (GetServiceKey sn (sv_Protocol s) rs.1 rs.2 (sv_Dc s), s)) <$> roles) =
  if decide (sv_Protocol s = p ∧ sv_Dc s = dc)
  then (λ _, s) <$> filter (λ rs, rs = (r, st)) roles else [].
Proof.
  induction 1 as [|[r' st'] roles Hr Hroles IH]; [by case_decide|].
  change ((λ rs, ?f rs) <$> (r', st') :: roles) with (f (r', st') :: (f <$> roles)).
  rewrite fmap_cons, assoc_values_cons, IH, filter_cons. cbn [fst snd] in *.
  destruct (decide (sv_Protocol s = p ∧ sv_Dc s = dc)) as [[Ep Ed]|Hn].
  - destruct (decide ((r', st') = (r, st))) as [[= -> ->]|Hne].
    + rewrite Ep, Ed, decide_True by done. done.
    + rewrite decide_False; [done|]. intros E. apply Hne. specialize (Hr E). by simplify_eq.
  - rewrite decide_False; [done|]. intros E. apply Hn. specialize (Hr E). by simplify_eq.
Qed.

Lemma entries_serving sn roles l p r st dc :
  (∀ s rs, rs ∈ roles s → rs ∈ shard_roles s ++ partition_roles s) →
  no_collision sn l (p, r, st, dc) →
  assoc_values (GetServiceKey sn p r st dc) (entries sn roles l) = serving roles p r st dc l.
Proof.
  intros Hsub. unfold no_collision, registrations.
  induction l as [|s l IH]; intros Hnc; [done|].
  rewrite bind_cons in Hnc. apply Forall_app in Hnc as [H1 H2].
  rewrite entries_cons, assoc_values_app, IH by done. cbn [serving]. f_equal.
  unfold entries. cbn [mbind list_bind]. rewrite app_nil_r.
  apply entries_serving_one, Forall_forall. intros rs Hrs.
  rewrite Forall_forall in H1. apply (H1 (sv_Protocol s, rs.1, rs.2, sv_Dc s)).
  apply list_elem_of_fmap. eauto.
Qed.

(** C10: what a lookup finds after an update.  With no hash collision, looking
    up a protocol, shard, role and data centre in the table after
    [UpdateServers] gives exactly the picked servers that serve it; failing
    those, exactly the edge nodes that hold it as a partition; and failing
    both, what was there before, unless the previous update had registered
    the key as a partition, in which case nothing.  An update with no servers
    changes nothing. *)
Theorem UpdateServers_SelectServers `{MapOrder} now sn l rd p r st dc :
  let picked := normalise <$> UpdateServers_picked now rd sn l in
  let rd' := UpdateServers now sn l rd in
  no_collision sn picked (p, r, st, dc) →
  if decide (l = []) then rd' = rd
  else
  SelectServers rd' sn p r st dc =
    match serving shard_roles p r st dc picked with
    | [] =>
        match serving partition_roles p r st dc picked with
        | [] => if decide (GetServiceKey sn p r st dc ∈ old_partition_keys rd sn)
                then None else SelectServers rd sn p r st dc
        | edge => Some edge
        end
    | found => Some found
    end.
Proof.
  intros picked rd' Hnc. case_decide as Hl; [by subst l|].
  unfold SelectServers at 1, rd'. rewrite UpdateServers_services by done. fold picked.
  rewrite (entries_serving sn shard_roles), (entries_serving sn partition_roles); try done.
  - intros. apply elem_of_app. by right.
  - intros. apply elem_of_app. by left.
Qed.

Lemma UpdateServers_writes_eq `{MapOrder} now sn l rd :
  l ≠ [] →
  let picked := normalise <$> UpdateServers_picked now rd sn l in
  UpdateServers_writes now rd sn l =
    [write_clean sn; write_make sn]
      ++ (write_partition sn <$> map_range (map_append_all ∅ (entries sn partition_roles picked)))
      ++ (write_shard <$> map_range (map_append_all ∅ (entries sn shard_roles picked))).
Proof.
  intros Hl picked. unfold UpdateServers_writes.
  destruct (Nat.eqb_spec (length l) 0) as [E|_]; [by apply nil_length_inv in E|].
  by rewrite UpdateServers_collect.
Qed.

(** Every write keeps a key that is no partition at its old or new value. *)
Lemma UpdateServers_writes_keep `{MapOrder} now sn l rd k :
  l ≠ [] →
  assoc_values k (entries sn partition_roles
    (normalise <$> UpdateServers_picked now rd sn l)) = [] →
  Forall (λ w, ∀ rd',
    k ∉ old_partition_keys rd' sn ∧
    (services rd' !! k = services rd !! k ∨
     services rd' !! k = services (UpdateServers now sn l rd) !! k) →
    k ∉ old_partition_keys (w rd') sn ∧
    (services (w rd') !! k = services rd !! k ∨
     services (w rd') !! k = services (UpdateServers now sn l rd) !! k))
    (UpdateServers_writes now rd sn l).
Proof.
  intros Hl Hp. rewrite UpdateServers_services by done.
  rewrite UpdateServers_writes_eq by done. cbn [app]. rewrite Hp.
  set (picked := normalise <$> _) in *.
  apply Forall_cons; split; [|apply Forall_cons; split; [|apply Forall_app; split]].
  - intros rd' [Hk Hv]. rewrite write_clean_services, decide_False by done. split; [|done].
    unfold write_clean, old_partition_keys in *.
    destruct (lastPartitionKeys rd' !! sn) eqn:E; [|by rewrite E].
    cbn. rewrite lookup_insert_eq. apply not_elem_of_nil.
  - intros rd' [Hk Hv]. rewrite write_make_services. split; [|done].
    unfold write_make, old_partition_keys in *.
    destruct (lastPartitionKeys rd' !! sn) eqn:E; [by rewrite E|].
    cbn. rewrite lookup_insert_eq. apply not_elem_of_nil.
  - apply Forall_fmap, Forall_forall. intros [k' vs] Hin%elem_of_map_range rd' [Hk Hv].
    assert (k' ≠ k) as Hne.
    { intros ->. rewrite lookup_map_append_all_empty, Hp in Hin. done. }
    cbn. rewrite lookup_insert_ne by done. split; [|done].
    unfold old_partition_keys in *. cbn. rewrite lookup_map_append, decide_True by done.
    cbn. by intros [|<-%list_elem_of_singleton]%elem_of_app.
  - apply Forall_fmap, Forall_forall. intros [k' vs] Hin%elem_of_map_range rd' [Hk Hv].
    split; [done|]. cbn. destruct (decide (k' = k)) as [->|Hne].
    + right. rewrite lookup_insert_eq. rewrite lookup_map_append_all_empty in Hin.
      by destruct (assoc_values k (entries sn shard_roles picked)).
    + by rewrite lookup_insert_ne.
Qed.

(** What readers see during an update.  A key that is no partition key,
    neither of the previous update nor of this one, has its old or its new
    servers in every table a reader can see between the critical sections.
    The partitions of the previous update are all gone in one of those tables,
    also those that this update puts back. *)
Theorem UpdateServers_visible `{MapOrder} now sn l rd k :
  l ≠ [] →
  let picked := normalise <$> UpdateServers_picked now rd sn l in
  if decide (k ∈ old_partition_keys rd sn)
  then ∃ rd', visible now sn l rd rd' ∧ services rd' !! k = None
  else assoc_values k (entries sn partition_roles picked) = [] →
    ∀ rd', visible now sn l rd rd' →
      services rd' !! k = services rd !! k ∨
      services rd' !! k = services (UpdateServers now sn l rd) !! k.
Proof.
  intros Hl picked. case_decide as Hk.
  { exists (write_clean sn rd). split; [|by rewrite write_clean_services, decide_True].
    eexists [write_clean sn], _. split; [|reflexivity].
    by rewrite UpdateServers_writes_eq by done. }
  intros Hp rd' (ws1 & ws2 & Ews & ->).
  pose proof (UpdateServers_writes_keep now sn l rd k Hl Hp) as Hws.
  rewrite Ews in Hws. apply Forall_app in Hws as [Hws _].
  by apply (run_writes_inv _ _ rd Hws); auto.
Qed.
End RouterDb.

(** ** Witnesses *)

Definition leader_server (host : string) (shards : list Z) : Server :=
  mkServer host 8080 "s" ServerProtocol_THRIFT ServerStatus_AVAILABLE 1000 0
    (Some shards) (Some shards) None None None None false "" "".

Definition edge_server (host : string) (partitions : list Z) : Server :=
  mkServer host 8080 "s" ServerProtocol_THRIFT ServerStatus_AVAILABLE 1000 0
    None None None None None (Some partitions) true "" "".

Definition example_servers : ServerList :=
  [leader_server "10.0.0.1" [0; 1]; leader_server "10.0.0.2" [1]; edge_server "10.0.0.3" [77]].

Lemma UpdateServers_SelectServers_witness :
  SelectServers (H:=toy_city)
    (UpdateServers (H:=toy_city) (H0:=stdpp_order) 2000 "s" example_servers GetRouterDb)
    "s" "thrift" 1 ShardType_LEADER DEFAULT_DC
  = Some [normalise (leader_server "10.0.0.1" [0; 1]); normalise (leader_server "10.0.0.2" [1])].
Proof.
  pose proof (UpdateServers_SelectServers (H:=toy_city) (H0:=stdpp_order) 2000 "s"
    example_servers GetRouterDb "thrift" 1 ShardType_LEADER DEFAULT_DC) as Hu.
  cbv zeta in Hu. rewrite decide_False in Hu by done. rewrite Hu.
  - vm_compute. reflexivity.
  - apply (bool_decide_unpack _). vm_compute. exact I.
Defined.

(** The partition 77 is registered before and after the second update, and
    missing in between. *)
Lemma UpdateServers_visible_witness :
  let rd := UpdateServers (H:=toy_city) (H0:=stdpp_order) 2000 "s" example_servers GetRouterDb in
  let find rd := SelectServers (H:=toy_city) rd "s" "thrift" 77 ShardType_FOLLOWER DEFAULT_DC in
  find rd = Some [normalise (edge_server "10.0.0.3" [77])] ∧
  find (UpdateServers (H:=toy_city) (H0:=stdpp_order) 2000 "s" example_servers rd) = find rd ∧
  ∃ rd', visible (H:=toy_city) (H0:=stdpp_order) 2000 "s" example_servers rd rd' ∧
    find rd' = None.
Proof.
  intros rd find. split; [by vm_compute|]. split; [by vm_compute|].
  pose proof (UpdateServers_visible (H:=toy_city) (H0:=stdpp_order) 2000 "s" example_servers rd
    (GetServiceKey (H:=toy_city) "s" "thrift" 77 ShardType_FOLLOWER DEFAULT_DC)) as Hu.
  cbv zeta in Hu. rewrite decide_True in Hu.
  - by apply Hu.
  - apply (bool_decide_unpack _). vm_compute. exact I.
Defined.
