(* ===== verification/Pool.v ===== *)
(** * The connection pool ([sdk/go/common/service_router/pool.go])

    The pool is shared by goroutines and protected by one mutex that its
    operations release in the middle.  Every critical section is a function
    on the pool; a goroutine is a program counter between two sections; the
    pool with its goroutines is a transition system in which any goroutine may
    move next.  A connection closed outside the lock belongs to the goroutine
    that closes it, and the close is one step with the section that follows.

    A [poolConn] is an index: [idle] holds indexes, [conns] and [activeTime]
    what they point to, so two references to one connection are seen to be
    the same.  Times are nanoseconds, the zero [time.Time] is 0. *)

From S2P Require Import Prelude RouterTypes.

Definition ErrPoolExhausted : error := mkError "connection pool exhausted" false.
Definition ErrNoFactory : error := mkError "Factory method must be specified." false.

(** ** [Then] and [Done]: what a call on a connection returns

    A callback is a function on the caller's state [S]; [None] is [nil]. *)

Record Then (A : Type) := mkThen { Resp : option A; Err : option error }.
Arguments mkThen {A}. Arguments Resp {A}. Arguments Err {A}.

Section Callbacks.
Context {A S : Type}.

Definition Then_OnSuccess (t : Then A) (suc : option (option A → S → S)) (s : S) : S :=
  match Err t, suc with None, Some f => f (Resp t) s | _, _ => s end.

Definition Then_OnError (t : Then A) (err : option (error → S → S)) (s : S) : S :=
  match Err t, err with Some e, Some f => f e s | _, _ => s end.

Definition Then_TryResponse (t : Then A) (suc : option (option A → S → S))
    (err : option (error → S → S)) (s : S) : S :=
  match Err t with
  | Some e => match err with Some f => f e s | None => s end
  | None => match suc with Some f => f (Resp t) s | None => s end
  end.

Definition Done_Done (then_ : Then A) (done : option (S → S)) (s : S) : Then A * S :=
  (then_, match done with Some f => f s | None => s end).
End Callbacks.

(** ** The [Conn] interface *)

Class Conn (C : Type) := {
  conn_Err : C → option error;
  conn_SetErr : option error → C → C;
  conn_Good : Z → C → bool;
  conn_ForceClose : C → bool;
  conn_Close : C → C
}.

(** ** Options *)

Definition defaultMaxIdleTime : Z := 30 * 10 ^ 9.

Record poolOptions := mkPoolOptions {
  maxIdle : Z;
  maxActive : Z;
  wait : bool;
  idleTimeout : Z;
  metric : bool
}.

Definition PoolMetric (m : bool) (o : poolOptions) : poolOptions :=
  mkPoolOptions (maxIdle o) (maxActive o) (wait o) (idleTimeout o) m.
Definition PoolMaxIdle (n : Z) (o : poolOptions) : poolOptions :=
  mkPoolOptions n (maxActive o) (wait o) (idleTimeout o) (metric o).
Definition PoolMaxActive (n : Z) (o : poolOptions) : poolOptions :=
  mkPoolOptions (maxIdle o) n (wait o) (idleTimeout o) (metric o).
Definition PoolWait (b : bool) (o : poolOptions) : poolOptions :=
  mkPoolOptions (maxIdle o) (maxActive o) b (idleTimeout o) (metric o).
Definition PoolIdleTimeout (t : Z) (o : poolOptions) : poolOptions :=
  mkPoolOptions (maxIdle o) (maxActive o) (wait o) t (metric o).

(** [runtime.NumCPU()] is an argument. *)
Definition newPoolOptions (numCPU : Z) (opt : list (poolOptions → poolOptions))
  : poolOptions :=
  let opts := foldl (λ opts o, o opts) (mkPoolOptions 0 0 false 0 false) opt in
  let opts := if Z.leb (maxActive opts) 0 then PoolMaxActive numCPU opts else opts in
  let opts :=
    if (Z.leb (maxIdle opts) 0 || Z.ltb (maxActive opts) (maxIdle opts))%bool
    then PoolMaxIdle (maxActive opts) opts else opts in
  if Z.leb (idleTimeout opts) 0 then PoolIdleTimeout defaultMaxIdleTime opts else opts.

(** ** The pool *)

(** A buffered [chan struct{}]: how many values wait in it; its capacity is
    the pool's [MaxActive]. *)
Record chan := mkChan { tokens : Z; chan_closed : bool }.

Record Pool (C : Type) := mkPool {
  MaxIdle : Z;
  MaxActive : Z;
  IdleTimeout : Z;
  Wait : bool;
  blockMeter : option Z;      (* the marks counted, [None] with no metric *)
  initialized : bool;
  closed : bool;
  active : Z;
  queue : option chan;
  idle : list nat;            (* front first *)
  activeTime : gmap nat Z;
  conns : gmap nat C;
  next_conn : nat;            (* the next unused index *)
  locked : bool               (* held by a goroutine that blocks for ever *)
}.
Arguments mkPool {C}. Arguments MaxIdle {C}. Arguments MaxActive {C}.
Arguments IdleTimeout {C}. Arguments Wait {C}. Arguments blockMeter {C}.
Arguments initialized {C}. Arguments closed {C}. Arguments active {C}.
Arguments queue {C}. Arguments idle {C}. Arguments activeTime {C}.
Arguments conns {C}. Arguments next_conn {C}. Arguments locked {C}.

Section Pool.
Context {C : Type} `{Conn C}.

Definition NewPool (numCPU : Z) (opt : list (poolOptions → poolOptions)) : Pool C :=
  let opts := newPoolOptions numCPU opt in
  {| MaxIdle := maxIdle opts; MaxActive := maxActive opts;
     IdleTimeout := idleTimeout opts; Wait := wait opts;
     blockMeter := if metric opts then Some 0 else None;
     initialized := false; closed := false; active := 0; queue := None;
     idle := []; activeTime := ∅; conns := ∅; next_conn := 0; locked := false |}.

(** Field updates. *)
Definition set_blockMeter v (p : Pool C) : Pool C :=
  mkPool (MaxIdle p) (MaxActive p) (IdleTimeout p) (Wait p) v (initialized p) (closed p)
    (active p) (queue p) (idle p) (activeTime p) (conns p) (next_conn p) (locked p).
Definition set_initialized v (p : Pool C) : Pool C :=
  mkPool (MaxIdle p) (MaxActive p) (IdleTimeout p) (Wait p) (blockMeter p) v (closed p)
    (active p) (queue p) (idle p) (activeTime p) (conns p) (next_conn p) (locked p).
Definition set_closed v (p : Pool C) : Pool C :=
  mkPool (MaxIdle p) (MaxActive p) (IdleTimeout p) (Wait p) (blockMeter p) (initialized p) v
    (active p) (queue p) (idle p) (activeTime p) (conns p) (next_conn p) (locked p).
Definition set_active v (p : Pool C) : Pool C :=
  mkPool (MaxIdle p) (MaxActive p) (IdleTimeout p) (Wait p) (blockMeter p) (initialized p)
    (closed p) v (queue p) (idle p) (activeTime p) (conns p) (next_conn p) (locked p).
Definition set_queue v (p : Pool C) : Pool C :=
  mkPool (MaxIdle p) (MaxActive p) (IdleTimeout p) (Wait p) (blockMeter p) (initialized p)
    (closed p) (active p) v (idle p) (activeTime p) (conns p) (next_conn p) (locked p).
Definition set_idle v (p : Pool C) : Pool C :=
  mkPool (MaxIdle p) (MaxActive p) (IdleTimeout p) (Wait p) (blockMeter p) (initialized p)
    (closed p) (active p) (queue p) v (activeTime p) (conns p) (next_conn p) (locked p).
Definition set_activeTime v (p : Pool C) : Pool C :=
  mkPool (MaxIdle p) (MaxActive p) (IdleTimeout p) (Wait p) (blockMeter p) (initialized p)
    (closed p) (active p) (queue p) (idle p) v (conns p) (next_conn p) (locked p).
Definition set_conns v (p : Pool C) : Pool C :=
  mkPool (MaxIdle p) (MaxActive p) (IdleTimeout p) (Wait p) (blockMeter p) (initialized p)
    (closed p) (active p) (queue p) (idle p) (activeTime p) v (next_conn p) (locked p).
Definition set_next_conn v (p : Pool C) : Pool C :=
  mkPool (MaxIdle p) (MaxActive p) (IdleTimeout p) (Wait p) (blockMeter p) (initialized p)
    (closed p) (active p) (queue p) (idle p) (activeTime p) (conns p) v (locked p).
Definition set_locked v (p : Pool C) : Pool C :=
  mkPool (MaxIdle p) (MaxActive p) (IdleTimeout p) (Wait p) (blockMeter p) (initialized p)
    (closed p) (active p) (queue p) (idle p) (activeTime p) (conns p) (next_conn p) v.

(** A call that updates the connection [c] points to. *)
Definition on_conn (f : C → C) (c : nat) (p : Pool C) : Pool C :=
  set_conns (alter f c (conns p)) p.

(** [p.queue <- struct{}{}]: a full buffer blocks, with the lock held. *)
Definition send (p : Pool C) : option (Pool C) :=
  match queue p with
  | Some ch =>
      if Z.ltb (tokens ch) (MaxActive p)
      then Some (set_queue (Some (mkChan (tokens ch + 1) (chan_closed ch))) p) else None
  | None => Some p
  end.

(** [if p.queue != nil && !p.closed { p.queue <- struct{}{} }]. *)
Definition send_back (p : Pool C) : option (Pool C) :=
  match queue p with
  | Some _ => if negb (closed p) then send p else Some p
  | None => Some p
  end.

(** ** The critical sections *)

Definition Pool_Close (p : Pool C) : Pool C :=
  if closed p then p
  else
    let p := set_closed true p in
    let p := set_active (active p - Z.of_nat (length (idle p))) p in
    let p := set_idle [] (foldl (λ p c, on_conn conn_Close c p) p (idle p)) in
    match queue p with
    | Some ch => set_queue (Some (mkChan (tokens ch) true)) p
    | None => p
    end.

Definition initQueue (p : Pool C) : Pool C :=
  if initialized p then p
  else
    let p := if closed p then p else set_queue (Some (mkChan (MaxActive p) false)) p in
    set_initialized true p.

Definition getFrontValue (p : Pool C) : option nat := head (idle p).
Definition getBackValue (p : Pool C) : option nat := last (idle p).

Definition idleBackTimeout (now : Z) (p : Pool C) : bool :=
  match getBackValue p with
  | Some pc => Z.ltb (default 0 (activeTime p !! pc) + IdleTimeout p) now
  | None => false
  end.

(** [p.idle.Remove(p.idle.Back())]. *)
Definition remove_back (p : Pool C) : Pool C := set_idle (removelast (idle p)) p.

(** Where a goroutine is. *)
Inductive thread :=
  | Start                              (* about to call [Aquire] *)
  | Metering                           (* queue initialised *)
  | Receiving                          (* at [<-p.queue] *)
  | Locking                            (* about to lock, line 290 *)
  | Pruning (i n : Z) (c : nat)        (* took a stale connection off the list *)
  | Checking (c : nat)                 (* about to ask [Good] *)
  | Creating                           (* about to call the factory *)
  | Held (c : nat)                     (* [Aquire] returned a connection *)
  | Failed (e : error)                 (* [Aquire] returned an error *)
  | Releasing (c : nat) (err : option error) (forceClose : bool)
  | Evicting (c : nat)                 (* [release] about to close *)
  | Released (c : nat)                 (* [Close] returned *)
  | Stuck.                             (* blocked at a send, lock held *)

(** The section from the loop over the front of the list on. *)
Definition aquire_front (p : Pool C) : Pool C * thread :=
  match idle p with
  | c :: rest => (set_idle rest p, Checking c)
  | [] =>
      if (negb (Wait p) && Z.ltb 0 (MaxActive p) && Z.leb (MaxActive p) (active p))%bool
      then (p, Failed ErrPoolExhausted)
      else (set_active (active p + 1) p, Creating)
  end.

(** The pruning loop, at index [i] of [n]. *)
Definition aquire_prune (now i n : Z) (p : Pool C) : Pool C * thread :=
  if (Z.ltb 0 (IdleTimeout p) && Z.ltb i n && idleBackTimeout now p)%bool
  then match getBackValue p with
       | Some c => (remove_back p, Pruning i n c)
       | None => aquire_front p
       end
  else aquire_front p.

(** The tail of [release] and of a failed [aquire]. *)
Definition finish (next : thread) (p : Pool C) : Pool C * thread :=
  match send_back p with
  | Some p => (p, next)
  | None => (set_locked true p, Stuck)
  end.

Definition release (now : Z) (c : nat) (err : option error) (forceClose : bool)
    (p : Pool C) : Pool C * thread :=
  if (negb (closed p) && negb forceClose)%bool then
    let p := set_activeTime (<[c := now]> (activeTime p)) p in
    let p := match err with
             | Some _ => set_idle (idle p ++ [c]) p
             | None => set_idle (c :: idle p) p
             end in
    if Z.ltb (MaxIdle p) (Z.of_nat (length (idle p)))
    then match getBackValue p with
         | Some c' => (remove_back p, Evicting c')
         | None => finish (Released c) p
         end
    else finish (Released c) p
  else (p, Evicting c).

(** ** One step of a goroutine

    [now] is the clock, [fresh] what the factory returns if it is asked
    ([None]: no factory was given).  [None] is a goroutine that cannot move
    now. *)
Definition lock (p : Pool C) (k : Pool C * thread) : option (Pool C * thread) :=
  if locked p then None else Some k.

Definition factory (fresh : option (C + error)) : C + error :=
  match fresh with Some r => r | None => inr ErrNoFactory end.

Definition thread_step (now : Z) (fresh : option (C + error)) (t : thread) (p : Pool C)
  : option (Pool C * thread) :=
  match t with
  | Start =>
      if (Wait p && Z.ltb 0 (MaxActive p))%bool
      then if initialized p then Some (p, Metering) else lock p (initQueue p, Metering)
      else Some (p, Locking)
  | Metering =>
      let len_queue := match queue p with Some ch => tokens ch | None => 0 end in
      Some (match blockMeter p with
            | Some n => if Z.eqb len_queue 0 then set_blockMeter (Some (n + 1)) p else p
            | None => p
            end, Receiving)
  | Receiving =>
      match queue p with
      | Some ch =>
          if Z.ltb 0 (tokens ch)
          then Some (set_queue (Some (mkChan (tokens ch - 1) (chan_closed ch))) p, Locking)
          else if chan_closed ch then Some (p, Locking) else None
      | None => None
      end
  | Locking => lock p (aquire_prune now 0 (Z.of_nat (length (idle p))) p)
  | Pruning i n c =>
      lock p (let p := on_conn conn_Close c p in
              aquire_prune now (i + 1) n (set_active (active p - 1) p))
  | Checking c =>
      match conns p !! c with
      | Some conn =>
          if conn_Good (default 0 (activeTime p !! c)) conn
          then Some (on_conn (conn_SetErr None) c p, Held c)
          else lock p (let p := on_conn conn_Close c p in
                       aquire_front (set_active (active p - 1) p))
      | None => None
      end
  | Creating =>
      match factory fresh with
      | inl conn =>
          let c := next_conn p in
          Some (on_conn (conn_SetErr None) c
                  (set_next_conn (S c) (set_conns (<[c := conn]> (conns p)) p)), Held c)
      | inr e => lock p (finish (Failed e) (set_active (active p - 1) p))
      end
  | Held c =>
      match conns p !! c with
      | Some conn => Some (p, Releasing c (conn_Err conn) (conn_ForceClose conn))
      | None => None
      end
  | Releasing c err forceClose => lock p (release now c err forceClose p)
  | Evicting c =>
      lock p (let p := on_conn conn_Close c p in
              finish (Released c) (set_active (active p - 1) p))
  | Failed _ | Released _ | Stuck => None
  end.

(** ** [activeConn]: a reference to a connection of the pool, or [nil] *)

Definition activeConn_Err (ac : option nat) (p : Pool C) : option error :=
  pc ← ac; conn ← conns p !! pc; conn_Err conn.

Definition activeConn_SetErr (ac : option nat) (err : option error) (p : Pool C) : Pool C :=
  match ac with Some pc => on_conn (conn_SetErr err) pc p | None => p end.

Definition activeConn_Good (ac : option nat) (t : Z) (p : Pool C) : bool :=
  match ac with Some pc => default false (conn_Good t <$> conns p !! pc) | None => false end.

Definition activeConn_ForceClose (ac : option nat) (p : Pool C) : bool :=
  match ac with Some pc => default true (conn_ForceClose <$> conns p !! pc) | None => true end.

(** ** The system: the pool and its goroutines *)

Abbreviation system := (Pool C * list thread)%type.

(** A step of the system: a new goroutine that wants a connection, a step of
    one, a [Close] of the pool, or a change of a connection by what it talks
    to or by the goroutine that uses it. *)
Inductive pool_step : system → system → Prop :=
  | step_spawn p ts : pool_step (p, ts) (p, ts ++ [Start])
  | step_thread p ts i t now fresh p' t' :
      ts !! i = Some t → thread_step now fresh t p = Some (p', t') →
      pool_step (p, ts) (p', <[i := t']> ts)
  | step_close p ts : locked p = false → pool_step (p, ts) (Pool_Close p, ts)
  | step_conn p ts f c : pool_step (p, ts) (on_conn f c p, ts).

(** The same with a second [Close] on a connection that was released: the
    [activeConn] still points to its connection. *)
Inductive pool_step_reclose : system → system → Prop :=
  | step_once s s' : pool_step s s' → pool_step_reclose s s'
  | step_reclose p ts i c conn :
      ts !! i = Some (Released c) → conns p !! c = Some conn →
      pool_step_reclose (p, ts)
        (p, <[i := Releasing c (conn_Err conn) (conn_ForceClose conn)]> ts).

(** ** What each goroutine has *)

(** The connections it refers to. *)
Definition owns (t : thread) : list nat :=
  match t with
  | Pruning _ _ c | Checking c | Held c | Releasing c _ _ | Evicting c => [c]
  | _ => []
  end.

(** The connections it accounts for in [active], one being created included. *)
Definition conn_count (t : thread) : Z :=
  match t with
  | Pruning _ _ _ | Checking _ | Creating | Held _ | Releasing _ _ _ | Evicting _ => 1
  | _ => 0
  end.

(** The tokens of the queue it has taken. *)
Definition token (t : thread) : Z :=
  match t with Locking => 1 | _ => conn_count t end.

(** It has been through [initQueue] and waits. *)
Definition waiting (t : thread) : bool :=
  match t with Metering | Receiving => true | _ => false end.

Definition has_stuck (t : thread) : bool := match t with Stuck => true | _ => false end.

Fixpoint total (f : thread → Z) (ts : list thread) : Z :=
  match ts with [] => 0 | t :: ts => f t + total f ts end.

Definition owned (ts : list thread) : list nat := ts ≫= owns.

(** ** The invariant, in terms of what the goroutines have together:
    connections counted [n], connections referred to [o], tokens [k], whether
    one waits [w] *)
Record good (p : Pool C) (n : Z) (o : list nat) (k : Z) (w : bool) : Prop := {
  good_MaxIdle : MaxIdle p ≤ MaxActive p;
  good_MaxActive : 0 < MaxActive p;
  good_count : active p = Z.of_nat (length (idle p)) + n;
  good_idle : Z.of_nat (length (idle p)) ≤ MaxIdle p;
  good_closed : closed p = true → idle p = [];
  good_unique : NoDup (idle p ++ o);
  good_conns : ∀ c, c ∈ idle p ++ o → (c < next_conn p)%nat ∧ is_Some (conns p !! c);
  good_locked : locked p = false;
  good_active : Wait p = false ∨ closed p = false → active p ≤ MaxActive p;
  good_waiting : w = true → initialized p = true;
  good_queue :
    if Wait p then
      match queue p with
      | None => k = 0 ∧ (initialized p = true → closed p = true)
      | Some ch => initialized p = true ∧ chan_closed ch = closed p ∧ 0 ≤ tokens ch ∧
          (closed p = false → tokens ch + k = MaxActive p)
      end
    else queue p = None ∧ initialized p = false
}.

Definition pool_inv (s : system) : Prop :=
  good s.1 (total conn_count s.2) (owned s.2) (total token s.2) (existsb waiting s.2) ∧
  existsb has_stuck s.2 = false.

(** ** Lemmas: one goroutine and the others *)

Lemma total_app f ts1 ts2 : total f (ts1 ++ ts2) = total f ts1 + total f ts2.
Proof. induction ts1 as [|t ts1 IH]; cbn; [done|]. rewrite IH. lia. Qed.

Lemma total_le f g ts : (∀ t, 0 ≤ f t ≤ g t) → 0 ≤ total f ts ≤ total g ts.
Proof. intros Hfg. induction ts as [|t ts IH]; cbn; [lia|]. specialize (Hfg t). lia. Qed.

Lemma conn_count_token t : 0 ≤ conn_count t ≤ token t.
Proof. destruct t; cbn; lia. Qed.

Lemma owned_app ts1 ts2 : owned (ts1 ++ ts2) = owned ts1 ++ owned ts2.
Proof. apply bind_app. Qed.

(** Splitting off one goroutine. *)
Lemma split_thread ts i (t t' : thread) :
  ts !! i = Some t →
  ∃ ts1 ts2, ts = ts1 ++ t :: ts2 ∧ <[i := t']> ts = ts1 ++ t' :: ts2.
Proof.
  intros Hi. exists (take i ts), (drop (S i) ts). split.
  - by rewrite take_drop_middle.
  - rewrite insert_take_drop; [done|]. by eapply lookup_lt_Some.
Qed.

Lemma good_perm p n o o' k w : o ≡ₚ o' → good p n o k w → good p n o' k w.
Proof.
  intros Ho []. split; try done.
  - by rewrite <- Ho.
  - intros c. rewrite <- Ho. auto.
Qed.

(** The invariant, seen from one goroutine. *)
Lemma pool_inv_split p ts1 t ts2 :
  pool_inv (p, ts1 ++ t :: ts2) ↔
    good p (conn_count t + (total conn_count (ts1 ++ ts2)))
      (owns t ++ owned (ts1 ++ ts2)) (token t + total token (ts1 ++ ts2))
      (waiting t || existsb waiting (ts1 ++ ts2)) ∧
    has_stuck t = false ∧ existsb has_stuck (ts1 ++ ts2) = false.
Proof.
  unfold pool_inv. cbn [fst snd].
  rewrite !total_app, !owned_app, !existsb_app. cbn [total existsb].
  change (owned (t :: ts2)) with (owns t ++ owned ts2).
  replace (total conn_count ts1 + (conn_count t + total conn_count ts2))
    with (conn_count t + (total conn_count ts1 + total conn_count ts2)) by lia.
  replace (total token ts1 + (token t + total token ts2))
    with (token t + (total token ts1 + total token ts2)) by lia.
  replace (existsb waiting ts1 || (waiting t || existsb waiting ts2))%bool
    with (waiting t || (existsb waiting ts1 || existsb waiting ts2))%bool
    by (destruct (existsb waiting ts1), (waiting t); done).
  assert (owned ts1 ++ owns t ++ owned ts2 ≡ₚ owns t ++ owned ts1 ++ owned ts2) as Hp
    by solve_Permutation.
  rewrite !orb_false_iff. split.
  - intros [Hg ?]. split; [|naive_solver]. by eapply good_perm.
  - intros [Hg ?]. split; [|naive_solver]. eapply good_perm; [symmetry|]; done.
Qed.

(** ** Lemmas: each critical section keeps the invariant *)

(** Removing the last element. *)
Lemma last_removelast {A} (l : list A) a : last l = Some a → l = removelast l ++ [a].
Proof. intros [l' ->]%last_Some. by rewrite removelast_last. Qed.

Lemma is_Some_alter (f : C → C) (m : gmap nat C) c c' :
  is_Some (m !! c') → is_Some (alter f c m !! c').
Proof.
  intros [x Hx]. destruct (decide (c = c')) as [->|].
  - rewrite lookup_alter_eq, Hx. by eexists.
  - rewrite lookup_alter_ne by done. by eexists.
Qed.

Lemma on_conn_good f c p n o k w : good p n o k w → good (on_conn f c p) n o k w.
Proof.
  intros []. split; try done. intros c' Hc. cbn.
  destruct (good_conns0 c' Hc). split; [done|]. by apply is_Some_alter.
Qed.

(** Giving up the connection a goroutine has. *)
Lemma drop_good f c p n o k w :
  good p (1 + n) ([c] ++ o) k w →
  good (set_active (active (on_conn f c p) - 1) (on_conn f c p)) n o k w.
Proof.
  intros Hg. apply (on_conn_good f c) in Hg. destruct Hg.
  split; try done; cbn in *; [lia|..].
  - apply (NoDup_Permutation_proper _ (c :: idle p ++ o)) in good_unique0;
      [|solve_Permutation]. by apply NoDup_cons in good_unique0 as [_ ?].
  - intros c' Hc. apply good_conns0. set_solver.
  - intros Hw. specialize (good_active0 Hw). lia.
Qed.

(** The token account when one goroutine has a token. *)
Lemma good_token p n o k w :
  good p n o (1 + k) w → 0 ≤ k → Wait p = true → closed p = false →
  ∃ ch, queue p = Some ch ∧ chan_closed ch = false ∧ 0 ≤ tokens ch ∧ tokens ch + 1 + k = MaxActive p.
Proof.
  intros [] Hk Hw Hc. rewrite Hw in good_queue0. destruct (queue p) as [ch|]; [|lia].
  exists ch. destruct good_queue0 as (_ & -> & ? & Hq). specialize (Hq Hc). naive_solver lia.
Qed.

Lemma aquire_front_good p n o k w p' t' :
  good p n o (1 + k) w → 0 ≤ n ≤ k → aquire_front p = (p', t') →
  good p' (conn_count t' + n) (owns t' ++ o) (token t' + k) (waiting t' || w) ∧
  has_stuck t' = false.
Proof.
  intros Hg Hn. unfold aquire_front. destruct (idle p) as [|c rest] eqn:Ei.
  - destruct (_ && _ && _)%bool eqn:Eg; intros [= <- <-]; (split; [|done]).
    + b2p. destruct Hg. split; try done. by destruct (Wait p).
    + assert (Wait p = false ∨ closed p = false → active p < MaxActive p) as Hlt.
      { intros Hwc. destruct (Wait p) eqn:Ew.
        - destruct Hwc as [|Hc]; [done|].
          destruct (good_token p n o k w) as (ch & _ & _ & ? & ?); [done|lia|done|done|].
          destruct Hg. rewrite Ei in *. cbn in *. lia.
        - cbn in Eg. destruct Hg. destruct (Z.ltb_spec 0 (MaxActive p)); [|lia].
          cbn in Eg. b2p. lia. }
      destruct Hg. split; try done; cbn; [lia|]. intros Hwc. specialize (Hlt Hwc). lia.
  - intros [= <- <-]. split; [|done]. destruct Hg. rewrite Ei in *.
    assert (rest ++ [c] ++ o ≡ₚ (c :: rest) ++ o) as Hp by solve_Permutation.
    split; try done; cbn in *; try lia.
    + intros Hc. specialize (good_closed0 Hc). done.
    + by rewrite Hp.
    + intros c'. rewrite Hp. auto.
Qed.

Lemma aquire_prune_good now i n' p n o k w p' t' :
  good p n o (1 + k) w → 0 ≤ n ≤ k → aquire_prune now i n' p = (p', t') →
  good p' (conn_count t' + n) (owns t' ++ o) (token t' + k) (waiting t' || w) ∧
  has_stuck t' = false.
Proof.
  intros Hg Hn. unfold aquire_prune.
  destruct (_ && _ && _)%bool; [|by apply aquire_front_good].
  unfold getBackValue. destruct (last (idle p)) as [c|] eqn:El; [|by apply aquire_front_good].
  intros [= <- <-]. split; [|done]. apply last_removelast in El as Ei.
  assert (length (idle p) = S (length (removelast (idle p)))) as Hlen
    by (rewrite Ei at 1; rewrite length_app; cbn; lia).
  assert (removelast (idle p) ++ [c] ++ o ≡ₚ idle p ++ o) as Hp
    by (rewrite Ei at 2; solve_Permutation).
  destruct Hg. split; try done; cbn -[app] in *; try lia.
  - intros Hc. by rewrite (good_closed0 Hc).
  - by rewrite Hp.
  - intros c'. rewrite Hp. auto.
Qed.

Lemma finish_good next p n o k w p' t' :
  good p n o (1 + k) w → 0 ≤ k → finish next p = (p', t') →
  good p' n o k w ∧ t' = next.
Proof.
  intros Hg Hk. unfold finish, send_back.
  destruct (queue p) as [ch|] eqn:Eq.
  - assert (Wait p = true) as Ew by (destruct Hg; destruct (Wait p); [done|destruct good_queue0; congruence]).
    destruct (closed p) eqn:Ec; cbn [negb].
    + intros [= <- <-]. split; [|done]. destruct Hg.
      split; try done. rewrite Ew, Eq in *. naive_solver congruence.
    + destruct (good_token p n o k w Hg Hk Ew Ec) as (ch' & Eq' & Hch & ? & ?).
      unfold send. rewrite Eq. rewrite Eq in Eq'. injection Eq' as <-.
      destruct (Z.ltb_spec (tokens ch) (MaxActive p)); [|lia].
      intros [= <- <-]. split; [|done]. destruct Hg.
      split; try done; cbn. rewrite Ew. rewrite Ew, Eq in good_queue0. cbn.
      destruct good_queue0 as (? & ? & ? & ?). split_and!; try done; lia.
  - intros [= <- <-]. split; [|done]. destruct Hg. split; try done.
    rewrite Eq in *. destruct (Wait p); [|done]. lia.
Qed.

Lemma release_good now c err fc p n o k w p' t' :
  good p (1 + n) ([c] ++ o) (1 + k) w → 0 ≤ k → release now c err fc p = (p', t') →
  good p' (conn_count t' + n) (owns t' ++ o) (token t' + k) (waiting t' || w) ∧
  has_stuck t' = false.
Proof.
  intros Hg Hk. unfold release.
  destruct (negb (closed p) && negb fc)%bool eqn:Ecf.
  2: { intros [= <- <-]. by split. }
  b2p. set (p1 := match err with Some _ => _ | None => _ end).
  assert (length (idle p1) = S (length (idle p))) as Hlen.
  { unfold p1. destruct err; cbn; [|done]. rewrite length_app. cbn. lia. }
  assert (idle p1 ++ o ≡ₚ idle p ++ [c] ++ o) as Hp1
    by (unfold p1; destruct err; cbn -[app]; solve_Permutation).
  assert (MaxIdle p1 = MaxIdle p) as EM by (by destruct err).
  (* the pool with the connection back, but for the bound on the idle list *)
  assert (Z.of_nat (length (idle p1)) ≤ MaxIdle p → good p1 n o (1 + k) w) as Hback.
  { intros Hle. destruct Hg. unfold p1 in *.
    split; try (by destruct err); try lia.
    - destruct err; cbn -[app length] in *; lia.
    - destruct err; cbn -[app length] in *; congruence.
    - by rewrite Hp1.
    - intros c'. rewrite Hp1. intros Hc. specialize (good_conns0 c' Hc). by destruct err. }
  destruct (Z.ltb_spec (MaxIdle p1) (Z.of_nat (length (idle p1)))) as [Hlt|Hge].
  - unfold getBackValue. destruct (last (idle p1)) as [c'|] eqn:El.
    2: { apply last_None in El. rewrite El in Hlen. done. }
    intros [= <- <-]. split; [|done]. apply last_removelast in El as Ei.
    assert (removelast (idle p1) ++ [c'] ++ o ≡ₚ idle p ++ [c] ++ o) as Hp2.
    { rewrite <- Hp1. rewrite Ei at 2. solve_Permutation. }
    assert (length (removelast (idle p1)) = length (idle p)) as Hl2.
    { apply (f_equal length) in Ei. rewrite length_app in Ei. cbn in Ei. lia. }
    destruct Hg. unfold p1 in *. split; try (by destruct err).
    + cbn [remove_back set_idle active idle conn_count]. rewrite Hl2. destruct err; cbn; lia.
    + cbn [remove_back set_idle idle MaxIdle]. rewrite Hl2. by destruct err.
    + destruct err; cbn -[app] in *; congruence.
    + cbn [remove_back set_idle idle owns]. by rewrite Hp2.
    + cbn [remove_back set_idle idle owns]. intros c0. rewrite Hp2. intros Hc.
      specialize (good_conns0 c0 Hc). by destruct err.
  - rewrite EM in Hge. intros Hf. apply (finish_good _ _ n o k w) in Hf as [? ->]; [done| |done].
    by apply Hback.
Qed.

Lemma foldl_on_conn f l p :
  ∃ m, foldl (λ p c, on_conn f c p) p l = set_conns m p ∧
    ∀ c, is_Some (conns p !! c) → is_Some (m !! c).
Proof.
  revert p. induction l as [|c l IH]; intros p; cbn [foldl].
  { exists (conns p). by destruct p. }
  destruct (IH (on_conn f c p)) as (m & -> & Hm). exists m. split; [done|].
  intros c' Hc. apply Hm. cbn. by apply is_Some_alter.
Qed.

Lemma Pool_Close_good p n o k w : good p n o k w → good (Pool_Close p) n o k w.
Proof.
  intros Hg. unfold Pool_Close. destruct (closed p) eqn:Ec; [done|].
  destruct (foldl_on_conn conn_Close (idle p)
    (set_active (active p - Z.of_nat (length (idle p))) (set_closed true p)))
    as (m & E & Hm).
  cbn [set_active set_closed idle active] in *. rewrite E. cbn.
  destruct Hg.
  assert (NoDup o) by (by apply NoDup_app in good_unique0 as (_ & _ & ?)).
  assert (∀ c, c ∈ [] ++ o → (c < next_conn p)%nat ∧ is_Some (m !! c)).
  { intros c Hc. destruct (good_conns0 c) as [? Hs]; [set_solver|]. split; [done|]. by apply Hm. }
  destruct (queue p) as [ch|] eqn:Eq; (split; try done; cbn; try lia);
    try (intros [Hw|?]; [|done]; specialize (good_active0 (or_introl Hw)); lia).
  - destruct (Wait p); [|by destruct good_queue0].
    destruct good_queue0 as (? & ? & ? & ?). split_and!; done.
  - rewrite ?Eq. destruct (Wait p); [|done]. destruct good_queue0 as (? & ?). split_and!; done.
Qed.

Lemma initQueue_good p n o k w :
  good p n o k w → Wait p = true → good (initQueue p) n o k true.
Proof.
  intros Hg Hw. unfold initQueue. destruct (initialized p) eqn:Ei.
  { destruct Hg. by split. }
  destruct Hg. rewrite Hw, Ei in good_queue0.
  destruct (queue p) as [ch|] eqn:Eq; [by destruct good_queue0|].
  destruct good_queue0 as [-> _].
  destruct (closed p) eqn:Ec; split; try done; cbn; rewrite ?Hw, ?Eq, ?Ec; try done;
    try (intros [|]; [done|]; rewrite ?Ec in *; auto; done).
  split_and!; try done; lia.
Qed.

(** A new connection, for the goroutine that counted it already. *)
Lemma create_good f conn p n o k w :
  good p (1 + n) o k w →
  good (on_conn f (next_conn p) (set_next_conn (S (next_conn p))
    (set_conns (<[next_conn p := conn]> (conns p)) p))) (1 + n) ([next_conn p] ++ o) k w.
Proof.
  intros Hg. apply on_conn_good. destruct Hg.
  assert (idle p ++ [next_conn p] ++ o ≡ₚ next_conn p :: idle p ++ o) as Hp
    by solve_Permutation.
  split; try done; cbn -[app].
  - rewrite Hp. apply NoDup_cons. split; [|done]. intros Hin.
    destruct (good_conns0 _ Hin). lia.
  - intros c. rewrite Hp, elem_of_cons. destruct (decide (c = next_conn p)) as [->|].
    + intros _. rewrite lookup_insert_eq. split; [lia|by eexists].
    + intros [|Hc]; [done|]. rewrite lookup_insert_ne by done.
      destruct (good_conns0 c Hc). split; [lia|done].
Qed.

(** ** The invariant of the system *)

Lemma thread_step_good now fresh t p p' t' n o k w :
  good p (conn_count t + n) (owns t ++ o) (token t + k) (waiting t || w) →
  0 ≤ n ≤ k → thread_step now fresh t p = Some (p', t') →
  good p' (conn_count t' + n) (owns t' ++ o) (token t' + k) (waiting t' || w) ∧
  has_stuck t' = false.
Proof.
  intros Hg Hn. pose proof (good_locked _ _ _ _ _ Hg) as Hlk. unfold thread_step, lock.
  destruct t as [| | | |i m c|c| |c|e|c err fc|c|c|]; try done;
    cbn [conn_count owns token waiting orb] in Hg; rewrite ?Hlk.
  - (* Start *)
    destruct (Wait p) eqn:Ew, (Z.ltb_spec 0 (MaxActive p)); cbn [andb];
      try (destruct Hg; lia).
    + intros Hs. assert (good (initQueue p) (0 + n) ([] ++ o) (0 + k) true) as Hi
        by (by apply (initQueue_good _ _ _ _ w)).
      unfold initQueue in Hi. destruct (initialized p) eqn:Ei; injection Hs as <- <-;
        (split; [|done]); cbn [conn_count owns token waiting orb]; [done|].
      unfold initQueue. by rewrite Ei.
    + intros [= <- <-]. split; [|done]. destruct Hg. split; try done.
      by rewrite Ew in *.
  - (* Metering *)
    intros [= <- <-]. split; [|done]. destruct Hg. destruct (blockMeter p); [|by split].
    destruct (Z.eqb _ 0); by split.
  - (* Receiving *)
    destruct (queue p) as [ch|] eqn:Eq; [|done].
    assert (Wait p = true) as Ew by (destruct Hg; destruct (Wait p); [done|destruct good_queue0; congruence]).
    destruct (Z.ltb_spec 0 (tokens ch)); [|destruct (chan_closed ch) eqn:Ecc; [|done]];
      intros [= <- <-]; (split; [|done]); destruct Hg; split; try done; cbn; rewrite ?Ew;
      rewrite Ew, Eq in good_queue0; cbn; rewrite ?Eq; auto;
      destruct good_queue0 as (? & Hcc & ? & ?); split_and!; try done; try lia.
    + intros Hc. match goal with H : closed p = false → _ |- _ => specialize (H Hc) end. lia.
    + intros. congruence.
  - (* Locking *)
    intros [= Hs]. by eapply aquire_prune_good.
  - (* Pruning *)
    intros [= Hs]. eapply aquire_prune_good; [by apply drop_good|done|done].
  - (* Checking *)
    destruct (conns p !! c) as [conn|] eqn:Ec; [|done].
    destruct (conn_Good _ conn); intros [= Hs].
    + subst. split; [|done]. by apply on_conn_good.
    + eapply aquire_front_good; [by apply drop_good|done|done].
  - (* Creating *)
    destruct (factory fresh) as [conn|e].
    + intros [= <- <-]. split; [|done]. by apply create_good.
    + intros [= Hs].
      apply (finish_good _ _ n o k w) in Hs as [? ->]; [done| |lia].
      destruct Hg; split; try done; cbn; [lia|]. intros Hw. specialize (good_active0 Hw). lia.
  - (* Held *)
    destruct (conns p !! c) as [conn|]; [|done]. by intros [= <- <-].
  - (* Releasing *)
    intros [= Hs]. eapply release_good; [done|lia|done].
  - (* Evicting *)
    intros [= Hs]. apply (finish_good _ _ n o k w) in Hs as [? ->]; [done| |lia].
    by apply drop_good.
Qed.


Lemma pool_inv_step s s' : pool_inv s → pool_step s s' → pool_inv s'.
Proof.
  intros Hi Hs. destruct Hs as [p ts|p ts i t now fresh p' t' Ht Hs|p ts Hlk|p ts f c].
  - apply (pool_inv_split p ts Start []). cbn [conn_count owns token waiting].
    rewrite app_nil_r. destruct Hi as [Hg Hst]. by cbn in *.
  - destruct (split_thread ts i t t' Ht) as (ts1 & ts2 & -> & ->).
    apply pool_inv_split in Hi as (Hg & _ & Hst). apply pool_inv_split.
    destruct (thread_step_good now fresh t p p' t' _ _ _ _ Hg) as [Hg' Hst'];
      [|done|done]. apply total_le, conn_count_token.
  - destruct Hi as [Hg Hst]. split; [|done]. by apply Pool_Close_good.
  - destruct Hi as [Hg Hst]. split; [|done]. by apply on_conn_good.
Qed.

Lemma newPoolOptions_spec numCPU opt :
  0 < numCPU →
  let o := newPoolOptions numCPU opt in
  0 < maxIdle o ≤ maxActive o ∧ 0 < idleTimeout o.
Proof.
  intros Hc. unfold newPoolOptions, PoolMaxActive, PoolMaxIdle, PoolIdleTimeout,
    defaultMaxIdleTime.
  set (o := foldl _ _ _). cbv zeta.
  destruct (Z.leb_spec (maxActive o) 0); cbn [maxIdle maxActive idleTimeout].
  all: destruct (Z.leb_spec (maxIdle o) 0); cbn [orb maxIdle maxActive idleTimeout];
    try (match goal with |- context [Z.ltb ?a ?b] => destruct (Z.ltb_spec a b) end);
    cbn [maxIdle maxActive idleTimeout wait metric];
    destruct (Z.leb_spec (idleTimeout o) 0); cbn [maxIdle maxActive idleTimeout]; lia.
Qed.

Lemma pool_inv_init numCPU opt : 0 < numCPU → pool_inv (NewPool numCPU opt, []).
Proof.
  intros Hc. pose proof (newPoolOptions_spec numCPU opt Hc) as Ho. cbv zeta in Ho.
  split; [|done]. unfold NewPool. cbn [fst snd].
  split; cbn -[newPoolOptions]; try done; try lia.
  - apply NoDup_nil_2.
  - intros c Hc'. by apply not_elem_of_nil in Hc'.
  - by destruct (wait _).
Qed.

(** The states a new pool can get to. *)
Definition reachable (s : system) : Prop :=
  ∃ numCPU opt, 0 < numCPU ∧ rtc pool_step (NewPool numCPU opt, []) s.

Lemma reachable_inv s : reachable s → pool_inv s.
Proof.
  intros (numCPU & opt & Hc & Hs). apply (pool_inv_init numCPU opt) in Hc.
  induction Hs as [|s1 s2 s3 Hstep _ IH]; [done|]. apply IH. by eapply pool_inv_step.
Qed.

(** ** Properties *)

(** C13: the accounts of the pool.  In every state the pool can get to with
    any number of goroutines, [active] is the number of idle connections plus
    those in the hands of a goroutine (as its comment says), at most
    [MaxIdle] are idle, and at most [MaxActive] exist unless a waiting pool
    has been closed. *)
Theorem pool_accounts p ts :
  reachable (p, ts) →
  active p = Z.of_nat (length (idle p)) + total conn_count ts ∧
  Z.of_nat (length (idle p)) ≤ MaxIdle p ≤ MaxActive p ∧
  (Wait p = false ∨ closed p = false → active p ≤ MaxActive p) ∧
  (closed p = true → idle p = []).
Proof. intros Hr. apply reachable_inv in Hr as [[] _]. done. Qed.

(** C14: no connection is given to two goroutines, as [ThriftConn] relies on:
    in every reachable state a connection is idle at most once or in the hands
    of one goroutine, and no goroutine ever blocks with the lock held. *)
Theorem pool_exclusive p ts :
  reachable (p, ts) →
  NoDup (idle p ++ owned ts) ∧
  (∀ i j c, ts !! i = Some (Held c) → ts !! j = Some (Held c) → i = j) ∧
  locked p = false ∧ Stuck ∉ ts.
Proof.
  intros Hr. apply reachable_inv in Hr as [[] Hst]. cbn [fst snd] in *.
  split_and!; try done.
  - intros i j c Hi Hj. destruct (decide (i = j)) as [|Hne]; [done|exfalso].
    apply NoDup_app in good_unique0 as (_ & _ & Hnd).
    destruct (split_thread ts i _ Start Hi) as (ts1 & ts2 & E1 & E2).
    assert (<[i := Start]> ts !! j = Some (Held c)) as Hj'
      by (rewrite list_lookup_insert_ne; done).
    rewrite E2 in Hj'. rewrite E1 in Hnd.
    assert (c ∈ owned (ts1 ++ ts2)) as Hin.
    { unfold owned. apply list_elem_of_bind. exists (Held c). split; [by left|].
      apply list_elem_of_lookup_2, elem_of_app in Hj' as [?|[|]%elem_of_cons];
        [|done|]; apply elem_of_app; auto. }
    assert (owned (ts1 ++ Held c :: ts2) ≡ₚ c :: owned (ts1 ++ ts2)) as Hp.
    { rewrite !owned_app. change (owned (Held c :: ts2)) with (c :: owned ts2).
      solve_Permutation. }
    rewrite Hp in Hnd. by apply NoDup_cons in Hnd as [? _].
  - intros Hin. apply not_true_iff_false in Hst. apply Hst, existsb_exists.
    exists Stuck. split; [by apply list_elem_of_In|done].
Qed.

(** C15: who has to wait.  A goroutine that cannot move has returned from
    [Aquire] with an error or from [Close], or waits for a token: then
    exactly [MaxActive] tokens are with goroutines, or the pool was closed
    before the first [Aquire], whose queue is [nil] and never delivers. *)
Theorem pool_progress p ts i t now fresh :
  reachable (p, ts) → ts !! i = Some t → thread_step now fresh t p = None →
  (∃ e, t = Failed e) ∨ (∃ c, t = Released c) ∨
  (t = Receiving ∧ Wait p = true ∧
    ((closed p = false ∧ total token ts = MaxActive p) ∨
     (closed p = true ∧ queue p = None))).
Proof.
  intros Hr Ht. apply reachable_inv in Hr.
  destruct (split_thread ts i t t Ht) as (ts1 & ts2 & -> & _).
  destruct Hr as [Hg Hst]. cbn [fst snd] in *.
  pose proof (good_locked _ _ _ _ _ Hg) as Hlk.
  assert (∀ c, c ∈ owns t → is_Some (conns p !! c)) as Hconn.
  { intros c Hc. apply (good_conns _ _ _ _ _ Hg), elem_of_app. right.
    rewrite owned_app. change (owned (t :: ts2)) with (owns t ++ owned ts2). set_solver. }
  assert (waiting t = true → initialized p = true) as Hinit.
  { intros Hw. apply (good_waiting _ _ _ _ _ Hg). rewrite existsb_app. cbn.
    rewrite Hw. apply orb_true_r. }
  unfold thread_step, lock. rewrite ?Hlk.
  destruct t as [| | | |? ? c|c| |c|e|c ? ?|c|c|]; try done; eauto.
  - by repeat case_match.
  - intros Hrecv. right; right. split; [done|]. specialize (Hinit eq_refl).
    destruct Hg. rewrite Hinit in *. destruct (Wait p); [|by destruct good_queue0].
    split; [done|]. destruct (queue p) as [ch|].
    + destruct good_queue0 as (_ & Hcc & ? & Hq). destruct (Z.ltb_spec 0 (tokens ch)); [done|].
      destruct (chan_closed ch) eqn:E; [done|]. left. split; [done|].
      rewrite <- Hq by done. lia.
    + destruct good_queue0. auto.
  - destruct (Hconn c) as [conn ->]; [by left|]. by destruct (conn_Good _ _).
  - by destruct (factory fresh).
  - destruct (Hconn c) as [conn ->]; [by left|]. done.
  - exfalso. rewrite existsb_app in Hst. cbn in Hst. by rewrite orb_true_r in Hst.
Qed.

End Pool.
