(* ===== verification/ThriftConn.v ===== *)
(** * Thrift connections ([sdk/go/common/service_router/thrift.go])

    A [ThriftConn] is the pool's [Conn]: a client with the functions that
    close and probe it.  [ConnGroup] keeps one pool for each address.  The
    thrift library is a parameter: [ThriftLib] lists what the code calls. *)

From S2P Require Import Prelude RouterTypes Pool.

(** ** Connections *)

Record ThriftConn (Client : Type) := mkThriftConn {
  tc_err : option error;
  tc_client : Client;
  tc_closeFunc : Client → Client * option error;
  tc_pingFunc : option (Client → bool)
}.
Arguments mkThriftConn {Client}. Arguments tc_err {Client}. Arguments tc_client {Client}.
Arguments tc_closeFunc {Client}. Arguments tc_pingFunc {Client}.

Section ThriftConn.
Context {Client : Type}.
Implicit Types tc : ThriftConn Client.

Definition ThriftConn_Err tc : option error := tc_err tc.

Definition ThriftConn_SetErr (err : option error) tc : ThriftConn Client :=
  mkThriftConn err (tc_client tc) (tc_closeFunc tc) (tc_pingFunc tc).

Definition ThriftConn_ForceClose tc : bool :=
  match ThriftConn_Err tc with
  | Some err => if err_transport err then true else false
  | None => false
  end.

(** An action works on the client and returns a response and an error. *)
Definition ThriftConn_Do {A} (action : option (Client → Client * (option A * option error)))
    tc : ThriftConn Client * Then A :=
  match action with
  | Some f =>
      let '(client, (resp, err)) := f (tc_client tc) in
      (mkThriftConn (tc_err tc) client (tc_closeFunc tc) (tc_pingFunc tc), mkThen resp err)
  | None => (tc, mkThen None None)
  end.

Definition ThriftConn_Good (_ : Z) tc : bool :=
  match tc_pingFunc tc with Some ping => ping (tc_client tc) | None => true end.

Definition ErrThriftClosed : error := mkError "thrift closed" false.

Definition ThriftConn_Close tc : ThriftConn Client * option error :=
  match tc_err tc with
  | None =>
      let '(client, err) := tc_closeFunc tc (tc_client tc) in
      (mkThriftConn (Some ErrThriftClosed) client (tc_closeFunc tc) (tc_pingFunc tc), err)
  | Some err => (tc, Some err)
  end.

#[export] Instance ThriftConn_Conn : Conn (ThriftConn Client) := {|
  conn_Err := ThriftConn_Err;
  conn_SetErr := ThriftConn_SetErr;
  conn_Good := ThriftConn_Good;
  conn_ForceClose := ThriftConn_ForceClose;
  conn_Close tc := (ThriftConn_Close tc).1
|}.

(** [activeConn.Do]: [Done] with no [Then] on a reference that is [nil]. *)
Definition activeConn_Do {A} (action : option (Client → Client * (option A * option error)))
    (ac : option nat) (p : Pool (ThriftConn Client))
  : Pool (ThriftConn Client) * option (Then A) :=
  match ac with
  | Some pc =>
      match conns p !! pc with
      | Some tc => let '(tc', then_) := ThriftConn_Do action tc in
                   (on_conn (λ _, tc') pc p, Some then_)
      | None => (p, None)
      end
  | None => (p, None)
  end.
End ThriftConn.

(** ** Opening a connection *)

Inductive ThriftTransportType :=
  | THRIFT_TRANSPORT_HEADER
  | THRIFT_TRANSPORT_FREMED
  | THRIFT_TRANSPORT_HTTP2
  | THRIFT_TRANSPORT_RSOCKET.

#[export] Instance ThriftTransportType_eq_dec : EqDecision ThriftTransportType.
Proof. solve_decision. Defined.

Definition ThriftCompressionMethod_None : Z := 0.
Definition ThriftCompressionMethod_Zlib : Z := 1.

(** What the code uses of [fbthrift]: sockets, transports and protocol
    factories, with [TransformNone] the identifier 0. *)
Class ThriftLib := {
  Socket : Type;
  Transport : Type;
  ProtocolFactory : Type;
  NewSocket : string → Socket + error;
  NewFramedTransport : Socket → Transport;
  NewHeaderTransport : Socket → Transport;
  AddTransform : Z → Transport → Transport;
  Transport_Open : Transport → Transport + error;
  NewBinaryProtocolFactoryDefault : ProtocolFactory;
  NewHeaderProtocolFactory : ProtocolFactory
}.

Definition TransformNone : Z := 0.

(** [net.JoinHostPort]: a host with a colon goes in brackets. *)
Definition JoinHostPort (host port : string) : string :=
  if strings_Contains host ":" then "[" +:+ host +:+ "]:" +:+ port
  else host +:+ ":" +:+ port.

Section Opening.
Context `{ThriftLib} {Client : Type}.

(** The keep-alive flag that is set on the open socket is not modelled. *)
Definition makeTransport (host : string) (port : Z) (tTransport : ThriftTransportType)
    (transId : Z) : Transport + error :=
  match NewSocket (JoinHostPort host (Itoa port)) with
  | inr err => inr err
  | inl socket =>
      let trans :=
        if decide (tTransport = THRIFT_TRANSPORT_FREMED) then NewFramedTransport socket
        else
          let trans := NewHeaderTransport socket in
          if negb (Z.eqb transId TransformNone) then AddTransform transId trans else trans in
      match Transport_Open trans with
      | inr err => inr err
      | inl trans => inl trans
      end
  end.

Record ThriftConfig := mkThriftConfig {
  tcf_Host : string;
  tcf_Port : Z;
  tcf_TransportType : ThriftTransportType;
  tcf_CompressionMethod : Z;
  tcf_Timeout : Z;
  tcf_NewThriftClient : Transport → ProtocolFactory → Client;
  tcf_CloseThriftClient : Client → Client * option error;
  tcf_ThriftIsOpen : option (Client → bool)
}.

Definition NewThriftConn (config : ThriftConfig) : ThriftConn Client + error :=
  match makeTransport (tcf_Host config) (tcf_Port config) (tcf_TransportType config)
          (tcf_CompressionMethod config) with
  | inr err => inr err
  | inl trans =>
      let protocol :=
        if decide (tcf_TransportType config = THRIFT_TRANSPORT_FREMED)
        then NewBinaryProtocolFactoryDefault else NewHeaderProtocolFactory in
      let conn := tcf_NewThriftClient config trans protocol in
      inl {| tc_err := None; tc_client := conn;
             tc_closeFunc := tcf_CloseThriftClient config;
             tc_pingFunc := tcf_ThriftIsOpen config |}
  end.

(** ** [ConnGroup]: the pools, each with the configuration its factory dials *)

Record ConnGroup := mkConnGroup {
  cg_transport : gmap string (ThriftConfig * Pool (ThriftConn Client))
}.

Definition GetConnGroup : ConnGroup := mkConnGroup ∅.

(** [GetConnection] up to its call of [Aquire]: the pool it asks, made if it
    is not there; the goroutine then goes through [thread_step] on it with
    [NewThriftConn] of the pool's configuration as the factory. *)
Definition GetConnection (numCPU : Z) (config : ThriftConfig)
    (opts : list (poolOptions → poolOptions)) (cg : ConnGroup)
  : ConnGroup * (ThriftConfig * Pool (ThriftConn Client)) :=
  let key := tcf_Host config +:+ Itoa (tcf_Port config) in
  match cg_transport cg !! key with
  | Some pool => (cg, pool)
  | None =>
      let pool := (config, NewPool numCPU opts) in
      (mkConnGroup (<[key := pool]> (cg_transport cg)), pool)
  end.
End Opening.

(** ** Runs of the pool

    A schedule of actions, executed; what it reaches is reachable. *)

Inductive action (C : Type) :=
  | ASpawn
  | AThread (i : nat) (now : Z) (fresh : option (C + error))
  | AClose
  | AReclose (i : nat).
Arguments ASpawn {C}. Arguments AThread {C}. Arguments AClose {C}. Arguments AReclose {C}.

Section Runs.
Context {C : Type} `{Conn C}.

Definition act (a : action C) (s : Pool C * list thread) : option (Pool C * list thread) :=
  match a with
  | ASpawn => Some (s.1, s.2 ++ [Start])
  | AThread i now fresh =>
      t ← s.2 !! i; '(p, t') ← thread_step now fresh t s.1; Some (p, <[i := t']> s.2)
  | AClose => if locked s.1 then None else Some (Pool_Close s.1, s.2)
  | AReclose i =>
      match s.2 !! i with
      | Some (Released c) =>
          conn ← conns s.1 !! c;
          Some (s.1, <[i := Releasing c (conn_Err conn) (conn_ForceClose conn)]> s.2)
      | _ => None
      end
  end.

Fixpoint run (l : list (action C)) (s : Pool C * list thread) : option (Pool C * list thread) :=
  match l with [] => Some s | a :: l => s' ← act a s; run l s' end.

Definition not_reclose (a : action C) : bool :=
  match a with AReclose _ => false | _ => true end.

Lemma act_step a s s' :
  act a s = Some s' → if not_reclose a then pool_step s s' else pool_step_reclose s s'.
Proof.
  destruct s as [p ts]. destruct a as [|i now fresh| |i]; cbn -[thread_step].
  - intros [= <-]. constructor.
  - destruct (ts !! i) as [t|] eqn:Ht; [|done]. cbn -[thread_step].
    destruct (thread_step now fresh t p) as [[p' t']|] eqn:Hs; [|done].
    intros [= <-]. by eapply step_thread.
  - destruct (locked p) eqn:Hl; [done|]. intros [= <-]. by constructor.
  - destruct (ts !! i) as [t|] eqn:Ht; [|done]. destruct t; try done. cbn.
    destruct (conns p !! c) as [conn|] eqn:Hc; [|done]. cbn. intros [= <-].
    by eapply step_reclose.
Qed.

Lemma run_steps l s s' : run l s = Some s' → rtc pool_step_reclose s s'.
Proof.
  revert s. induction l as [|a l IH]; intros s; cbn; [by intros [= <-]; constructor|].
  destruct (act a s) as [s1|] eqn:Ha; [|done]. cbn. intros Hr.
  eapply rtc_l; [|by apply IH]. apply act_step in Ha.
  destruct (not_reclose a); [by constructor|done].
Qed.

Lemma run_pool_steps l s s' :
  forallb not_reclose l = true → run l s = Some s' → rtc pool_step s s'.
Proof.
  revert s. induction l as [|a l IH]; intros s; cbn; [by intros _ [= <-]; constructor|].
  intros [Ha Hl]%andb_true_iff. destruct (act a s) as [s1|] eqn:E; [|done]. cbn. intros Hr.
  eapply rtc_l; [|by apply IH]. apply act_step in E. by rewrite Ha in E.
Qed.

Lemma run_reachable l numCPU opt s :
  0 < numCPU → forallb not_reclose l = true →
  run l (NewPool numCPU opt, []) = Some s → reachable s.
Proof. intros ? Hl Hr. exists numCPU, opt. split; [done|]. by eapply run_pool_steps. Qed.
End Runs.

(** ** A client for evaluation: open or not, as the server sees it *)

Definition tcp_conn : ThriftConn bool :=
  mkThriftConn None true (λ _, (false, None)) (Some (λ b, b)).

(** One goroutine that takes a new connection and gives it back. *)
Definition take_new (i : nat) : list (action (ThriftConn bool)) :=
  [ASpawn; AThread i 1 None; AThread i 1 None; AThread i 1 (Some (inl tcp_conn))].
Definition give_back (i : nat) : list (action (ThriftConn bool)) :=
  [AThread i 1 None; AThread i 1 None].
(** One that finds it idle. *)
Definition take_idle (i : nat) : list (action (ThriftConn bool)) :=
  [ASpawn; AThread i 1 None; AThread i 1 None; AThread i 1 None].

(** ** Properties *)

Section Properties.
Context {Client : Type}.
Implicit Types (tc : ThriftConn Client) (p : Pool (ThriftConn Client)).

(** A connection with a transport error is dropped but not closed.
    [release] of a connection that reports a transport error takes it out of
    the pool's accounts; its [Close] sees the error and does not call the
    close function: whatever that function is, the client stays as it was,
    with no reference from the pool. *)
Theorem release_transport_error_leaks p c (tc : ThriftConn Client) e now :
  locked p = false → queue p = None → conns p !! c = Some tc →
  tc_err tc = Some e → err_transport e = true →
  ∃ p1 p2 p3,
    thread_step now None (Held c) p = Some (p1, Releasing c (Some e) true) ∧
    thread_step now None (Releasing c (Some e) true) p1 = Some (p2, Evicting c) ∧
    thread_step now None (Evicting c) p2 = Some (p3, Released c) ∧
    active p3 = active p - 1 ∧ idle p3 = idle p ∧
    tc_client <$> conns p3 !! c = Some (tc_client tc).
Proof.
  intros Hl Hq Hc He Ht. exists p, p. eexists. split_and!.
  - cbn. rewrite Hc. unfold ThriftConn_ForceClose, ThriftConn_Err. by rewrite He, Ht.
  - cbn. unfold lock, release. rewrite Hl, andb_false_r. done.
  - cbn. unfold lock, finish, send_back. cbn. by rewrite Hl, Hq.
  - done.
  - done.
  - cbn. rewrite lookup_alter_eq, Hc. cbn. unfold ThriftConn_Close. by rewrite He.
Qed.
End Properties.

(** A second [Close] of a connection.  [activeConn.Close] checks for a
    [nil] reference but never sets it, so closing twice releases twice: the
    pool then hands one connection to two goroutines, or, in a waiting pool,
    blocks at the full queue with its lock held. *)
Theorem reclose_breaks_pool :
  (∃ p ts, rtc pool_step_reclose (NewPool (C:=ThriftConn bool) 8 [PoolMaxActive 2], []) (p, ts) ∧
     ts !! 1%nat = Some (Held 0) ∧ ts !! 2%nat = Some (Held 0)) ∧
  (∃ p ts, rtc pool_step_reclose
       (NewPool (C:=ThriftConn bool) 8 [PoolMaxActive 1; PoolWait true], []) (p, ts) ∧
     locked p = true).
Proof.
  split.
  - destruct (run (take_new 0 ++ give_back 0 ++ [AReclose 0; AThread 0 1 None]
      ++ take_idle 1 ++ take_idle 2) (NewPool 8 [PoolMaxActive 2], [])) as [[p ts]|] eqn:E;
      [|by vm_compute in E].
    exists p, ts. split; [by eapply run_steps|].
    vm_compute in E. by injection E as <- <-.
  - destruct (run ([ASpawn; AThread 0 1 None; AThread 0 1 None; AThread 0 1 None;
        AThread 0 1 None; AThread 0 1 (Some (inl tcp_conn))] ++ give_back 0
      ++ [AReclose 0; AThread 0 1 None; AThread 0 1 None])
      (NewPool 8 [PoolMaxActive 1; PoolWait true], [])) as [[p ts]|] eqn:E;
      [|by vm_compute in E].
    exists p, ts. split; [by eapply run_steps|].
    vm_compute in E. by injection E as <- <-.
Qed.

(** ** Which address a pool dials *)

Section Addresses.
Context `{ThriftLib} {Client : Type}.

(** The group after a list of calls. *)
Definition after_calls (numCPU : Z)
    (calls : list (ThriftConfig (Client:=Client) * list (poolOptions → poolOptions)))
  : ConnGroup (Client:=Client) :=
  foldl (λ cg call, (GetConnection numCPU call.1 call.2 cg).1) GetConnGroup calls.

Definition keyed (cg : ConnGroup (Client:=Client)) : Prop :=
  map_Forall (λ key pool, key = tcf_Host pool.1 +:+ Itoa (tcf_Port pool.1)) (cg_transport cg).

Lemma GetConnection_keyed numCPU config opts cg :
  keyed cg →
  keyed (GetConnection numCPU config opts cg).1 ∧
  tcf_Host (GetConnection numCPU config opts cg).2.1
      +:+ Itoa (tcf_Port (GetConnection numCPU config opts cg).2.1)
    = tcf_Host config +:+ Itoa (tcf_Port config).
Proof.
  intros Hk. unfold GetConnection.
  destruct (cg_transport cg !! (tcf_Host config +:+ Itoa (tcf_Port config)))
    as [pool|] eqn:E; cbn.
  - split; [done|]. symmetry. by apply (Hk _ _ E).
  - split; [|done]. by apply map_Forall_insert_2.
Qed.

Lemma after_calls_keyed numCPU calls : keyed (after_calls numCPU calls).
Proof.
  unfold after_calls. assert (keyed GetConnGroup) as Hk by apply map_Forall_empty.
  revert Hk. generalize (GetConnGroup (Client:=Client)).
  induction calls as [|[config opts] calls IH]; intros cg Hk; [done|].
  cbn [foldl]. by apply IH, GetConnection_keyed.
Qed.

Lemma string_app_inj_length (s1 s2 t1 t2 : string) :
  String.length s1 = String.length s2 → s1 +:+ t1 = s2 +:+ t2 → s1 = s2 ∧ t1 = t2.
Proof.
  revert s2. induction s1 as [|c s1 IH]; intros [|c2 s2] Hl E; try done.
  cbn in Hl. injection Hl as Hl. change (String c (s1 +:+ t1) = String c2 (s2 +:+ t2)) in E.
  injection E as -> E. destruct (IH s2 Hl E) as [-> ->]. done.
Qed.

(** Which server a connection goes to.  Whatever calls were made before,
    the pool [GetConnection] uses dials an address whose host and port,
    written one after the other, are those asked for; so it is the address
    asked for when the two hosts have the same length. *)
Theorem GetConnection_dials numCPU calls config opts :
  let dialled := (GetConnection numCPU config opts (after_calls numCPU calls)).2.1 in
  tcf_Host dialled +:+ Itoa (tcf_Port dialled) = tcf_Host config +:+ Itoa (tcf_Port config) ∧
  (String.length (tcf_Host dialled) = String.length (tcf_Host config) →
   tcf_Host dialled = tcf_Host config ∧ tcf_Port dialled = tcf_Port config).
Proof.
  intros dialled.
  destruct (GetConnection_keyed numCPU config opts (after_calls numCPU calls)) as [_ E];
    [apply after_calls_keyed|].
  fold dialled in E. split; [done|]. intros Hl.
  destruct (string_app_inj_length _ _ _ _ Hl E) as [? Ep]. split; [done|].
  by apply (inj (pretty (A:=Z))) in Ep.
Qed.

(** A call for a key that is there uses the pool that is there. *)
Lemma GetConnection_same_key numCPU (config config' : ThriftConfig (Client:=Client)) opts :
  tcf_Host config' +:+ Itoa (tcf_Port config') = tcf_Host config +:+ Itoa (tcf_Port config) →
  (GetConnection numCPU config' opts (GetConnection numCPU config opts GetConnGroup).1).2.1
    = config.
Proof.
  intros E. unfold GetConnection. rewrite E.
  cbn [GetConnGroup cg_transport]. rewrite lookup_empty. cbn [fst cg_transport].
  by rewrite lookup_insert_eq.
Qed.

(** Two servers, one pool.  The key of a pool has no separator between
    host and port, so after a connection to 10.0.0.1 port 12345 one to
    10.0.0.11 port 2345 goes to the first server. *)
Theorem GetConnection_confuses numCPU (template : ThriftConfig (Client:=Client)) opts :
  let at_ host port := mkThriftConfig host port (tcf_TransportType template)
    (tcf_CompressionMethod template) (tcf_Timeout template)
    (tcf_NewThriftClient template) (tcf_CloseThriftClient template)
    (tcf_ThriftIsOpen template) in
  let cg := (GetConnection numCPU (at_ "10.0.0.1" 12345) opts GetConnGroup).1 in
  let dialled := (GetConnection numCPU (at_ "10.0.0.11" 2345) opts cg).2.1 in
  tcf_Host dialled = "10.0.0.1" ∧ tcf_Port dialled = 12345.
Proof.
  intros at_ cg dialled.
  assert (dialled = at_ "10.0.0.1" 12345) as ->; [|done].
  apply GetConnection_same_key. vm_compute. reflexivity.
Qed.
End Addresses.

(** ** Witnesses *)

(** A thrift library with sockets named by their address. *)
Definition named_sockets : ThriftLib := {|
  Socket := string; Transport := string; ProtocolFactory := unit;
  NewSocket a := inl a; NewFramedTransport s := s; NewHeaderTransport s := s;
  AddTransform _ t := t; Transport_Open t := inl t;
  NewBinaryProtocolFactoryDefault := tt; NewHeaderProtocolFactory := tt
|}.

Definition config_at (host : string) (port : Z) : ThriftConfig (H:=named_sockets) (Client:=bool) :=
  mkThriftConfig (H:=named_sockets) (Client:=bool) host port THRIFT_TRANSPORT_HEADER
    ThriftCompressionMethod_None 1000 (λ _ _, true) (λ _, (false, None)) None.

Lemma GetConnection_dials_witness :
  let dialled := (GetConnection (H:=named_sockets) 8 (config_at "10.0.0.2" 80) []
    (after_calls (H:=named_sockets) 8 [(config_at "10.0.0.1" 80, [])])).2.1 in
  tcf_Host dialled = "10.0.0.2" ∧ tcf_Port dialled = 80.
Proof.
  apply (GetConnection_dials (H:=named_sockets) 8 [(config_at "10.0.0.1" 80, [])]
    (config_at "10.0.0.2" 80) []). vm_compute. reflexivity.
Defined.

(** A pool with one goroutine holding a connection and one that gave its back. *)
Definition busy_schedule : list (action (ThriftConn bool)) :=
  take_new 0 ++ take_new 1 ++ give_back 0.

Definition busy_pool : option (Pool (ThriftConn bool) * list thread) :=
  run busy_schedule (NewPool 8 [PoolMaxActive 2], []).

Lemma busy_pool_reachable p ts : busy_pool = Some (p, ts) → reachable (p, ts).
Proof.
  unfold busy_pool. intros E. refine (run_reachable busy_schedule 8 _ _ _ _ E); [lia|].
  reflexivity.
Qed.

Lemma pool_accounts_witness :
  ∃ p ts, busy_pool = Some (p, ts) ∧
    active p = Z.of_nat (length (idle p)) + total conn_count ts ∧ active p = 2.
Proof.
  destruct busy_pool as [[p ts]|] eqn:E; [|by vm_compute in E].
  exists p, ts. split; [done|]. split.
  - apply (pool_accounts p ts). by apply busy_pool_reachable.
  - vm_compute in E. by injection E as <- <-.
Defined.

Lemma pool_exclusive_witness :
  ∃ p ts, busy_pool = Some (p, ts) ∧ NoDup (idle p ++ owned ts) ∧ idle p ++ owned ts = [0%nat; 1%nat].
Proof.
  destruct busy_pool as [[p ts]|] eqn:E; [|by vm_compute in E].
  exists p, ts. split; [done|]. split.
  - apply (pool_exclusive p ts). by apply busy_pool_reachable.
  - vm_compute in E. by injection E as <- <-.
Defined.

(** A goroutine that waits at the one token another has taken. *)
Definition full_schedule : list (action (ThriftConn bool)) :=
  [ASpawn; AThread 0 1 None; AThread 0 1 None; AThread 0 1 None;
   ASpawn; AThread 1 1 None; AThread 1 1 None].

Definition full_pool : option (Pool (ThriftConn bool) * list thread) :=
  run full_schedule (NewPool 8 [PoolMaxActive 1; PoolWait true], []).

Lemma full_pool_reachable p ts : full_pool = Some (p, ts) → reachable (p, ts).
Proof.
  unfold full_pool. intros E. refine (run_reachable full_schedule 8 _ _ _ _ E); [lia|].
  reflexivity.
Qed.

Lemma pool_progress_witness :
  ∃ p ts, full_pool = Some (p, ts) ∧ ts !! 1%nat = Some Receiving ∧
    thread_step 1 None Receiving p = None ∧ total token ts = MaxActive p.
Proof.
  destruct full_pool as [[p ts]|] eqn:E; [|by vm_compute in E].
  assert (reachable (p, ts)) as Hr by (by apply full_pool_reachable).
  assert (ts !! 1%nat = Some Receiving ∧ thread_step 1 None Receiving p = None ∧
    closed p = false) as (Ht & Hs & Hc) by (vm_compute in E; by injection E as <- <-).
  exists p, ts. split; [done|]. split; [done|]. split; [done|].
  destruct (pool_progress p ts 1 Receiving 1 None Hr Ht Hs)
    as [[? ?]|[[? ?]|(_ & _ & [[_ ?]|[? _]])]]; congruence.
Defined.

Lemma release_transport_error_leaks_witness :
  let e := mkError "broken pipe" true in
  let tc := mkThriftConn (Some e) true (λ _, (false, None)) None in
  let p := set_next_conn 1 (set_conns {[ 0%nat := tc ]} (set_active 1 (NewPool 8 []))) in
  ∃ p1 p2 p3 : Pool (ThriftConn bool),
    thread_step 1 None (Held 0) p = Some (p1, Releasing 0 (Some e) true) ∧
    thread_step 1 None (Releasing 0 (Some e) true) p1 = Some (p2, Evicting 0) ∧
    thread_step 1 None (Evicting 0) p2 = Some (p3, Released 0) ∧
    active p3 = active p - 1 ∧ idle p3 = idle p ∧
    tc_client <$> conns p3 !! 0%nat = Some true.
Proof.
  intros e tc p. by apply (release_transport_error_leaks p 0 tc e 1).
Defined.
