(* ===== verification/Registry.v ===== *)
(** * The service registry ([sdk/go/common/service_router/registry.go])

    [ConsulRegistry] finds the servers and the configuration of a service in
    a Consul key-value store and tells its subscribers when they change.  The
    store and the JSON codec are parameters.  The subscribers are a type
    [Sub]; an operation that notifies them returns the notifications, which
    the code runs in one goroutine each and waits for. *)

From S2P Require Import Prelude RouterTypes.

(** ** The store

    What the code calls of [consul/api]: [List] returns the pairs under a
    prefix with the index of the last change, [Get] [None] for no value. *)
Class ConsulKV (KVS : Type) := {
  kv_Put : string → string → KVS → KVS * option error;
  kv_Get : string → KVS → option string + error;
  kv_List : string → KVS → (list (string * string) * Z) + error;
  kv_Delete : string → KVS → KVS * option error;
  kv_DeleteTree : string → KVS → KVS * option error
}.

(** [json.Marshal] and [json.Unmarshal] into a value, which is left as far as
    it was decoded when there is an error. *)
Class Json (A : Type) := {
  json_Marshal : A → string + error;
  json_Unmarshal : string → A → A * option error
}.

Definition ErrInvalidServer : error := mkError "invalid server" false.

(** ** The state *)

Record ConsulRegistry (Sub : Type) := mkConsulRegistry {
  lastIndexes : gmap string Z;
  configVersions : gmap string string;
  serviceSubscribers : gmap string (list Sub);
  configSubscribers : gmap string (list Sub);
  staticServerNodes : gmap string ServerList;
  staticSwitches : gmap string bool
}.
Arguments mkConsulRegistry {Sub}. Arguments lastIndexes {Sub}.
Arguments configVersions {Sub}. Arguments serviceSubscribers {Sub}.
Arguments configSubscribers {Sub}. Arguments staticServerNodes {Sub}.
Arguments staticSwitches {Sub}.

Inductive notification (Sub : Type) :=
  | ServiceNotify (subscriber : Sub) (serviceName : string) (servers : ServerList)
  | ConfigNotify (subscriber : Sub) (serviceName : string) (config : ServiceConfig).
Arguments ServiceNotify {Sub}. Arguments ConfigNotify {Sub}.

Section Registry.
Context {Sub : Type}.
Implicit Types cr : ConsulRegistry Sub.

Definition NewConsulRegistry : ConsulRegistry Sub :=
  {| lastIndexes := ∅; configVersions := ∅; serviceSubscribers := ∅;
     configSubscribers := ∅; staticServerNodes := ∅; staticSwitches := ∅ |}.

Definition set_lastIndexes v cr : ConsulRegistry Sub :=
  mkConsulRegistry v (configVersions cr) (serviceSubscribers cr) (configSubscribers cr)
    (staticServerNodes cr) (staticSwitches cr).
Definition set_configVersions v cr : ConsulRegistry Sub :=
  mkConsulRegistry (lastIndexes cr) v (serviceSubscribers cr) (configSubscribers cr)
    (staticServerNodes cr) (staticSwitches cr).
Definition set_serviceSubscribers v cr : ConsulRegistry Sub :=
  mkConsulRegistry (lastIndexes cr) (configVersions cr) v (configSubscribers cr)
    (staticServerNodes cr) (staticSwitches cr).
Definition set_configSubscribers v cr : ConsulRegistry Sub :=
  mkConsulRegistry (lastIndexes cr) (configVersions cr) (serviceSubscribers cr) v
    (staticServerNodes cr) (staticSwitches cr).
Definition set_staticServerNodes v cr : ConsulRegistry Sub :=
  mkConsulRegistry (lastIndexes cr) (configVersions cr) (serviceSubscribers cr)
    (configSubscribers cr) v (staticSwitches cr).
Definition set_staticSwitches v cr : ConsulRegistry Sub :=
  mkConsulRegistry (lastIndexes cr) (configVersions cr) (serviceSubscribers cr)
    (configSubscribers cr) (staticServerNodes cr) v.

(** ** Subscriptions *)

Definition GetAllSubscribed `{MapOrder} cr : list string :=
  fst <$> map_range (serviceSubscribers cr).

(** [SubscribeService] looks the list up under one lock and stores it, longer
    by one, under another: two steps, between which others may run. *)
Definition SubscribeService_read (serviceName : string) cr : option (list Sub) :=
  serviceSubscribers cr !! serviceName.
Definition SubscribeService_write (arr : option (list Sub)) (serviceName : string)
    (subscriber : Sub) cr : ConsulRegistry Sub :=
  set_serviceSubscribers
    (<[serviceName := match arr with
                      | None => [subscriber]
                      | Some arr => arr ++ [subscriber]
                      end]> (serviceSubscribers cr)) cr.
Definition SubscribeService (serviceName : string) (subscriber : Sub) cr
  : ConsulRegistry Sub :=
  SubscribeService_write (SubscribeService_read serviceName cr) serviceName subscriber cr.

Definition UnsubscribeService (serviceName : string) cr : ConsulRegistry Sub :=
  set_serviceSubscribers (delete serviceName (serviceSubscribers cr)) cr.

Definition SubscribeConfig_read (serviceName : string) cr : option (list Sub) :=
  configSubscribers cr !! serviceName.
Definition SubscribeConfig_write (arr : option (list Sub)) (serviceName : string)
    (subscriber : Sub) cr : ConsulRegistry Sub :=
  set_configSubscribers
    (<[serviceName := match arr with
                      | None => [subscriber]
                      | Some arr => arr ++ [subscriber]
                      end]> (configSubscribers cr)) cr.
Definition SubscribeConfig (serviceName : string) (subscriber : Sub) cr
  : ConsulRegistry Sub :=
  SubscribeConfig_write (SubscribeConfig_read serviceName cr) serviceName subscriber cr.

Definition UnsubscribeConfig (serviceName : string) cr : ConsulRegistry Sub :=
  set_serviceSubscribers (delete serviceName (serviceSubscribers cr)) cr.

(** ** Static lists of servers *)

Definition PushStaticNodes (serviceName : string) (serverList : ServerList) cr
  : ConsulRegistry Sub :=
  set_staticServerNodes (<[serviceName := serverList]> (staticServerNodes cr)) cr.
Definition EnableStatic (serviceName : string) cr : ConsulRegistry Sub :=
  set_staticSwitches (<[serviceName := true]> (staticSwitches cr)) cr.
Definition DisableStatic (serviceName : string) cr : ConsulRegistry Sub :=
  set_staticSwitches (<[serviceName := false]> (staticSwitches cr)) cr.

(** ** Discovery *)

Definition checkUpdate (key : string) (index : Z) cr : ConsulRegistry Sub * bool :=
  let lastIndex := default 0 (lastIndexes cr !! key) in
  if Z.eqb index lastIndex then (cr, false)
  else (set_lastIndexes (<[key := index]> (lastIndexes cr)) cr, true).

Definition notifyDiscover (serviceName : string) (serverList : ServerList) cr
  : list (notification Sub) :=
  match serviceSubscribers cr !! serviceName with
  | Some subscribers => (λ s, ServiceNotify s serviceName serverList) <$> subscribers
  | None => []
  end.

Definition with_name (serviceName : string) : Server :=
  mkServer "" 0 serviceName "" "" 0 0 None None None None None None false "" "".

Section Store.
Context {KVS : Type} {kvOps : ConsulKV KVS}
  {jsonServer : Json Server} {jsonRouter : Json ServiceRouterConfig}.

Definition processDiscover (server : Server) (kvPairs : list (string * string))
    (lastIndex : Z) cr : ConsulRegistry Sub * list (notification Sub) :=
  let '(cr, isUpdate) := checkUpdate (GetNodesPath server) lastIndex cr in
  if (Nat.eqb (length kvPairs) 0 || negb isUpdate)%bool then (cr, [])
  else
    let serverList := (λ pair, (json_Unmarshal pair.2 Server_zero).1) <$> kvPairs in
    (cr, notifyDiscover (sv_ServiceName server) serverList cr).

Definition Discover (kv : KVS) (serviceName : string) cr
  : ConsulRegistry Sub * list (notification Sub) :=
  match staticSwitches cr !! serviceName with
  | Some true =>
      match staticServerNodes cr !! serviceName with
      | Some serverList =>
          if Nat.ltb 0 (length serverList)
          then (cr, notifyDiscover serviceName serverList cr) else (cr, [])
      | None => (cr, [])
      end
  | _ =>
      let server := with_name serviceName in
      match kv_List (GetNodesPath server) kv with
      | inr _ => (cr, [])
      | inl (result, lastIndex) => processDiscover server result lastIndex cr
      end
  end.

Definition GetValue (kv : KVS) (key : string) : option string :=
  match kv_Get key kv with
  | inl (Some v) => Some v
  | _ => None
  end.

(** ** Configuration *)

Definition checkConfigUpdate (kv : KVS) (server : Server) cr
  : ConsulRegistry Sub * bool :=
  match kv_Get (GetConfigVersionPath server) kv with
  | inl (Some currentVersion) =>
      if decide (configVersions cr !! sv_ServiceName server = Some currentVersion)
      then (cr, false)
      else (set_configVersions
              (<[sv_ServiceName server := currentVersion]> (configVersions cr)) cr, true)
  | _ => (cr, true)
  end.

(** One key of the configuration. *)
Definition processConfig_pair (server : Server)
    (acc : ServiceRouterConfig * gmap string string) (sc : string * string)
  : ServiceRouterConfig * gmap string string :=
  if (String.eqb sc.1 (GetRouterConfigPath server) && negb (Z.eqb (len sc.2) 0))%bool
  then ((json_Unmarshal sc.2 ServiceRouterConfig_zero).1, acc.2)
  else if (strings_Contains sc.1 (GetConfigsPath server) && negb (Z.eqb (len sc.2) 0))%bool
  then (acc.1, <[sc.1 := sc.2]> acc.2)
  else acc.

Definition processConfig_config (server : Server) (kvPairs : list (string * string))
  : ServiceConfig :=
  let '(router, configs) :=
    foldl (processConfig_pair server) (ServiceRouterConfig_zero, ∅) kvPairs in
  {| sc_Router := router; sc_Configs := Some configs |}.

Definition processConfig (server : Server) (kvPairs : list (string * string))
    (lastIndex : Z) cr : ConsulRegistry Sub * list (notification Sub) :=
  let '(cr, isUpdate) := checkUpdate (GetConfigPath server) lastIndex cr in
  if (Nat.eqb (length kvPairs) 0 || negb isUpdate)%bool then (cr, [])
  else
    (cr, match configSubscribers cr !! sv_ServiceName server with
         | Some subscribers =>
             (λ s, ConfigNotify s (sv_ServiceName server)
                     (processConfig_config server kvPairs)) <$> subscribers
         | None => []
         end).

Definition GetConfig (kv : KVS) (serviceName : string) cr
  : ConsulRegistry Sub * list (notification Sub) :=
  let server := with_name serviceName in
  let '(cr, changed) := checkConfigUpdate kv server cr in
  if negb changed then (cr, [])
  else
    match kv_List (GetConfigPath server) kv with
    | inr _ => (cr, [])
    | inl (result, lastIndex) => processConfig server result lastIndex cr
    end.

(** ** Writing the store; [now] is the clock in milliseconds *)

Definition checkServerValid (server : Server) : bool :=
  negb (Z.eqb (len (sv_ServiceName server)) 0).

(** The server as it is stored: the time set and no slice or map [nil]. *)
Definition registered_server (now : Z) (s : Server) : Server :=
  mkServer (sv_Host s) (sv_Port s) (sv_ServiceName s) (sv_Protocol s) (sv_Status s)
    (u64 now) (sv_Weight s)
    (Some (default [] (sv_ShardList s)))
    (Some (default [] (sv_AvailableShardList s)))
    (Some (default [] (sv_FollowerShardList s)))
    (Some (default [] (sv_FollowerAvailableShardList s)))
    (Some (default ∅ (sv_OtherSettings s)))
    (Some (default [] (sv_PartitionList s)))
    (sv_IsEdgeNode s) (sv_Idc s) (sv_Dc s).

Definition RegisterServer (now : Z) (server : Server) (kv : KVS) : KVS * option error :=
  if negb (checkServerValid server) then (kv, Some ErrInvalidServer)
  else
    let server := registered_server now server in
    match json_Marshal server with
    | inr err => (kv, Some err)
    | inl json => kv_Put (GetNodePath server) json kv
    end.

Definition UnregisterServer (server : Server) (kv : KVS) : KVS * option error :=
  if negb (checkServerValid server) then (kv, Some ErrInvalidServer)
  else kv_Delete (GetNodePath server) kv.

Definition UnregisterConfig (server : Server) (kv : KVS) : KVS * option error :=
  if negb (checkServerValid server) then (kv, Some ErrInvalidServer)
  else kv_DeleteTree (GetConfigPath server) kv.

Definition Available (now : Z) (server : Server) (kv : KVS) : KVS * option error :=
  RegisterServer now (set_sv_Status ServerStatus_AVAILABLE server) kv.

Definition Unavailable (server : Server) (kv : KVS) : KVS * option error :=
  UnregisterServer (set_sv_Status ServerStatus_UNAVAILABLE server) kv.

Definition updateConfigVersion (now : Z) (server : Server) (kv : KVS) : KVS * bool :=
  let '(kv, err) := kv_Put (GetConfigVersionPath server) (Itoa now) kv in
  (kv, bool_decide (err = None)).

Definition PutRouterConfig (now : Z) (server : Server) (config : ServiceRouterConfig)
    (kv : KVS) : KVS * option error :=
  match json_Marshal config with
  | inr err => (kv, Some err)
  | inl j =>
      let '(kv, err) := kv_Put (GetRouterConfigPath server) j kv in
      let kv := match err with
                | Some _ => (updateConfigVersion now server kv).1
                | None => kv
                end in
      (kv, err)
  end.

(** The loop over the configurations; [inr err] is the early return. *)
Fixpoint PutServiceConfigs_loop (path : string) `{Json string}
    (configs : list (string * string)) (kv : KVS) : KVS * option error :=
  match configs with
  | [] => (kv, None)
  | (k, v) :: configs =>
      match json_Marshal v with
      | inr err => (kv, Some err)
      | inl j =>
          let '(kv, err) := kv_Put (path +:+ k) j kv in
          match err with
          | Some err => (kv, Some err)
          | None => PutServiceConfigs_loop path configs kv
          end
      end
  end.

Definition PutServiceConfigs `{MapOrder} `{Json string} (now : Z) (server : Server)
    (configs : option (gmap string string)) (kv : KVS) : KVS * option error :=
  let path := GetConfigsPath server in
  match configs with
  | None => kv_Put path "" kv
  | Some configs =>
      let '(kv, err) := PutServiceConfigs_loop path (map_range configs) kv in
      match err with
      | Some err => (kv, Some err)
      | None => ((updateConfigVersion now server kv).1, None)
      end
  end.
End Store.
End Registry.

(** ** What the code relies on of the store

    [kv_view] is what the store holds and [kv_index] the index of a prefix:
    a [Put] that reports success is in the store and moves the index of the
    prefixes of its key, reads that succeed return what is there. *)
Class ConsulKVLaws (KVS : Type) `{ConsulKV KVS} := {
  kv_view : KVS → gmap string string;
  kv_index : KVS → string → Z;
  kv_Put_ok k v s s' : kv_Put k v s = (s', None) →
    kv_view s' = <[k := v]> (kv_view s) ∧
    ∀ p, String.prefix p k = true → kv_index s' p ≠ kv_index s p;
  kv_Get_ok k s r : kv_Get k s = inl r → r = kv_view s !! k;
  kv_List_ok p s l i : kv_List p s = inl (l, i) → i = kv_index s p ∧
    ∀ k v, (k, v) ∈ l ↔ kv_view s !! k = Some v ∧ String.prefix p k = true
}.

(** ** Lemmas *)

Lemma prefix_app p s : String.prefix p (p +:+ s) = true.
Proof.
  induction p as [|c p IH]; [by destruct s|].
  change (String.prefix (String c p) (String c (p +:+ s)) = true). cbn [String.prefix].
  destruct (ascii_dec c c); [done|congruence].
Qed.

Lemma append_inj_l (p a b : string) : p +:+ a = p +:+ b → a = b.
Proof.
  induction p as [|c p IH]; [done|]. intros E.
  change (String c (p +:+ a) = String c (p +:+ b)) in E. injection E as E. auto.
Qed.

Section Properties.
Context {Sub : Type} {KVS : Type} {kvOps : ConsulKV KVS} {kvLaws : ConsulKVLaws KVS}
  {jsonServer : Json Server} {jsonRouter : Json ServiceRouterConfig}.
Implicit Types (cr : ConsulRegistry Sub) (kv : KVS).

Lemma checkUpdate_seen key index cr :
  let cr' := (checkUpdate key index cr).1 in checkUpdate key index cr' = (cr', false).
Proof.
  unfold checkUpdate. destruct (Z.eqb_spec index (default 0 (lastIndexes cr !! key))) as [E|E]; cbn.
  - by rewrite <- E, Z.eqb_refl.
  - by rewrite lookup_insert_eq; cbn; rewrite Z.eqb_refl.
Qed.

(** C39: registration is discovered, once.  After [RegisterServer] succeeds, a
    registry that had seen the store before, with static lists off and a
    [List] that succeeds, tells every subscriber of the service a list of
    servers with the new one in it (time set, no slice [nil]); asked again
    with nothing changed it tells nobody. *)
Theorem RegisterServer_Discover now s kv kv' cr l i :
  let sn := sv_ServiceName s in
  let path := GetNodesPath (with_name sn) in
  RegisterServer now s kv = (kv', None) →
  (∀ j, json_Marshal (registered_server now s) = inl j →
        (json_Unmarshal j Server_zero).1 = registered_server now s) →
  staticSwitches cr !! sn ≠ Some true →
  default 0 (lastIndexes cr !! path) = kv_index kv path →
  kv_List path kv' = inl (l, i) →
  let cr' := (Discover kv' sn cr).1 in
  (∃ servers, registered_server now s ∈ servers ∧
     (Discover kv' sn cr).2 =
       (λ sub, ServiceNotify sub sn servers) <$> default [] (serviceSubscribers cr !! sn)) ∧
  Discover kv' sn cr' = (cr', []).
Proof.
  intros sn path Hr Hj Hst Hseen Hl. unfold RegisterServer in Hr.
  destruct (checkServerValid s); [|done]. cbn [negb] in Hr.
  destruct (json_Marshal (registered_server now s)) as [j|] eqn:Ej; [|done].
  destruct (kv_Put_ok _ _ _ _ Hr) as [Hv Hi].
  assert (String.prefix path (GetNodePath (registered_server now s)) = true) as Hp
    by apply prefix_app.
  destruct (kv_List_ok _ _ _ _ Hl) as [Ei Hin].
  assert ((GetNodePath (registered_server now s), j) ∈ l) as Hmem.
  { apply Hin. rewrite Hv, lookup_insert_eq. done. }
  assert (∀ cr0, staticSwitches cr0 !! sn ≠ Some true →
    Discover kv' sn cr0 = processDiscover (with_name sn) l i cr0) as Hd.
  { intros cr0 Hs0. unfold Discover. fold path. rewrite Hl.
    by destruct (staticSwitches cr0 !! sn) as [[]|]. }
  rewrite (Hd cr Hst). unfold processDiscover.
  assert (checkUpdate (GetNodesPath (with_name sn)) i cr =
    (set_lastIndexes (<[path := i]> (lastIndexes cr)) cr, true)) as Eu.
  { unfold checkUpdate. fold path. rewrite Hseen.
    destruct (Z.eqb_spec i (kv_index kv path)) as [E|]; [|done].
    exfalso. apply (Hi path Hp). congruence. }
  rewrite Eu. destruct l as [|pair l]; [by apply not_elem_of_nil in Hmem|]. cbn [length Nat.eqb orb negb].
  split.
  - eexists. split; [|unfold notifyDiscover; cbn; by destruct (serviceSubscribers cr !! sn)].
    rewrite <- (Hj j eq_refl). apply (list_elem_of_fmap_2 (λ pair, (json_Unmarshal pair.2 Server_zero).1) _ _ Hmem).
  - cbn [fst]. rewrite Hd by done. unfold processDiscover.
    pose proof (checkUpdate_seen path i cr) as Hseen2. unfold path in Hseen2.
    rewrite Eu in Hseen2. cbn [fst] in Hseen2. fold path in Hseen2 |- *. rewrite Hseen2. done.
Qed.

(** A new router configuration is not seen.  [PutRouterConfig] renews
    the version only when the write failed: after a successful one a registry
    that knows the version in the store takes [GetConfig] for unchanged and
    tells nobody. *)
Theorem PutRouterConfig_unseen now s config kv kv' cr v r :
  let sn := sv_ServiceName s in
  PutRouterConfig now s config kv = (kv', None) →
  kv_view kv !! GetConfigVersionPath s = Some v →
  configVersions cr !! sn = Some v →
  kv_Get (GetConfigVersionPath (with_name sn)) kv' = inl r →
  (∃ j, kv_view kv' !! GetRouterConfigPath s = Some j ∧ json_Marshal config = inl j) ∧
  GetConfig kv' sn cr = (cr, []).
Proof.
  intros sn Hput Hv Hcv Hget. unfold PutRouterConfig in Hput.
  destruct (json_Marshal config) as [j|]; [|done].
  destruct (kv_Put (GetRouterConfigPath s) j kv) as [kv1 err] eqn:Ep.
  destruct err; [by injection Hput|]. injection Hput as <-.
  destruct (kv_Put_ok _ _ _ _ Ep) as [Hview _]. split.
  { exists j. by rewrite Hview, lookup_insert_eq. }
  apply kv_Get_ok in Hget as Hr. unfold GetConfig, checkConfigUpdate. rewrite Hget, Hr, Hview.
  change (GetConfigVersionPath (with_name sn)) with (GetConfigVersionPath s).
  rewrite lookup_insert_ne.
  2: { intros E. apply append_inj_l in E. by vm_compute in E. }
  rewrite Hv. cbn [sv_ServiceName with_name]. fold sn. by rewrite decide_True.
Qed.

(** [UnsubscribeConfig] takes away the wrong subscriptions: nobody hears
    of the servers of the service any more, while a change of its
    configuration is told to the same subscribers as before. *)
Theorem UnsubscribeConfig_wrong_table sn cr servers kvPairs index :
  let cr' := UnsubscribeConfig sn cr in
  notifyDiscover sn servers cr' = [] ∧
  (processConfig (with_name sn) kvPairs index cr').2
    = (processConfig (with_name sn) kvPairs index cr).2.
Proof.
  intros cr'. split.
  - unfold notifyDiscover, cr'. cbn. by rewrite lookup_delete_eq.
  - unfold processConfig, checkUpdate, cr'. cbn. destruct (Z.eqb _ _), (Nat.eqb (length kvPairs) 0); done.
Qed.

(** Two subscriptions at the same time.  [SubscribeConfig] looks the list
    up and stores it under two locks: when two calls for one service have
    both looked it up before either stores, the first subscriber is lost;
    one after the other, both are kept. *)
Theorem SubscribeConfig_lost sn (s1 s2 : Sub) cr :
  let old := default [] (configSubscribers cr !! sn) in
  configSubscribers (SubscribeConfig sn s2 (SubscribeConfig sn s1 cr)) !! sn
    = Some (old ++ [s1; s2]) ∧
  (let arr1 := SubscribeConfig_read sn cr in
   let arr2 := SubscribeConfig_read sn cr in
   configSubscribers (SubscribeConfig_write arr2 sn s2 (SubscribeConfig_write arr1 sn s1 cr)) !! sn
     = Some (old ++ [s2])).
Proof.
  unfold SubscribeConfig, SubscribeConfig_write, SubscribeConfig_read. cbn.
  rewrite !lookup_insert_eq. destruct (configSubscribers cr !! sn) as [l|]; cbn; [|done].
  by rewrite <- app_assoc.
Qed.
End Properties.

(** ** Witnesses: a store in memory, and a codec that knows one value *)

Record mem_store := mkMemStore { mem_view : gmap string string; mem_index : Z }.

#[export] Instance mem_kv : ConsulKV mem_store := {|
  kv_Put k v s := (mkMemStore (<[k := v]> (mem_view s)) (mem_index s + 1), None);
  kv_Get k s := inl (mem_view s !! k);
  kv_List p s :=
    inl (filter (λ kv, String.prefix p kv.1 = true) (map_to_list (mem_view s)), mem_index s);
  kv_Delete k s := (mkMemStore (delete k (mem_view s)) (mem_index s + 1), None);
  kv_DeleteTree p s :=
    (mkMemStore (filter (λ kv, String.prefix p kv.1 = false) (mem_view s)) (mem_index s + 1), None)
|}.

#[export] Instance mem_kv_laws : ConsulKVLaws mem_store.
Proof.
  refine {| kv_view := mem_view; kv_index s _ := mem_index s |}.
  - intros k v s s' [= <-]. cbn. split; [done|]. intros. lia.
  - intros k s r [= <-]. done.
  - intros p s l i [= <- <-]. split; [done|]. intros k v.
    rewrite list_elem_of_filter, elem_of_map_to_list. cbn. tauto.
Defined.

Definition const_json {A} (a : A) : Json A :=
  {| json_Marshal _ := inl "value"; json_Unmarshal _ _ := (a, None) |}.

Definition new_server : Server :=
  mkServer "10.0.0.1" 8080 "s" ServerProtocol_THRIFT ServerStatus_AVAILABLE 0 1
    None None None None None None false "" "".

Lemma RegisterServer_Discover_witness :
  let json := const_json (registered_server 5 new_server) in
  let cr := SubscribeService "s" "sub" NewConsulRegistry in
  let kv' := (RegisterServer (jsonServer:=json) 5 new_server (mkMemStore ∅ 0)).1 in
  ∃ servers, registered_server 5 new_server ∈ servers ∧
    (Discover (jsonServer:=json) kv' "s" cr).2 = [ServiceNotify "sub" "s" servers].
Proof.
  intros json cr kv'.
  destruct (RegisterServer_Discover (jsonServer:=json) 5 new_server (mkMemStore ∅ 0) kv' cr
    [(GetNodePath (registered_server 5 new_server), "value")] 1) as [Hd _];
    [reflexivity|by intros|by vm_compute|reflexivity|by vm_compute|exact Hd].
Defined.

Definition versioned_store : mem_store :=
  mkMemStore {[ GetConfigVersionPath new_server := "1" ]} 1.

Lemma PutRouterConfig_unseen_witness :
  let json := const_json DefaultServiceRouterConfig in
  let cr := SubscribeConfig "s" "sub"
    (set_configVersions {[ "s" := "1" ]} NewConsulRegistry) in
  let kv' := (PutRouterConfig (jsonRouter:=json) 5 new_server DefaultServiceRouterConfig
                versioned_store).1 in
  GetConfig (jsonRouter:=json) kv' "s" cr = (cr, []).
Proof.
  intros json cr kv'.
  apply (PutRouterConfig_unseen (jsonRouter:=json) 5 new_server DefaultServiceRouterConfig
    versioned_store kv' cr "1" (Some "1")); by vm_compute.
Defined.
