(* ===== verification/Pullers.v ===== *)
(** * Pullers and pushers
    ([sdk/go/common/service_router/service_puller.go], [service_pusher.go])

    A puller asks the registry at an interval, a pusher registers a server at
    an interval.  Both run one goroutine with a ticker, tied to a context that
    [Stop] cancels.  The tickers that are alive are part of the state: a
    ticker is the number of its context and its interval.  What a call asks of
    the registry at once is returned as a list, in order. *)

From S2P Require Import Prelude RouterTypes.

(** [time.Duration] is an [int64] of nanoseconds. *)
Definition Millisecond : Z := 10 ^ 6.

(** [time.NewTicker]: an interval that is not positive panics. *)
Definition NewTicker (interval : Z) : go Z :=
  if Z.leb interval 0 then Panic NonPositiveTickerInterval else Ret interval.

(** ** ServicePuller *)

Definition ServicePullerType_Config : string := "CONFIG_PULLER".
Definition ServicePullerType_Server : string := "SERVER_PULLER".

(** The arithmetic is on [uint32]. *)
Definition calculateInterval (interval : Z) : Z :=
  i64 (Z.quot (u32 (u32 (2 * interval) * 1000)) 3 * Millisecond).

Record ServicePuller := mkServicePuller {
  sp_serviceName : string;
  sp_pullerType : string;
  sp_interval : Z;
  sp_cancel : nat;                    (* the context [cancel] cancels *)
  sp_started : bool;
  sp_tickers : list (nat * Z);        (* the tickers alive *)
  sp_next : nat                       (* the next context *)
}.

Definition set_sp_interval v (sp : ServicePuller) : ServicePuller :=
  mkServicePuller (sp_serviceName sp) (sp_pullerType sp) v (sp_cancel sp) (sp_started sp)
    (sp_tickers sp) (sp_next sp).
Definition set_sp_started v (sp : ServicePuller) : ServicePuller :=
  mkServicePuller (sp_serviceName sp) (sp_pullerType sp) (sp_interval sp) (sp_cancel sp) v
    (sp_tickers sp) (sp_next sp).
Definition set_sp_tickers v (sp : ServicePuller) : ServicePuller :=
  mkServicePuller (sp_serviceName sp) (sp_pullerType sp) (sp_interval sp) (sp_cancel sp)
    (sp_started sp) v (sp_next sp).
(** [ctx, cancel := context.WithCancel(...); sp.cancel = cancel]: the new
    context. *)
Definition new_sp_context (sp : ServicePuller) : nat * ServicePuller :=
  (sp_next sp,
   mkServicePuller (sp_serviceName sp) (sp_pullerType sp) (sp_interval sp) (sp_next sp)
     (sp_started sp) (sp_tickers sp) (S (sp_next sp))).

(** The calls of [Pull] come first, then the ticker. *)
Definition ServicePuller_Start (ctx : nat) (sp : ServicePuller)
  : go (ServicePuller * list string) :=
  if sp_started sp then mret (sp, [])
  else
    let sp := set_sp_started true sp in
    interval ← NewTicker (sp_interval sp);
    mret (set_sp_tickers (sp_tickers sp ++ [(ctx, interval)]) sp, [sp_serviceName sp]).

(** The goroutine of a cancelled context stops its ticker and returns. *)
Definition ServicePuller_Stop (sp : ServicePuller) : ServicePuller :=
  set_sp_started false
    (set_sp_tickers (filter (λ t, t.1 ≠ sp_cancel sp) (sp_tickers sp)) sp).

Definition NewServicePuller (serviceName : string) (routerConfig : ServiceRouterConfig)
    (pullerType : string) : go (ServicePuller * list string) :=
  ServicePuller_Start 0
    {| sp_serviceName := serviceName; sp_pullerType := pullerType;
       sp_interval := calculateInterval (src_PullInterval routerConfig);
       sp_cancel := 0; sp_started := false; sp_tickers := []; sp_next := 1 |}.

Definition ServicePuller_Restart (sp : ServicePuller) : go (ServicePuller * list string) :=
  let '(ctx, sp) := new_sp_context (ServicePuller_Stop sp) in
  ServicePuller_Start ctx sp.

Definition ServicePuller_Reload (interval : Z) (sp : ServicePuller)
  : go (ServicePuller * list string) :=
  let sp := set_sp_interval interval (ServicePuller_Stop sp) in
  let '(ctx, sp) := new_sp_context sp in
  ServicePuller_Start ctx sp.

(** ** ServicePusher *)

Definition calculateTtl (ttl : Z) : Z := i64 (Z.quot (u32 (2 * ttl)) 3 * Millisecond).

Record ServicePusher := mkServicePusher {
  sh_server : Server;
  sh_ttl : Z;
  sh_cancel : nat;
  sh_started : bool;
  sh_tickers : list (nat * Z);
  sh_next : nat
}.

Definition set_sh_server v (sh : ServicePusher) : ServicePusher :=
  mkServicePusher v (sh_ttl sh) (sh_cancel sh) (sh_started sh) (sh_tickers sh) (sh_next sh).
Definition set_sh_ttl v (sh : ServicePusher) : ServicePusher :=
  mkServicePusher (sh_server sh) v (sh_cancel sh) (sh_started sh) (sh_tickers sh) (sh_next sh).
Definition set_sh_started v (sh : ServicePusher) : ServicePusher :=
  mkServicePusher (sh_server sh) (sh_ttl sh) (sh_cancel sh) v (sh_tickers sh) (sh_next sh).
Definition set_sh_tickers v (sh : ServicePusher) : ServicePusher :=
  mkServicePusher (sh_server sh) (sh_ttl sh) (sh_cancel sh) (sh_started sh) v (sh_next sh).
Definition new_sh_context (sh : ServicePusher) : nat * ServicePusher :=
  (sh_next sh,
   mkServicePusher (sh_server sh) (sh_ttl sh) (sh_next sh) (sh_started sh) (sh_tickers sh)
     (S (sh_next sh))).

Definition ServicePusher_Start (ctx : nat) (sh : ServicePusher)
  : go (ServicePusher * list Server) :=
  if sh_started sh then mret (sh, [])
  else
    let sh := set_sh_started true sh in
    ttl ← NewTicker (sh_ttl sh);
    mret (set_sh_tickers (sh_tickers sh ++ [(ctx, ttl)]) sh, [sh_server sh]).

Definition ServicePusher_Stop (sh : ServicePusher) : ServicePusher :=
  set_sh_started false
    (set_sh_tickers (filter (λ t, t.1 ≠ sh_cancel sh) (sh_tickers sh)) sh).

Definition NewServicePusher (server : Server) (routerConfig : ServiceRouterConfig)
  : go (ServicePusher * list Server) :=
  ServicePusher_Start 0
    {| sh_server := server; sh_ttl := calculateTtl (src_TtlInMs routerConfig);
       sh_cancel := 0; sh_started := false; sh_tickers := []; sh_next := 1 |}.

Definition ServicePusher_Restart (sh : ServicePusher) : go (ServicePusher * list Server) :=
  let '(ctx, sh) := new_sh_context (ServicePusher_Stop sh) in
  ServicePusher_Start ctx sh.

Definition ServicePusher_Reload (ttl : Z) (sh : ServicePusher)
  : go (ServicePusher * list Server) :=
  let '(ctx, sh) := new_sh_context (set_sh_ttl ttl (ServicePusher_Stop sh)) in
  ServicePusher_Start ctx sh.

(** The setters on the server that is pushed; [ServicePusher_SetPartitionList]
    adds to the list. *)
Definition set_server (weight : option Z) (shards available fshards favailable : option (list Z))
    (status : option string) (edge : option bool) (partitions : option (list Z)) (s : Server)
  : Server :=
  mkServer (sv_Host s) (sv_Port s) (sv_ServiceName s) (sv_Protocol s)
    (default (sv_Status s) status) (sv_UpdateTime s) (default (sv_Weight s) weight)
    (match shards with Some l => Some l | None => sv_ShardList s end)
    (match available with Some l => Some l | None => sv_AvailableShardList s end)
    (match fshards with Some l => Some l | None => sv_FollowerShardList s end)
    (match favailable with Some l => Some l | None => sv_FollowerAvailableShardList s end)
    (sv_OtherSettings s)
    (match partitions with Some l => Some l | None => sv_PartitionList s end)
    (default (sv_IsEdgeNode s) edge) (sv_Idc s) (sv_Dc s).

Definition ServicePusher_SetWeight (weight : Z) (sh : ServicePusher) : ServicePusher :=
  set_sh_server (set_server (Some weight) None None None None None None None (sh_server sh)) sh.
Definition ServicePusher_SetShardList (l : list Z) (sh : ServicePusher) : ServicePusher :=
  set_sh_server (set_server None (Some l) None None None None None None (sh_server sh)) sh.
Definition ServicePusher_SetAvailableShardList (l : list Z) (sh : ServicePusher)
  : ServicePusher :=
  set_sh_server (set_server None None (Some l) None None None None None (sh_server sh)) sh.
Definition ServicePusher_SetFollowerShardList (l : list Z) (sh : ServicePusher)
  : ServicePusher :=
  set_sh_server (set_server None None None (Some l) None None None None (sh_server sh)) sh.
Definition ServicePusher_SetFollowerAvailableShardList (l : list Z) (sh : ServicePusher)
  : ServicePusher :=
  set_sh_server (set_server None None None None (Some l) None None None (sh_server sh)) sh.
Definition ServicePusher_SetStatus (status : string) (sh : ServicePusher) : ServicePusher :=
  set_sh_server (set_server None None None None None (Some status) None None (sh_server sh)) sh.
Definition ServicePusher_SetIsEdgeNode (b : bool) (sh : ServicePusher) : ServicePusher :=
  set_sh_server (set_server None None None None None None (Some b) None (sh_server sh)) sh.
Definition append_partition (s : Server) (partition : Z) : Server :=
  set_server None None None None None None None
    (Some (default [] (sv_PartitionList s) ++ [partition])) s.
Definition ServicePusher_SetPartitionList (partition_list : list Z) (sh : ServicePusher)
  : ServicePusher :=
  set_sh_server (foldl append_partition (sh_server sh) partition_list) sh.

(** ** Lemmas *)

Lemma NewTicker_pos interval : 0 < interval → NewTicker interval = Ret interval.
Proof. intros. unfold NewTicker. destruct (Z.leb_spec interval 0); [lia|done]. Qed.

(** A puller between calls: started with the one ticker its context stops, or
    stopped with none. *)
Definition one_ticker (sp : ServicePuller) : Prop :=
  sp_tickers sp = if sp_started sp then [(sp_cancel sp, sp_interval sp)] else [].

Lemma Stop_stops sp : one_ticker sp → sp_tickers (ServicePuller_Stop sp) = [].
Proof.
  unfold one_ticker. intros E. cbn -[filter]. rewrite E. destruct (sp_started sp); [|done].
  rewrite filter_cons, decide_False; [done|]. cbn. tauto.
Qed.

Lemma Start_one_ticker sp ctx sp' pulls :
  sp_started sp = false → sp_tickers sp = [] → sp_cancel sp = ctx →
  ServicePuller_Start ctx sp = Ret (sp', pulls) →
  one_ticker sp' ∧ sp_started sp' = true ∧ pulls = [sp_serviceName sp] ∧
  sp_interval sp' = sp_interval sp.
Proof.
  intros Hs Ht <-. unfold ServicePuller_Start. rewrite Hs.
  unfold NewTicker. cbn [sp_interval set_sp_started].
  destruct (Z.leb (sp_interval sp) 0); [done|]. cbn. rewrite Ht. intros [= <- <-]. done.
Qed.

(** What can be asked of a puller. *)
Inductive puller_op := OpRestart | OpReload (interval : Z) | OpStop.

Definition puller_do (sp : ServicePuller) (op : puller_op) : go ServicePuller :=
  match op with
  | OpRestart => fst <$> ServicePuller_Restart sp
  | OpReload interval => fst <$> ServicePuller_Reload interval sp
  | OpStop => mret (ServicePuller_Stop sp)
  end.

Lemma puller_do_one_ticker sp op sp' :
  one_ticker sp → puller_do sp op = Ret sp' → one_ticker sp'.
Proof.
  intros Ho. destruct op as [|interval|]; cbn [puller_do].
  - unfold ServicePuller_Restart, new_sp_context.
    destruct (ServicePuller_Start _ _) as [[sp1 pulls]| |] eqn:E; cbn; try done.
    intros [= <-]. eapply Start_one_ticker in E; [by destruct E|done| |done].
    by apply Stop_stops.
  - unfold ServicePuller_Reload, new_sp_context.
    destruct (ServicePuller_Start _ _) as [[sp1 pulls]| |] eqn:E; cbn; try done.
    intros [= <-]. eapply Start_one_ticker in E; [by destruct E|done| |done].
    by apply Stop_stops.
  - intros [= <-]. apply Stop_stops in Ho. unfold one_ticker. by rewrite Ho.
Qed.

Lemma calculateInterval_exact p :
  0 ≤ p → 2000 * p < 2 ^ 32 → calculateInterval p = 2000 * p / 3 * Millisecond.
Proof.
  intros Hp Hs. unfold calculateInterval, Millisecond.
  rewrite (wrapu_small _ (2 * p)), wrapu_small by lia.
  rewrite Z.quot_div_nonneg by lia. replace (2 * p * 1000) with (2000 * p) by lia.
  rewrite wraps_small; [done|lia|].
  pose proof (Z.div_pos (2000 * p) 3 ltac:(lia) ltac:(lia)).
  pose proof (Z.div_le_upper_bound (2000 * p) 3 (2 ^ 32) ltac:(lia) ltac:(lia)). lia.
Qed.

Lemma calculateTtl_exact t :
  0 ≤ t → 2 * t < 2 ^ 32 → calculateTtl t = 2 * t / 3 * Millisecond.
Proof.
  intros Ht Hs. unfold calculateTtl, Millisecond.
  rewrite wrapu_small by lia. rewrite Z.quot_div_nonneg by lia.
  rewrite wraps_small; [done|lia|].
  pose proof (Z.div_pos (2 * t) 3 ltac:(lia) ltac:(lia)).
  pose proof (Z.div_le_upper_bound (2 * t) 3 (2 ^ 32) ltac:(lia) ltac:(lia)). lia.
Qed.

(** Two goroutines that [Reload] one puller at the same time, step by step. *)
Inductive reloader :=
  | RStop (interval : Z)          (* about to stop *)
  | RContext (interval : Z)       (* about to set interval and context *)
  | RStart (ctx : nat)            (* about to start *)
  | RDone.

Definition reloader_step (r : reloader) (sp : ServicePuller) : go (ServicePuller * reloader) :=
  match r with
  | RStop interval => mret (ServicePuller_Stop sp, RContext interval)
  | RContext interval =>
      let '(ctx, sp) := new_sp_context (set_sp_interval interval sp) in
      mret (sp, RStart ctx)
  | RStart ctx => '(sp, _) ← ServicePuller_Start ctx sp; mret (sp, RDone)
  | RDone => mret (sp, RDone)
  end.

(** A schedule: which of the two moves; [false] the first, [true] the second. *)
Fixpoint reload_schedule (l : list bool) (sp : ServicePuller) (r1 r2 : reloader)
  : go (ServicePuller * reloader * reloader) :=
  match l with
  | [] => mret (sp, r1, r2)
  | false :: l => '(sp, r1) ← reloader_step r1 sp; reload_schedule l sp r1 r2
  | true :: l => '(sp, r2) ← reloader_step r2 sp; reload_schedule l sp r1 r2
  end.

(** A ticker whose context no later call can cancel. *)
Definition orphan (ctx : nat) (interval : Z) (sp : ServicePuller) : Prop :=
  (ctx, interval) ∈ sp_tickers sp ∧ sp_cancel sp ≠ ctx ∧ (ctx < sp_next sp)%nat.

Lemma Stop_orphan ctx interval sp :
  orphan ctx interval sp → orphan ctx interval (ServicePuller_Stop sp).
Proof.
  intros (Hin & Hc & Hn). split; [|done]. cbn -[filter].
  apply list_elem_of_filter. by split; [cbn; congruence|].
Qed.

Lemma Start_tickers ctx sp sp' pulls :
  ServicePuller_Start ctx sp = Ret (sp', pulls) →
  sp_cancel sp' = sp_cancel sp ∧ sp_next sp' = sp_next sp ∧
  ∀ t, t ∈ sp_tickers sp → t ∈ sp_tickers sp'.
Proof.
  unfold ServicePuller_Start, NewTicker. cbn [sp_interval set_sp_started].
  destruct (sp_started sp); [by intros [= <- <-]|].
  destruct (Z.leb (sp_interval sp) 0); [done|]. cbn. intros [= <- <-].
  split_and!; try done. cbn. intros t Ht. apply elem_of_app. by left.
Qed.

Lemma puller_do_orphan ctx interval sp op sp' :
  orphan ctx interval sp → puller_do sp op = Ret sp' → orphan ctx interval sp'.
Proof.
  intros Ho. apply Stop_orphan in Ho as Hs. destruct Ho as (_ & _ & Hn).
  destruct Hs as (Hin & Hc & _). cbn -[filter] in Hin.
  destruct op as [|i|]; cbn [puller_do].
  - unfold ServicePuller_Restart, new_sp_context.
    destruct (ServicePuller_Start _ _) as [[sp1 pulls]| |] eqn:E; cbn -[filter]; try done.
    intros [= <-]. apply Start_tickers in E as (E1 & E2 & Ht). split; [by apply Ht|].
    rewrite E1, E2. cbn. lia.
  - unfold ServicePuller_Reload, new_sp_context.
    destruct (ServicePuller_Start _ _) as [[sp1 pulls]| |] eqn:E; cbn -[filter]; try done.
    intros [= <-]. apply Start_tickers in E as (E1 & E2 & Ht). split; [by apply Ht|].
    rewrite E1, E2. cbn. lia.
  - intros [= <-]. done.
Qed.

(** ** Properties *)

(** One ticker.  After any sequence of [Restart], [Reload] and [Stop]
    that does not panic a puller that is started has one ticker, with the
    current interval and the context its [Stop] cancels, and one that is
    stopped has none. *)
Theorem puller_one_ticker sn rc ty ops sp pulls sp' :
  NewServicePuller sn rc ty = Ret (sp, pulls) →
  go_fold puller_do ops sp = Ret sp' →
  sp_tickers sp' = if sp_started sp' then [(sp_cancel sp', sp_interval sp')] else [].
Proof.
  intros Hn Hf. apply (go_fold_inv one_ticker puller_do ops sp sp'); [|clear Hf|done].
  - intros s op s' _. apply puller_do_one_ticker.
  - unfold NewServicePuller in Hn. by eapply Start_one_ticker in Hn as [? _].
Qed.

(** The intervals.  For a pull interval [p] (seconds, a [uint32]) with
    [2000 * p < 2^32] a new puller pulls its service at once and then every
    two thirds of [p]; for [p = 0] making it panics.  A pusher panics for the
    times to live 0 and 1 and pushes every two thirds of the others. *)
Theorem puller_intervals sn ty server rc :
  0 ≤ src_PullInterval rc → 2000 * src_PullInterval rc < 2 ^ 32 →
  0 ≤ src_TtlInMs rc → 2 * src_TtlInMs rc < 2 ^ 32 →
  (if decide (src_PullInterval rc = 0)
   then NewServicePuller sn rc ty = Panic NonPositiveTickerInterval
   else ∃ sp, NewServicePuller sn rc ty = Ret (sp, [sn]) ∧
     sp_tickers sp = [(0%nat, 2000 * src_PullInterval rc / 3 * Millisecond)]) ∧
  (if decide (src_TtlInMs rc < 2)
   then NewServicePusher server rc = Panic NonPositiveTickerInterval
   else ∃ sh, NewServicePusher server rc = Ret (sh, [server]) ∧
     sh_tickers sh = [(0%nat, 2 * src_TtlInMs rc / 3 * Millisecond)]).
Proof.
  intros Hp Hp' Ht Ht'. unfold NewServicePuller, ServicePuller_Start, NewServicePusher,
    ServicePusher_Start, NewTicker. cbn -[calculateInterval calculateTtl Z.leb].
  rewrite calculateInterval_exact, calculateTtl_exact by done. unfold Millisecond. split.
  - case_decide as H0; [by rewrite H0|].
    assert (1 ≤ 2000 * src_PullInterval rc / 3) by (apply Z.div_le_lower_bound; lia).
    destruct (Z.leb_spec (2000 * src_PullInterval rc / 3 * 10 ^ 6) 0); [lia|]. by eexists.
  - case_decide.
    + rewrite Z.div_small by lia. done.
    + assert (1 ≤ 2 * src_TtlInMs rc / 3) by (apply Z.div_le_lower_bound; lia).
      destruct (Z.leb_spec (2 * src_TtlInMs rc / 3 * 10 ^ 6) 0); [lia|]. by eexists.
Qed.

(** Two reloads at the same time.  [Reload] is not atomic: there is an
    interleaving of two of them after which the running ticker belongs to a
    context nobody can cancel, and it stays alive whatever [Restart],
    [Reload] and [Stop] follow. *)
Theorem reload_race sp i1 i2 :
  0 < i1 → 0 < i2 →
  ∃ schedule sp', reload_schedule schedule sp (RStop i1) (RStop i2) = Ret (sp', RDone, RDone) ∧
    ∀ ops sp'', go_fold puller_do ops sp' = Ret sp'' → (sp_next sp, i2) ∈ sp_tickers sp''.
Proof.
  intros H1 H2. exists [false; true; false; true; false; true].
  cbn -[ServicePuller_Start ServicePuller_Stop].
  change (sp_next (ServicePuller_Stop (ServicePuller_Stop sp))) with (sp_next sp).
  set (sp1 := mkServicePuller _ _ i2 _ _ _ _).
  assert (∃ sp2, ServicePuller_Start (sp_next sp) sp1 = Ret (sp2, [sp_serviceName sp]) ∧
    sp_started sp2 = true ∧ orphan (sp_next sp) i2 sp2) as (sp2 & -> & Hst & Ho).
  { unfold ServicePuller_Start. cbn -[NewTicker filter]. rewrite NewTicker_pos by done.
    cbn -[filter]. eexists. split; [reflexivity|]. split; [done|]. split; [|cbn; lia].
    cbn -[filter]. apply elem_of_app. right. by left. }
  cbn -[ServicePuller_Start]. unfold ServicePuller_Start. rewrite Hst. cbn.
  exists sp2. split; [done|]. intros ops sp'' Hf.
  eapply (go_fold_inv (orphan (sp_next sp) i2)) in Hf as [? _]; [done| |done].
  intros s op s' _. apply puller_do_orphan.
Qed.

(** ** Witnesses *)

Definition example_puller : ServicePuller :=
  mkServicePuller "s" ServicePullerType_Config 5 0 true [(0%nat, 5)] 1.

Lemma puller_one_ticker_witness :
  ∃ sp pulls sp', NewServicePuller "s" DefaultServiceRouterConfig "t" = Ret (sp, pulls) ∧
    go_fold puller_do [OpReload 7; OpRestart; OpReload 9] sp = Ret sp' ∧
    sp_tickers sp' = [(sp_cancel sp', 9)].
Proof.
  eexists _, _, _. split; [reflexivity|]. split; [vm_compute; reflexivity|].
  apply (puller_one_ticker "s" DefaultServiceRouterConfig "t" [OpReload 7; OpRestart; OpReload 9]
    (mkServicePuller "s" "t" 2000000000 0 true [(0%nat, 2000000000)] 1) ["s"]); by vm_compute.
Defined.

Lemma puller_intervals_witness :
  NewServicePuller "s" ServiceRouterConfig_zero "t" = Panic NonPositiveTickerInterval.
Proof. by apply (puller_intervals "s" "t" Server_zero ServiceRouterConfig_zero). Defined.

Lemma reload_race_witness :
  ∃ schedule sp', reload_schedule schedule example_puller (RStop 7) (RStop 9)
      = Ret (sp', RDone, RDone) ∧
    ∀ ops sp'', go_fold puller_do ops sp' = Ret sp'' → (1%nat, 9) ∈ sp_tickers sp''.
Proof. apply (reload_race example_puller 7 9); lia. Defined.
