(* ===== verification/Router.v ===== *)
(** * The router ([sdk/go/common/service_router/router.go])

    [Router] puts the parts together: the registry tells the routing table
    and the router itself of changes, pullers ask the registry, pushers
    register servers, balancers choose.  The state also holds the store the
    registry talks to.  The registry runs its notifications in goroutines and
    waits for them; they are run here in the order of the subscribers.  A lock
    that is held for writing while a notification needs it for reading is a
    deadlock: the call that notifies waits for the notification.

    A puller is a pointer: it is stored before its first pull runs, as the
    fields read meanwhile are set by then. *)

From S2P Require Import Prelude RouterTypes LoadBalance RouterDb Registry Pullers.

(** Who subscribes: the routing table, the router, and the configuration
    manager of a client. *)
Inductive subscriber := SubRouterDb | SubRouter | SubConfigManager.

#[export] Instance subscriber_eq_dec : EqDecision subscriber.
Proof. solve_decision. Defined.

Record Router (KVS : Type) := mkRouter {
  rt_registry : ConsulRegistry subscriber;
  rt_kv : KVS;
  rt_routerDb : RouterDbImpl;
  rt_counters : gmap string Z;
  rt_configPullers : gmap string ServicePuller;
  rt_discoverPullers : gmap string ServicePuller;
  rt_servicePushers : gmap string ServicePusher;
  rt_balancers : gmap Z LoadBalance;
  (* what the configuration manager was notified of, oldest first *)
  rt_inbox : list (string * ServiceConfig);
  (* locks held for writing by the call that runs *)
  rt_configLock : bool;
  rt_discoverLock : bool;
  rt_pusherLock : bool
}.
Arguments mkRouter {KVS}. Arguments rt_registry {KVS}. Arguments rt_kv {KVS}.
Arguments rt_routerDb {KVS}. Arguments rt_counters {KVS}. Arguments rt_configPullers {KVS}.
Arguments rt_discoverPullers {KVS}. Arguments rt_servicePushers {KVS}.
Arguments rt_balancers {KVS}. Arguments rt_inbox {KVS}. Arguments rt_configLock {KVS}.
Arguments rt_discoverLock {KVS}. Arguments rt_pusherLock {KVS}.

Definition ROUTER_METRICS_SELECT_ADDRESS_TAGS_ADDR_VAL_NONE : string := "none".

Section Router.
Context {KVS : Type} {kvOps : ConsulKV KVS} {jsonServer : Json Server}
  {jsonRouter : Json ServiceRouterConfig} {hash : CityHash} {order : MapOrder}.
Implicit Types w : Router KVS.

Definition set_registry v w : Router KVS :=
  mkRouter v (rt_kv w) (rt_routerDb w) (rt_counters w) (rt_configPullers w)
    (rt_discoverPullers w) (rt_servicePushers w) (rt_balancers w) (rt_inbox w) (rt_configLock w)
    (rt_discoverLock w) (rt_pusherLock w).
Definition set_kv v w : Router KVS :=
  mkRouter (rt_registry w) v (rt_routerDb w) (rt_counters w) (rt_configPullers w)
    (rt_discoverPullers w) (rt_servicePushers w) (rt_balancers w) (rt_inbox w) (rt_configLock w)
    (rt_discoverLock w) (rt_pusherLock w).
Definition SetRouterDb v w : Router KVS :=
  mkRouter (rt_registry w) (rt_kv w) v (rt_counters w) (rt_configPullers w)
    (rt_discoverPullers w) (rt_servicePushers w) (rt_balancers w) (rt_inbox w) (rt_configLock w)
    (rt_discoverLock w) (rt_pusherLock w).
Definition set_counters v w : Router KVS :=
  mkRouter (rt_registry w) (rt_kv w) (rt_routerDb w) v (rt_configPullers w)
    (rt_discoverPullers w) (rt_servicePushers w) (rt_balancers w) (rt_inbox w) (rt_configLock w)
    (rt_discoverLock w) (rt_pusherLock w).
Definition set_configPullers v w : Router KVS :=
  mkRouter (rt_registry w) (rt_kv w) (rt_routerDb w) (rt_counters w) v
    (rt_discoverPullers w) (rt_servicePushers w) (rt_balancers w) (rt_inbox w) (rt_configLock w)
    (rt_discoverLock w) (rt_pusherLock w).
Definition set_discoverPullers v w : Router KVS :=
  mkRouter (rt_registry w) (rt_kv w) (rt_routerDb w) (rt_counters w) (rt_configPullers w)
    v (rt_servicePushers w) (rt_balancers w) (rt_inbox w) (rt_configLock w)
    (rt_discoverLock w) (rt_pusherLock w).
Definition set_servicePushers v w : Router KVS :=
  mkRouter (rt_registry w) (rt_kv w) (rt_routerDb w) (rt_counters w) (rt_configPullers w)
    (rt_discoverPullers w) v (rt_balancers w) (rt_inbox w) (rt_configLock w)
    (rt_discoverLock w) (rt_pusherLock w).
Definition set_balancers v w : Router KVS :=
  mkRouter (rt_registry w) (rt_kv w) (rt_routerDb w) (rt_counters w) (rt_configPullers w)
    (rt_discoverPullers w) (rt_servicePushers w) v (rt_inbox w) (rt_configLock w)
    (rt_discoverLock w) (rt_pusherLock w).
Definition set_configLock v w : Router KVS :=
  mkRouter (rt_registry w) (rt_kv w) (rt_routerDb w) (rt_counters w) (rt_configPullers w)
    (rt_discoverPullers w) (rt_servicePushers w) (rt_balancers w) (rt_inbox w) v
    (rt_discoverLock w) (rt_pusherLock w).
Definition set_discoverLock v w : Router KVS :=
  mkRouter (rt_registry w) (rt_kv w) (rt_routerDb w) (rt_counters w) (rt_configPullers w)
    (rt_discoverPullers w) (rt_servicePushers w) (rt_balancers w) (rt_inbox w) (rt_configLock w)
    v (rt_pusherLock w).
Definition set_pusherLock v w : Router KVS :=
  mkRouter (rt_registry w) (rt_kv w) (rt_routerDb w) (rt_counters w) (rt_configPullers w)
    (rt_discoverPullers w) (rt_servicePushers w) (rt_balancers w) (rt_inbox w) (rt_configLock w)
    (rt_discoverLock w) v.

Definition set_inbox v w : Router KVS :=
  mkRouter (rt_registry w) (rt_kv w) (rt_routerDb w) (rt_counters w) (rt_configPullers w)
    (rt_discoverPullers w) (rt_servicePushers w) (rt_balancers w) v (rt_configLock w)
    (rt_discoverLock w) (rt_pusherLock w).

(** Taking a lock, for reading or for writing, that the running call holds. *)
Definition take (held : bool) : go unit := if held then Panic Deadlock else Ret tt.

(** ** Pulling: the registry and who it notifies

    [now] is the clock in milliseconds. *)

(** [ConsulServiceInfoPull.Pull]: only the routing table subscribes to
    services. *)
Definition deliver_service (now : Z) w (n : notification subscriber) : Router KVS :=
  match n with
  | ServiceNotify SubRouterDb serviceName servers =>
      SetRouterDb (RouterDb_ServiceNotify now serviceName servers (rt_routerDb w)) w
  | _ => w
  end.

Definition pull_service (now : Z) (serviceName : string) w : Router KVS :=
  let '(registry, ns) := Discover (rt_kv w) serviceName (rt_registry w) in
  foldl (deliver_service now) (set_registry registry w) ns.

(** [ConsulServicePush.Push]. *)
Definition push_server (now : Z) (server : Server) w : Router KVS :=
  set_kv (Registry.RegisterServer now server (rt_kv w)).1 w.

(** Reloading a puller or a pusher of the router, with its pulls. *)
Definition reload_configPuller (pull : string → Router KVS → go (Router KVS))
    (key : string) (interval : Z) (p : ServicePuller) w : go (Router KVS) :=
  if Z.eqb (sp_interval p) interval then mret w
  else
    '(p', pulls) ← ServicePuller_Reload interval p;
    go_fold (λ w s, pull s w) pulls
      (set_configPullers (<[key := p']> (rt_configPullers w)) w).

Definition reload_discoverPuller (now : Z) (key : string) (interval : Z)
    (p : ServicePuller) w : go (Router KVS) :=
  if Z.eqb (sp_interval p) interval then mret w
  else
    '(p', pulls) ← ServicePuller_Reload interval p;
    mret (foldl (λ w s, pull_service now s w)
            (set_discoverPullers (<[key := p']> (rt_discoverPullers w)) w) pulls).

Definition reload_servicePusher (now : Z) (key : string) (ttl : Z) (sh : ServicePusher) w
  : go (Router KVS) :=
  if Z.eqb (sh_ttl sh) ttl then mret w
  else
    '(sh', pushes) ← ServicePusher_Reload ttl sh;
    mret (foldl (λ w s, push_server now s w)
            (set_servicePushers (<[key := sh']> (rt_servicePushers w)) w) pushes).

(** [Router.ConfigNotify], given how to pull a configuration. *)
Definition Router_ConfigNotify (pull : string → Router KVS → go (Router KVS)) (now : Z)
    (serviceName : string) (serviceConfig : ServiceConfig) w : go (Router KVS) :=
  if String.eqb serviceName "" then mret w
  else
    let interval := calculateInterval (src_PullInterval (sc_Router serviceConfig)) in
    w ← (if Z.ltb 0 interval then
           _ ← take (rt_configLock w);
           _ ← take (rt_discoverLock w);
           let configPuller := rt_configPullers w !! serviceName in
           let servicePuller := rt_discoverPullers w !! serviceName in
           w ← match configPuller with
               | Some p => reload_configPuller pull serviceName interval p w
               | None => mret w
               end;
           match servicePuller with
           | Some p => reload_discoverPuller now serviceName interval p w
           | None => mret w
           end
         else mret w);
    let ttl := calculateTtl (src_TtlInMs (sc_Router serviceConfig)) in
    if Z.ltb 0 ttl then
      _ ← take (rt_pusherLock w);
      match rt_servicePushers w !! serviceName with
      | Some sh => reload_servicePusher now serviceName ttl sh w
      | None => mret w
      end
    else mret w.

Definition deliver_config (pull : string → Router KVS → go (Router KVS)) (now : Z) w
    (n : notification subscriber) : go (Router KVS) :=
  match n with
  | ConfigNotify SubRouterDb serviceName config =>
      mret (SetRouterDb (RouterDb_ConfigNotify serviceName config (rt_routerDb w)) w)
  | ConfigNotify SubRouter serviceName config =>
      Router_ConfigNotify pull now serviceName config w
  | ConfigNotify SubConfigManager serviceName config =>
      mret (set_inbox (rt_inbox w ++ [(serviceName, config)]) w)
  | ServiceNotify _ _ _ => mret w
  end.

(** [ConsulServiceConfigPull.Pull]: a notified router reloads its pullers,
    which pull again. *)
Fixpoint pull_config (fuel : nat) (now : Z) (serviceName : string) w : go (Router KVS) :=
  match fuel with
  | O => OutOfFuel
  | S fuel =>
      let '(registry, ns) := GetConfig (rt_kv w) serviceName (rt_registry w) in
      go_fold (deliver_config (pull_config fuel now) now) ns (set_registry registry w)
  end.

(** ** Pullers and pushers, made when first needed *)

Definition GetOrCreateConfigPuller (fuel : nat) (now : Z) (serviceName : string) w
  : go (Router KVS) :=
  _ ← take (rt_configLock w);
  match rt_configPullers w !! serviceName with
  | Some _ => mret w
  | None =>
      let w := set_configLock true w in
      let w := set_registry (SubscribeConfig serviceName SubRouterDb (rt_registry w)) w in
      w ← pull_config fuel now serviceName w;
      let routerConfig := GetServiceRouterConfig (rt_routerDb w) serviceName in
      '(puller, pulls) ← NewServicePuller serviceName routerConfig ServicePullerType_Config;
      w ← go_fold (λ w s, pull_config fuel now s w) pulls w;
      let w := set_configPullers (<[serviceName := puller]> (rt_configPullers w)) w in
      let w := set_registry (SubscribeConfig serviceName SubRouter (rt_registry w)) w in
      mret (set_configLock false w)
  end.

Definition Router_GetServiceRouterConfig (fuel : nat) (now : Z) (serviceName : string) w
  : go (Router KVS * ServiceRouterConfig) :=
  w ← GetOrCreateConfigPuller fuel now serviceName w;
  mret (w, GetServiceRouterConfig (rt_routerDb w) serviceName).

Definition GetOrCreateDiscoverPuller (fuel : nat) (now : Z) (serviceName : string) w
  : go (Router KVS) :=
  _ ← take (rt_discoverLock w);
  match rt_discoverPullers w !! serviceName with
  | Some _ => mret w
  | None =>
      let w := set_discoverLock true w in
      let w := set_registry (SubscribeService serviceName SubRouterDb (rt_registry w)) w in
      '(w, routerConfig) ← Router_GetServiceRouterConfig fuel now serviceName w;
      '(puller, pulls) ← NewServicePuller serviceName routerConfig ServicePullerType_Server;
      let w := foldl (λ w s, pull_service now s w) w pulls in
      let w := set_discoverPullers (<[serviceName := puller]> (rt_discoverPullers w)) w in
      mret (set_discoverLock false w)
  end.

Definition getServiceKey (server : Server) : string :=
  sv_ServiceName server +:+ "::" +:+ sv_Host server +:+ ":" +:+ Itoa (sv_Port server).

Definition GetOrCreateServicePusher (fuel : nat) (now : Z) (server : Server) w
  : go (Router KVS) :=
  let key := getServiceKey server in
  _ ← take (rt_pusherLock w);
  match rt_servicePushers w !! key with
  | Some _ => mret w
  | None =>
      let w := set_pusherLock true w in
      '(w, routerConfig) ← Router_GetServiceRouterConfig fuel now (sv_ServiceName server) w;
      '(sh, pushes) ← NewServicePusher server routerConfig;
      let w := foldl (λ w s, push_server now s w) w pushes in
      let w := set_servicePushers (<[key := sh]> (rt_servicePushers w)) w in
      let w := set_registry
                 (SubscribeConfig (sv_ServiceName server) SubRouter (rt_registry w)) w in
      mret (set_pusherLock false w)
  end.

Definition Router_RegisterServer (fuel : nat) (now : Z) (server : Server) w
  : go (Router KVS) := GetOrCreateServicePusher fuel now server w.

Definition Router_GetConfigs (fuel : nat) (now : Z) (name : string) w
  : go (Router KVS * option (gmap string string)) :=
  w ← GetOrCreateConfigPuller fuel now name w;
  mret (w, GetServiceConfig (rt_routerDb w) name).

Definition setIsEdgeNode (isEdgeNode : bool) (server : Server) : Server :=
  set_server None None None None None None (Some isEdgeNode) None server.
Definition setPartitionList (partitionList : list Z) (server : Server) : Server :=
  foldl append_partition server partitionList.

(** ** Choosing a server *)

(** The counter of an address, incremented. *)
Definition count_address (server : option Server) w : Router KVS :=
  let key := match server with
             | None => ROUTER_METRICS_SELECT_ADDRESS_TAGS_ADDR_VAL_NONE
             | Some s => sv_Host s +:+ ":" +:+ Itoa (sv_Port s)
             end in
  set_counters (<[key := default 0 (rt_counters w !! key) + 1]> (rt_counters w)) w.

(** The method a balancer is made for, and its identifier. *)
Definition balancer_method (opt : ClientOption) : string * Z :=
  let method := co_Loadbalance opt in
  let balanceId := city method 0 in
  let balanceId := city (co_ServiceName opt) balanceId in
  let balanceId := city (co_Protocol opt) balanceId in
  if String.eqb method LoadBalanceMethod_USER_DEFINED then
    match co_UserBalance opt with
    | Some userBalance => (method, city (ub_TypeName userBalance) balanceId)
    | None => (LoadBalanceMethod_RANDOM, balanceId)
    end
  else (method, balanceId).

Section Balance.
Context {float : FloatConversion} {rand : Randomness}.

Definition new_balancer (method : string) (opt : ClientOption) : LoadBalance :=
  if String.eqb method LoadBalanceMethod_RANDOM then LoadBalanceRandom
  else if String.eqb method LoadBalanceMethod_ROUNDROBIN
  then LoadBalanceRoundrobin NewLoadBalanceRoundrobin
  else if String.eqb method LoadBalanceMethod_LOCALFIRST
  then LoadBalanceLocalFirst (NewLoadBalanceLocalFirst (co_LocalFirstConfig opt))
  else if String.eqb method LoadBalanceMethod_IPRANGEFIRST
  then LoadBalanceIpRangeFirst (NewLoadBalanceIpRangeFirst (co_LocalFirstConfig opt))
  else if String.eqb method LoadBalanceMethod_STATIC_WEIGHT then LoadBalanceStaticWeight
  else if String.eqb method LoadBalanceMethod_CONFIGURABLE_WEIGHT
  then LoadBalanceConfigurableWeight NewLoadBalanceConfigurableWeight
  else if String.eqb method LoadBalanceMethod_USER_DEFINED
  then match co_UserBalance opt with
       | Some userBalance => LoadBalanceUserDefined userBalance
       | None => LoadBalanceRandom
       end
  else LoadBalanceRandom.

(** The balancer of the table and its identifier. *)
Definition GetOrCreateBalancer (opt : ClientOption) w : Router KVS * Z * LoadBalance :=
  let '(method, balanceId) := balancer_method opt in
  match rt_balancers w !! balanceId with
  | Some balancer => (w, balanceId, balancer)
  | None =>
      let balancer := new_balancer method opt in
      (set_balancers (<[balanceId := balancer]> (rt_balancers w)) w, balanceId, balancer)
  end.

(** The identifier a lookup goes by. *)
Definition route_id (opt : ClientOption) : Z :=
  if co_RouteToEdgeNode opt then co_PartitionHash opt else co_ShardId opt.

Definition with_dc (opt : ClientOption) : ClientOption :=
  if Z.eqb (len (co_Dc opt)) 0 then set_co_Dc DEFAULT_DC opt else opt.

(** The servers [Router.Discover] chooses from. *)
Definition candidates (opt : ClientOption) (db : RouterDbImpl) : option ServerList :=
  let select routeId :=
    SelectServers db (co_ServiceName opt) (co_Protocol opt) routeId
      (co_ShardType opt) (co_Dc opt) in
  match select (route_id opt) with
  | Some serverList => Some serverList
  | None => if co_RouteToEdgeNode opt then select (co_ShardId opt) else None
  end.

Definition Router_Discover (fuel : nat) (now : Z) (opt : ClientOption) w
  : go (Router KVS * option Server) :=
  w ← GetOrCreateDiscoverPuller fuel now (co_ServiceName opt) w;
  let opt := with_dc opt in
  match candidates opt (rt_routerDb w) with
  | None => mret (count_address None w, None)
  | Some serverList =>
      let '(w, balanceId, balancer) := GetOrCreateBalancer opt w in
      '(balancer, res) ← Select fuel balancer serverList;
      let w := set_balancers (<[balanceId := balancer]> (rt_balancers w)) w in
      mret (count_address res w, res)
  end.

Definition getServerListHash (serverList : ServerList) : Z :=
  foldl (λ result server, city (sv_Host server +:+ Itoa (sv_Port server)) result) 0 serverList.

(** The loop of [BatchDiscover]: the balancer, what was chosen for each list,
    and the result. *)
Record batch := mkBatch {
  ba_balancer : LoadBalance;
  ba_selectServers : gmap Z (option Server);
  ba_result : gmap Z (option Server)
}.

Definition BatchDiscover_id (fuel : nat) (serverListsMap : gmap Z ServerList)
    (b : batch) (routeId : Z) : go batch :=
  match serverListsMap !! routeId with
  | Some serverList =>
      let hashCode := getServerListHash serverList in
      b ← (match ba_selectServers b !! hashCode with
           | Some _ => mret b
           | None =>
               '(balancer, server) ← Select fuel (ba_balancer b) serverList;
               mret (mkBatch balancer (<[hashCode := server]> (ba_selectServers b))
                       (ba_result b))
           end);
      mret (mkBatch (ba_balancer b) (ba_selectServers b)
              (<[routeId := default None (ba_selectServers b !! hashCode)]> (ba_result b)))
  | None => mret (mkBatch (ba_balancer b) (ba_selectServers b) (<[routeId := None]> (ba_result b)))
  end.

Definition Router_BatchDiscover (fuel : nat) (now : Z) (opt : ClientOption)
    (routerIds : list Z) w : go (Router KVS * gmap Z (option Server)) :=
  w ← GetOrCreateDiscoverPuller fuel now (co_ServiceName opt) w;
  let opt := with_dc opt in
  let serverListsMap :=
    BatchSelectServers (rt_routerDb w) (co_ServiceName opt) (co_Protocol opt) routerIds
      (co_ShardType opt) (co_Dc opt) in
  let '(w, balanceId, balancer) := GetOrCreateBalancer opt w in
  b ← go_fold (BatchDiscover_id fuel serverListsMap) routerIds (mkBatch balancer ∅ ∅);
  mret (set_balancers (<[balanceId := ba_balancer b]> (rt_balancers w)) w, ba_result b).

Definition Router_GetServerList (fuel : nat) (now : Z) (opt : ClientOption) w
  : go (Router KVS * option ServerList) :=
  w ← GetOrCreateDiscoverPuller fuel now (co_ServiceName opt) w;
  mret (w, SelectServers (rt_routerDb w) (co_ServiceName opt) (co_Protocol opt)
             (route_id opt) (co_ShardType opt) (co_Dc opt)).
End Balance.

(** ** The HTTP handlers *)

Record httpResult := mkHttpResult { hr_Code : Z; hr_Message : string; hr_Data : list string }.

Definition GetAllSubscribed_handler w : httpResult :=
  {| hr_Code := 0; hr_Message := ""; hr_Data := GetAllSubscribed (rt_registry w) |}.

(** The query of a request: the values of each parameter. *)
Abbreviation Query := (gmap string (list string)).

Definition StaticSwitch_handler (query : Query) w : Router KVS * httpResult :=
  match query !! "service_name", query !! "use_static" with
  | Some (serviceName :: _), Some (useStatic :: _) =>
      let registry :=
        if String.eqb useStatic "0" then DisableStatic serviceName (rt_registry w)
        else EnableStatic serviceName (rt_registry w) in
      (set_registry registry w, mkHttpResult 0 "" [])
  | _, _ => (w, mkHttpResult 1001 "Parameter error." [])
  end.

Definition PushStaticNodes_handler `{Json (list Server)} (query : Query) (body : string) w
  : Router KVS * httpResult :=
  match query !! "service_name" with
  | Some (serviceName :: _) =>
      if Z.eqb (len serviceName) 0 then (w, mkHttpResult 1001 "Parameter error." [])
      else
        match json_Unmarshal body [] with
        | (_, Some err) => (w, mkHttpResult 1002 (err_msg err) [])
        | (serverList, None) =>
            (set_registry (PushStaticNodes serviceName serverList (rt_registry w)) w,
             mkHttpResult 0 "Success." [])
        end
  | _ => (w, mkHttpResult 1001 "Parameter error." [])
  end.

(** Restarting one puller or pusher of a table, under its lock. *)
Definition restart_config (fuel : nat) (now : Z) (acc : Router KVS * list string)
    (kv : string * ServicePuller) : go (Router KVS * list string) :=
  let '(w, result) := acc in
  let '(k, v) := kv in
  '(v', pulls) ← ServicePuller_Restart v;
  w ← go_fold (λ w s, pull_config fuel now s w) pulls
        (set_configPullers (<[k := v']> (rt_configPullers w)) w);
  mret (w, result ++ ["[config_puller] " +:+ k]).

Definition restart_discover (now : Z) (acc : Router KVS * list string)
    (kv : string * ServicePuller) : go (Router KVS * list string) :=
  let '(w, result) := acc in
  let '(k, v) := kv in
  '(v', pulls) ← ServicePuller_Restart v;
  mret (foldl (λ w s, pull_service now s w)
          (set_discoverPullers (<[k := v']> (rt_discoverPullers w)) w) pulls,
        result ++ ["[discover_puller] " +:+ k]).

Definition restart_pusher (now : Z) (acc : Router KVS * list string)
    (kv : string * ServicePusher) : go (Router KVS * list string) :=
  let '(w, result) := acc in
  let '(k, v) := kv in
  '(v', pushes) ← ServicePusher_Restart v;
  mret (foldl (λ w s, push_server now s w)
          (set_servicePushers (<[k := v']> (rt_servicePushers w)) w) pushes,
        result ++ ["[service_heartbeat] " +:+ k]).

Definition RestartTimerHandler (fuel : nat) (now : Z) w : go (Router KVS * list string) :=
  let result := [""; ""] in
  '(w, result) ← go_fold (restart_config fuel now) (map_range (rt_configPullers w))
                   (set_configLock true w, result);
  let w := set_configLock false w in
  '(w, result) ← go_fold (restart_discover now) (map_range (rt_discoverPullers w))
                   (set_discoverLock true w, result);
  let w := set_discoverLock false w in
  '(w, result) ← go_fold (restart_pusher now) (map_range (rt_servicePushers w))
                   (set_pusherLock true w, result);
  mret (set_pusherLock false w, result).

(** ** The router that [GetRouter] makes

    The part of [initHttp] that changes the router: the HTTP server [port]
    listens on is registered as a server of the project, with a router
    configuration if there is none.  Binding the port and the handlers are
    left out. *)
Definition NewRouter (kv : KVS) : Router KVS :=
  mkRouter NewConsulRegistry kv GetRouterDb ∅ ∅ ∅ ∅ ∅ [] false false false.

Definition initHttp (fuel : nat) (now : Z) (projectName localIp : string) (port : Z) w
  : go (Router KVS) :=
  let server :=
    mkServer localIp (u16 port) projectName ServerProtocol_HTTP ServerStatus_AVAILABLE
      0 0 None None None None None None false "" "" in
  w ← Router_RegisterServer fuel now server w;
  match GetValue (rt_kv w) (GetRouterConfigPath server) with
  | Some _ => mret w
  | None =>
      mret (set_kv (PutRouterConfig now server DefaultServiceRouterConfig (rt_kv w)).1 w)
  end.

Definition GetRouter (fuel : nat) (now : Z) (projectName localIp : string) (port : Z)
    (kv : KVS) : go (Router KVS) :=
  initHttp fuel now projectName localIp port (NewRouter kv).

(** ** Lemmas: pulling a configuration *)

(** The registry has seen the configuration in the store. *)
Definition settled (kv : KVS) (sn : string) (cr : ConsulRegistry subscriber) : Prop :=
  match kv_Get (GetConfigVersionPath (with_name sn)) kv with
  | inl (Some v) => configVersions cr !! sn = Some v
  | _ =>
      match kv_List (GetConfigPath (with_name sn)) kv with
      | inl (_, i) => default 0 (lastIndexes cr !! GetConfigPath (with_name sn)) = i
      | inr _ => True
      end
  end.

Lemma settled_GetConfig kv sn cr : settled kv sn cr → GetConfig kv sn cr = (cr, []).
Proof.
  unfold settled, GetConfig, checkConfigUpdate, processConfig, checkUpdate.
  destruct (kv_Get _ kv) as [[v|]|].
  - intros Hv. cbn [sv_ServiceName with_name]. by rewrite decide_True.
  - intros Hi. cbn [negb]. destruct (kv_List _ kv) as [[l i]|]; [|done].
    rewrite Hi, Z.eqb_refl. by rewrite orb_true_r.
  - intros Hi. cbn [negb]. destruct (kv_List _ kv) as [[l i]|]; [|done].
    rewrite Hi, Z.eqb_refl. by rewrite orb_true_r.
Qed.

Lemma processConfig_lastIndexes sn l i (cr : ConsulRegistry subscriber) :
  let cr' := (processConfig (with_name sn) l i cr).1 in
  configVersions cr' = configVersions cr ∧
  default 0 (lastIndexes cr' !! GetConfigPath (with_name sn)) = i.
Proof.
  unfold processConfig, checkUpdate.
  destruct (Z.eqb_spec i (default 0 (lastIndexes cr !! GetConfigPath (with_name sn)))) as [E|E].
  - rewrite orb_true_r. done.
  - rewrite orb_false_r. destruct (Nat.eqb (length l) 0); cbn; by rewrite lookup_insert_eq.
Qed.

Lemma GetConfig_settles kv sn (cr : ConsulRegistry subscriber) :
  settled kv sn (GetConfig kv sn cr).1.
Proof.
  unfold settled, GetConfig, checkConfigUpdate.
  destruct (kv_Get _ kv) as [[v|]|].
  - cbn [sv_ServiceName with_name]. case_decide as Hd; [done|]. cbn [negb].
    destruct (kv_List _ kv) as [[l i]|]; [|by cbn; rewrite lookup_insert_eq].
    pose proof (processConfig_lastIndexes sn l i
      (set_configVersions (<[sn := v]> (configVersions cr)) cr)) as [-> _].
    cbn. by rewrite lookup_insert_eq.
  - cbn [negb]. destruct (kv_List _ kv) as [[l i]|]; [|done].
    by apply processConfig_lastIndexes.
  - cbn [negb]. destruct (kv_List _ kv) as [[l i]|]; [|done].
    by apply processConfig_lastIndexes.
Qed.

(** Discovering servers does not touch what is known of configurations. *)
Lemma Discover_keeps kv sn (cr : ConsulRegistry subscriber) :
  let cr' := (Discover kv sn cr).1 in
  configVersions cr' = configVersions cr ∧
  lastIndexes cr' !! GetConfigPath (with_name sn) = lastIndexes cr !! GetConfigPath (with_name sn).
Proof.
  assert (∀ l i, let cr' := (processDiscover (with_name sn) l i cr).1 in
    configVersions cr' = configVersions cr ∧
    lastIndexes cr' !! GetConfigPath (with_name sn)
      = lastIndexes cr !! GetConfigPath (with_name sn)) as Hp.
  { intros l i. unfold processDiscover, checkUpdate. destruct (Z.eqb _ _).
    { by rewrite orb_true_r. }
    assert (GetNodesPath (with_name sn) ≠ GetConfigPath (with_name sn)) as Hne.
    { intros E. unfold GetNodesPath, GetConfigPath in E. cbn [sv_ServiceName with_name] in E.
      apply append_inj_l, append_inj_l in E. by vm_compute in E. }
    rewrite orb_false_r. destruct (Nat.eqb _ _); cbn; by rewrite lookup_insert_ne. }
  unfold Discover. destruct (staticSwitches cr !! sn) as [[]|].
  - destruct (staticServerNodes cr !! sn); [|done]. by destruct (Nat.ltb _ _).
  - by destruct (kv_List _ kv) as [[l i]|].
  - by destruct (kv_List _ kv) as [[l i]|].
Qed.

Lemma Discover_settled kv sn cr : settled kv sn cr → settled kv sn (Discover kv sn cr).1.
Proof.
  destruct (Discover_keeps kv sn cr) as [Hv Hi]. unfold settled. by rewrite Hv, Hi.
Qed.

Lemma UpdateServers_configs now sn l rd : configs (UpdateServers now sn l rd) = configs rd.
Proof.
  unfold UpdateServers. apply (run_writes_inv (λ rd', configs rd' = configs rd)); [|done].
  unfold UpdateServers_writes. destruct (Nat.eqb _ _); [constructor|].
  destruct (foldl _ _ _) as [m1 m2].
  repeat (apply Forall_cons; split); [| |apply Forall_app; split].
  - intros rd' <-. unfold write_clean. by destruct (lastPartitionKeys rd' !! sn).
  - intros rd' <-. unfold write_make. by destruct (lastPartitionKeys rd' !! sn).
  - apply Forall_fmap, Forall_forall. by intros kv _ rd' <-.
  - apply Forall_fmap, Forall_forall. by intros kv _ rd' <-.
Qed.

(** What pulling servers leaves alone. *)
Lemma pull_service_frame now sn w :
  let w' := pull_service now sn w in
  rt_kv w' = rt_kv w ∧ rt_servicePushers w' = rt_servicePushers w ∧
  rt_configLock w' = rt_configLock w ∧ rt_discoverLock w' = rt_discoverLock w ∧
  rt_pusherLock w' = rt_pusherLock w ∧
  rt_registry w' = (Discover (rt_kv w) sn (rt_registry w)).1 ∧
  rt_configPullers w' = rt_configPullers w ∧ rt_discoverPullers w' = rt_discoverPullers w ∧
  configs (rt_routerDb w') = configs (rt_routerDb w).
Proof.
  unfold pull_service. destruct (Discover _ _ _) as [cr ns]. cbn [fst].
  assert (∀ w0, let w' := foldl (deliver_service now) w0 ns in
    rt_kv w' = rt_kv w0 ∧ rt_servicePushers w' = rt_servicePushers w0 ∧
    rt_configLock w' = rt_configLock w0 ∧ rt_discoverLock w' = rt_discoverLock w0 ∧
    rt_pusherLock w' = rt_pusherLock w0 ∧ rt_registry w' = rt_registry w0 ∧
    rt_configPullers w' = rt_configPullers w0 ∧ rt_discoverPullers w' = rt_discoverPullers w0 ∧
    configs (rt_routerDb w') = configs (rt_routerDb w0)) as Hf.
  { induction ns as [|n ns IH]; intros w0; [done|]. cbn [foldl].
    specialize (IH (deliver_service now w0 n)). cbv zeta in IH.
    destruct IH as (-> & -> & -> & -> & -> & -> & -> & -> & ->).
    destruct n as [[] ? ?|]; cbn; split_and!; try done. apply UpdateServers_configs. }
  exact (Hf (set_registry cr w)).
Qed.

(** Every puller of a table pulls the service it is there for. *)
Definition named (m : gmap string ServicePuller) : Prop :=
  map_Forall (λ k p, sp_serviceName p = k) m.

(** No lock is held. *)
Definition unlocked w : Prop :=
  rt_configLock w = false ∧ rt_discoverLock w = false ∧ rt_pusherLock w = false.

(** The state while the notifications of one pull are delivered. *)
Definition pulling (kv : KVS) (ps : gmap string ServicePusher) (sn : string) w : Prop :=
  rt_kv w = kv ∧ settled kv sn (rt_registry w) ∧
  (rt_servicePushers w = ps ∧ ps !! sn = None) ∧
  named (rt_configPullers w) ∧ named (rt_discoverPullers w) ∧ unlocked w.

Lemma pull_config_settled f now sn w :
  settled (rt_kv w) sn (rt_registry w) → pull_config (S f) now sn w = Ret w.
Proof.
  intros Hs. cbn [pull_config]. rewrite settled_GetConfig by done. by destruct w.
Qed.

Lemma ServicePuller_Reload_pos interval p :
  0 < interval → ∃ p', ServicePuller_Reload interval p = Ret (p', [sp_serviceName p]) ∧
    sp_interval p' = interval ∧ sp_serviceName p' = sp_serviceName p.
Proof.
  intros Hi. unfold ServicePuller_Reload, new_sp_context, ServicePuller_Start.
  cbn -[NewTicker filter]. rewrite NewTicker_pos by done. cbn -[filter]. by eexists.
Qed.

Lemma reload_configPuller_pulling f now kv ps sn interval p w :
  0 < interval → pulling kv ps sn w → rt_configPullers w !! sn = Some p →
  ∃ w', reload_configPuller (pull_config (S f) now) sn interval p w = Ret w' ∧
    pulling kv ps sn w' ∧ rt_routerDb w' = rt_routerDb w ∧
    rt_discoverPullers w' = rt_discoverPullers w.
Proof.
  intros Hi (Hk & Hs & [Hp Hn] & Hc & Hd & Hu) Ep. unfold reload_configPuller.
  destruct (Z.eqb (sp_interval p) interval); [by exists w|].
  destruct (ServicePuller_Reload_pos interval p Hi) as (p' & -> & _ & En).
  cbn [mbind go_bind go_fold]. rewrite (Hc sn p Ep) in *.
  rewrite pull_config_settled by (cbn; by rewrite Hk). cbn.
  eexists. split; [done|]. split; [|done]. split_and!; try done.
  by apply map_Forall_insert_2.
Qed.

Lemma reload_discoverPuller_pulling now kv ps sn interval p w :
  0 < interval → pulling kv ps sn w → rt_discoverPullers w !! sn = Some p →
  ∃ w', reload_discoverPuller now sn interval p w = Ret w' ∧
    pulling kv ps sn w' ∧ configs (rt_routerDb w') = configs (rt_routerDb w).
Proof.
  intros Hi (Hk & Hs & [Hp Hn] & Hc & Hd & Hu) Ep. unfold reload_discoverPuller.
  destruct (Z.eqb (sp_interval p) interval); [by exists w|].
  destruct (ServicePuller_Reload_pos interval p Hi) as (p' & -> & _ & En).
  rewrite (Hd sn p Ep) in *. cbn [mbind go_bind foldl].
  set (w1 := set_discoverPullers _ w).
  destruct (pull_service_frame now sn w1) as (F1 & F2 & F3 & F4 & F5 & F6 & F7 & F8 & F9).
  eexists. split; [reflexivity|]. split; [|done].
  unfold pulling, unlocked. rewrite F1, F2, F3, F4, F5, F6, F7, F8.
  split_and!; try done; try apply Hu.
  - unfold w1. cbn. rewrite Hk. by apply Discover_settled.
  - by apply map_Forall_insert_2.
Qed.

(** Delivering one notification of the pull. *)
Lemma deliver_config_pulling f now kv ps sn sub c w :
  pulling kv ps sn w →
  ∃ w', deliver_config (pull_config (S f) now) now w (ConfigNotify sub sn c) = Ret w' ∧
    pulling kv ps sn w' ∧
    configs (rt_routerDb w') =
      match sub with
      | SubRouterDb => <[sn := c]> (configs (rt_routerDb w))
      | _ => configs (rt_routerDb w)
      end.
Proof.
  intros Hw. destruct sub; cbn [deliver_config]; [by eexists| |by eexists].
  unfold Router_ConfigNotify. destruct (String.eqb sn ""); [by exists w|].
  set (interval := calculateInterval _). set (ttl := calculateTtl _).
  assert (∀ w1, pulling kv ps sn w1 → (if Z.ltb 0 ttl then _ ← take (rt_pusherLock w1);
    match rt_servicePushers w1 !! sn with
    | Some sh => reload_servicePusher now sn ttl sh w1
    | None => mret w1
    end else mret w1) = Ret w1) as Hpush.
  { intros w1 (_ & _ & [Hp Hn] & _ & _ & (_ & _ & Hu)). rewrite Hp, Hn, Hu. by destruct (Z.ltb 0 ttl). }
  pose proof Hw as (_ & _ & _ & _ & _ & (Hu1 & Hu2 & _)).
  destruct (Z.ltb_spec 0 interval) as [Hi|].
  2: { exists w. cbn [mbind go_bind mret go_ret]. by rewrite Hpush. }
  rewrite Hu1, Hu2. cbn [take mbind go_bind].
  assert (∃ w1, match rt_configPullers w !! sn with
      | Some p => reload_configPuller (pull_config (S f) now) sn interval p w
      | None => mret w end = Ret w1 ∧ pulling kv ps sn w1 ∧ rt_routerDb w1 = rt_routerDb w ∧
      rt_discoverPullers w1 = rt_discoverPullers w) as (w1 & -> & Hw1 & Edb & Edp).
  { destruct (rt_configPullers w !! sn) as [p|] eqn:Ep; [|by exists w].
    by apply (reload_configPuller_pulling f). }
  rewrite <- Edp.
  assert (∃ w2, match rt_discoverPullers w1 !! sn with
      | Some p => reload_discoverPuller now sn interval p w1
      | None => mret w1 end = Ret w2 ∧ pulling kv ps sn w2 ∧
      configs (rt_routerDb w2) = configs (rt_routerDb w1)) as (w2 & E2 & Hw2 & Ec).
  { destruct (rt_discoverPullers w1 !! sn) as [p|] eqn:Ep; [|by exists w1].
    by apply reload_discoverPuller_pulling. }
  cbn [mbind go_bind]. rewrite E2. cbn [mbind go_bind]. rewrite Hpush by done.
  exists w2. by rewrite Ec, Edb.
Qed.

(** Delivering all of them. *)
Lemma deliver_all_pulling f now kv ps sn c subs w :
  pulling kv ps sn w →
  ∃ w', go_fold (deliver_config (pull_config (S f) now) now)
      ((λ sub, ConfigNotify sub sn c) <$> subs) w = Ret w' ∧ pulling kv ps sn w' ∧
    configs (rt_routerDb w') =
      if decide (SubRouterDb ∈ subs) then <[sn := c]> (configs (rt_routerDb w))
      else configs (rt_routerDb w).
Proof.
  revert w. induction subs as [|sub subs IH]; intros w Hw.
  { exists w. by rewrite decide_False by apply not_elem_of_nil. }
  destruct (deliver_config_pulling f now kv ps sn sub c w Hw) as (w1 & E1 & Hw1 & Ec1).
  destruct (IH w1 Hw1) as (w2 & E2 & Hw2 & Ec2).
  exists w2. split; [|split; [done|]].
  - rewrite fmap_cons. cbn [go_fold]. rewrite E1. exact E2.
  - rewrite Ec2, Ec1. destruct sub.
    + rewrite (decide_True (P := SubRouterDb ∈ SubRouterDb :: subs)) by left.
      case_decide; [|done]. by rewrite insert_insert_eq.
    + apply decide_ext. rewrite elem_of_cons. naive_solver.
    + apply decide_ext. rewrite elem_of_cons. naive_solver.
Qed.

(** What [GetConfig] notifies: the subscribers of the service, with one
    configuration. *)
Lemma GetConfig_notifications kv sn (cr : ConsulRegistry subscriber) :
  ∃ c subs, (GetConfig kv sn cr).2 = (λ sub, ConfigNotify sub sn c) <$> subs ∧
    (subs = [] ∨ subs = default [] (configSubscribers cr !! sn)).
Proof.
  unfold GetConfig, checkConfigUpdate.
  assert (∀ cr1, configSubscribers cr1 = configSubscribers cr → ∃ c subs,
    match kv_List (GetConfigPath (with_name sn)) kv with
    | inr _ => (cr1, [])
    | inl (l, i) => processConfig (with_name sn) l i cr1
    end.2 = (λ sub, ConfigNotify sub sn c) <$> subs ∧
    (subs = [] ∨ subs = default [] (configSubscribers cr !! sn))) as Hp.
  { intros cr1 <-. destruct (kv_List _ kv) as [[l i]|].
    2: { exists (mkServiceConfig ServiceRouterConfig_zero None), []. auto. }
    unfold processConfig, checkUpdate.
    exists (processConfig_config (with_name sn) l).
    destruct (Z.eqb _ _); cbn -[processConfig_config]; destruct (Nat.eqb _ 0);
      cbn -[processConfig_config]; try (exists []; by auto).
    exists (default [] (configSubscribers cr1 !! sn)).
    by destruct (configSubscribers cr1 !! sn); auto. }
  destruct (kv_Get _ kv) as [[v|]|]; [case_decide|..]; cbn [negb]; try by apply Hp.
  exists (mkServiceConfig ServiceRouterConfig_zero None), []. auto.
Qed.

(** The pull, with all it keeps. *)
Lemma pull_config_spec f now sn w :
  named (rt_configPullers w) → named (rt_discoverPullers w) →
  rt_servicePushers w !! sn = None → unlocked w →
  ∃ w', pull_config (S (S f)) now sn w = Ret w' ∧
    pulling (rt_kv w) (rt_servicePushers w) sn w' ∧
    ∀ c, ConfigNotify SubRouterDb sn c ∈ (GetConfig (rt_kv w) sn (rt_registry w)).2 →
      configs (rt_routerDb w') !! sn = Some c.
Proof.
  intros Hc Hd Hp Hu.
  destruct (GetConfig_notifications (rt_kv w) sn (rt_registry w)) as (c & subs & En & _).
  pose proof (GetConfig_settles (rt_kv w) sn (rt_registry w)) as Hs.
  destruct (GetConfig (rt_kv w) sn (rt_registry w)) as [cr ns] eqn:E. cbn [fst snd] in *. subst ns.
  destruct (deliver_all_pulling f now (rt_kv w) (rt_servicePushers w) sn c subs (set_registry cr w))
    as (w' & Ew & Hw' & Ec); [by split_and!|].
  exists w'. split_and!; [|done|].
  - change (pull_config (S (S f)) now sn w) with
      (let '(registry, ns) := GetConfig (rt_kv w) sn (rt_registry w) in
       go_fold (deliver_config (pull_config (S f) now) now) ns (set_registry registry w)).
    rewrite E. exact Ew.
  - intros c' Hin. apply list_elem_of_fmap in Hin as (sub & [= <- ->] & Hin).
    rewrite Ec, decide_True by done. apply lookup_insert_eq.
Qed.

(** ** Lemmas: a configuration without the router's part *)

Lemma processConfig_no_router sn l :
  Forall (λ kv, kv.1 ≠ GetRouterConfigPath (with_name sn)) l →
  sc_Router (processConfig_config (with_name sn) l) = ServiceRouterConfig_zero.
Proof.
  intros Hl. unfold processConfig_config.
  assert (∀ acc, (foldl (processConfig_pair (with_name sn)) acc l).1 = acc.1) as E.
  { induction Hl as [|[k v] l Hk Hl IH]; intros acc; [done|]. cbn [foldl].
    rewrite IH. unfold processConfig_pair. cbn [fst snd].
    destruct (String.eqb_spec k (GetRouterConfigPath (with_name sn))); [done|]. cbn [andb].
    by destruct (_ && _)%bool. }
  specialize (E (ServiceRouterConfig_zero, ∅)).
  destruct (foldl _ _ l) as [r m]. cbn in *. done.
Qed.

(** The first pull of a service nobody subscribed to. *)
Lemma GetConfig_first kv sn l i (cr : ConsulRegistry subscriber) :
  configSubscribers cr !! sn = Some [SubRouterDb] → configVersions cr !! sn = None →
  kv_List (GetConfigPath (with_name sn)) kv = inl (l, i) → l ≠ [] →
  default 0 (lastIndexes cr !! GetConfigPath (with_name sn)) ≠ i →
  (GetConfig kv sn cr).2 = [ConfigNotify SubRouterDb sn (processConfig_config (with_name sn) l)].
Proof.
  intros Hsub Hver Hl Hne Hi. unfold GetConfig.
  assert (∃ cr1, checkConfigUpdate kv (with_name sn) cr = (cr1, true) ∧
    configSubscribers cr1 = configSubscribers cr ∧ lastIndexes cr1 = lastIndexes cr)
    as (cr1 & -> & E1 & E2).
  { unfold checkConfigUpdate. destruct (kv_Get _ kv) as [[v|]|]; [|by eauto..].
    cbn [sv_ServiceName with_name]. rewrite Hver. rewrite decide_False by done. by eauto. }
  cbn [negb]. rewrite Hl. unfold processConfig, checkUpdate. rewrite E2.
  destruct (Z.eqb_spec i (default 0 (lastIndexes cr !! GetConfigPath (with_name sn)))); [congruence|].
  destruct l as [|kv0 l]; [done|].
  change (sv_ServiceName (with_name sn)) with sn.
  cbn -[processConfig_config GetConfigPath with_name]. by rewrite E1, Hsub.
Qed.

(** ** Properties *)

(** C40: a pull of a configuration settles, where it starts with none of the
    router's locks held ([unlocked]), the pullers are filed under the names of
    their services ([named]) and no pusher is filed under the bare name of the
    service.  Although a notified router reloads pullers that pull again, the
    pull returns (two levels are enough), a second pull with nothing changed in
    the store changes nothing, and where the routing table subscribes and is
    told a configuration, it has it.  A pull with the configuration lock held,
    which is how [RestartTimerHandler] pulls, is not covered: there a notification
    waits for that lock for ever ([RestartTimerHandler_deadlock]). *)
Theorem pull_config_settles f now sn w :
  named (rt_configPullers w) → named (rt_discoverPullers w) →
  rt_servicePushers w !! sn = None → unlocked w →
  ∃ w', pull_config (S (S f)) now sn w = Ret w' ∧
    pull_config (S (S f)) now sn w' = Ret w' ∧
    ∀ c, ConfigNotify SubRouterDb sn c ∈ (GetConfig (rt_kv w) sn (rt_registry w)).2 →
      configs (rt_routerDb w') !! sn = Some c.
Proof.
  intros Hc Hd Hp Hu.
  destruct (pull_config_spec f now sn w Hc Hd Hp Hu) as (w' & E & (Hk & Hs & _) & Hcfg).
  exists w'. split_and!; [done| |done]. apply pull_config_settled. by rewrite Hk.
Qed.

(** Pushers do not hear of a new time to live.  [ConfigNotify] looks the
    pusher up by the name of the service, the table has them by name, host
    and port: whatever the new configuration is, pulling it leaves every
    pusher, its time to live and its ticker as they were. *)
Theorem config_misses_pushers f now sn w :
  named (rt_configPullers w) → named (rt_discoverPullers w) → unlocked w →
  map_Forall (λ k sh, k = getServiceKey (sh_server sh)) (rt_servicePushers w) →
  (∀ a b, sn ≠ a +:+ "::" +:+ b) →
  ∃ w', pull_config (S (S f)) now sn w = Ret w' ∧
    rt_servicePushers w' = rt_servicePushers w.
Proof.
  intros Hc Hd Hu Hk Hsn.
  assert (rt_servicePushers w !! sn = None) as Hp.
  { apply eq_None_not_Some. intros [sh Hsh]. apply Hk in Hsh.
    by apply (Hsn (sv_ServiceName (sh_server sh)) (sv_Host (sh_server sh) +:+ ":"
      +:+ Itoa (sv_Port (sh_server sh)))). }
  destruct (pull_config_spec f now sn w Hc Hd Hp Hu) as (w' & E & (_ & _ & [? _] & _) & _).
  by exists w'.
Qed.

(** A service without a router configuration stops the process.  Where
    the store has something under the configuration of a service but not the
    router's part (as [PutServiceConfigs] leaves it for a new service), the
    first use of the service panics: the interval of the puller is 0. *)
Theorem GetOrCreateConfigPuller_panics f now sn w l i :
  unlocked w → rt_configPullers w !! sn = None →
  configSubscribers (rt_registry w) !! sn = None →
  configVersions (rt_registry w) !! sn = None →
  kv_List (GetConfigPath (with_name sn)) (rt_kv w) = inl (l, i) → l ≠ [] →
  default 0 (lastIndexes (rt_registry w) !! GetConfigPath (with_name sn)) ≠ i →
  Forall (λ kv, kv.1 ≠ GetRouterConfigPath (with_name sn)) l →
  GetOrCreateConfigPuller (S f) now sn w = Panic NonPositiveTickerInterval.
Proof.
  intros (Hu & _ & _) Hc Hsub Hver Hl Hne Hi Hr. unfold GetOrCreateConfigPuller.
  rewrite Hu, Hc. cbn [take mbind go_bind].
  set (w1 := set_registry _ _).
  assert (configSubscribers (rt_registry w1) !! sn = Some [SubRouterDb]) as Hsub1.
  { cbn. rewrite lookup_insert_eq. unfold SubscribeConfig_read. by rewrite Hsub. }
  pose proof (GetConfig_first (rt_kv w1) sn l i (rt_registry w1) Hsub1 Hver Hl Hne Hi) as Hg.
  cbn [pull_config]. destruct (GetConfig _ _ _) as [cr ns]. cbn [snd] in Hg. rewrite Hg.
  cbn [go_fold deliver_config mbind go_bind mret go_ret].
  set (w2 := SetRouterDb _ _).
  assert (GetServiceRouterConfig (rt_routerDb w2) sn = ServiceRouterConfig_zero) as ->.
  { unfold GetServiceRouterConfig, w2. cbn -[processConfig_config with_name].
    rewrite lookup_insert_eq. by apply processConfig_no_router. }
  done.
Qed.

(** ** Choosing: lemmas *)

Section Choosing.
Context {float : FloatConversion} {rand : Randomness}.

(** A balancer of the user's chooses from the list it is given; the router's own do. *)
Definition user_honest (ub : UserBalance) : Prop := ∀ l s, ub_Select ub l = Some s → s ∈ l.
Definition honest (lb : LoadBalance) : Prop :=
  match lb with LoadBalanceUserDefined ub => user_honest ub | _ => True end.
Definition option_honest (opt : ClientOption) : Prop :=
  match co_UserBalance opt with Some ub => user_honest ub | None => True end.

Lemma Select_elem fuel lb l lb' s :
  honest lb → weights_ok l → Select fuel lb l = Ret (lb', Some s) → s ∈ l ∧ honest lb'.
Proof.
  intros Hu Hw. destruct (decide (l = [])) as [->|Hl].
  { destruct lb as [| | | | | |ub]; try done. intros [= <- Es]. split; [exact (Hu _ _ Es)|done]. }
  destruct lb as [|request|lf|lf| |st|ub]; cbn [Select];
    [| | | | | |intros [= <- Es]; split; [exact (Hu _ _ Es)|done]].
  - destruct (Random_Select_elem l Hl) as (s' & -> & ?). by intros [= <- <-].
  - destruct (Roundrobin_Select_elem request l Hl) as (req & s' & -> & ?). by intros [= <- <-].
  - destruct (LocalFirst_Select_elem lf l Hl) as (s' & -> & ? & _). by intros [= <- <-].
  - destruct (IpRangeFirst_Select_elem lf l Hl) as (s' & -> & ? & _). by intros [= <- <-].
  - destruct (StaticWeight_Select_elem l Hw Hl) as (s' & -> & ?). by intros [= <- <-].
  - destruct (ConfigurableWeight_Select fuel st l) as [[st' r]| |] eqn:E; cbn; try done.
    intros [= <- ->]. split; [|done]. unfold ConfigurableWeight_Select in E.
    destruct l as [|s0 l0]; [done|].
    destruct (ConfigurableWeight_scan _ _ _ _) as [[g m]| |]; cbn [mbind go_bind] in E; try done.
    by eapply ConfigurableWeight_loop_elem.
Qed.

Lemma Select_honest fuel lb l lb' r : honest lb → Select fuel lb l = Ret (lb', r) → honest lb'.
Proof.
  intros Hu. destruct lb; try done; cbn [Select]; try by intros [= <- <-].
  - destruct (Roundrobin_Select request l). by intros [= <- <-].
  - destruct (ConfigurableWeight_Select fuel state l) as [[]| |]; cbn; try done.
    by intros [= <- <-].
Qed.

Lemma new_balancer_honest method opt : option_honest opt → honest (new_balancer method opt).
Proof.
  unfold option_honest, new_balancer. intros Hopt. repeat (destruct (String.eqb _ _); [done|]).
  destruct (String.eqb _ _); [|done]. by destruct (co_UserBalance opt).
Qed.

Lemma GetOrCreateBalancer_honest opt w w' id lb :
  option_honest opt → map_Forall (λ _ lb, honest lb) (rt_balancers w) →
  GetOrCreateBalancer opt w = (w', id, lb) → honest lb ∧ rt_routerDb w' = rt_routerDb w.
Proof.
  intros Hopt Hb. unfold GetOrCreateBalancer. destruct (balancer_method opt) as [method bid].
  destruct (rt_balancers w !! _) as [b|] eqn:E; intros [= <- <- <-]; (split; [|done]).
  - by apply (Hb _ _ E).
  - by apply new_balancer_honest.
Qed.

(** What the loop of [BatchDiscover] keeps. *)
Record batch_inv (lists : gmap Z ServerList) (seen : list Z) (b : batch) : Prop := {
  bi_balancer : honest (ba_balancer b);
  bi_dom : ∀ r, is_Some (ba_result b !! r) ↔ r ∈ seen;
  bi_result : ∀ r x, ba_result b !! r = Some x →
    match lists !! r with
    | Some l => ba_selectServers b !! getServerListHash l = Some x
    | None => x = None
    end;
  bi_select : ∀ h s, ba_selectServers b !! h = Some (Some s) →
    ∃ r l, lists !! r = Some l ∧ getServerListHash l = h ∧ s ∈ l
}.

Lemma BatchDiscover_id_inv fuel lists seen b r b' :
  map_Forall (λ _ l, weights_ok l) lists → batch_inv lists seen b →
  BatchDiscover_id fuel lists b r = Ret b' → batch_inv lists (seen ++ [r]) b'.
Proof.
  intros Hw [Hb Hd Hr Hs]. unfold BatchDiscover_id.
  assert (∀ m x, (∀ r, is_Some (m !! r) ↔ r ∈ seen) →
    ∀ r', is_Some (<[r := x]> (m : gmap Z (option Server)) !! r') ↔ r' ∈ seen ++ [r]) as Hdom.
  { intros m x Hm r'. rewrite elem_of_app, list_elem_of_singleton.
    destruct (decide (r' = r)) as [->|].
    - rewrite lookup_insert_eq. naive_solver.
    - rewrite lookup_insert_ne by done. rewrite Hm. naive_solver. }
  destruct (lists !! r) as [l|] eqn:El.
  2: { intros [= <-]. split; cbn; [done|by apply Hdom| |done].
       intros r' x. destruct (decide (r' = r)) as [->|].
       - rewrite lookup_insert_eq. intros [= <-]. by rewrite El.
       - rewrite lookup_insert_ne by done. apply Hr. }
  assert (∀ b1, honest (ba_balancer b1) → ba_result b1 = ba_result b →
    (∀ h x, ba_selectServers b !! h = Some x → ba_selectServers b1 !! h = Some x) →
    is_Some (ba_selectServers b1 !! getServerListHash l) →
    (∀ h s, ba_selectServers b1 !! h = Some (Some s) →
       ∃ r l, lists !! r = Some l ∧ getServerListHash l = h ∧ s ∈ l) →
    batch_inv lists (seen ++ [r]) (mkBatch (ba_balancer b1) (ba_selectServers b1)
      (<[r := default None (ba_selectServers b1 !! getServerListHash l)]> (ba_result b1)))) as Hstep.
  { intros b1 Hb1 E1 Hsub [x Hx] Hs1. rewrite E1, Hx. split; cbn; [done|by apply Hdom| |done].
    intros r' y. destruct (decide (r' = r)) as [->|].
    - rewrite lookup_insert_eq, El. intros [= <-]. done.
    - rewrite lookup_insert_ne by done. intros Hy. apply Hr in Hy.
      destruct (lists !! r'); [|done]. by apply Hsub. }
  destruct (ba_selectServers b !! getServerListHash l) as [x|] eqn:Ex.
  - cbn [mbind go_bind mret go_ret]. intros [= <-]. by apply Hstep; eauto.
  - destruct (Select fuel (ba_balancer b) l) as [[lb' s]| |] eqn:Esel; cbn [mbind go_bind]; try done.
    set (b1 := mkBatch lb' _ _). intros E.
    assert (b' = mkBatch (ba_balancer b1) (ba_selectServers b1)
      (<[r := default None (ba_selectServers b1 !! getServerListHash l)]> (ba_result b1))) as ->
      by (by injection E).
    apply Hstep; cbn; [by eapply Select_honest|done| | |].
    + intros h x Hh. rewrite lookup_insert_ne; [done|]. congruence.
    + rewrite lookup_insert_eq. by eexists.
    + intros h s'. destruct (decide (h = getServerListHash l)) as [->|].
      * rewrite lookup_insert_eq. intros [= ->]. exists r, l. split; [done|]. split; [done|].
        eapply Select_elem; [exact Hb|by apply (Hw _ _ El)|exact Esel].
      * rewrite lookup_insert_ne by done. apply Hs.
Qed.

Lemma BatchDiscover_loop_inv fuel lists ids seen b b' :
  map_Forall (λ _ l, weights_ok l) lists → batch_inv lists seen b →
  go_fold (BatchDiscover_id fuel lists) ids b = Ret b' → batch_inv lists (seen ++ ids) b'.
Proof.
  intros Hw. revert seen b. induction ids as [|r ids IH]; intros seen b Hb; cbn [go_fold].
  { intros [= <-]. by rewrite app_nil_r. }
  destruct (BatchDiscover_id fuel lists b r) as [b1| |] eqn:E; cbn [mbind go_bind]; try done.
  intros Hf. apply (BatchDiscover_id_inv _ _ seen) in E; [|done|done].
  replace (seen ++ r :: ids) with ((seen ++ [r]) ++ ids) by (by rewrite <- app_assoc).
  by eapply IH.
Qed.

(** Without any assumption: the identifiers [BatchDiscover] answers for. *)
Lemma BatchDiscover_loop_dom fuel lists ids b b' :
  go_fold (BatchDiscover_id fuel lists) ids b = Ret b' →
  ∀ r, is_Some (ba_result b' !! r) ↔ is_Some (ba_result b !! r) ∨ r ∈ ids.
Proof.
  revert b. induction ids as [|r0 ids IH]; intros b; cbn [go_fold].
  { intros [= <-] r. rewrite elem_of_nil. tauto. }
  destruct (BatchDiscover_id fuel lists b r0) as [b1| |] eqn:E; cbn [mbind go_bind]; try done.
  intros Hf r. rewrite (IH b1 Hf r), elem_of_cons.
  assert (∃ x, ba_result b1 = <[r0 := x]> (ba_result b)) as [x ->].
  { unfold BatchDiscover_id in E. destruct (lists !! r0) as [l|].
    2: { injection E as <-. by eexists. }
    destruct (ba_selectServers b !! getServerListHash l).
    - injection E as <-. by eexists.
    - destruct (Select fuel (ba_balancer b) l) as [[lb s]| |]; cbn [mbind go_bind] in E; try done.
      injection E as <-. by eexists. }
  destruct (decide (r = r0)) as [->|].
  - rewrite lookup_insert_eq. naive_solver.
  - rewrite lookup_insert_ne by done. naive_solver.
Qed.

Lemma Router_BatchDiscover_dom fuel now opt ids w w' result :
  Router_BatchDiscover fuel now opt ids w = Ret (w', result) →
  ∀ r, is_Some (result !! r) ↔ r ∈ ids.
Proof.
  unfold Router_BatchDiscover.
  destruct (GetOrCreateDiscoverPuller _ _ _ _) as [w1| |]; cbn [mbind go_bind]; try done.
  destruct (GetOrCreateBalancer _ _) as [[w2 id] lb].
  destruct (go_fold _ ids _) as [b| |] eqn:Ef; cbn [mbind go_bind]; try done.
  intros E r. injection E as _ <-. rewrite (BatchDiscover_loop_dom _ _ _ _ _ Ef). cbn.
  rewrite lookup_empty. split; [by intros [[]|]|auto].
Qed.

(** ** Choosing: properties *)

(** Where the servers of a request are: in the data centre it names or the
    default one, under its partition if it goes to an edge node and the table
    has any there, and under its shard otherwise. *)
Definition expected_servers (opt : ClientOption) (db : RouterDbImpl) : option ServerList :=
  let dc := if String.eqb (co_Dc opt) "" then DEFAULT_DC else co_Dc opt in
  let registered routeId :=
    SelectServers db (co_ServiceName opt) (co_Protocol opt) routeId (co_ShardType opt) dc in
  match (if co_RouteToEdgeNode opt then registered (co_PartitionHash opt) else None) with
  | Some servers => Some servers
  | None => registered (co_ShardId opt)
  end.

Lemma len_eqb_0 s : Z.eqb (len s) 0 = String.eqb s "".
Proof. by destruct s. Qed.

Lemma candidates_expected opt db : candidates (with_dc opt) db = expected_servers opt db.
Proof.
  unfold candidates, expected_servers, with_dc, route_id. rewrite len_eqb_0.
  destruct (String.eqb _ _); cbn [set_co_Dc co_ServiceName co_Protocol co_ShardId co_ShardType
    co_Dc co_RouteToEdgeNode co_PartitionHash];
    destruct (co_RouteToEdgeNode opt); try done; by destruct (SelectServers _ _ _ _ _ _).
Qed.

(** C11: a server that [Discover] returns is one of those the routing table
    has for the service, protocol, role and data centre (the default one if
    none is given) under the partition of a request to an edge node and,
    failing that, under its shard; nothing is returned when the table has
    none.  This is of a [Discover] that returns, with weights that are [uint32]s
    ([weights_ok]); where the option or the router has a balancer that the user
    defined, that balancer has to choose from the list it is given
    ([option_honest], [honest]), since the router takes whatever it answers. *)
Theorem Router_Discover_sound fuel now opt w w1 w' res :
  GetOrCreateDiscoverPuller fuel now (co_ServiceName opt) w = Ret w1 →
  option_honest opt → map_Forall (λ _ lb, honest lb) (rt_balancers w1) →
  map_Forall (λ _ l, weights_ok l) (services (rt_routerDb w1)) →
  Router_Discover fuel now opt w = Ret (w', res) →
  match expected_servers opt (rt_routerDb w1) with
  | None => res = None
  | Some l => ∀ s, res = Some s → s ∈ l
  end.
Proof.
  intros Hd Hm Hb Hw. rewrite <- candidates_expected. unfold Router_Discover. rewrite Hd.
  cbn [mbind go_bind].
  destruct (candidates (with_dc opt) (rt_routerDb w1)) as [l|] eqn:Ec; [|by intros [= <- <-]].
  destruct (GetOrCreateBalancer (with_dc opt) w1) as [[w2 id] lb] eqn:Eb.
  apply GetOrCreateBalancer_honest in Eb as [Hu _]; [| |done].
  2: { unfold with_dc. by destruct (Z.eqb _ _). }
  destruct (Select fuel lb l) as [[lb' r]| |] eqn:Es; cbn [mbind go_bind]; try done.
  intros [= <- <-] s ->. eapply Select_elem; [exact Hu| |exact Es].
  unfold candidates, SelectServers in Ec.
  destruct (services (rt_routerDb w1) !! _) as [l1|] eqn:E1.
  - injection Ec as <-. by apply (Hw _ _ E1).
  - destruct (co_RouteToEdgeNode _); [|done]. by apply (Hw _ _ Ec).
Qed.

(** C12: [BatchDiscover] answers for exactly the identifiers asked for:
    [nil] for one the routing table has no servers for, and the same answer
    for two with the same servers; an answer that is a server is one of the
    identifier's servers, where no two server lists have the same hash.  As for
    [Discover], this is of a call that returns, with weights that are [uint32]s,
    and a balancer that the user defined has to choose from the list it is given
    ([option_honest], [honest]). *)
Theorem Router_BatchDiscover_spec fuel now opt ids w w1 w' result :
  GetOrCreateDiscoverPuller fuel now (co_ServiceName opt) w = Ret w1 →
  option_honest opt → map_Forall (λ _ lb, honest lb) (rt_balancers w1) →
  map_Forall (λ _ l, weights_ok l) (services (rt_routerDb w1)) →
  Router_BatchDiscover fuel now opt ids w = Ret (w', result) →
  let servers r := SelectServers (rt_routerDb w1) (co_ServiceName opt) (co_Protocol opt) r
    (co_ShardType opt) (co_Dc (with_dc opt)) in
  (∀ r, is_Some (result !! r) ↔ r ∈ ids) ∧
  (∀ r, r ∈ ids → servers r = None → result !! r = Some None) ∧
  (∀ r1 r2, r1 ∈ ids → r2 ∈ ids → servers r1 = servers r2 → result !! r1 = result !! r2) ∧
  ((∀ r1 r2 l1 l2, servers r1 = Some l1 → servers r2 = Some l2 →
      getServerListHash l1 = getServerListHash l2 → l1 = l2) →
   ∀ r l s, servers r = Some l → result !! r = Some (Some s) → s ∈ l).
Proof.
  intros Hd Hm Hb Hw Heq servers. unfold Router_BatchDiscover in Heq. rewrite Hd in Heq.
  cbn [mbind go_bind] in Heq.
  assert (co_ServiceName (with_dc opt) = co_ServiceName opt ∧
    co_Protocol (with_dc opt) = co_Protocol opt ∧ co_ShardType (with_dc opt) = co_ShardType opt ∧
    option_honest (with_dc opt)) as (E1 & E2 & E3 & Hm')
    by (unfold with_dc; by destruct (Z.eqb _ _)).
  rewrite E1, E2, E3 in Heq. set (lists := BatchSelectServers _ _ _ _ _ _) in Heq.
  destruct (GetOrCreateBalancer (with_dc opt) w1) as [[w2 id] lb] eqn:Eb.
  apply GetOrCreateBalancer_honest in Eb as [Hu _]; [|done|done].
  destruct (go_fold _ ids _) as [b| |] eqn:Ef in Heq; cbn [mbind go_bind] in Heq; try done.
  injection Heq as _ <-.
  assert (∀ r, lists !! r = if decide (r ∈ ids) then servers r else None) as Hlists
    by (intros; apply BatchSelectServers_lookup).
  assert (batch_inv lists ids b) as [_ Hdom Hres Hsel].
  { apply (BatchDiscover_loop_inv fuel lists ids [] (mkBatch lb ∅ ∅)); [| |done].
    - intros r l Hl. rewrite Hlists in Hl. case_decide; [|done]. by apply (Hw _ _ Hl).
    - split; cbn; [done| |by intros ??|by intros ??].
      intros r. rewrite lookup_empty, elem_of_nil. split; [by intros []|done]. }
  split_and!; [done|..].
  - intros r Hin Hn. destruct (proj2 (Hdom r) Hin) as [x Hx]. rewrite Hx.
    apply Hres in Hx. rewrite Hlists, decide_True, Hn in Hx by done. by subst.
  - intros r1 r2 H1 H2 E.
    destruct (proj2 (Hdom r1) H1) as [x1 Hx1], (proj2 (Hdom r2) H2) as [x2 Hx2].
    rewrite Hx1, Hx2. apply Hres in Hx1. apply Hres in Hx2.
    rewrite Hlists, decide_True in Hx1 by done. rewrite Hlists, decide_True in Hx2 by done.
    rewrite E in Hx1. destruct (servers r2); congruence.
  - intros Hinj r l s Hl Hx. pose proof (proj1 (Hdom r) (mk_is_Some _ _ Hx)) as Hin.
    apply Hres in Hx. rewrite Hlists, decide_True, Hl in Hx by done.
    apply Hsel in Hx as (r' & l' & Hl' & Eh & Hs'). rewrite Hlists in Hl'. case_decide; [|done].
    by rewrite (Hinj r r' l l' Hl Hl' (eq_sym Eh)).
Qed.
End Choosing.

(** ** Restarting the timers *)

Lemma deliver_locked pull now sn c subs w :
  sn ≠ "" → 0 < calculateInterval (src_PullInterval (sc_Router c)) →
  rt_configLock w = true → SubRouter ∈ subs →
  go_fold (deliver_config pull now) ((λ sub, ConfigNotify sub sn c) <$> subs) w = Panic Deadlock.
Proof.
  intros Hn Hi. revert w. induction subs as [|sub subs IH]; intros w Hl Hin.
  { by apply not_elem_of_nil in Hin. }
  rewrite fmap_cons. cbn [go_fold]. destruct sub; cbn [deliver_config].
  - cbn [mbind go_bind mret go_ret]. apply IH; [done|].
    by apply elem_of_cons in Hin as [|].
  - unfold Router_ConfigNotify. destruct (String.eqb_spec sn ""); [done|].
    destruct (Z.ltb_spec 0 (calculateInterval (src_PullInterval (sc_Router c)))); [|lia].
    by rewrite Hl.
  - cbn [mbind go_bind mret go_ret]. apply IH; [done|].
    by apply elem_of_cons in Hin as [|].
Qed.

(** Restarting the timers can hang.  [RestartTimerHandler] restarts the
    configuration pullers with the lock of their table held for writing; a
    restart pulls, and where the configuration has changed the router is
    notified and waits for that lock: a router that has one configuration
    puller and subscribes to its service deadlocks. *)
Theorem RestartTimerHandler_deadlock f now w sn p c :
  rt_configPullers w = {[ sn := p ]} → sp_serviceName p = sn → 0 < sp_interval p → sn ≠ "" →
  ConfigNotify SubRouter sn c ∈ (GetConfig (rt_kv w) sn (rt_registry w)).2 →
  0 < calculateInterval (src_PullInterval (sc_Router c)) →
  RestartTimerHandler (S f) now w = Panic Deadlock.
Proof.
  intros Hp Hsn Hpi Hne Hin Hc. unfold RestartTimerHandler. rewrite Hp.
  assert (map_range {[ sn := p ]} = [(sn, p)]) as ->.
  { apply Permutation_singleton_r. rewrite map_range_perm, map_to_list_singleton. done. }
  cbn [go_fold restart_config]. unfold ServicePuller_Restart, new_sp_context, ServicePuller_Start.
  cbn -[NewTicker filter pull_config]. rewrite NewTicker_pos by done.
  cbn -[filter pull_config]. rewrite Hsn. cbn [pull_config].
  destruct (GetConfig_notifications (rt_kv w) sn (rt_registry w)) as (c' & subs & En & _).
  cbn -[filter]. destruct (GetConfig (rt_kv w) sn (rt_registry w)) as [cr ns].
  cbn [fst snd] in *. subst ns.
  apply list_elem_of_fmap in Hin as (sub & [= <- ->] & Hin).
  by rewrite deliver_locked.
Qed.
End Router.

(** ** Witnesses: a store in memory with the default configuration *)

#[local] Existing Instances toy_city stdpp_order amd64_float.
#[local] Instance draws : Randomness := fixed_draws 0.
#[local] Instance router_json : Json ServiceRouterConfig := const_json DefaultServiceRouterConfig.
#[local] Instance server_json : Json Server :=
  const_json (registered_server 5 (leader_server "10.0.0.1" [0; 1])).

Definition store_at (version : string) (index : Z) : mem_store :=
  mkMemStore (list_to_map
    [ (GetRouterConfigPath (with_name "s"), "value");
      (GetConfigVersionPath (with_name "s"), version);
      (GetNodePath (leader_server "10.0.0.1" [0; 1]), "value") ]) index.

(** What a call returns, or the state it started from. *)
Definition state_of {A} (r : go A) (a : A) : A := match r with Ret a => a | _ => a end.

Lemma state_of_Ret {A} (r : go A) a : returns r = true → r = Ret (state_of r a).
Proof. by destruct r. Qed.

Definition router0 : Router mem_store := NewRouter (store_at "1" 1).
Definition router1 : Router mem_store :=
  state_of (GetOrCreateDiscoverPuller 3 10 "s" router0) router0.

Definition option_for (shard : Z) : ClientOption :=
  mkClientOption "s" shard ShardType_LEADER ServerProtocol_THRIFT LoadBalanceMethod_ROUNDROBIN
    (mkServerAddress "" 0) None (mkBalanceLocalFirstConfig "10.0.0.9" 256) 0 false "" "".

Lemma router1_ok : GetOrCreateDiscoverPuller 3 10 "s" router0 = Ret router1.
Proof. apply state_of_Ret. vm_compute. reflexivity. Qed.

Lemma pull_config_settles_witness :
  ∃ w', pull_config 2 11 "s" (set_kv (store_at "2" 2) router1) = Ret w' ∧
    pull_config 2 11 "s" w' = Ret w'.
Proof.
  destruct (pull_config_settles 0 11 "s" (set_kv (store_at "2" 2) router1))
    as (w' & E1 & E2 & _).
  - apply (bool_decide_unpack _). vm_compute. exact I.
  - apply (bool_decide_unpack _). vm_compute. exact I.
  - vm_compute. reflexivity.
  - by vm_compute.
  - exists w'. exact (conj E1 E2).
Defined.

Lemma config_misses_pushers_witness :
  ∃ w', pull_config 2 11 "s" (set_kv (store_at "2" 2) router1) = Ret w' ∧
    rt_servicePushers w' = rt_servicePushers router1.
Proof.
  apply (config_misses_pushers 0 11 "s" (set_kv (store_at "2" 2) router1)).
  - apply (bool_decide_unpack _). vm_compute. exact I.
  - apply (bool_decide_unpack _). vm_compute. exact I.
  - by vm_compute.
  - apply (bool_decide_unpack _). vm_compute. exact I.
  - intros [|a [|a2 a3]] b E; vm_compute in E; done.
Defined.

(** Only the version of a configuration is in the store. *)
Definition bare_store : mem_store :=
  mkMemStore {[ GetConfigVersionPath (with_name "s") := "1" ]} 1.

Lemma GetOrCreateConfigPuller_panics_witness :
  GetOrCreateConfigPuller 1 10 "s" (NewRouter bare_store) = Panic NonPositiveTickerInterval.
Proof.
  apply (GetOrCreateConfigPuller_panics 0 10 "s" (NewRouter bare_store)
    [(GetConfigVersionPath (with_name "s"), "1")] 1); try by vm_compute.
  apply (bool_decide_unpack _). vm_compute. exact I.
Defined.

Lemma router1_weights : map_Forall (λ _ l, weights_ok l) (services (rt_routerDb router1)).
Proof. unfold weights_ok. apply (bool_decide_unpack _). vm_compute. exact I. Qed.

Lemma router1_balancers : map_Forall (λ _ lb, honest lb) (rt_balancers router1).
Proof.
  assert (rt_balancers router1 = ∅) as -> by (apply (bool_decide_unpack _); vm_compute; exact I). apply map_Forall_empty.
Qed.

Lemma option_for_honest : option_honest (option_for 1).
Proof. done. Qed.

Lemma Router_Discover_sound_witness :
  ∃ w' res, Router_Discover 3 10 (option_for 1) router0 = Ret (w', res) ∧
    match expected_servers (option_for 1) (rt_routerDb router1) with
    | None => res = None
    | Some l => ∀ s, res = Some s → s ∈ l
    end.
Proof.
  destruct (returns_Ret (Router_Discover 3 10 (option_for 1) router0)) as [[w' res] E];
    [vm_compute; reflexivity|].
  exists w', res. split; [exact E|].
  exact (Router_Discover_sound 3 10 (option_for 1) router0 router1 w' res router1_ok
    option_for_honest router1_balancers router1_weights E).
Defined.

Lemma Router_BatchDiscover_spec_witness :
  ∃ w' result, Router_BatchDiscover 3 10 (option_for 1) [0; 1; 7] router0 = Ret (w', result) ∧
    ∀ r, is_Some (result !! r) ↔ r ∈ [0; 1; 7].
Proof.
  destruct (returns_Ret (Router_BatchDiscover 3 10 (option_for 1) [0; 1; 7] router0)) as [[w' result] E];
    [vm_compute; reflexivity|].
  exists w', result. split; [exact E|].
  exact (proj1 (Router_BatchDiscover_spec 3 10 (option_for 1) [0; 1; 7] router0 router1 w' result
    router1_ok option_for_honest router1_balancers router1_weights E)).
Defined.

Lemma RestartTimerHandler_deadlock_witness :
  RestartTimerHandler 1 11 (set_kv (store_at "2" 2) router1) = Panic Deadlock.
Proof.
  refine (RestartTimerHandler_deadlock 0 11 (set_kv (store_at "2" 2) router1) "s"
    (default (mkServicePuller "" "" 0 0 false [] 0) (rt_configPullers router1 !! "s"))
    (processConfig_config (with_name "s")
      (filter (λ kv, String.prefix (GetConfigPath (with_name "s")) kv.1 = true)
        (map_to_list (mem_view (store_at "2" 2))))) _ _ _ _ _ _).
  - vm_compute. reflexivity.
  - vm_compute. reflexivity.
  - vm_compute. reflexivity.
  - discriminate.
  - vm_compute. right. left.
  - vm_compute. reflexivity.
Defined.
