(* ===== verification/ConfigManager.v ===== *)
(** * The client's view of the configuration
    ([sdk/go/laser_client/lib/config_manager.go])

    [ConfigManager] keeps the table schemas and the cluster as the registry
    last told them, and answers which table a key belongs to and how many
    shards a data centre has.  JSON is the parameter of the registry. *)

From S2P Require Import Prelude RouterTypes Registry Pullers RouterDb LoadBalance Router Partition.

Definition LASER_CONFIG_DATABASE_TABLE_SCHEMA_DATA : string := "database_table_schema_data".
Definition LASER_CONFIG_CLUSTER_INFO : string := "cluster_info_data".

Record TableSchema := mkTableSchema {
  ts_DatabaseName : string;
  ts_TableName : string;
  ts_PartitionNumber : Z;
  ts_Ttl : Z;
  ts_BindEdgeNodes : option (list string);
  ts_EdgeFlowRatio : Z;
  ts_Dc : string;
  ts_DistDc : string
}.

Record DatabaseSchema := mkDatabaseSchema {
  ds_DatabaseName : string;
  ds_Tables : list TableSchema
}.

Record NodeShardList := mkNodeShardList {
  ns_NodeId : Z;
  ns_LeaderShardList : list Z;
  ns_FollowerShardList : list Z;
  ns_IsEdgeNode : bool
}.

Record DataCenter := mkDataCenter { dc_Name : string; dc_ShardNumber : Z }.

Record ClusterGroup := mkClusterGroup {
  gr_GroupName : string;
  gr_Nodes : list NodeShardList;
  gr_Dc : string
}.

Record ClusterInfo := mkClusterInfo {
  ci_ClusterName : string;
  ci_ShardNumber : Z;
  ci_Dcs : list DataCenter;
  ci_Groups : list ClusterGroup
}.

Definition ClusterInfo_zero : ClusterInfo := mkClusterInfo "" 0 [] [].

Record ConfigManager := mkConfigManager {
  cm_targetServiceName : string;
  cm_tableSchemas : gmap Z TableSchema;
  cm_clusterInfo : ClusterInfo;
  cm_dcs : gmap string DataCenter
}.

Definition set_tableSchemas v (cm : ConfigManager) : ConfigManager :=
  mkConfigManager (cm_targetServiceName cm) v (cm_clusterInfo cm) (cm_dcs cm).
Definition set_clusterInfo v (cm : ConfigManager) : ConfigManager :=
  mkConfigManager (cm_targetServiceName cm) (cm_tableSchemas cm) v (cm_dcs cm).
Definition set_dcs v (cm : ConfigManager) : ConfigManager :=
  mkConfigManager (cm_targetServiceName cm) (cm_tableSchemas cm) (cm_clusterInfo cm) v.

Definition set_ts_DatabaseName (db : string) (t : TableSchema) : TableSchema :=
  mkTableSchema db (ts_TableName t) (ts_PartitionNumber t) (ts_Ttl t) (ts_BindEdgeNodes t)
    (ts_EdgeFlowRatio t) (ts_Dc t) (ts_DistDc t).

Section ConfigManager.
Context {hash : CityHash} {order : MapOrder}
  {jsonSchemas : Json (list DatabaseSchema)} {jsonCluster : Json ClusterInfo}.

Definition getTableSchemaHash (databaseName tableName : string) : Z :=
  let key := city databaseName 0 in
  city tableName key.

(** The tables of the databases, by hash. *)
Definition collect_table (databaseName : string) (m : gmap Z TableSchema) (t : TableSchema)
  : gmap Z TableSchema :=
  let t := set_ts_DatabaseName databaseName t in
  <[getTableSchemaHash (ts_DatabaseName t) (ts_TableName t) := t]> m.

Definition collect_tables (m : gmap Z TableSchema) (db : DatabaseSchema) : gmap Z TableSchema :=
  foldl (collect_table (ds_DatabaseName db)) m (ds_Tables db).

Definition ConfigNotify_pair (cm : ConfigManager) (kv : string * string) : ConfigManager :=
  let '(k, v) := kv in
  if strings_Contains k LASER_CONFIG_DATABASE_TABLE_SCHEMA_DATA then
    match json_Unmarshal v [] with
    | (_, Some _) => cm
    | (databaseSchemas, None) =>
        set_tableSchemas (foldl collect_tables ∅ databaseSchemas) cm
    end
  else if strings_Contains k LASER_CONFIG_CLUSTER_INFO then
    match json_Unmarshal v ClusterInfo_zero with
    | (_, Some _) => cm
    | (clusterInfo, None) =>
        set_dcs (foldl (λ m dc, <[dc_Name dc := dc]> m) ∅ (ci_Dcs clusterInfo))
          (set_clusterInfo clusterInfo cm)
    end
  else cm.

Definition ConfigManager_ConfigNotify (serviceName : string) (config : ServiceConfig)
    (cm : ConfigManager) : ConfigManager :=
  foldl ConfigNotify_pair cm (map_range (default ∅ (sc_Configs config))).

(** The notifications that wait in the router, delivered. *)
Definition drain {KVS} (w : Router KVS) (cm : ConfigManager) : Router KVS * ConfigManager :=
  (set_inbox [] w,
   foldl (λ cm n, ConfigManager_ConfigNotify n.1 n.2 cm) cm (rt_inbox w)).

Definition NewConfigManager {KVS} {kvOps : ConsulKV KVS} {jsonServer : Json Server}
    {jsonRouter : Json ServiceRouterConfig} (fuel : nat) (now : Z)
    (targetServiceName : string) (w : Router KVS) : go (Router KVS * ConfigManager) :=
  let w := set_registry (SubscribeConfig targetServiceName SubConfigManager (rt_registry w)) w in
  w ← GetOrCreateConfigPuller fuel now targetServiceName w;
  mret (drain w (mkConfigManager targetServiceName ∅ ClusterInfo_zero ∅)).

Definition GetTableSchema (cm : ConfigManager) (databaseName tableName : string)
  : option TableSchema :=
  cm_tableSchemas cm !! getTableSchemaHash databaseName tableName.

Definition GetShardNumber (cm : ConfigManager) (dc : string) : Z :=
  match cm_dcs cm !! dc with
  | Some d => dc_ShardNumber d
  | None => ci_ShardNumber (cm_clusterInfo cm)
  end.

(** [lib.GetShardId]. *)
Definition GetShardId (partition : PartitionInfo) (cm : ConfigManager) (dc : string) : Z :=
  getShardId (GetPartitionHash partition) (GetShardNumber cm dc).

(** ** Lemmas *)

(** What kind of configuration a key names. *)
Inductive config_kind := KSchema | KCluster | KOther.

#[export] Instance config_kind_eq_dec : EqDecision config_kind.
Proof. solve_decision. Defined.

Definition kind_of (k : string) : config_kind :=
  if strings_Contains k LASER_CONFIG_DATABASE_TABLE_SCHEMA_DATA then KSchema
  else if strings_Contains k LASER_CONFIG_CLUSTER_INFO then KCluster else KOther.

(** Keys of different kinds commute, and so do keys without effect. *)
Lemma ConfigNotify_pair_comm cm kv1 kv2 :
  kind_of kv1.1 ≠ kind_of kv2.1 ∨ kind_of kv1.1 = KOther →
  ConfigNotify_pair (ConfigNotify_pair cm kv1) kv2
    = ConfigNotify_pair (ConfigNotify_pair cm kv2) kv1.
Proof.
  destruct kv1 as [k1 v1], kv2 as [k2 v2]. unfold kind_of, ConfigNotify_pair. cbn [fst].
  destruct (json_Unmarshal v1 []) as [? [?|]], (json_Unmarshal v2 []) as [? [?|]],
    (json_Unmarshal v1 ClusterInfo_zero) as [? [?|]],
    (json_Unmarshal v2 ClusterInfo_zero) as [? [?|]];
    repeat destruct (strings_Contains _ _); naive_solver.
Qed.

(** At most one key of each kind that has an effect. *)
Definition unambiguous (l : list (string * string)) : Prop :=
  ∀ kv1 kv2, kv1 ∈ l → kv2 ∈ l → kind_of kv1.1 = kind_of kv2.1 →
    kind_of kv1.1 ≠ KOther → kv1 = kv2.

Lemma foldl_ConfigNotify_perm l1 l2 cm :
  l1 ≡ₚ l2 → NoDup l1 → unambiguous l1 →
  foldl ConfigNotify_pair cm l1 = foldl ConfigNotify_pair cm l2.
Proof.
  intros Hp. revert cm. induction Hp as [|kv l1 l2 Hp IH|kv1 kv2 l|l1 l2 l3 H1 IH1 H2 IH2];
    intros cm Hnd Hu; [done|..].
  - cbn [foldl]. apply NoDup_cons in Hnd as [_ Hnd]. apply IH; [done|].
    intros kv1 kv2 ??. apply Hu; by right.
  - cbn [foldl]. f_equal. apply ConfigNotify_pair_comm.
    apply NoDup_cons in Hnd as [Hnin _].
    destruct (decide (kind_of kv2.1 = KOther)) as [|Hne]; [by right|left]. intros E.
    apply Hnin. rewrite (Hu kv2 kv1); [left|left|right; left|done|done].
  - rewrite (IH1 cm Hnd Hu). apply IH2; [by rewrite <- H1|].
    intros kv1 kv2. rewrite <- H1. apply Hu.
Qed.

(** A table is found again, where no other table of the list has its hash. *)
Lemma collect_tables_lookup dbs db t m :
  db ∈ dbs → t ∈ ds_Tables db →
  (∀ db' t', db' ∈ dbs → t' ∈ ds_Tables db' →
     getTableSchemaHash (ds_DatabaseName db') (ts_TableName t')
       = getTableSchemaHash (ds_DatabaseName db) (ts_TableName t) →
     set_ts_DatabaseName (ds_DatabaseName db') t' = set_ts_DatabaseName (ds_DatabaseName db) t) →
  foldl collect_tables m dbs !! getTableSchemaHash (ds_DatabaseName db) (ts_TableName t)
    = Some (set_ts_DatabaseName (ds_DatabaseName db) t).
Proof.
  intros Hdb Ht Hinj. set (k := getTableSchemaHash _ _) in *. set (x := set_ts_DatabaseName _ t) in *.
  (* one database: the entry is x afterwards if it was, or if the table is in it *)
  assert (∀ db' m, db' ∈ dbs → (m !! k = Some x ∨ (db' = db)) →
    collect_tables m db' !! k = Some x) as Hone.
  { intros db' m0 Hdb' H0. unfold collect_tables.
    assert (∀ ts m1, (∀ t', t' ∈ ts → t' ∈ ds_Tables db') → (m1 !! k = Some x ∨ (db' = db ∧ t ∈ ts)) →
      foldl (collect_table (ds_DatabaseName db')) m1 ts !! k = Some x) as Hts.
    { induction ts as [|t' ts IH]; intros m1 Hsub H1; cbn [foldl].
      { destruct H1 as [|[_ Hn]]; [done|]. by apply not_elem_of_nil in Hn. }
      apply IH; [intros; apply Hsub; by right|]. unfold collect_table.
      cbn [ts_DatabaseName ts_TableName set_ts_DatabaseName].
      destruct (decide (getTableSchemaHash (ds_DatabaseName db') (ts_TableName t') = k)) as [E|E].
      - left. rewrite E, lookup_insert_eq. f_equal. apply Hinj; [done|apply Hsub; left|done].
      - rewrite lookup_insert_ne by done. destruct H1 as [|[Edb H1]]; [by auto|].
        apply elem_of_cons in H1 as [E1|]; [|by auto]. by subst. }
    apply Hts; [done|]. destruct H0 as [| ->]; auto. }
  assert (∀ l m, (∀ db', db' ∈ l → db' ∈ dbs) → (m !! k = Some x ∨ db ∈ l) →
    foldl collect_tables m l !! k = Some x) as Hall.
  { induction l as [|db' l IH]; intros m0 Hsub H0; cbn [foldl].
    { destruct H0 as [|Hn]; [done|]. by apply not_elem_of_nil in Hn. }
    apply IH; [intros; apply Hsub; by right|].
    destruct H0 as [|H0].
    - left. apply Hone; [apply Hsub; left|by left].
    - apply elem_of_cons in H0 as [E0|]; [|by right].
      left. apply Hone; [apply Hsub; left|by right]. }
  apply Hall; auto.
Qed.
End ConfigManager.

Section Properties.
Context {hash : CityHash} {jsonSchemas : Json (list DatabaseSchema)} {jsonCluster : Json ClusterInfo}.

(** A configuration is taken over whatever order the run-time ranges
    over it, as long as it has one entry with table schemas and one with the
    cluster at most: the result does not depend on the order, and a table of
    the entry is found under its names, unless another has the same hash. *)
Theorem ConfigNotify_deterministic (o1 o2 : MapOrder) sn config cm k v dbs db t :
  unambiguous (map_to_list (default ∅ (sc_Configs config))) →
  default ∅ (sc_Configs config) !! k = Some v → kind_of k = KSchema →
  json_Unmarshal v [] = (dbs, None) →
  db ∈ dbs → t ∈ ds_Tables db →
  (∀ db' t', db' ∈ dbs → t' ∈ ds_Tables db' →
     getTableSchemaHash (ds_DatabaseName db') (ts_TableName t')
       = getTableSchemaHash (ds_DatabaseName db) (ts_TableName t) →
     set_ts_DatabaseName (ds_DatabaseName db') t' = set_ts_DatabaseName (ds_DatabaseName db) t) →
  let cm' := ConfigManager_ConfigNotify (order:=o1) sn config cm in
  cm' = ConfigManager_ConfigNotify (order:=o2) sn config cm ∧
  GetTableSchema cm' (ds_DatabaseName db) (ts_TableName t)
    = Some (set_ts_DatabaseName (ds_DatabaseName db) t).
Proof.
  intros Hu Hk Hkind Hj Hdb Ht Hinj cm'. set (m := default ∅ (sc_Configs config)) in *.
  assert (∀ (o : MapOrder), ConfigManager_ConfigNotify (order:=o) sn config cm
    = foldl ConfigNotify_pair cm (map_to_list m)) as Ho.
  { intros o. unfold ConfigManager_ConfigNotify. symmetry.
    apply foldl_ConfigNotify_perm; [|apply NoDup_map_to_list|done].
    symmetry. apply map_range_perm. }
  unfold cm'. rewrite !Ho. split; [done|].
  assert (map_to_list m ≡ₚ map_to_list (delete k m) ++ [(k, v)]) as Hp.
  { rewrite <- (insert_delete_id m k v) at 1 by done.
    rewrite map_to_list_insert by apply lookup_delete_eq. solve_Permutation. }
  rewrite (foldl_ConfigNotify_perm _ _ cm Hp (NoDup_map_to_list m) Hu).
  rewrite foldl_app. cbn [foldl ConfigNotify_pair]. unfold kind_of in Hkind.
  destruct (strings_Contains k LASER_CONFIG_DATABASE_TABLE_SCHEMA_DATA); [|by destruct (strings_Contains _ _)].
  rewrite Hj. unfold GetTableSchema. cbn [set_tableSchemas cm_tableSchemas].
  by apply collect_tables_lookup.
Qed.
End Properties.

(** ** Witness *)

Definition example_table : TableSchema := mkTableSchema "" "t" 7 0 None 0 "" "".
Definition example_dbs : list DatabaseSchema := [mkDatabaseSchema "db" [example_table]].
Definition example_config : ServiceConfig :=
  mkServiceConfig DefaultServiceRouterConfig
    (Some {[ "configs/database_table_schema_data" := "x" ]}).

Lemma ConfigNotify_deterministic_witness :
  GetTableSchema (hash:=toy_city)
    (ConfigManager_ConfigNotify (hash:=toy_city) (order:=stdpp_order)
      (jsonSchemas:=const_json example_dbs) (jsonCluster:=const_json ClusterInfo_zero)
      "s" example_config (mkConfigManager "s" ∅ ClusterInfo_zero ∅)) "db" "t"
  = Some (set_ts_DatabaseName "db" example_table).
Proof.
  refine (proj2 (ConfigNotify_deterministic (hash:=toy_city)
    (jsonSchemas:=const_json example_dbs) (jsonCluster:=const_json ClusterInfo_zero)
    stdpp_order stdpp_order "s" example_config (mkConfigManager "s" ∅ ClusterInfo_zero ∅)
    "configs/database_table_schema_data" "x" example_dbs (mkDatabaseSchema "db" [example_table])
    example_table _ _ _ _ _ _ _)).
  - intros kv1 kv2 H1 H2. vm_compute in H1, H2.
    apply list_elem_of_singleton in H1 as ->. by apply list_elem_of_singleton in H2 as ->.
  - reflexivity.
  - reflexivity.
  - reflexivity.
  - left.
  - left.
  - intros db' t' Hd Ht _. apply list_elem_of_singleton in Hd as ->.
    by apply list_elem_of_singleton in Ht as ->.
Defined.
