(* ===== verification/LaserTypes.v ===== *)
(** * The data of the Laser service ([sdk/go/laser_client/if/laser/ttypes.go])

    The structs and status codes of the thrift interface that the client
    builds and reads, with their getters; reading and writing them on the wire is
    in LaserWire.v.  A pointer field is an [option], and so is a slice or a map where
    nil is told from empty. *)

From S2P Require Import Prelude RouterTypes.

Definition Status_OK : Z := 0.
Definition Status_RS_NOT_FOUND : Z := 1.
Definition Status_RS_ERROR : Z := 15.
Definition Status_RS_KEY_EXPIRE : Z := 18.
Definition Status_RS_PART_FAILED : Z := 20.
Definition Status_CLIENT_THRIFT_CALL_ERROR : Z := 200.
Definition Status_CLIENT_THRIFT_CALL_TIMEOUT : Z := 203.

Record LaserKey := mkLaserKey {
  lk_DatabaseName : string;
  lk_TableName : string;
  lk_PrimaryKeys : list string;
  lk_ColumnKeys : list string
}.

Record EntryValue := mkEntryValue {
  ev_Status : Z;
  ev_StringValue : string
}.

Record LaserValue := mkLaserValue {
  lv_StringValue : option string;
  lv_MapValue : option (gmap string string);
  lv_NullValue : option bool;
  lv_MemberScoreValue : option (gmap string Z);
  lv_EntryValue : option EntryValue
}.

(** [LaserValue{}]. *)
Definition LaserValue_zero : LaserValue := mkLaserValue None None None None None.

Record LaserKV := mkLaserKV {
  lkv_Key : option LaserKey;
  lkv_Value : option LaserValue
}.

Record LaserSetOption := mkLaserSetOption {
  lso_NotExists : bool;
  lso_Ttl : Z
}.

Record LaserScoreMember := mkLaserScoreMember {
  lsm_Score : Z;
  lsm_Member : string
}.

Record LaserResponse := mkLaserResponse {
  lr_IntData : option Z;
  lr_StringData : option string;
  lr_ListIntData : option (list Z);
  lr_ListStringData : option (list string);
  lr_ListValueData : option (list (option LaserValue));
  lr_MapStringData : option (gmap string string);
  lr_MapValueData : option (gmap string (option LaserValue));
  lr_BoolData : option bool;
  lr_ListScoreMemberData : option (list (option LaserScoreMember))
}.

Definition NewLaserResponse : LaserResponse :=
  mkLaserResponse None None None None None None None None None.

Definition GetIntData (r : LaserResponse) : Z := default 0 (lr_IntData r).
Definition GetStringData (r : LaserResponse) : string := default "" (lr_StringData r).
Definition GetListIntData (r : LaserResponse) : list Z := default [] (lr_ListIntData r).
Definition GetListStringData (r : LaserResponse) : list string := default [] (lr_ListStringData r).
Definition GetListValueData (r : LaserResponse) : list (option LaserValue) :=
  default [] (lr_ListValueData r).
Definition GetMapStringData (r : LaserResponse) : option (gmap string string) :=
  lr_MapStringData r.
Definition GetBoolData (r : LaserResponse) : bool := default false (lr_BoolData r).
Definition GetListScoreMemberData (r : LaserResponse) : list (option LaserScoreMember) :=
  default [] (lr_ListScoreMemberData r).
