(* ===== verification/ThriftWire.v ===== *)
(** * Thrift structs on the wire: the shapes of the generated code
    ([sdk/go/laser_client/if/laser/ttypes.go])

    Every struct of the interface is read and written by code of the same few shapes:
    a struct with its fields up to a stop, scalars, lists and maps.  The protocol is
    fbthrift's and is the class [Protocol]: what is written and read is a sequence of
    [token]s.  A struct that could not be read is not used, so a failed read has no
    result; a read of a stream that never stops needs fuel. *)

From S2P Require Import Prelude RouterTypes.

(** ** The protocol *)

Inductive ttype := STOP | BOOL | I32 | I64 | STRING | STRUCT | MAP | LIST | OtherType (code : Z).

Inductive message_type := CALL | REPLY | EXCEPTION | OtherMessage (code : Z).

(** What a protocol writes, one for each method, with the method's arguments. *)
Inductive token :=
  | TMessageBegin (name : string) (type : message_type) (seqid : Z)
  | TMessageEnd
  | TStructBegin (name : string)
  | TStructEnd
  | TFieldBegin (name : string) (type : ttype) (id : Z)
  | TFieldEnd
  | TFieldStop
  | TListBegin (type : ttype) (size : Z)
  | TListEnd
  | TMapBegin (key value : ttype) (size : Z)
  | TMapEnd
  | TString (s : string)
  | TBool (b : bool)
  | TI32 (z : Z)
  | TI64 (z : Z).

Class Protocol (P : Type) := {
  prot_Write : token → P → P * option error;
  ReadStructBegin : P → P * (unit + error);
  ReadStructEnd : P → P * (unit + error);
  ReadFieldBegin : P → P * (ttype * Z * option error);
  ReadFieldEnd : P → P * (unit + error);
  ReadListBegin : P → P * (ttype * Z + error);
  ReadListEnd : P → P * (unit + error);
  ReadMapBegin : P → P * (ttype * ttype * Z + error);
  ReadMapEnd : P → P * (unit + error);
  ReadString : P → P * (string + error);
  ReadBool : P → P * (bool + error);
  ReadI32 : P → P * (Z + error);
  ReadI64 : P → P * (Z + error);
  Skip : ttype → P → P * (unit + error);
  PrependError : string → error → error;
  INVALID_DATA : string → error
}.

(** ** Code that reads and writes *)

Definition wire (P A : Type) : Type := P → go (P * (A + error)).

Section Code.
Context {P : Type} {prot : Protocol P}.

Definition wret {A} (a : A) : wire P A := λ p, Ret (p, inl a).
Definition wfail {A} (err : error) : wire P A := λ p, Ret (p, inr err).
Definition wbind {A B} (m : wire P A) (k : A → wire P B) : wire P B := λ p,
  '(p, r) ← m p; match r with inl a => k a p | inr err => mret (p, inr err) end.
Definition lift {A} (op : P → P * (A + error)) : wire P A := λ p, Ret (op p).

(** A pointer that is followed, and a size that [make] is given. *)
Definition wderef {A} (x : option A) : wire P A := λ p, a ← go_deref x; mret (p, inl a).
Definition make_slice (size : Z) : wire P unit := λ p,
  if Z.ltb size 0 then Panic (ExplicitPanic "makeslice: cap out of range") else mret (p, inl tt).

Definition prepend {A} (text : string) (m : wire P A) : wire P A := λ p,
  '(p, r) ← m p; mret (p, match r with inl a => inl a | inr err => inr (PrependError text err) end).
End Code.

Notation "'do' x ← m ; k" := (wbind m (λ x, k)) (at level 10, x pattern, m at level 100, k at level 200).

Section Shapes.
Context {P : Type} {prot : Protocol P}.

(** *** Reading *)

Fixpoint read_times {A} (n : nat) (elem : wire P A) (l : list A) : wire P (list A) :=
  match n with
  | O => wret l
  | S n => do a ← elem; read_times n elem (l ++ [a])
  end.

Definition read_list {A} (elem : wire P A) : wire P (list A) :=
  do (_, size) ← prepend "error reading list begin: " (lift ReadListBegin);
  do _ ← make_slice size;
  do l ← read_times (Z.to_nat size) elem [];
  do _ ← prepend "error reading list end: " (lift ReadListEnd);
  wret l.

Fixpoint read_pairs {V} (n : nat) (key : wire P string) (value : wire P V) (m : gmap string V) : wire P (gmap string V) :=
  match n with
  | O => wret m
  | S n => do k ← key; do v ← value; read_pairs n key value (<[k := v]> m)
  end.

Definition read_map {V} (key : wire P string) (value : wire P V) : wire P (gmap string V) :=
  do (_, _, size) ← prepend "error reading map begin: " (lift ReadMapBegin);
  do m ← read_pairs (Z.to_nat size) key value ∅;
  do _ ← prepend "error reading map end: " (lift ReadMapEnd);
  wret m.

(** A scalar field, and one among the elements of a list or map. *)
Definition read_scalar {A} (id : Z) (op : P → P * (A + error)) : wire P A :=
  prepend ("error reading field " +:+ Itoa id +:+ ": ") (lift op).

(** A struct within another. *)
Definition read_inner {A} (T : string) (read : wire P A) : wire P A := prepend (T +:+ " error reading struct: ") read.

(** The loop over the fields: the fields of the switch, the number of the last one that
    was read, and the ones that were. *)
Fixpoint read_fields {S} (T : string) (fields : list (Z * (S → wire P S))) (fuel : nat) (s : S) (seen : list Z)
  : wire P (S * list Z) :=
  match fuel with
  | O => λ _, OutOfFuel
  | Datatypes.S fuel => λ p,
      let '(p, (fieldTypeId, fieldId, err)) := ReadFieldBegin p in
      match err with
      | Some err => mret (p, inr (PrependError (T +:+ " field " +:+ Itoa fieldId +:+ " read error: ") err))
      | None =>
          match fieldTypeId with
          | STOP => mret (p, inl (s, seen))
          | _ =>
              (do (s, seen) ←
                 match snd <$> List.find (λ f : Z * (S → wire P S), Z.eqb f.1 fieldId) fields with
                 | Some ReadField => do s ← ReadField s; wret (s, seen ++ [fieldId])
                 | None => do _ ← lift (Skip fieldTypeId); wret (s, seen)
                 end;
               do _ ← lift ReadFieldEnd;
               read_fields T fields fuel s seen) p
          end
      end
  end.

(** The first field that is required and was not read. *)
Definition missing (required : list (Z * string)) (seen : list Z) : option string :=
  snd <$> List.find (λ r : Z * string, bool_decide (r.1 ∉ seen)) required.

Definition read_struct {S} (T : string) (fields : list (Z * (S → wire P S))) (required : list (Z * string)) (fuel : nat)
    (s : S) : wire P S :=
  do _ ← prepend (T +:+ " read error: ") (lift ReadStructBegin);
  do (s, seen) ← read_fields T fields fuel s [];
  do _ ← prepend (T +:+ " read struct end error: ") (lift ReadStructEnd);
  match missing required seen with
  | Some name => wfail (INVALID_DATA ("Required field " +:+ name +:+ " is not set"))
  | None => wret s
  end.

(** *** Writing *)

Definition write (t : token) : wire P unit := λ p,
  let '(p, err) := prot_Write t p in mret (p, match err with Some err => inr err | None => inl tt end).

Fixpoint write_seq (ms : list (wire P unit)) : wire P unit :=
  match ms with
  | [] => wret tt
  | m :: ms => do _ ← m; write_seq ms
  end.

Definition write_field (T name : string) (type : ttype) (id : Z) (body : wire P unit) : wire P unit :=
  let text part := T +:+ " write field " +:+ part +:+ " error " +:+ Itoa id +:+ ":" +:+ name +:+ ": " in
  do _ ← prepend (text "begin") (write (TFieldBegin name type id));
  do _ ← body;
  prepend (text "end") (write TFieldEnd).

Definition write_scalar (T name : string) (id : Z) (t : token) : wire P unit :=
  prepend (T +:+ "." +:+ name +:+ " (" +:+ Itoa id +:+ ") field write error: ") (write t).

Definition write_inner (T : string) (m : wire P unit) : wire P unit := prepend (T +:+ " error writing struct: ") m.

Definition write_list {A} (type : ttype) (elem : A → wire P unit) (l : list A) : wire P unit :=
  do _ ← prepend "error writing list begin: " (write (TListBegin type (Z.of_nat (length l))));
  do _ ← write_seq (elem <$> l);
  prepend "error writing list end: " (write TListEnd).

Definition write_map `{MapOrder} {V} (type : ttype) (key : string → wire P unit) (value : V → wire P unit)
    (m : gmap string V) : wire P unit :=
  do _ ← prepend "error writing map begin: " (write (TMapBegin STRING type (Z.of_nat (size m))));
  do _ ← write_seq ((λ kv : string * V, do _ ← key kv.1; value kv.2) <$> map_range m);
  prepend "error writing map end: " (write TMapEnd).

Definition write_struct (T name : string) (fields : list (wire P unit)) : wire P unit :=
  do _ ← prepend (T +:+ " write struct begin error: ") (write (TStructBegin name));
  do _ ← write_seq fields;
  do _ ← prepend "write field stop error: " (write TFieldStop);
  prepend "write struct stop error: " (write TStructEnd).
End Shapes.

(** ** What a protocol promises *)

Definition field_tokens (name : string) (type : ttype) (id : Z) (body : list token) : list token :=
  TFieldBegin name type id :: body ++ [TFieldEnd].

Definition struct_tokens (name : string) (fields : list (list token)) : list token :=
  TStructBegin name :: concat fields ++ [TFieldStop; TStructEnd].

Definition list_tokens {A} (type : ttype) (elem : A → list token) (l : list A) : list token :=
  TListBegin type (Z.of_nat (length l)) :: concat (elem <$> l) ++ [TListEnd].

Definition map_tokens `{MapOrder} {V} (type : ttype) (value : V → list token) (m : gmap string V) : list token :=
  TMapBegin STRING type (Z.of_nat (size m)) ::
  concat ((λ kv : string * V, TString kv.1 :: value kv.2) <$> map_range m) ++ [TMapEnd].

(** A value of a type, nested less deep than [d]. *)
Inductive value_tokens : nat → ttype → list token → Prop :=
  | vt_string d s : value_tokens (S d) STRING [TString s]
  | vt_bool d b : value_tokens (S d) BOOL [TBool b]
  | vt_i32 d z : value_tokens (S d) I32 [TI32 z]
  | vt_i64 d z : value_tokens (S d) I64 [TI64 z]
  | vt_struct d name body :
      fields_of d body → value_tokens (S d) STRUCT (TStructBegin name :: body ++ [TFieldStop; TStructEnd])
  | vt_list d type n body :
      values_of d type n body → value_tokens (S d) LIST (TListBegin type (Z.of_nat n) :: body ++ [TListEnd])
  | vt_map d key type n body :
      pairs_of d key type n body → value_tokens (S d) MAP (TMapBegin key type (Z.of_nat n) :: body ++ [TMapEnd])
with fields_of : nat → list token → Prop :=
  | fo_nil d : fields_of d []
  | fo_cons d name type id body rest :
      value_tokens d type body → fields_of d rest → fields_of d (TFieldBegin name type id :: body ++ TFieldEnd :: rest)
with values_of : nat → ttype → nat → list token → Prop :=
  | vo_nil d type : values_of d type 0 []
  | vo_cons d type n body rest :
      value_tokens d type body → values_of d type n rest → values_of d type (S n) (body ++ rest)
with pairs_of : nat → ttype → ttype → nat → list token → Prop :=
  | po_nil d key type : pairs_of d key type 0 []
  | po_cons d key type n kbody body rest :
      value_tokens d key kbody → value_tokens d type body → pairs_of d key type n rest →
      pairs_of d key type (S n) (kbody ++ body ++ rest).

(** How deep a value may be nested for [Skip] to take it ([thrift.DEFAULT_RECURSION_DEPTH]). *)
Definition skip_depth : nat := 64.

(** What a token has room for. *)
Definition token_ok (t : token) : Prop :=
  match t with
  | TMessageBegin _ _ seqid => - 2 ^ 31 ≤ seqid < 2 ^ 31
  | TFieldBegin _ type id => type ≠ STOP ∧ - 2 ^ 15 ≤ id < 2 ^ 15
  | TListBegin _ n | TMapBegin _ _ n => 0 ≤ n < 2 ^ 31
  | TString s => Z.of_nat (String.length s) < 2 ^ 31
  | TI32 z => - 2 ^ 31 ≤ z < 2 ^ 31
  | TI64 z => - 2 ^ 63 ≤ z < 2 ^ 63
  | _ => True
  end.

#[export] Instance ttype_eq_dec : EqDecision ttype.
Proof. solve_decision. Defined.
#[export] Instance token_ok_dec t : Decision (token_ok t).
Proof. destruct t; apply _. Defined.

(** A protocol over a transport that does not fail: [spells p l] says that what is left
    to read in [p] is the tokens [l]; what is written comes after it, and a read takes
    the token its method is for.  The types of the elements of a list or a map need not
    come back (the compact protocol drops them when there are none). *)
Class ProtocolLaws (P : Type) `{Protocol P} := {
  spells : P → list token → Prop;
  law_write t p l : token_ok t → spells p l → ∃ p', prot_Write t p = (p', None) ∧ spells p' (l ++ [t]);
  law_struct_begin p name l : spells p (TStructBegin name :: l) → ∃ p', ReadStructBegin p = (p', inl tt) ∧ spells p' l;
  law_struct_end p l : spells p (TStructEnd :: l) → ∃ p', ReadStructEnd p = (p', inl tt) ∧ spells p' l;
  law_field_begin p name type id l :
    spells p (TFieldBegin name type id :: l) → ∃ p', ReadFieldBegin p = (p', (type, id, None)) ∧ spells p' l;
  law_field_stop p l : spells p (TFieldStop :: l) → ∃ p' id, ReadFieldBegin p = (p', (STOP, id, None)) ∧ spells p' l;
  law_field_end p l : spells p (TFieldEnd :: l) → ∃ p', ReadFieldEnd p = (p', inl tt) ∧ spells p' l;
  law_list_begin p type n l : spells p (TListBegin type n :: l) → ∃ p' type', ReadListBegin p = (p', inl (type', n)) ∧ spells p' l;
  law_list_end p l : spells p (TListEnd :: l) → ∃ p', ReadListEnd p = (p', inl tt) ∧ spells p' l;
  law_map_begin p kt vt n l :
    spells p (TMapBegin kt vt n :: l) → ∃ p' kt' vt', ReadMapBegin p = (p', inl (kt', vt', n)) ∧ spells p' l;
  law_map_end p l : spells p (TMapEnd :: l) → ∃ p', ReadMapEnd p = (p', inl tt) ∧ spells p' l;
  law_string p s l : spells p (TString s :: l) → ∃ p', ReadString p = (p', inl s) ∧ spells p' l;
  law_bool p b l : spells p (TBool b :: l) → ∃ p', ReadBool p = (p', inl b) ∧ spells p' l;
  law_i32 p z l : spells p (TI32 z :: l) → ∃ p', ReadI32 p = (p', inl z) ∧ spells p' l;
  law_i64 p z l : spells p (TI64 z :: l) → ∃ p', ReadI64 p = (p', inl z) ∧ spells p' l;
  law_skip p type body l : value_tokens skip_depth type body → spells p (body ++ l) → ∃ p', Skip type p = (p', inl tt) ∧ spells p' l
}.

(** ** Lemmas: what code writes and reads *)

Section Lemmas.
Context {P : Type} {prot : Protocol P} {laws : ProtocolLaws P}.
Implicit Types (p : P) (l toks : list token).

(** The code returns without an error and adds the tokens, or takes them.  What is
    written must have room. *)
Definition writes (m : wire P unit) toks : Prop :=
  Forall token_ok toks → ∀ p l, spells p l → ∃ p', m p = Ret (p', inl tt) ∧ spells p' (l ++ toks).
Definition reads {A} (m : wire P A) toks (a : A) : Prop :=
  ∀ p l, spells p (toks ++ l) → ∃ p', m p = Ret (p', inl a) ∧ spells p' l.
Definition fails_with {A} (m : wire P A) toks (err : error) : Prop :=
  ∀ p l, spells p (toks ++ l) → ∃ p', m p = Ret (p', inr err) ∧ spells p' l.

Lemma writes_ret : writes (wret tt) [].
Proof. intros _ p l Hp. exists p. by rewrite app_nil_r. Qed.

Lemma writes_token t : writes (write t) [t].
Proof. intros [Ht _]%Forall_cons p l Hp. destruct (law_write t p l Ht Hp) as (p' & E & Hp'). exists p'. unfold write. by rewrite E. Qed.

Lemma writes_prepend text m toks : writes m toks → writes (prepend text m) toks.
Proof. intros Hm Hok p l Hp. destruct (Hm Hok p l Hp) as (p' & E & Hp'). exists p'. unfold prepend. by rewrite E. Qed.

Lemma writes_bind m k toks1 toks2 : writes m toks1 → writes k toks2 → writes (do _ ← m; k) (toks1 ++ toks2).
Proof.
  intros Hm Hk [Hok1 Hok2]%Forall_app p l Hp. destruct (Hm Hok1 p l Hp) as (p1 & E1 & Hp1).
  destruct (Hk Hok2 p1 _ Hp1) as (p2 & E2 & Hp2).
  exists p2. unfold wbind. rewrite E1. cbn. by rewrite app_assoc.
Qed.

Lemma writes_deref {A} (a : A) k toks : writes (k a) toks → writes (do x ← wderef (Some a); k x) toks.
Proof. intros Hk Hok p l Hp. exact (Hk Hok p l Hp). Qed.

Lemma writes_seq ms tokss : Forall2 writes ms tokss → writes (write_seq ms) (concat tokss).
Proof. induction 1; [apply writes_ret|by apply writes_bind]. Qed.

Lemma writes_list {A} type (elem : A → wire P unit) (toks : A → list token) (xs : list A) :
  (∀ x, x ∈ xs → writes (elem x) (toks x)) → writes (write_list type elem xs) (list_tokens type toks xs).
Proof.
  intros Helem. apply (writes_bind _ _ [_]); [apply writes_prepend, writes_token|].
  apply writes_bind; [|apply writes_prepend, writes_token]. apply writes_seq.
  induction xs as [|x xs IH]; [constructor|]. constructor; [apply Helem; left|apply IH; intros; apply Helem; by right].
Qed.

Lemma writes_map `{MapOrder} {V} type key value (toks : V → list token) (m : gmap string V) :
  (∀ k, writes (key k) [TString k]) → (∀ k v, m !! k = Some v → writes (value v) (toks v)) →
  writes (write_map type key value m) (map_tokens type toks m).
Proof.
  intros Hkey Hvalue. apply (writes_bind _ _ [_]); [apply writes_prepend, writes_token|].
  apply writes_bind; [|apply writes_prepend, writes_token]. apply writes_seq.
  assert (∀ k v, (k, v) ∈ map_range m → writes (value v) (toks v)) as Hv.
  { intros k v Hin%elem_of_map_range. by apply (Hvalue k). }
  induction (map_range m) as [|[k v] xs IH]; [constructor|]. constructor.
  - apply (writes_bind _ _ [_]); [apply Hkey|]. apply (Hv k). left.
  - apply IH. intros k' v' Hin. apply (Hv k'). by right.
Qed.

Lemma writes_field T name type id body toks :
  writes body toks → writes (write_field T name type id body) (field_tokens name type id toks).
Proof.
  intros Hbody. apply (writes_bind _ _ [_]); [apply writes_prepend, writes_token|].
  apply writes_bind; [done|]. apply writes_prepend, writes_token.
Qed.

Lemma writes_struct T name fields tokss :
  Forall2 writes fields tokss → writes (write_struct T name fields) (struct_tokens name tokss).
Proof.
  intros Hf. apply (writes_bind _ _ [_]); [apply writes_prepend, writes_token|].
  apply writes_bind; [by apply writes_seq|].
  apply (writes_bind _ _ [_] [_]); apply writes_prepend, writes_token.
Qed.

Lemma reads_ret {A} (a : A) : reads (wret a) [] a.
Proof. intros p l Hp. by exists p. Qed.

Lemma reads_lift {A} (op : P → P * (A + error)) toks a :
  (∀ p l, spells p (toks ++ l) → ∃ p', op p = (p', inl a) ∧ spells p' l) → reads (lift op) toks a.
Proof. intros H p l Hp. destruct (H p l Hp) as (p' & E & Hp'). exists p'. unfold lift. by rewrite E. Qed.

Lemma reads_prepend {A} text (m : wire P A) toks a : reads m toks a → reads (prepend text m) toks a.
Proof. intros Hm p l Hp. destruct (Hm p l Hp) as (p' & E & Hp'). exists p'. unfold prepend. by rewrite E. Qed.

Lemma reads_bind {A B} (m : wire P A) (k : A → wire P B) toks1 toks2 a b :
  reads m toks1 a → reads (k a) toks2 b → reads (wbind m k) (toks1 ++ toks2) b.
Proof.
  intros Hm Hk p l Hp. rewrite <- app_assoc in Hp. destruct (Hm p _ Hp) as (p1 & E1 & Hp1).
  destruct (Hk p1 l Hp1) as (p2 & E2 & Hp2). exists p2. unfold wbind. rewrite E1. by cbn.
Qed.

Lemma fails_bind {A B} (m : wire P A) (k : A → wire P B) toks1 toks2 a err :
  reads m toks1 a → fails_with (k a) toks2 err → fails_with (wbind m k) (toks1 ++ toks2) err.
Proof.
  intros Hm Hk p l Hp. rewrite <- app_assoc in Hp. destruct (Hm p _ Hp) as (p1 & E1 & Hp1).
  destruct (Hk p1 l Hp1) as (p2 & E2 & Hp2). exists p2. unfold wbind. rewrite E1. by cbn.
Qed.

Lemma reads_times {A} (elem : wire P A) (toks : A → list token) (xs acc : list A) :
  (∀ x, x ∈ xs → reads elem (toks x) x) → reads (read_times (length xs) elem acc) (concat (toks <$> xs)) (acc ++ xs).
Proof.
  revert acc. induction xs as [|x xs IH]; intros acc Helem; [rewrite app_nil_r; apply reads_ret|].
  cbn. apply reads_bind with x; [apply Helem; left|]. replace (acc ++ x :: xs) with ((acc ++ [x]) ++ xs) by (by rewrite <- app_assoc).
  apply IH.
  intros y Hy. apply Helem. by right.
Qed.

Lemma reads_make_slice n : reads (make_slice (Z.of_nat n)) [] tt.
Proof.
  intros p l Hp. exists p. unfold make_slice.
  replace (Z.ltb (Z.of_nat n) 0) with false by (symmetry; apply Z.ltb_ge; lia). done.
Qed.

(** The types of the elements are not looked at. *)
Lemma reads_list_begin {A} text type n (k : ttype * Z → wire P A) toks a :
  (∀ type', reads (k (type', n)) toks a) →
  reads (wbind (prepend text (lift ReadListBegin)) k) (TListBegin type n :: toks) a.
Proof.
  intros Hk p l Hp. destruct (law_list_begin p type n (toks ++ l) Hp) as (p1 & type' & E & Hp1).
  destruct (Hk type' p1 l Hp1) as (p2 & E2 & Hp2). exists p2. unfold wbind, prepend, lift. rewrite E. by cbn.
Qed.

Lemma reads_map_begin {A} text kt vt n (k : ttype * ttype * Z → wire P A) toks a :
  (∀ kt' vt', reads (k (kt', vt', n)) toks a) →
  reads (wbind (prepend text (lift ReadMapBegin)) k) (TMapBegin kt vt n :: toks) a.
Proof.
  intros Hk p l Hp. destruct (law_map_begin p kt vt n (toks ++ l) Hp) as (p1 & kt' & vt' & E & Hp1).
  destruct (Hk kt' vt' p1 l Hp1) as (p2 & E2 & Hp2). exists p2. unfold wbind, prepend, lift. rewrite E. by cbn.
Qed.

Lemma reads_list {A} type (elem : wire P A) (toks : A → list token) (xs : list A) :
  (∀ x, x ∈ xs → reads elem (toks x) x) → reads (read_list elem) (list_tokens type toks xs) xs.
Proof.
  intros Helem. apply reads_list_begin. intros type'.
  apply (reads_bind _ _ []) with tt; [apply reads_make_slice|].
  apply reads_bind with xs; [rewrite Nat2Z.id; by apply (reads_times elem toks xs [])|].
  apply (reads_bind _ _ [_] []) with tt; [apply reads_prepend, reads_lift; intros p l; apply law_list_end|].
  apply reads_ret.
Qed.

Lemma reads_pairs {V} key (value : wire P V) (toks : V → list token) (kvs : list (string * V)) m :
  (∀ k, reads key [TString k] k) → (∀ k v, (k, v) ∈ kvs → reads value (toks v) v) →
  reads (read_pairs (length kvs) key value m) (concat ((λ kv : string * V, TString kv.1 :: toks kv.2) <$> kvs))
    (foldl (λ m kv, <[kv.1 := kv.2]> m) m kvs).
Proof.
  intros Hkey. revert m. induction kvs as [|[k v] kvs IH]; intros m Hvalue; [apply reads_ret|].
  cbn [length read_pairs fmap list_fmap concat foldl fst snd].
  apply (reads_bind _ _ [_]) with k; [apply Hkey|]. apply reads_bind with v; [apply (Hvalue k); left|].
  apply IH. intros k' v' Hin. apply (Hvalue k'). by right.
Qed.

Lemma reads_map `{MapOrder} {V} type key (value : wire P V) (toks : V → list token) (m : gmap string V) :
  (∀ k, reads key [TString k] k) → (∀ k v, m !! k = Some v → reads value (toks v) v) →
  reads (read_map key value) (map_tokens type toks m) m.
Proof.
  intros Hkey Hvalue. apply reads_map_begin. intros kt' vt'.
  apply reads_bind with m.
  - rewrite Nat2Z.id. replace (size m) with (length (map_range m))
      by (rewrite map_range_perm; apply length_map_to_list).
    pose proof (reads_pairs key value toks (map_range m) ∅ Hkey) as Hread.
    rewrite foldl_insert_range, map_union_empty in Hread. apply Hread.
    intros k v Hin%elem_of_map_range. by apply (Hvalue k).
  - apply (reads_bind _ _ [_] []) with tt; [apply reads_prepend, reads_lift; intros p l; apply law_map_end|].
    apply reads_ret.
Qed.

(** A field on the wire and what reading it does. *)
Record item (S : Type) := mkItem {
  it_name : string; it_type : ttype; it_id : Z; it_tokens : list token; it_does : S → S
}.
Arguments mkItem {S}. Arguments it_name {S}. Arguments it_type {S}. Arguments it_id {S}.
Arguments it_tokens {S}. Arguments it_does {S}.

Definition item_tokens {S} (it : item S) : list token :=
  field_tokens (it_name it) (it_type it) (it_id it) (it_tokens it).

Definition field_of {S} (fields : list (Z * (S → wire P S))) (id : Z) : option (S → wire P S) :=
  snd <$> List.find (λ f : Z * (S → wire P S), Z.eqb f.1 id) fields.

(** A field of the switch is read; one that is not is skipped. *)
Definition item_ok {S} (fields : list (Z * (S → wire P S))) (it : item S) : Prop :=
  it_type it ≠ STOP ∧
  match field_of fields (it_id it) with
  | Some ReadField => ∀ s, reads (ReadField s) (it_tokens it) (it_does it s)
  | None => value_tokens skip_depth (it_type it) (it_tokens it) ∧ ∀ s, it_does it s = s
  end.

Definition known {S} (fields : list (Z * (S → wire P S))) (it : item S) : bool :=
  match field_of fields (it_id it) with Some _ => true | None => false end.

Definition all_do {S} (items : list (item S)) (s : S) : S := foldl (λ s it, it_does it s) s items.

Lemma reads_fields {S} T (fields : list (Z * (S → wire P S))) fuel (items : list (item S)) s seen :
  Forall (item_ok fields) items → (length items < fuel)%nat →
  reads (read_fields T fields fuel s seen) (concat (item_tokens <$> items) ++ [TFieldStop])
    (all_do items s, seen ++ (it_id <$> List.filter (known fields) items)).
Proof.
  revert fuel s seen. induction items as [|it items IH]; intros fuel s seen Hok Hfuel;
    destruct fuel as [|fuel]; cbn in Hfuel; try lia.
  - intros p l Hp. destruct (law_field_stop p l Hp) as (p' & id & E & Hp'). exists p'. cbn. rewrite E.
    by rewrite app_nil_r.
  - apply Forall_cons in Hok as [[Hstop Hit] Hok]. intros p l Hp.
    cbn [fmap list_fmap concat] in Hp. unfold item_tokens at 1, field_tokens in Hp.
    rewrite <- !app_assoc in Hp. cbn [app] in Hp. rewrite <- !app_assoc in Hp. cbn [app] in Hp.
    destruct (law_field_begin p _ _ _ _ Hp) as (p1 & E1 & Hp1). cbn [read_fields]. rewrite E1. cbn.
    assert (∃ p2, (match field_of fields (it_id it) with
        | Some ReadField => do s ← ReadField s; wret (s, seen ++ [it_id it])
        | None => do _ ← lift (Skip (it_type it)); wret (s, seen)
        end) p1 = Ret (p2, inl (it_does it s, if known fields it then seen ++ [it_id it] else seen)) ∧
        spells p2 (TFieldEnd :: concat (item_tokens <$> items) ++ TFieldStop :: l)) as (p2 & E2 & Hp2).
    { unfold known. destruct (field_of fields (it_id it)) as [rd|].
      - destruct (Hit s p1 _ Hp1) as (p2 & E & Hp2). exists p2. unfold wbind. by rewrite E.
      - destruct Hit as [Hv Hid]. destruct (law_skip p1 _ _ _ Hv Hp1) as (p2 & E & Hp2). exists p2.
        unfold wbind, lift. rewrite E. cbn. by rewrite Hid. }
    destruct (law_field_end p2 _ Hp2) as (p3 & E3 & Hp3).
    assert (spells p3 ((concat (item_tokens <$> items) ++ [TFieldStop]) ++ l)) as Hp3' by (by rewrite <- app_assoc).
    destruct (IH fuel (it_does it s) (if known fields it then seen ++ [it_id it] else seen) Hok ltac:(lia) p3 l Hp3')
      as (p4 & E4 & Hp4).
    exists p4. split; [|done].
    change (snd <$> List.find _ fields) with (field_of fields (it_id it)).
    destruct (it_type it); [done|..]; unfold wbind at 1; rewrite E2; cbn;
      unfold wbind, lift; rewrite E3; cbn; rewrite E4; cbn [List.filter all_do foldl];
      destruct (known fields it); cbn; by rewrite <- ?app_assoc.
Qed.

(** Fields that are not known make no difference. *)
Lemma all_do_known {S} (fields : list (Z * (S → wire P S))) items s :
  Forall (item_ok fields) items → all_do (List.filter (known fields) items) s = all_do items s.
Proof.
  intros Hok. revert s. induction Hok as [|it items [_ Hit] Hok IH]; intros s; [done|]. cbn [List.filter].
  unfold known at 1. destruct (field_of fields (it_id it)) as [rd|]; [apply IH|]. destruct Hit as [_ Hid].
  rewrite IH. change (all_do (it :: items) s) with (all_do items (it_does it s)). by rewrite Hid.
Qed.

Section Struct.
Context {S : Type} (T name : string) (fields : list (Z * (S → wire P S))) (required : list (Z * string)) (fuel : nat)
  (items : list (item S)) (s : S).
Hypotheses (Hok : Forall (item_ok fields) items) (Hfuel : (length items < fuel)%nat).

(** A struct is read field by field, whatever their order and whatever else is there. *)
Lemma reads_struct :
  missing required (it_id <$> List.filter (known fields) items) = None →
  reads (read_struct T fields required fuel s) (struct_tokens name (item_tokens <$> items)) (all_do items s).
Proof.
  intros Hreq. apply (reads_bind _ _ [_]) with tt;
    [apply reads_prepend, reads_lift; intros p l; apply law_struct_begin|].
  change [TFieldStop; TStructEnd] with ([TFieldStop] ++ [TStructEnd]). rewrite app_assoc.
  eapply reads_bind; [by apply reads_fields|]. cbn [app].
  apply (reads_bind _ _ [_] []) with tt; [apply reads_prepend, reads_lift; intros p l; apply law_struct_end|].
  rewrite Hreq. apply reads_ret.
Qed.

(** A struct without a field that is required is refused, with the name of the field. *)
Lemma fails_struct field :
  missing required (it_id <$> List.filter (known fields) items) = Some field →
  fails_with (read_struct T fields required fuel s) (struct_tokens name (item_tokens <$> items))
    (INVALID_DATA ("Required field " +:+ field +:+ " is not set")).
Proof.
  intros Hreq. apply (fails_bind _ _ [_]) with tt;
    [apply reads_prepend, reads_lift; intros p l; apply law_struct_begin|].
  change [TFieldStop; TStructEnd] with ([TFieldStop] ++ [TStructEnd]). rewrite app_assoc.
  eapply fails_bind; [by apply reads_fields|]. cbn [app].
  apply (fails_bind _ _ [_] []) with tt; [apply reads_prepend, reads_lift; intros p l; apply law_struct_end|].
  rewrite Hreq. intros p l Hp. by exists p.
Qed.
End Struct.

Lemma reads_string id s : reads (read_scalar id ReadString) [TString s] s.
Proof. apply reads_prepend, reads_lift. intros p l. apply law_string. Qed.
Lemma reads_bool id b : reads (read_scalar id ReadBool) [TBool b] b.
Proof. apply reads_prepend, reads_lift. intros p l. apply law_bool. Qed.
Lemma reads_i32 id z : reads (read_scalar id ReadI32) [TI32 z] z.
Proof. apply reads_prepend, reads_lift. intros p l. apply law_i32. Qed.
Lemma reads_i64 id z : reads (read_scalar id ReadI64) [TI64 z] z.
Proof. apply reads_prepend, reads_lift. intros p l. apply law_i64. Qed.

(** A field that is read and put in its place. *)
Lemma reads_set {A S} (m : wire P A) (set : A → S) toks a : reads m toks a → reads (do v ← m; wret (set v)) toks (set a).
Proof. intros Hm. rewrite <- (app_nil_r toks). eapply reads_bind; [done|apply reads_ret]. Qed.
End Lemmas.
Arguments mkItem {S}. Arguments it_name {S}. Arguments it_type {S}. Arguments it_id {S}.
Arguments it_tokens {S}. Arguments it_does {S}.

Create HintDb wire.
#[export] Hint Resolve writes_token writes_prepend writes_field reads_string reads_bool reads_i32 reads_i64 : wire.

(** ** A protocol in memory *)

Definition opens (t : token) : bool :=
  match t with TStructBegin _ | TFieldBegin _ _ _ | TListBegin _ _ | TMapBegin _ _ _ => true | _ => false end.
Definition closes (t : token) : bool :=
  match t with TStructEnd | TFieldEnd | TListEnd | TMapEnd => true | _ => false end.

(** The rest after a value at a depth. *)
Fixpoint skip_value (depth : nat) (l : list token) : option (list token) :=
  match l with
  | [] => None
  | t :: l =>
      let depth := if opens t then S depth else if closes t then pred depth else depth in
      match depth with O => Some l | _ => skip_value depth l end
  end.

Scheme value_ind := Minimality for value_tokens Sort Prop
  with fields_ind := Minimality for fields_of Sort Prop
  with values_ind := Minimality for values_of Sort Prop
  with pairs_ind := Minimality for pairs_of Sort Prop.
Combined Scheme value_mutual from value_ind, fields_ind, values_ind, pairs_ind.

Definition skipped_inside (body : list token) : Prop := ∀ d l, skip_value (S d) (body ++ l) = skip_value (S d) l.

Lemma skip_inside :
  (∀ d type body, value_tokens d type body → skipped_inside body) ∧
  (∀ d body, fields_of d body → skipped_inside body) ∧
  (∀ d type n body, values_of d type n body → skipped_inside body) ∧
  (∀ d key type n body, pairs_of d key type n body → skipped_inside body).
Proof.
  apply value_mutual; unfold skipped_inside; intros; try done;
    repeat first [rewrite <- app_comm_cons|rewrite <- app_assoc]; cbn [skip_value opens closes];
    repeat match goal with H : ∀ d l, skip_value _ _ = _ |- _ => rewrite H; clear H; cbn [skip_value opens closes pred app] end;
    done.
Qed.

Lemma skip_value_whole d type body l : value_tokens d type body → skip_value 0 (body ++ l) = Some l.
Proof.
  destruct skip_inside as (_ & Hf & Hv & Hp).
  destruct 1 as [| | | |d name body H|d ty n body H|d kt vt n body H]; try done;
    rewrite <- app_comm_cons, <- app_assoc; cbn [skip_value opens].
  - by rewrite (Hf d body H).
  - by rewrite (Hv d ty n body H).
  - by rewrite (Hp d kt vt n body H).
Qed.

Definition unexpected : error := mkError "unexpected token" false.

Definition take_token {A} (f : token → option A) (l : list token) : list token * (A + error) :=
  match l with
  | t :: l' => match f t with Some a => (l', inl a) | None => (l, inr unexpected) end
  | [] => (l, inr unexpected)
  end.

Definition mem_protocol : Protocol (list token) :=
  {| prot_Write t l := (l ++ [t], None);
     ReadStructBegin := take_token (λ t, match t with TStructBegin _ => Some tt | _ => None end);
     ReadStructEnd := take_token (λ t, match t with TStructEnd => Some tt | _ => None end);
     ReadFieldBegin l := match l with
                         | TFieldBegin _ type id :: l => (l, (type, id, None))
                         | TFieldStop :: l => (l, (STOP, 0, None))
                         | _ => (l, (STOP, 0, Some unexpected))
                         end;
     ReadFieldEnd := take_token (λ t, match t with TFieldEnd => Some tt | _ => None end);
     ReadListBegin := take_token (λ t, match t with TListBegin type n => Some (type, n) | _ => None end);
     ReadListEnd := take_token (λ t, match t with TListEnd => Some tt | _ => None end);
     ReadMapBegin := take_token (λ t, match t with TMapBegin kt vt n => Some (kt, vt, n) | _ => None end);
     ReadMapEnd := take_token (λ t, match t with TMapEnd => Some tt | _ => None end);
     ReadString := take_token (λ t, match t with TString s => Some s | _ => None end);
     ReadBool := take_token (λ t, match t with TBool b => Some b | _ => None end);
     ReadI32 := take_token (λ t, match t with TI32 z => Some z | _ => None end);
     ReadI64 := take_token (λ t, match t with TI64 z => Some z | _ => None end);
     Skip _ l := match skip_value 0 l with Some l => (l, inl tt) | None => (l, inr unexpected) end;
     PrependError text err := mkError (text +:+ err_msg err) (err_transport err);
     INVALID_DATA text := mkError text false |}.

Definition mem_protocol_laws : ProtocolLaws (list token) (H:=mem_protocol).
Proof.
  refine {| spells p l := p = l |}; intros; subst; try by repeat eexists.
  eexists. cbn. by erewrite skip_value_whole.
Defined.
