(* ===== verification/LaserWire.v ===== *)
(** * The structs of the Laser service on the wire
    ([sdk/go/laser_client/if/laser/ttypes.go])

    Reading and writing of every struct of the interface, one definition per method of
    the generated code.  Methods of a pointer take an [option]; a pointer that is nil
    is followed where the code follows it. *)

From S2P Require Import Prelude RouterTypes ThriftWire LaserTypes.

(** ** Data that only the wire has *)

Record LaserKeys := mkLaserKeys { lks_Keys : list (option LaserKey) }.
Record LaserKVs := mkLaserKVs { lkvs_Values : list (option LaserKV) }.

(** [LaserException]: the client's model has it as an outcome of a call. *)
Record WireException := mkWireException { wex_Message : string; wex_Status : Z }.

(** [NewX()]. *)
Definition NewLaserKey : LaserKey := mkLaserKey "" "" [] [].
Definition NewLaserKeys : LaserKeys := mkLaserKeys [].
Definition NewEntryValue : EntryValue := mkEntryValue 0 "".
Definition NewLaserValue : LaserValue := LaserValue_zero.
Definition NewLaserKV : LaserKV := mkLaserKV None None.
Definition NewLaserSetOption : LaserSetOption := mkLaserSetOption false 0.
Definition NewLaserKVs : LaserKVs := mkLaserKVs [].
Definition NewLaserScoreMember : LaserScoreMember := mkLaserScoreMember 0 "".
Definition NewLaserException : WireException := mkWireException "" 0.

Definition is_set {A} (x : option A) : bool := match x with Some _ => true | None => false end.

(** How many of a union's fields are set. *)
Definition count_set (l : list bool) : Z := Z.of_nat (length (List.filter id l)).

Definition CountSetFieldsLaserValue (v : LaserValue) : Z :=
  count_set [is_set (lv_StringValue v); is_set (lv_MapValue v); is_set (lv_NullValue v);
             is_set (lv_MemberScoreValue v); is_set (lv_EntryValue v)].

Definition CountSetFieldsLaserResponse (r : LaserResponse) : Z :=
  count_set [is_set (lr_IntData r); is_set (lr_StringData r); is_set (lr_ListIntData r); is_set (lr_ListStringData r);
             is_set (lr_ListValueData r); is_set (lr_MapStringData r); is_set (lr_MapValueData r);
             is_set (lr_BoolData r); is_set (lr_ListScoreMemberData r)].

(** A union of which not exactly one field is set is not written. *)
Definition union_error (T : string) (count : Z) : error :=
  mkError (T +:+ " write union: exactly one field must be set (" +:+ Itoa count +:+ " set).") false.

(** A field that is written only where it is set. *)
Definition if_set {P A} (x : option A) (m : A → wire P unit) : wire P unit :=
  match x with Some a => m a | None => wret tt end.

Section Wire.
Context {P : Type} {prot : Protocol P} {order : MapOrder}.

(** *** LaserKey *)

Definition LaserKey_T : string := "*laser.LaserKey".

Definition LaserKey_ReadField1 (k : LaserKey) : wire P LaserKey :=
  do v ← read_scalar 1 ReadString; wret (mkLaserKey v (lk_TableName k) (lk_PrimaryKeys k) (lk_ColumnKeys k)).
Definition LaserKey_ReadField2 (k : LaserKey) : wire P LaserKey :=
  do v ← read_scalar 2 ReadString; wret (mkLaserKey (lk_DatabaseName k) v (lk_PrimaryKeys k) (lk_ColumnKeys k)).
Definition LaserKey_ReadField3 (k : LaserKey) : wire P LaserKey :=
  do v ← read_list (read_scalar 0 ReadString);
  wret (mkLaserKey (lk_DatabaseName k) (lk_TableName k) v (lk_ColumnKeys k)).
Definition LaserKey_ReadField4 (k : LaserKey) : wire P LaserKey :=
  do v ← read_list (read_scalar 0 ReadString);
  wret (mkLaserKey (lk_DatabaseName k) (lk_TableName k) (lk_PrimaryKeys k) v).

Definition LaserKey_fields : list (Z * (LaserKey → wire P LaserKey)) :=
  [(1, LaserKey_ReadField1); (2, LaserKey_ReadField2); (3, LaserKey_ReadField3); (4, LaserKey_ReadField4)].

Definition LaserKey_Read (fuel : nat) (k : LaserKey) : wire P LaserKey :=
  read_struct LaserKey_T LaserKey_fields [(1, "DatabaseName"); (2, "TableName"); (3, "PrimaryKeys")] fuel k.

(** An element of a list or map of strings or numbers. *)
Definition write_elem (T : string) (t : token) : wire P unit := write_scalar T "" 0 t.

Definition LaserKey_writeField1 (p : option LaserKey) : wire P unit :=
  write_field LaserKey_T "database_name" STRING 1
    (do k ← wderef p; write_scalar LaserKey_T "database_name" 1 (TString (lk_DatabaseName k))).
Definition LaserKey_writeField2 (p : option LaserKey) : wire P unit :=
  write_field LaserKey_T "table_name" STRING 2
    (do k ← wderef p; write_scalar LaserKey_T "table_name" 2 (TString (lk_TableName k))).
Definition LaserKey_writeField3 (p : option LaserKey) : wire P unit :=
  write_field LaserKey_T "primary_keys" LIST 3
    (do k ← wderef p; write_list STRING (λ v, write_elem LaserKey_T (TString v)) (lk_PrimaryKeys k)).
Definition LaserKey_writeField4 (p : option LaserKey) : wire P unit :=
  write_field LaserKey_T "column_keys" LIST 4
    (do k ← wderef p; write_list STRING (λ v, write_elem LaserKey_T (TString v)) (lk_ColumnKeys k)).

Definition LaserKey_Write (p : option LaserKey) : wire P unit :=
  write_struct LaserKey_T "LaserKey"
    [LaserKey_writeField1 p; LaserKey_writeField2 p; LaserKey_writeField3 p; LaserKey_writeField4 p].

(** *** LaserKeys *)

Definition LaserKeys_T : string := "*laser.LaserKeys".

Definition LaserKeys_ReadField1 (fuel : nat) (k : LaserKeys) : wire P LaserKeys :=
  do v ← read_list (do e ← read_inner LaserKey_T (LaserKey_Read fuel NewLaserKey); wret (Some e));
  wret (mkLaserKeys v).

Definition LaserKeys_Read (fuel : nat) (k : LaserKeys) : wire P LaserKeys :=
  read_struct LaserKeys_T [(1, LaserKeys_ReadField1 fuel)] [(1, "Keys")] fuel k.

Definition LaserKeys_writeField1 (p : option LaserKeys) : wire P unit :=
  write_field LaserKeys_T "keys" LIST 1
    (do k ← wderef p; write_list STRUCT (λ v, write_inner LaserKey_T (LaserKey_Write v)) (lks_Keys k)).

Definition LaserKeys_Write (p : option LaserKeys) : wire P unit :=
  write_struct LaserKeys_T "LaserKeys" [LaserKeys_writeField1 p].

(** *** EntryValue *)

Definition EntryValue_T : string := "*laser.EntryValue".

Definition EntryValue_ReadField1 (e : EntryValue) : wire P EntryValue :=
  do v ← read_scalar 1 ReadI32; wret (mkEntryValue v (ev_StringValue e)).
Definition EntryValue_ReadField2 (e : EntryValue) : wire P EntryValue :=
  do v ← read_scalar 2 ReadString; wret (mkEntryValue (ev_Status e) v).

Definition EntryValue_Read (fuel : nat) (e : EntryValue) : wire P EntryValue :=
  read_struct EntryValue_T [(1, EntryValue_ReadField1); (2, EntryValue_ReadField2)]
    [(1, "Status"); (2, "StringValue")] fuel e.

Definition EntryValue_writeField1 (p : option EntryValue) : wire P unit :=
  write_field EntryValue_T "status" I32 1
    (do e ← wderef p; write_scalar EntryValue_T "status" 1 (TI32 (i32 (ev_Status e)))).
Definition EntryValue_writeField2 (p : option EntryValue) : wire P unit :=
  write_field EntryValue_T "string_value" STRING 2
    (do e ← wderef p; write_scalar EntryValue_T "string_value" 2 (TString (ev_StringValue e))).

Definition EntryValue_Write (p : option EntryValue) : wire P unit :=
  write_struct EntryValue_T "EntryValue" [EntryValue_writeField1 p; EntryValue_writeField2 p].

(** *** LaserValue *)

Definition LaserValue_T : string := "*laser.LaserValue".

Definition LaserValue_ReadField1 (v : LaserValue) : wire P LaserValue :=
  do x ← read_scalar 1 ReadString;
  wret (mkLaserValue (Some x) (lv_MapValue v) (lv_NullValue v) (lv_MemberScoreValue v) (lv_EntryValue v)).
Definition LaserValue_ReadField2 (v : LaserValue) : wire P LaserValue :=
  do x ← read_map (read_scalar 0 ReadString) (read_scalar 0 ReadString);
  wret (mkLaserValue (lv_StringValue v) (Some x) (lv_NullValue v) (lv_MemberScoreValue v) (lv_EntryValue v)).
Definition LaserValue_ReadField3 (v : LaserValue) : wire P LaserValue :=
  do x ← read_scalar 3 ReadBool;
  wret (mkLaserValue (lv_StringValue v) (lv_MapValue v) (Some x) (lv_MemberScoreValue v) (lv_EntryValue v)).
Definition LaserValue_ReadField4 (v : LaserValue) : wire P LaserValue :=
  do x ← read_map (read_scalar 0 ReadString) (read_scalar 0 ReadI64);
  wret (mkLaserValue (lv_StringValue v) (lv_MapValue v) (lv_NullValue v) (Some x) (lv_EntryValue v)).
Definition LaserValue_ReadField5 (fuel : nat) (v : LaserValue) : wire P LaserValue :=
  do x ← read_inner EntryValue_T (EntryValue_Read fuel NewEntryValue);
  wret (mkLaserValue (lv_StringValue v) (lv_MapValue v) (lv_NullValue v) (lv_MemberScoreValue v) (Some x)).

Definition LaserValue_fields (fuel : nat) : list (Z * (LaserValue → wire P LaserValue)) :=
  [(1, LaserValue_ReadField1); (2, LaserValue_ReadField2); (3, LaserValue_ReadField3); (4, LaserValue_ReadField4);
   (5, LaserValue_ReadField5 fuel)].

Definition LaserValue_Read (fuel : nat) (v : LaserValue) : wire P LaserValue :=
  read_struct LaserValue_T (LaserValue_fields fuel) [] fuel v.

Definition LaserValue_writeField1 (v : LaserValue) : wire P unit :=
  if_set (lv_StringValue v) (λ x,
    write_field LaserValue_T "string_value" STRING 1 (write_scalar LaserValue_T "string_value" 1 (TString x))).
Definition LaserValue_writeField2 (v : LaserValue) : wire P unit :=
  if_set (lv_MapValue v) (λ x,
    write_field LaserValue_T "map_value" MAP 2
      (write_map STRING (λ k, write_elem LaserValue_T (TString k)) (λ s, write_elem LaserValue_T (TString s)) x)).
Definition LaserValue_writeField3 (v : LaserValue) : wire P unit :=
  if_set (lv_NullValue v) (λ x,
    write_field LaserValue_T "null_value" BOOL 3 (write_scalar LaserValue_T "null_value" 3 (TBool x))).
Definition LaserValue_writeField4 (v : LaserValue) : wire P unit :=
  if_set (lv_MemberScoreValue v) (λ x,
    write_field LaserValue_T "member_score_value" MAP 4
      (write_map I64 (λ k, write_elem LaserValue_T (TString k)) (λ z, write_elem LaserValue_T (TI64 z)) x)).
Definition LaserValue_writeField5 (v : LaserValue) : wire P unit :=
  if_set (lv_EntryValue v) (λ x,
    write_field LaserValue_T "entry_value" STRUCT 5 (write_inner EntryValue_T (EntryValue_Write (Some x)))).

(** The fields are counted first, which follows the pointer. *)
Definition LaserValue_Write (p : option LaserValue) : wire P unit :=
  do v ← wderef p;
  if negb (Z.eqb (CountSetFieldsLaserValue v) 1) then wfail (union_error LaserValue_T (CountSetFieldsLaserValue v))
  else write_struct LaserValue_T "LaserValue"
         [LaserValue_writeField1 v; LaserValue_writeField2 v; LaserValue_writeField3 v; LaserValue_writeField4 v;
          LaserValue_writeField5 v].

(** *** LaserKV *)

Definition LaserKV_T : string := "*laser.LaserKV".

Definition LaserKV_ReadField1 (fuel : nat) (kv : LaserKV) : wire P LaserKV :=
  do x ← read_inner LaserKey_T (LaserKey_Read fuel NewLaserKey); wret (mkLaserKV (Some x) (lkv_Value kv)).
Definition LaserKV_ReadField2 (fuel : nat) (kv : LaserKV) : wire P LaserKV :=
  do x ← read_inner LaserValue_T (LaserValue_Read fuel NewLaserValue); wret (mkLaserKV (lkv_Key kv) (Some x)).

Definition LaserKV_Read (fuel : nat) (kv : LaserKV) : wire P LaserKV :=
  read_struct LaserKV_T [(1, LaserKV_ReadField1 fuel); (2, LaserKV_ReadField2 fuel)]
    [(1, "Key"); (2, "Value")] fuel kv.

Definition LaserKV_writeField1 (p : option LaserKV) : wire P unit :=
  write_field LaserKV_T "key" STRUCT 1 (do kv ← wderef p; write_inner LaserKey_T (LaserKey_Write (lkv_Key kv))).
Definition LaserKV_writeField2 (p : option LaserKV) : wire P unit :=
  write_field LaserKV_T "value" STRUCT 2 (do kv ← wderef p; write_inner LaserValue_T (LaserValue_Write (lkv_Value kv))).

Definition LaserKV_Write (p : option LaserKV) : wire P unit :=
  write_struct LaserKV_T "LaserKV" [LaserKV_writeField1 p; LaserKV_writeField2 p].

(** *** LaserSetOption *)

Definition LaserSetOption_T : string := "*laser.LaserSetOption".

Definition LaserSetOption_ReadField1 (o : LaserSetOption) : wire P LaserSetOption :=
  do v ← read_scalar 1 ReadBool; wret (mkLaserSetOption v (lso_Ttl o)).
Definition LaserSetOption_ReadField2 (o : LaserSetOption) : wire P LaserSetOption :=
  do v ← read_scalar 2 ReadI64; wret (mkLaserSetOption (lso_NotExists o) v).

Definition LaserSetOption_Read (fuel : nat) (o : LaserSetOption) : wire P LaserSetOption :=
  read_struct LaserSetOption_T [(1, LaserSetOption_ReadField1); (2, LaserSetOption_ReadField2)]
    [(1, "NotExists"); (2, "Ttl")] fuel o.

Definition LaserSetOption_writeField1 (p : option LaserSetOption) : wire P unit :=
  write_field LaserSetOption_T "not_exists" BOOL 1
    (do o ← wderef p; write_scalar LaserSetOption_T "not_exists" 1 (TBool (lso_NotExists o))).
Definition LaserSetOption_writeField2 (p : option LaserSetOption) : wire P unit :=
  write_field LaserSetOption_T "ttl" I64 2
    (do o ← wderef p; write_scalar LaserSetOption_T "ttl" 2 (TI64 (lso_Ttl o))).

Definition LaserSetOption_Write (p : option LaserSetOption) : wire P unit :=
  write_struct LaserSetOption_T "LaserSetOption" [LaserSetOption_writeField1 p; LaserSetOption_writeField2 p].

(** *** LaserKVs *)

Definition LaserKVs_T : string := "*laser.LaserKVs".

Definition LaserKVs_ReadField1 (fuel : nat) (kvs : LaserKVs) : wire P LaserKVs :=
  do v ← read_list (do e ← read_inner LaserKV_T (LaserKV_Read fuel NewLaserKV); wret (Some e));
  wret (mkLaserKVs v).

Definition LaserKVs_Read (fuel : nat) (kvs : LaserKVs) : wire P LaserKVs :=
  read_struct LaserKVs_T [(1, LaserKVs_ReadField1 fuel)] [] fuel kvs.

Definition LaserKVs_writeField1 (p : option LaserKVs) : wire P unit :=
  write_field LaserKVs_T "values" LIST 1
    (do kvs ← wderef p; write_list STRUCT (λ v, write_inner LaserKV_T (LaserKV_Write v)) (lkvs_Values kvs)).

Definition LaserKVs_Write (p : option LaserKVs) : wire P unit :=
  write_struct LaserKVs_T "LaserKVs" [LaserKVs_writeField1 p].

(** *** LaserScoreMember *)

Definition LaserScoreMember_T : string := "*laser.LaserScoreMember".

Definition LaserScoreMember_ReadField1 (m : LaserScoreMember) : wire P LaserScoreMember :=
  do v ← read_scalar 1 ReadI64; wret (mkLaserScoreMember v (lsm_Member m)).
Definition LaserScoreMember_ReadField2 (m : LaserScoreMember) : wire P LaserScoreMember :=
  do v ← read_scalar 2 ReadString; wret (mkLaserScoreMember (lsm_Score m) v).

Definition LaserScoreMember_Read (fuel : nat) (m : LaserScoreMember) : wire P LaserScoreMember :=
  read_struct LaserScoreMember_T [(1, LaserScoreMember_ReadField1); (2, LaserScoreMember_ReadField2)]
    [(1, "Score"); (2, "Member")] fuel m.

Definition LaserScoreMember_writeField1 (p : option LaserScoreMember) : wire P unit :=
  write_field LaserScoreMember_T "score" I64 1
    (do m ← wderef p; write_scalar LaserScoreMember_T "score" 1 (TI64 (lsm_Score m))).
Definition LaserScoreMember_writeField2 (p : option LaserScoreMember) : wire P unit :=
  write_field LaserScoreMember_T "member" STRING 2
    (do m ← wderef p; write_scalar LaserScoreMember_T "member" 2 (TString (lsm_Member m))).

Definition LaserScoreMember_Write (p : option LaserScoreMember) : wire P unit :=
  write_struct LaserScoreMember_T "LaserScoreMember" [LaserScoreMember_writeField1 p; LaserScoreMember_writeField2 p].

(** *** LaserResponse *)

Definition LaserResponse_T : string := "*laser.LaserResponse".

Definition LaserResponse_ReadField1 (r : LaserResponse) : wire P LaserResponse :=
  do x ← read_scalar 1 ReadI64;
  wret (mkLaserResponse (Some x) (lr_StringData r) (lr_ListIntData r) (lr_ListStringData r) (lr_ListValueData r)
    (lr_MapStringData r) (lr_MapValueData r) (lr_BoolData r) (lr_ListScoreMemberData r)).
Definition LaserResponse_ReadField2 (r : LaserResponse) : wire P LaserResponse :=
  do x ← read_scalar 2 ReadString;
  wret (mkLaserResponse (lr_IntData r) (Some x) (lr_ListIntData r) (lr_ListStringData r) (lr_ListValueData r)
    (lr_MapStringData r) (lr_MapValueData r) (lr_BoolData r) (lr_ListScoreMemberData r)).
Definition LaserResponse_ReadField3 (r : LaserResponse) : wire P LaserResponse :=
  do x ← read_list (read_scalar 0 ReadI64);
  wret (mkLaserResponse (lr_IntData r) (lr_StringData r) (Some x) (lr_ListStringData r) (lr_ListValueData r)
    (lr_MapStringData r) (lr_MapValueData r) (lr_BoolData r) (lr_ListScoreMemberData r)).
Definition LaserResponse_ReadField4 (r : LaserResponse) : wire P LaserResponse :=
  do x ← read_list (read_scalar 0 ReadString);
  wret (mkLaserResponse (lr_IntData r) (lr_StringData r) (lr_ListIntData r) (Some x) (lr_ListValueData r)
    (lr_MapStringData r) (lr_MapValueData r) (lr_BoolData r) (lr_ListScoreMemberData r)).
Definition LaserResponse_ReadField5 (fuel : nat) (r : LaserResponse) : wire P LaserResponse :=
  do x ← read_list (do e ← read_inner LaserValue_T (LaserValue_Read fuel NewLaserValue); wret (Some e));
  wret (mkLaserResponse (lr_IntData r) (lr_StringData r) (lr_ListIntData r) (lr_ListStringData r) (Some x)
    (lr_MapStringData r) (lr_MapValueData r) (lr_BoolData r) (lr_ListScoreMemberData r)).
Definition LaserResponse_ReadField6 (r : LaserResponse) : wire P LaserResponse :=
  do x ← read_map (read_scalar 0 ReadString) (read_scalar 0 ReadString);
  wret (mkLaserResponse (lr_IntData r) (lr_StringData r) (lr_ListIntData r) (lr_ListStringData r) (lr_ListValueData r)
    (Some x) (lr_MapValueData r) (lr_BoolData r) (lr_ListScoreMemberData r)).
Definition LaserResponse_ReadField7 (fuel : nat) (r : LaserResponse) : wire P LaserResponse :=
  do x ← read_map (read_scalar 0 ReadString)
           (do e ← read_inner LaserValue_T (LaserValue_Read fuel NewLaserValue); wret (Some e));
  wret (mkLaserResponse (lr_IntData r) (lr_StringData r) (lr_ListIntData r) (lr_ListStringData r) (lr_ListValueData r)
    (lr_MapStringData r) (Some x) (lr_BoolData r) (lr_ListScoreMemberData r)).
Definition LaserResponse_ReadField8 (r : LaserResponse) : wire P LaserResponse :=
  do x ← read_scalar 8 ReadBool;
  wret (mkLaserResponse (lr_IntData r) (lr_StringData r) (lr_ListIntData r) (lr_ListStringData r) (lr_ListValueData r)
    (lr_MapStringData r) (lr_MapValueData r) (Some x) (lr_ListScoreMemberData r)).
Definition LaserResponse_ReadField9 (fuel : nat) (r : LaserResponse) : wire P LaserResponse :=
  do x ← read_list (do e ← read_inner LaserScoreMember_T (LaserScoreMember_Read fuel NewLaserScoreMember); wret (Some e));
  wret (mkLaserResponse (lr_IntData r) (lr_StringData r) (lr_ListIntData r) (lr_ListStringData r) (lr_ListValueData r)
    (lr_MapStringData r) (lr_MapValueData r) (lr_BoolData r) (Some x)).

Definition LaserResponse_fields (fuel : nat) : list (Z * (LaserResponse → wire P LaserResponse)) :=
  [(1, LaserResponse_ReadField1); (2, LaserResponse_ReadField2); (3, LaserResponse_ReadField3);
   (4, LaserResponse_ReadField4); (5, LaserResponse_ReadField5 fuel); (6, LaserResponse_ReadField6);
   (7, LaserResponse_ReadField7 fuel); (8, LaserResponse_ReadField8); (9, LaserResponse_ReadField9 fuel)].

Definition LaserResponse_Read (fuel : nat) (r : LaserResponse) : wire P LaserResponse :=
  read_struct LaserResponse_T (LaserResponse_fields fuel) [] fuel r.

Definition LaserResponse_writeField1 (r : LaserResponse) : wire P unit :=
  if_set (lr_IntData r) (λ x,
    write_field LaserResponse_T "int_data" I64 1 (write_scalar LaserResponse_T "int_data" 1 (TI64 x))).
Definition LaserResponse_writeField2 (r : LaserResponse) : wire P unit :=
  if_set (lr_StringData r) (λ x,
    write_field LaserResponse_T "string_data" STRING 2 (write_scalar LaserResponse_T "string_data" 2 (TString x))).
Definition LaserResponse_writeField3 (r : LaserResponse) : wire P unit :=
  if_set (lr_ListIntData r) (λ x,
    write_field LaserResponse_T "list_int_data" LIST 3
      (write_list I64 (λ v, write_elem LaserResponse_T (TI64 v)) x)).
Definition LaserResponse_writeField4 (r : LaserResponse) : wire P unit :=
  if_set (lr_ListStringData r) (λ x,
    write_field LaserResponse_T "list_string_data" LIST 4
      (write_list STRING (λ v, write_elem LaserResponse_T (TString v)) x)).
Definition LaserResponse_writeField5 (r : LaserResponse) : wire P unit :=
  if_set (lr_ListValueData r) (λ x,
    write_field LaserResponse_T "list_value_data" LIST 5
      (write_list STRUCT (λ v, write_inner LaserValue_T (LaserValue_Write v)) x)).
Definition LaserResponse_writeField6 (r : LaserResponse) : wire P unit :=
  if_set (lr_MapStringData r) (λ x,
    write_field LaserResponse_T "map_string_data" MAP 6
      (write_map STRING (λ k, write_elem LaserResponse_T (TString k)) (λ s, write_elem LaserResponse_T (TString s)) x)).
Definition LaserResponse_writeField7 (r : LaserResponse) : wire P unit :=
  if_set (lr_MapValueData r) (λ x,
    write_field LaserResponse_T "map_value_data" MAP 7
      (write_map STRUCT (λ k, write_elem LaserResponse_T (TString k))
         (λ v, write_inner LaserValue_T (LaserValue_Write v)) x)).
Definition LaserResponse_writeField8 (r : LaserResponse) : wire P unit :=
  if_set (lr_BoolData r) (λ x,
    write_field LaserResponse_T "bool_data" BOOL 8 (write_scalar LaserResponse_T "bool_data" 8 (TBool x))).
Definition LaserResponse_writeField9 (r : LaserResponse) : wire P unit :=
  if_set (lr_ListScoreMemberData r) (λ x,
    write_field LaserResponse_T "list_score_member_data" LIST 9
      (write_list STRUCT (λ v, write_inner LaserScoreMember_T (LaserScoreMember_Write v)) x)).

Definition LaserResponse_Write (p : option LaserResponse) : wire P unit :=
  do r ← wderef p;
  if negb (Z.eqb (CountSetFieldsLaserResponse r) 1) then wfail (union_error LaserResponse_T (CountSetFieldsLaserResponse r))
  else write_struct LaserResponse_T "LaserResponse"
         [LaserResponse_writeField1 r; LaserResponse_writeField2 r; LaserResponse_writeField3 r;
          LaserResponse_writeField4 r; LaserResponse_writeField5 r; LaserResponse_writeField6 r;
          LaserResponse_writeField7 r; LaserResponse_writeField8 r; LaserResponse_writeField9 r].

(** *** LaserException *)

Definition LaserException_T : string := "*laser.LaserException".

Definition LaserException_ReadField1 (e : WireException) : wire P WireException :=
  do v ← read_scalar 1 ReadString; wret (mkWireException v (wex_Status e)).
Definition LaserException_ReadField2 (e : WireException) : wire P WireException :=
  do v ← read_scalar 2 ReadI32; wret (mkWireException (wex_Message e) v).

Definition LaserException_Read (fuel : nat) (e : WireException) : wire P WireException :=
  read_struct LaserException_T [(1, LaserException_ReadField1); (2, LaserException_ReadField2)]
    [(1, "Message"); (2, "Status")] fuel e.

Definition LaserException_writeField1 (p : option WireException) : wire P unit :=
  write_field LaserException_T "message" STRING 1
    (do e ← wderef p; write_scalar LaserException_T "message" 1 (TString (wex_Message e))).
Definition LaserException_writeField2 (p : option WireException) : wire P unit :=
  write_field LaserException_T "status" I32 2
    (do e ← wderef p; write_scalar LaserException_T "status" 2 (TI32 (i32 (wex_Status e)))).

Definition LaserException_Write (p : option WireException) : wire P unit :=
  write_struct LaserException_T "LaserException" [LaserException_writeField1 p; LaserException_writeField2 p].
End Wire.
