(* ===== verification/LaserRoundTrip.v ===== *)
(** * What is written is what is read
    ([sdk/go/laser_client/if/laser/ttypes.go])

    For every struct of the interface, the tokens that are on the wire for a value, that
    [Write] writes them and that [Read] makes the value of them again, for any protocol
    that keeps its promises ([ProtocolLaws]). *)

From S2P Require Import Prelude RouterTypes ThriftWire LaserTypes LaserWire.

(** ** The fields of a value on the wire *)

Section Tokens.
Context {order : MapOrder}.

Definition string_tokens (s : string) : list token := [TString s].
Definition i64_tokens (z : Z) : list token := [TI64 z].

(** A field of a union is there when it is set, a pointer is written as what it points to. *)
Definition opt_item {A S} (x : option A) (mk : A → item S) : list (item S) :=
  match x with Some a => [mk a] | None => [] end.
Definition ptr_tokens {A} (toks : A → list token) (x : option A) : list token :=
  match x with Some a => toks a | None => [] end.

Definition tokens_of {S} (name : string) (items : list (item S)) : list token :=
  struct_tokens name (item_tokens <$> items).

Definition LaserKey_items (k : LaserKey) : list (item LaserKey) :=
  [mkItem "database_name" STRING 1 (string_tokens (lk_DatabaseName k))
     (λ s, mkLaserKey (lk_DatabaseName k) (lk_TableName s) (lk_PrimaryKeys s) (lk_ColumnKeys s));
   mkItem "table_name" STRING 2 (string_tokens (lk_TableName k))
     (λ s, mkLaserKey (lk_DatabaseName s) (lk_TableName k) (lk_PrimaryKeys s) (lk_ColumnKeys s));
   mkItem "primary_keys" LIST 3 (list_tokens STRING string_tokens (lk_PrimaryKeys k))
     (λ s, mkLaserKey (lk_DatabaseName s) (lk_TableName s) (lk_PrimaryKeys k) (lk_ColumnKeys s));
   mkItem "column_keys" LIST 4 (list_tokens STRING string_tokens (lk_ColumnKeys k))
     (λ s, mkLaserKey (lk_DatabaseName s) (lk_TableName s) (lk_PrimaryKeys s) (lk_ColumnKeys k))].
Definition LaserKey_tokens (k : LaserKey) : list token := tokens_of "LaserKey" (LaserKey_items k).

Definition LaserKeys_items (ks : LaserKeys) : list (item LaserKeys) :=
  [mkItem "keys" LIST 1 (list_tokens STRUCT (ptr_tokens LaserKey_tokens) (lks_Keys ks)) (λ _, ks)].
Definition LaserKeys_tokens (ks : LaserKeys) : list token := tokens_of "LaserKeys" (LaserKeys_items ks).

Definition EntryValue_items (e : EntryValue) : list (item EntryValue) :=
  [mkItem "status" I32 1 [TI32 (ev_Status e)] (λ s, mkEntryValue (ev_Status e) (ev_StringValue s));
   mkItem "string_value" STRING 2 (string_tokens (ev_StringValue e)) (λ s, mkEntryValue (ev_Status s) (ev_StringValue e))].
Definition EntryValue_tokens (e : EntryValue) : list token := tokens_of "EntryValue" (EntryValue_items e).

Definition LaserValue_items (v : LaserValue) : list (list (item LaserValue)) :=
  [opt_item (lv_StringValue v) (λ x, mkItem "string_value" STRING 1 (string_tokens x) (λ s,
     mkLaserValue (Some x) (lv_MapValue s) (lv_NullValue s) (lv_MemberScoreValue s) (lv_EntryValue s)));
   opt_item (lv_MapValue v) (λ x, mkItem "map_value" MAP 2 (map_tokens STRING string_tokens x) (λ s,
     mkLaserValue (lv_StringValue s) (Some x) (lv_NullValue s) (lv_MemberScoreValue s) (lv_EntryValue s)));
   opt_item (lv_NullValue v) (λ x, mkItem "null_value" BOOL 3 [TBool x] (λ s,
     mkLaserValue (lv_StringValue s) (lv_MapValue s) (Some x) (lv_MemberScoreValue s) (lv_EntryValue s)));
   opt_item (lv_MemberScoreValue v) (λ x, mkItem "member_score_value" MAP 4 (map_tokens I64 i64_tokens x) (λ s,
     mkLaserValue (lv_StringValue s) (lv_MapValue s) (lv_NullValue s) (Some x) (lv_EntryValue s)));
   opt_item (lv_EntryValue v) (λ x, mkItem "entry_value" STRUCT 5 (EntryValue_tokens x) (λ s,
     mkLaserValue (lv_StringValue s) (lv_MapValue s) (lv_NullValue s) (lv_MemberScoreValue s) (Some x)))].
Definition LaserValue_tokens (v : LaserValue) : list token := tokens_of "LaserValue" (concat (LaserValue_items v)).

Definition LaserKV_items (kv : LaserKV) : list (item LaserKV) :=
  [mkItem "key" STRUCT 1 (ptr_tokens LaserKey_tokens (lkv_Key kv)) (λ s, mkLaserKV (lkv_Key kv) (lkv_Value s));
   mkItem "value" STRUCT 2 (ptr_tokens LaserValue_tokens (lkv_Value kv)) (λ s, mkLaserKV (lkv_Key s) (lkv_Value kv))].
Definition LaserKV_tokens (kv : LaserKV) : list token := tokens_of "LaserKV" (LaserKV_items kv).

Definition LaserKVs_items (kvs : LaserKVs) : list (item LaserKVs) :=
  [mkItem "values" LIST 1 (list_tokens STRUCT (ptr_tokens LaserKV_tokens) (lkvs_Values kvs)) (λ _, kvs)].
Definition LaserKVs_tokens (kvs : LaserKVs) : list token := tokens_of "LaserKVs" (LaserKVs_items kvs).

Definition LaserSetOption_items (o : LaserSetOption) : list (item LaserSetOption) :=
  [mkItem "not_exists" BOOL 1 [TBool (lso_NotExists o)] (λ s, mkLaserSetOption (lso_NotExists o) (lso_Ttl s));
   mkItem "ttl" I64 2 (i64_tokens (lso_Ttl o)) (λ s, mkLaserSetOption (lso_NotExists s) (lso_Ttl o))].
Definition LaserSetOption_tokens (o : LaserSetOption) : list token := tokens_of "LaserSetOption" (LaserSetOption_items o).

Definition LaserScoreMember_items (m : LaserScoreMember) : list (item LaserScoreMember) :=
  [mkItem "score" I64 1 (i64_tokens (lsm_Score m)) (λ s, mkLaserScoreMember (lsm_Score m) (lsm_Member s));
   mkItem "member" STRING 2 (string_tokens (lsm_Member m)) (λ s, mkLaserScoreMember (lsm_Score s) (lsm_Member m))].
Definition LaserScoreMember_tokens (m : LaserScoreMember) : list token :=
  tokens_of "LaserScoreMember" (LaserScoreMember_items m).

Definition LaserResponse_items (r : LaserResponse) : list (list (item LaserResponse)) :=
  [opt_item (lr_IntData r) (λ x, mkItem "int_data" I64 1 (i64_tokens x) (λ s,
     mkLaserResponse (Some x) (lr_StringData s) (lr_ListIntData s) (lr_ListStringData s) (lr_ListValueData s)
       (lr_MapStringData s) (lr_MapValueData s) (lr_BoolData s) (lr_ListScoreMemberData s)));
   opt_item (lr_StringData r) (λ x, mkItem "string_data" STRING 2 (string_tokens x) (λ s,
     mkLaserResponse (lr_IntData s) (Some x) (lr_ListIntData s) (lr_ListStringData s) (lr_ListValueData s)
       (lr_MapStringData s) (lr_MapValueData s) (lr_BoolData s) (lr_ListScoreMemberData s)));
   opt_item (lr_ListIntData r) (λ x, mkItem "list_int_data" LIST 3 (list_tokens I64 i64_tokens x) (λ s,
     mkLaserResponse (lr_IntData s) (lr_StringData s) (Some x) (lr_ListStringData s) (lr_ListValueData s)
       (lr_MapStringData s) (lr_MapValueData s) (lr_BoolData s) (lr_ListScoreMemberData s)));
   opt_item (lr_ListStringData r) (λ x, mkItem "list_string_data" LIST 4 (list_tokens STRING string_tokens x) (λ s,
     mkLaserResponse (lr_IntData s) (lr_StringData s) (lr_ListIntData s) (Some x) (lr_ListValueData s)
       (lr_MapStringData s) (lr_MapValueData s) (lr_BoolData s) (lr_ListScoreMemberData s)));
   opt_item (lr_ListValueData r) (λ x,
     mkItem "list_value_data" LIST 5 (list_tokens STRUCT (ptr_tokens LaserValue_tokens) x) (λ s,
     mkLaserResponse (lr_IntData s) (lr_StringData s) (lr_ListIntData s) (lr_ListStringData s) (Some x)
       (lr_MapStringData s) (lr_MapValueData s) (lr_BoolData s) (lr_ListScoreMemberData s)));
   opt_item (lr_MapStringData r) (λ x, mkItem "map_string_data" MAP 6 (map_tokens STRING string_tokens x) (λ s,
     mkLaserResponse (lr_IntData s) (lr_StringData s) (lr_ListIntData s) (lr_ListStringData s) (lr_ListValueData s)
       (Some x) (lr_MapValueData s) (lr_BoolData s) (lr_ListScoreMemberData s)));
   opt_item (lr_MapValueData r) (λ x,
     mkItem "map_value_data" MAP 7 (map_tokens STRUCT (ptr_tokens LaserValue_tokens) x) (λ s,
     mkLaserResponse (lr_IntData s) (lr_StringData s) (lr_ListIntData s) (lr_ListStringData s) (lr_ListValueData s)
       (lr_MapStringData s) (Some x) (lr_BoolData s) (lr_ListScoreMemberData s)));
   opt_item (lr_BoolData r) (λ x, mkItem "bool_data" BOOL 8 [TBool x] (λ s,
     mkLaserResponse (lr_IntData s) (lr_StringData s) (lr_ListIntData s) (lr_ListStringData s) (lr_ListValueData s)
       (lr_MapStringData s) (lr_MapValueData s) (Some x) (lr_ListScoreMemberData s)));
   opt_item (lr_ListScoreMemberData r) (λ x,
     mkItem "list_score_member_data" LIST 9 (list_tokens STRUCT (ptr_tokens LaserScoreMember_tokens) x) (λ s,
     mkLaserResponse (lr_IntData s) (lr_StringData s) (lr_ListIntData s) (lr_ListStringData s) (lr_ListValueData s)
       (lr_MapStringData s) (lr_MapValueData s) (lr_BoolData s) (Some x)))].
Definition LaserResponse_tokens (r : LaserResponse) : list token := tokens_of "LaserResponse" (concat (LaserResponse_items r)).

Definition LaserException_items (e : WireException) : list (item WireException) :=
  [mkItem "message" STRING 1 (string_tokens (wex_Message e)) (λ s, mkWireException (wex_Message e) (wex_Status s));
   mkItem "status" I32 2 [TI32 (wex_Status e)] (λ s, mkWireException (wex_Message s) (wex_Status e))].
Definition LaserException_tokens (e : WireException) : list token := tokens_of "LaserException" (LaserException_items e).
End Tokens.

(** ** The values that can be written: unions have one field, pointers are not nil *)

Definition ptr_ok {A} (ok : A → Prop) (x : option A) : Prop := match x with Some a => ok a | None => False end.
Definition opt_ok {A} (ok : A → Prop) (x : option A) : Prop := match x with Some a => ok a | None => True end.

Definition LaserKeys_ok (ks : LaserKeys) : Prop := Forall (ptr_ok (λ _, True)) (lks_Keys ks).
Definition EntryValue_ok (e : EntryValue) : Prop := - 2 ^ 31 ≤ ev_Status e < 2 ^ 31.
Definition LaserValue_ok (v : LaserValue) : Prop :=
  CountSetFieldsLaserValue v = 1 ∧ opt_ok EntryValue_ok (lv_EntryValue v).
Definition LaserKV_ok (kv : LaserKV) : Prop := ptr_ok (λ _, True) (lkv_Key kv) ∧ ptr_ok LaserValue_ok (lkv_Value kv).
Definition LaserKVs_ok (kvs : LaserKVs) : Prop := Forall (ptr_ok LaserKV_ok) (lkvs_Values kvs).
Definition LaserResponse_ok (r : LaserResponse) : Prop :=
  CountSetFieldsLaserResponse r = 1 ∧
  opt_ok (Forall (ptr_ok LaserValue_ok)) (lr_ListValueData r) ∧
  opt_ok (map_Forall (λ _, ptr_ok LaserValue_ok)) (lr_MapValueData r) ∧
  opt_ok (Forall (ptr_ok (λ _, True))) (lr_ListScoreMemberData r).
Definition LaserException_ok (e : WireException) : Prop := - 2 ^ 31 ≤ wex_Status e < 2 ^ 31.

(** ** Lemmas *)

Section RoundTrip.
Context {P : Type} {prot : Protocol P} {laws : ProtocolLaws P} {order : MapOrder}.

Lemma writes_scalar T name id t : writes (write_scalar T name id t) [t].
Proof. apply writes_prepend, writes_token. Qed.

Lemma writes_opt_item {A S} (x : option A) (m : A → wire P unit) (mk : A → item S) :
  opt_ok (λ a, writes (m a) (item_tokens (mk a))) x → writes (if_set x m) (concat (item_tokens <$> opt_item x mk)).
Proof. destruct x as [a|]; cbn; [by rewrite app_nil_r|intros _; apply writes_ret]. Qed.

(** A union: each field of the list writes the items it has. *)
Lemma writes_union {S} T name (fields : list (wire P unit)) (itemss : list (list (item S))) :
  Forall2 (λ m its, writes m (concat (item_tokens <$> its))) fields itemss →
  writes (write_struct T name fields) (tokens_of name (concat itemss)).
Proof.
  intros Hf. unfold tokens_of.
  replace (struct_tokens name (item_tokens <$> concat itemss))
    with (struct_tokens name ((λ its, concat (item_tokens <$> its)) <$> itemss)).
  - apply writes_struct. by apply Forall2_fmap_r.
  - unfold struct_tokens. do 2 f_equal. clear Hf. induction itemss as [|its itemss IH]; [done|].
    cbn. by rewrite IH, fmap_app, concat_app.
Qed.

Lemma reads_ptr {A} T (read : wire P A) (toks : A → list token) (ok : A → Prop) (x : option A) :
  (∀ a, ok a → reads read (toks a) a) → ptr_ok ok x →
  reads (do e ← read_inner T read; wret (Some e)) (ptr_tokens toks x) x.
Proof. intros Hread. destruct x as [a|]; [|done]. intros Ha. apply reads_set, reads_prepend, Hread, Ha. Qed.

Lemma writes_ptr {A} T (wr : option A → wire P unit) (toks : A → list token) (ok : A → Prop) (x : option A) :
  (∀ a, ok a → writes (wr (Some a)) (toks a)) → ptr_ok ok x → writes (write_inner T (wr x)) (ptr_tokens toks x).
Proof. intros Hwr. destruct x as [a|]; [|done]. intros Ha. apply writes_prepend, Hwr, Ha. Qed.

(** The elements of lists and maps of scalars. *)
Lemma writes_strings T l : writes (write_list STRING (λ v, write_elem T (TString v)) l) (list_tokens STRING string_tokens l).
Proof. apply writes_list. intros. apply writes_scalar. Qed.
Lemma writes_i64s T l : writes (write_list I64 (λ v, write_elem T (TI64 v)) l) (list_tokens I64 i64_tokens l).
Proof. apply writes_list. intros. apply writes_scalar. Qed.
Lemma reads_strings type l : reads (read_list (read_scalar 0 ReadString)) (list_tokens type string_tokens l) l.
Proof. apply reads_list. intros. apply reads_string. Qed.
Lemma reads_i64s type l : reads (read_list (read_scalar 0 ReadI64)) (list_tokens type i64_tokens l) l.
Proof. apply reads_list. intros. apply reads_i64. Qed.

Lemma writes_string_map T m :
  writes (write_map STRING (λ k, write_elem T (TString k)) (λ s, write_elem T (TString s)) m)
    (map_tokens STRING string_tokens m).
Proof. apply writes_map; intros; apply writes_scalar. Qed.
Lemma writes_i64_map T m :
  writes (write_map I64 (λ k, write_elem T (TString k)) (λ z, write_elem T (TI64 z)) m) (map_tokens I64 i64_tokens m).
Proof. apply writes_map; intros; apply writes_scalar. Qed.
Lemma reads_string_map type m :
  reads (read_map (read_scalar 0 ReadString) (read_scalar 0 ReadString)) (map_tokens type string_tokens m) m.
Proof. apply reads_map; intros; apply reads_string. Qed.
Lemma reads_i64_map type m :
  reads (read_map (read_scalar 0 ReadString) (read_scalar 0 ReadI64)) (map_tokens type i64_tokens m) m.
Proof. apply reads_map; intros; [apply reads_string|apply reads_i64]. Qed.

Lemma reads_put {A S} (m : wire P A) (set : A → S) toks a s :
  reads m toks a → s = set a → reads (do v ← m; wret (set v)) toks s.
Proof. intros Hm ->. by apply reads_set. Qed.

Lemma reads_struct_as {S} T name (fields : list (Z * (S → wire P S))) required fuel (items : list (item S)) s s' :
  Forall (item_ok fields) items → (length items < fuel)%nat →
  missing required (it_id <$> List.filter (known fields) items) = None → all_do items s = s' →
  reads (read_struct T fields required fuel s) (tokens_of name items) s'.
Proof. intros Hok Hfuel Hreq <-. by apply reads_struct. Qed.

(** A struct is its fields, one by one. *)
Ltac wire_field :=
  first [apply writes_field, writes_deref|apply writes_field];
  first [apply writes_scalar|apply writes_strings|apply writes_i64s|apply writes_string_map
        |apply writes_i64_map|idtac].
Ltac wire_item :=
  split; [discriminate|]; cbn; intros ?; eapply reads_put; [|reflexivity];
  first [apply reads_string|apply reads_bool|apply reads_i32|apply reads_i64|apply reads_strings|apply reads_i64s
        |apply reads_string_map|apply reads_i64_map|idtac].

Ltac wire_items := repeat (apply Forall_cons; split; [wire_item|]); try apply Forall_nil_2.

Lemma LaserKey_writes k : writes (LaserKey_Write (Some k)) (LaserKey_tokens k).
Proof. apply writes_struct. repeat constructor; wire_field. Qed.

Lemma LaserKey_items_ok k : Forall (item_ok LaserKey_fields) (LaserKey_items k).
Proof. wire_items. Qed.

Lemma LaserKey_reads fuel k : (10 ≤ fuel)%nat → reads (LaserKey_Read fuel NewLaserKey) (LaserKey_tokens k) k.
Proof. intros Hfuel. destruct k. eapply reads_struct_as; [apply LaserKey_items_ok|cbn; lia|done..]. Qed.

Lemma LaserKeys_writes ks : LaserKeys_ok ks → writes (LaserKeys_Write (Some ks)) (LaserKeys_tokens ks).
Proof.
  intros Hok. apply writes_struct. repeat constructor; wire_field. apply writes_list. intros x Hx.
  apply (writes_ptr _ _ _ (λ _, True)); [intros; apply LaserKey_writes|]. by eapply Forall_forall in Hok.
Qed.

Lemma LaserKeys_reads fuel ks :
  (10 ≤ fuel)%nat → LaserKeys_ok ks → reads (LaserKeys_Read fuel NewLaserKeys) (LaserKeys_tokens ks) ks.
Proof.
  intros Hfuel Hok. destruct ks as [keys]. eapply reads_struct_as; [wire_items|cbn; lia|done..].
  apply reads_list. intros x Hx. apply (reads_ptr _ _ _ (λ _, True)); [intros; by apply LaserKey_reads|].
  by eapply Forall_forall in Hok.
Qed.

Lemma EntryValue_writes e : EntryValue_ok e → writes (EntryValue_Write (Some e)) (EntryValue_tokens e).
Proof.
  intros Hok. apply writes_struct. repeat constructor; apply writes_field, writes_deref; [|apply writes_scalar].
  rewrite wraps_small by (unfold EntryValue_ok in Hok; lia). apply writes_scalar.
Qed.

Lemma EntryValue_reads fuel e : (10 ≤ fuel)%nat → reads (EntryValue_Read fuel NewEntryValue) (EntryValue_tokens e) e.
Proof. intros Hfuel. destruct e. eapply reads_struct_as; [wire_items|cbn; lia|done..]. Qed.

Lemma LaserException_writes e : LaserException_ok e → writes (LaserException_Write (Some e)) (LaserException_tokens e).
Proof.
  intros Hok. apply writes_struct. repeat constructor; apply writes_field, writes_deref; [apply writes_scalar|].
  rewrite wraps_small by (unfold LaserException_ok in Hok; lia). apply writes_scalar.
Qed.

Lemma LaserException_reads fuel e :
  (10 ≤ fuel)%nat → reads (LaserException_Read fuel NewLaserException) (LaserException_tokens e) e.
Proof. intros Hfuel. destruct e. eapply reads_struct_as; [wire_items|cbn; lia|done..]. Qed.

Lemma LaserSetOption_writes o : writes (LaserSetOption_Write (Some o)) (LaserSetOption_tokens o).
Proof. apply writes_struct. repeat constructor; wire_field. Qed.

Lemma LaserSetOption_reads fuel o :
  (10 ≤ fuel)%nat → reads (LaserSetOption_Read fuel NewLaserSetOption) (LaserSetOption_tokens o) o.
Proof. intros Hfuel. destruct o. eapply reads_struct_as; [wire_items|cbn; lia|done..]. Qed.

Lemma LaserScoreMember_writes m : writes (LaserScoreMember_Write (Some m)) (LaserScoreMember_tokens m).
Proof. apply writes_struct. repeat constructor; wire_field. Qed.

Lemma LaserScoreMember_reads fuel m :
  (10 ≤ fuel)%nat → reads (LaserScoreMember_Read fuel NewLaserScoreMember) (LaserScoreMember_tokens m) m.
Proof. intros Hfuel. destruct m. eapply reads_struct_as; [wire_items|cbn; lia|done..]. Qed.

(** The fields of a union that are set. *)
Lemma Forall_opt_item {A S} (Q : item S → Prop) (x : option A) (mk : A → item S) :
  opt_ok (λ a, Q (mk a)) x → Forall Q (opt_item x mk).
Proof. destruct x; cbn; [by repeat constructor|constructor]. Qed.

Lemma length_opt_item {A S} (x : option A) (mk : A → item S) : (length (opt_item x mk) ≤ 1)%nat.
Proof. destruct x; cbn; lia. Qed.

Lemma length_concat_opt {S} (itemss : list (list (item S))) :
  Forall (λ its, length its ≤ 1)%nat itemss → (length (concat itemss) ≤ length itemss)%nat.
Proof. induction 1; cbn; [lia|]. rewrite length_app. lia. Qed.

Lemma opt_ok_all {A} (Q : A → Prop) (x : option A) : (∀ a, Q a) → opt_ok Q x.
Proof. intros. by destruct x; cbn. Qed.
Lemma opt_ok_impl {A} (Q R : A → Prop) (x : option A) : opt_ok Q x → (∀ a, Q a → R a) → opt_ok R x.
Proof. destruct x; cbn; auto. Qed.

Ltac wire_lengths := repeat (apply Forall_cons; split; [apply length_opt_item|]); apply Forall_nil_2.
Ltac wire_union :=
  repeat first [apply Forall2_cons_2|apply Forall2_nil_2]; apply writes_opt_item;
  try (apply opt_ok_all; intros ?; wire_field; fail).
Ltac wire_union_items :=
  apply Forall_concat; repeat first [apply Forall_cons; split|apply Forall_nil_2]; apply Forall_opt_item;
  try (apply opt_ok_all; intros ?; wire_item; fail).

Lemma LaserValue_writes v : LaserValue_ok v → writes (LaserValue_Write (Some v)) (LaserValue_tokens v).
Proof.
  intros [Hcount Hentry]. unfold LaserValue_Write. apply writes_deref. rewrite Hcount. cbn. apply writes_union. wire_union.
  eapply opt_ok_impl; [done|]. intros e He. apply writes_field, writes_prepend, EntryValue_writes, He.
Qed.

Lemma LaserValue_items_ok fuel v :
  (10 ≤ fuel)%nat → Forall (item_ok (LaserValue_fields fuel)) (concat (LaserValue_items v)).
Proof.
  intros Hfuel. wire_union_items. apply opt_ok_all. intros e. wire_item. by apply reads_prepend, EntryValue_reads.
Qed.

Lemma LaserValue_all v : all_do (concat (LaserValue_items v)) NewLaserValue = v.
Proof. by destruct v as [[] [] [] [] []]. Qed.

Lemma LaserValue_reads fuel v : (10 ≤ fuel)%nat → reads (LaserValue_Read fuel NewLaserValue) (LaserValue_tokens v) v.
Proof.
  intros Hfuel. eapply reads_struct_as; [by apply LaserValue_items_ok| |done|apply LaserValue_all].
  eapply Nat.le_lt_trans; [apply length_concat_opt; wire_lengths|cbn; lia].
Qed.

Lemma LaserKV_writes kv : LaserKV_ok kv → writes (LaserKV_Write (Some kv)) (LaserKV_tokens kv).
Proof.
  intros [Hk Hv]. apply writes_struct. repeat constructor; apply writes_field, writes_deref.
  - apply (writes_ptr _ _ _ (λ _, True)); [intros; apply LaserKey_writes|done].
  - apply (writes_ptr _ _ _ LaserValue_ok); [intros; by apply LaserValue_writes|done].
Qed.

Lemma LaserKV_reads fuel kv :
  (10 ≤ fuel)%nat → LaserKV_ok kv → reads (LaserKV_Read fuel NewLaserKV) (LaserKV_tokens kv) kv.
Proof.
  intros Hfuel [Hk Hv]. destruct kv as [[k|] [v|]]; try done.
  eapply reads_struct_as; [wire_items|cbn; lia|done..]; apply reads_prepend; [by apply LaserKey_reads|by apply LaserValue_reads].
Qed.

Lemma LaserKVs_writes kvs : LaserKVs_ok kvs → writes (LaserKVs_Write (Some kvs)) (LaserKVs_tokens kvs).
Proof.
  intros Hok. apply writes_struct. repeat constructor; wire_field. apply writes_list. intros x Hx.
  apply (writes_ptr _ _ _ LaserKV_ok); [apply LaserKV_writes|]. by eapply Forall_forall in Hok.
Qed.

Lemma LaserKVs_reads fuel kvs :
  (10 ≤ fuel)%nat → LaserKVs_ok kvs → reads (LaserKVs_Read fuel NewLaserKVs) (LaserKVs_tokens kvs) kvs.
Proof.
  intros Hfuel Hok. destruct kvs as [values]. eapply reads_struct_as; [wire_items|cbn; lia|done..].
  apply reads_list. intros x Hx. apply (reads_ptr _ _ _ LaserKV_ok); [intros; by apply LaserKV_reads|].
  by eapply Forall_forall in Hok.
Qed.

Lemma LaserResponse_writes r : LaserResponse_ok r → writes (LaserResponse_Write (Some r)) (LaserResponse_tokens r).
Proof.
  intros (Hcount & Hlist & Hmap & Hmembers). unfold LaserResponse_Write. apply writes_deref. rewrite Hcount. cbn.
  apply writes_union. wire_union.
  - eapply opt_ok_impl; [done|]. intros l Hl. apply writes_field, writes_list. intros x Hx.
    apply (writes_ptr _ _ _ LaserValue_ok); [apply LaserValue_writes|]. by eapply Forall_forall in Hl.
  - eapply opt_ok_impl; [done|]. intros m Hm. apply writes_field, writes_map; [intros; apply writes_scalar|].
    intros k x Hx. apply (writes_ptr _ _ _ LaserValue_ok); [apply LaserValue_writes|]. exact (Hm k x Hx).
  - eapply opt_ok_impl; [done|]. intros l Hl. apply writes_field, writes_list. intros x Hx.
    apply (writes_ptr _ _ _ (λ _, True)); [intros; apply LaserScoreMember_writes|]. by eapply Forall_forall in Hl.
Qed.

Lemma LaserResponse_items_ok fuel r :
  (10 ≤ fuel)%nat → LaserResponse_ok r → Forall (item_ok (LaserResponse_fields fuel)) (concat (LaserResponse_items r)).
Proof.
  intros Hfuel (_ & Hlist & Hmap & Hmembers). wire_union_items.
  - eapply opt_ok_impl; [done|]. intros l Hl. wire_item. apply reads_list. intros x Hx.
    apply (reads_ptr _ _ _ LaserValue_ok); [intros; by apply LaserValue_reads|]. by eapply Forall_forall in Hl.
  - eapply opt_ok_impl; [done|]. intros m Hm. wire_item. apply reads_map; [intros; apply reads_string|]. intros k x Hx.
    apply (reads_ptr _ _ _ LaserValue_ok); [intros; by apply LaserValue_reads|]. exact (Hm k x Hx).
  - eapply opt_ok_impl; [done|]. intros l Hl. wire_item. apply reads_list. intros x Hx.
    apply (reads_ptr _ _ _ (λ _, True)); [intros; by apply LaserScoreMember_reads|]. by eapply Forall_forall in Hl.
Qed.

Lemma LaserResponse_all r : all_do (concat (LaserResponse_items r)) NewLaserResponse = r.
Proof. destruct r as [a b c d e f g h i]. by destruct a, b, c, d, e, f, g, h, i. Qed.

Lemma LaserResponse_reads fuel r :
  (10 ≤ fuel)%nat → LaserResponse_ok r → reads (LaserResponse_Read fuel NewLaserResponse) (LaserResponse_tokens r) r.
Proof.
  intros Hfuel Hok. eapply reads_struct_as; [by apply LaserResponse_items_ok| |done|apply LaserResponse_all].
  eapply Nat.le_lt_trans; [apply length_concat_opt; wire_lengths|cbn; lia].
Qed.

(** What is written into an empty buffer is what is read from it, and nothing is left. *)
Definition roundtrips {A} (Write : option A → wire P unit) (Read : wire P A) (tokens : A → list token) (a : A) : Prop :=
  ∀ p, spells p [] → Forall token_ok (tokens a) →
  ∃ p1 p2, Write (Some a) p = Ret (p1, inl tt) ∧ Read p1 = Ret (p2, inl a) ∧ spells p2 [].

Lemma roundtrips_intro {A} (Write : option A → wire P unit) (Read : wire P A) (tokens : A → list token) a :
  writes (Write (Some a)) (tokens a) → reads Read (tokens a) a → roundtrips Write Read tokens a.
Proof.
  intros Hw Hr p Hp Hok. destruct (Hw Hok p [] Hp) as (p1 & E1 & Hp1). cbn in Hp1.
  destruct (Hr p1 []) as (p2 & E2 & Hp2); [by rewrite app_nil_r|]. by exists p1, p2.
Qed.
End RoundTrip.

(** ** Fields of another version of the interface *)

(** The items with others among them that the reader does not know. *)
Inductive padded {S} (ids : list Z) : list (item S) → list (item S) → Prop :=
  | padded_nil : padded ids [] []
  | padded_known it items sent : padded ids items sent → padded ids (it :: items) (it :: sent)
  | padded_unknown name type id body items sent :
      id ∉ ids → type ≠ STOP → value_tokens skip_depth type body → padded ids items sent →
      padded ids items (mkItem name type id body (λ s, s) :: sent).

Section Padded.
Context {P : Type} {prot : Protocol P} {laws : ProtocolLaws P} {S : Type} (fields : list (Z * (S → wire P S))).

Lemma field_of_unknown id : id ∉ fields.*1 → field_of fields id = None.
Proof.
  intros Hid. unfold field_of. destruct (List.find _ fields) as [f|] eqn:E; [|done].
  apply List.find_some in E as [Hin <-%Z.eqb_eq]. destruct Hid. apply list_elem_of_fmap. exists f.
  split; [done|]. by apply list_elem_of_In.
Qed.

Lemma padded_ok ids items sent :
  fields.*1 = ids → padded ids items sent → Forall (item_ok fields) items → Forall (item_ok fields) sent.
Proof.
  intros <-. induction 1 as [|it items sent _ IH|name type id body items sent Hid Hstop Hv _ IH]; intros Hok; [done|..].
  - apply Forall_cons in Hok as [Hit Hok]. constructor; auto.
  - constructor; [|auto]. split; [done|]. cbn. by rewrite field_of_unknown.
Qed.

Lemma padded_known_only ids items sent :
  fields.*1 = ids → padded ids items sent → Forall (known fields) items → List.filter (known fields) sent = items.
Proof.
  intros <-. induction 1 as [|it items sent _ IH|name type id body items sent Hid Hstop Hv _ IH]; intros Hok; [done|..].
  - apply Forall_cons in Hok as [Hit Hok]. cbn. destruct (known fields it); [|done]. by rewrite IH.
  - cbn. unfold known. cbn. rewrite field_of_unknown by done. by apply IH.
Qed.

(** A struct reads as it would without the fields that are not known. *)
Lemma reads_padded T name required fuel items sent s s' :
  padded (fields.*1) items sent → Forall (item_ok fields) items → Forall (known fields) items →
  (length sent < fuel)%nat → missing required (it_id <$> items) = None → all_do items s = s' →
  reads (read_struct T fields required fuel s) (tokens_of name sent) s'.
Proof.
  intros Hpad Hok Hknown Hfuel Hreq <-.
  assert (List.filter (known fields) sent = items) as Hsent by (by eapply padded_known_only).
  assert (Forall (item_ok fields) sent) as Hsent_ok by (by eapply padded_ok).
  replace (all_do items s) with (all_do sent s) by (rewrite <- Hsent; by rewrite all_do_known).
  apply reads_struct; [done..|]. by rewrite Hsent.
Qed.

Lemma fails_padded T name required fuel items sent s field :
  padded (fields.*1) items sent → Forall (item_ok fields) items → Forall (known fields) items →
  (length sent < fuel)%nat → missing required (it_id <$> items) = Some field →
  fails_with (read_struct T fields required fuel s) (tokens_of name sent)
    (INVALID_DATA ("Required field " +:+ field +:+ " is not set")).
Proof.
  intros Hpad Hok Hknown Hfuel Hreq. apply fails_struct; [by eapply padded_ok|done|].
  by erewrite padded_known_only.
Qed.
End Padded.

Lemma Forall_List_filter {A} (Q : A → Prop) (f : A → bool) l : Forall Q l → Forall Q (List.filter f l).
Proof. induction 1; cbn; [done|]. destruct (f x); auto. Qed.

Section Evolution.
Context {P : Type} {prot : Protocol P} {laws : ProtocolLaws P} {order : MapOrder}.

Lemma LaserKey_known k : Forall (known (P:=P) LaserKey_fields) (LaserKey_items k).
Proof. by repeat constructor. Qed.

Lemma LaserResponse_known fuel r : Forall (known (P:=P) (LaserResponse_fields fuel)) (concat (LaserResponse_items r)).
Proof.
  apply Forall_concat. repeat first [apply Forall_cons; split|apply Forall_nil_2]; apply Forall_opt_item;
    by apply opt_ok_all.
Qed.
End Evolution.

(** ** The interface on the wire *)

(** C7: Whatever the protocol, as long as it keeps its promises, and in whatever order maps
    are ranged over: the requests and replies of the service that can be written (unions
    with one field set, no nil pointers, statuses of 32 bits) are written without an error,
    and reading them gives the same value back and leaves nothing.  Ten steps of fuel are
    enough, whatever the size of the value, since no struct has more than nine fields. *)
Theorem wire_roundtrip {P} {prot : Protocol P} {laws : ProtocolLaws P} {order : MapOrder} (fuel : nat) :
  (10 ≤ fuel)%nat →
  (∀ k, roundtrips LaserKey_Write (LaserKey_Read fuel NewLaserKey) LaserKey_tokens k) ∧
  (∀ ks, LaserKeys_ok ks → roundtrips LaserKeys_Write (LaserKeys_Read fuel NewLaserKeys) LaserKeys_tokens ks) ∧
  (∀ kvs, LaserKVs_ok kvs → roundtrips LaserKVs_Write (LaserKVs_Read fuel NewLaserKVs) LaserKVs_tokens kvs) ∧
  (∀ o, roundtrips LaserSetOption_Write (LaserSetOption_Read fuel NewLaserSetOption) LaserSetOption_tokens o) ∧
  (∀ r, LaserResponse_ok r →
     roundtrips LaserResponse_Write (LaserResponse_Read fuel NewLaserResponse) LaserResponse_tokens r) ∧
  (∀ e, LaserException_ok e →
     roundtrips LaserException_Write (LaserException_Read fuel NewLaserException) LaserException_tokens e).
Proof.
  intros Hfuel. split_and!; intros; apply roundtrips_intro;
    [apply LaserKey_writes|by apply LaserKey_reads|by apply LaserKeys_writes|by apply LaserKeys_reads
    |by apply LaserKVs_writes|by apply LaserKVs_reads|apply LaserSetOption_writes|by apply LaserSetOption_reads
    |by apply LaserResponse_writes|by apply LaserResponse_reads|by apply LaserException_writes
    |by apply LaserException_reads].
Qed.

(** A reply with a map of values, one of them an entry, through the protocol in memory. *)
Definition sample_response : LaserResponse :=
  mkLaserResponse None None None None None None
    (Some {["a" := Some (mkLaserValue (Some "x") None None None None);
            "b" := Some (mkLaserValue None None None None (Some (mkEntryValue Status_RS_NOT_FOUND "")))]})
    None None.

Lemma sample_response_ok : LaserResponse_ok sample_response.
Proof.
  split_and!; [done..|cbn; apply map_Forall_insert_2;
    [|apply map_Forall_insert_2; [|apply map_Forall_empty]]|done]; by repeat split.
Qed.

Lemma wire_roundtrip_witness :
  let Write := LaserResponse_Write (prot:=mem_protocol) (order:=stdpp_order) in
  ∃ p1 p2, Write (Some sample_response) [] = Ret (p1, inl tt) ∧
    LaserResponse_Read (prot:=mem_protocol) 10 NewLaserResponse p1 = Ret (p2, inl sample_response) ∧ p2 = [].
Proof.
  destruct (wire_roundtrip (laws:=mem_protocol_laws) (order:=stdpp_order) 10 ltac:(lia)) as (_ & _ & _ & _ & Hr & _).
  apply (Hr sample_response sample_response_ok []); [done|].
  apply (bool_decide_eq_true_1 _). vm_compute. reflexivity.
Defined.

(** C8: A reply from a server with a newer interface reads as it would without the fields that
    this client does not know, wherever among the others they are and whatever they hold. *)
Theorem unknown_fields_ignored {P} {prot : Protocol P} {laws : ProtocolLaws P} {order : MapOrder}
    (fuel : nat) (r : LaserResponse) (sent : list (item LaserResponse)) (name : string) :
  (10 ≤ fuel)%nat → (length sent < fuel)%nat → LaserResponse_ok r →
  padded [1; 2; 3; 4; 5; 6; 7; 8; 9] (concat (LaserResponse_items r)) sent →
  reads (LaserResponse_Read fuel NewLaserResponse) (tokens_of name sent) r.
Proof.
  intros Hfuel Hlen Hok Hpad. eapply reads_padded;
    [exact Hpad|by apply LaserResponse_items_ok|apply LaserResponse_known|done|done|apply LaserResponse_all].
Qed.

Lemma unknown_fields_ignored_witness :
  let unknown := mkItem "trace" STRUCT 12 [TStructBegin "Trace"; TFieldStop; TStructEnd] (λ r : LaserResponse, r) in
  reads (prot:=mem_protocol) (laws:=mem_protocol_laws) (LaserResponse_Read (prot:=mem_protocol) 10 NewLaserResponse)
    (tokens_of "LaserResponse" (unknown :: concat (LaserResponse_items (order:=stdpp_order) sample_response)))
    sample_response.
Proof.
  apply (unknown_fields_ignored (laws:=mem_protocol_laws) (order:=stdpp_order)); [lia|cbn; lia|exact sample_response_ok|].
  apply padded_unknown; [vm_compute; set_solver|done|apply (vt_struct _ _ []); constructor|repeat constructor].
Defined.

(** C9: A key that lacks a field is refused, with the name of the first one that is missing;
    the column keys may be missing and are then empty.  A value or a reply that has no field
    set, or more than one, is refused before anything is written. *)
Theorem malformed_refused {P} {prot : Protocol P} {laws : ProtocolLaws P} {order : MapOrder}
    (k : LaserKey) (keep : Z → bool) (sent : list (item LaserKey)) (fuel : nat) (name : string) :
  padded [1; 2; 3; 4] (List.filter (λ it, keep (it_id it)) (LaserKey_items k)) sent → (length sent < fuel)%nat →
  let read := LaserKey_Read fuel NewLaserKey in
  let refused field := fails_with read (tokens_of name sent) (INVALID_DATA ("Required field " +:+ field +:+ " is not set")) in
  (keep 1 = false → refused "DatabaseName") ∧
  (keep 1 = true → keep 2 = false → refused "TableName") ∧
  (keep 1 = true → keep 2 = true → keep 3 = false → refused "PrimaryKeys") ∧
  (keep 1 = true → keep 2 = true → keep 3 = true →
     reads read (tokens_of name sent)
       (mkLaserKey (lk_DatabaseName k) (lk_TableName k) (lk_PrimaryKeys k) (if keep 4 then lk_ColumnKeys k else []))) ∧
  (∀ v p, CountSetFieldsLaserValue v ≠ 1 → ∃ err, LaserValue_Write (Some v) p = Ret (p, inr err)) ∧
  (∀ r p, CountSetFieldsLaserResponse r ≠ 1 → ∃ err, LaserResponse_Write (Some r) p = Ret (p, inr err)).
Proof.
  intros Hpad Hlen read refused.
  set (items := List.filter (λ it, keep (it_id it)) (LaserKey_items k)) in *.
  assert (Forall (item_ok (P:=P) LaserKey_fields) items) as Hok by (apply Forall_List_filter, LaserKey_items_ok).
  assert (Forall (known (P:=P) LaserKey_fields) items) as Hknown by (apply Forall_List_filter, LaserKey_known).
  split_and!.
  - intros E1. eapply fails_padded; [exact Hpad|done..|].
    cbn. rewrite E1. by destruct (keep 2), (keep 3), (keep 4).
  - intros E1 E2. eapply fails_padded; [exact Hpad|done..|]. cbn. rewrite E1, E2. by destruct (keep 3), (keep 4).
  - intros E1 E2 E3. eapply fails_padded; [exact Hpad|done..|]. cbn. rewrite E1, E2, E3. by destruct (keep 4).
  - intros E1 E2 E3. eapply reads_padded; [exact Hpad|done..| |]; cbn; rewrite E1, E2, E3; by destruct (keep 4).
  - intros v p Hv. unfold LaserValue_Write, wbind. cbn. apply Z.eqb_neq in Hv. rewrite Hv. by eexists.
  - intros r p Hr. unfold LaserResponse_Write, wbind. cbn. apply Z.eqb_neq in Hr. rewrite Hr. by eexists.
Qed.

Lemma malformed_refused_witness :
  let k := mkLaserKey "db" "t" ["k"] [] in
  let sent := List.filter (λ it, negb (Z.eqb (it_id it) 2)) (LaserKey_items k) in
  fails_with (prot:=mem_protocol) (laws:=mem_protocol_laws) (LaserKey_Read (prot:=mem_protocol) 10 NewLaserKey)
    (tokens_of "LaserKey" sent) (mkError "Required field TableName is not set" false).
Proof.
  intros k sent.
  destruct (malformed_refused (laws:=mem_protocol_laws) (order:=stdpp_order) k (λ id, negb (Z.eqb id 2)) sent 10 "LaserKey")
    as (_ & H & _); [repeat constructor|cbn; lia|]. by apply H.
Defined.
