(* ===== verification/LaserService.v ===== *)
(** * Calls of the Laser service
    ([sdk/go/laser_client/if/laser/laserservice.go])

    The generated client and processor: what is the same for every method.  A method is
    its name and the parameters of its [Args] struct; the methods themselves are in
    LaserMethods.v.  Messages, their application exceptions and the flushing of a
    protocol are fbthrift's and the class [Messages]. *)

From S2P Require Import Prelude RouterTypes ThriftWire LaserTypes LaserWire.

(** ** Messages *)

(** The codes of an application exception that the code uses. *)
Inductive exception_code :=
  | UNKNOWN_APPLICATION_EXCEPTION | WRONG_METHOD_NAME | BAD_SEQUENCE_ID | INVALID_MESSAGE_TYPE_EXCEPTION | INTERNAL_ERROR.

Class Messages (P : Type) := {
  ReadMessageBegin : P → P * (string * message_type * Z * option error);
  ReadMessageEnd : P → P * (unit + error);
  Flush : P → P * option error;
  NewApplicationException : exception_code → string → error;
  ReadApplicationException : P → P * (error + error);
  WriteApplicationException : error → P → P * option error
}.

(** What a call fails with: an error, or the service's exception. *)
Inductive call_error := CallError (err : error) | ServiceException (e : WireException).

(** ** The structs of a method *)

(** The types of the parameters. *)
Inductive param_type := PKey | PKeys | PKV | PKVs | PSetOption | PValue | PString | PStrings | PI64 | PI32.

Definition param_val (t : param_type) : Type :=
  match t with
  | PKey => option LaserKey
  | PKeys => option LaserKeys
  | PKV => option LaserKV
  | PKVs => option LaserKVs
  | PSetOption => option LaserSetOption
  | PValue => option LaserValue
  | PString => string
  | PStrings => list string
  | PI64 | PI32 => Z
  end.

Definition param_zero (t : param_type) : param_val t :=
  match t with
  | PKey | PKeys | PKV | PKVs | PSetOption | PValue => None
  | PString => ""
  | PStrings => []
  | PI64 | PI32 => 0
  end.

Definition param_ttype (t : param_type) : ttype :=
  match t with
  | PKey | PKeys | PKV | PKVs | PSetOption | PValue => STRUCT
  | PString => STRING
  | PStrings => LIST
  | PI64 => I64
  | PI32 => I32
  end.

(** [LaserServiceXArgs]: its type, its name on the wire and its fields, numbered from 1. *)
Record args_desc := mkArgs { ad_T : string; ad_name : string; ad_params : list (string * param_type) }.
(** [LaserServiceXResult]. *)
Record result_desc := mkResultDesc { rd_T : string; rd_name : string }.

Record method := mkMethod { me_name : string; me_args : args_desc; me_result : result_desc }.

Fixpoint params_val (ps : list (string * param_type)) : Type :=
  match ps with
  | [] => unit
  | p :: ps => param_val p.2 * params_val ps
  end.
Fixpoint params_zero (ps : list (string * param_type)) : params_val ps :=
  match ps with
  | [] => tt
  | p :: ps => (param_zero p.2, params_zero ps)
  end.

Definition args_of (m : method) : Type := params_val (ad_params (me_args m)).

Record ServiceResult := mkServiceResult { sr_Success : option LaserResponse; sr_E : option WireException }.
Definition ServiceResult_zero : ServiceResult := mkServiceResult None None.

Section Calls.
Context {P : Type} {prot : Protocol P} {messages : Messages P} {order : MapOrder}.

(** *** Arguments on the wire *)

(** [ReadField<id>] and the body of [writeField<id>]. *)
Definition read_param (fuel : nat) (id : Z) (t : param_type) : wire P (param_val t) :=
  match t with
  | PKey => do x ← read_inner LaserKey_T (LaserKey_Read fuel NewLaserKey); wret (Some x)
  | PKeys => do x ← read_inner LaserKeys_T (LaserKeys_Read fuel NewLaserKeys); wret (Some x)
  | PKV => do x ← read_inner LaserKV_T (LaserKV_Read fuel NewLaserKV); wret (Some x)
  | PKVs => do x ← read_inner LaserKVs_T (LaserKVs_Read fuel NewLaserKVs); wret (Some x)
  | PSetOption => do x ← read_inner LaserSetOption_T (LaserSetOption_Read fuel NewLaserSetOption); wret (Some x)
  | PValue => do x ← read_inner LaserValue_T (LaserValue_Read fuel NewLaserValue); wret (Some x)
  | PString => read_scalar id ReadString
  | PStrings => read_list (read_scalar 0 ReadString)
  | PI64 => read_scalar id ReadI64
  | PI32 => read_scalar id ReadI32
  end.

Definition write_param (T name : string) (id : Z) (t : param_type) : param_val t → wire P unit :=
  match t with
  | PKey => λ x, write_inner LaserKey_T (LaserKey_Write x)
  | PKeys => λ x, write_inner LaserKeys_T (LaserKeys_Write x)
  | PKV => λ x, write_inner LaserKV_T (LaserKV_Write x)
  | PKVs => λ x, write_inner LaserKVs_T (LaserKVs_Write x)
  | PSetOption => λ x, write_inner LaserSetOption_T (LaserSetOption_Write x)
  | PValue => λ x, write_inner LaserValue_T (LaserValue_Write x)
  | PString => λ s, write_scalar T name id (TString s)
  | PStrings => write_list STRING (λ s, write_elem T (TString s))
  | PI64 => λ z, write_scalar T name id (TI64 z)
  | PI32 => λ z, write_scalar T name id (TI32 z)
  end.

Definition on_rest {A B} (f : Z * (B → wire P B)) : Z * (A * B → wire P (A * B)) :=
  (f.1, λ a, do rest ← f.2 a.2; wret (a.1, rest)).

Fixpoint args_fields (fuel : nat) (id : Z) (ps : list (string * param_type))
  : list (Z * (params_val ps → wire P (params_val ps))) :=
  match ps with
  | [] => []
  | p :: ps => (id, λ a, do v ← read_param fuel id p.2; wret (v, a.2)) :: (on_rest <$> args_fields fuel (id + 1) ps)
  end.

Definition args_Read (d : args_desc) (fuel : nat) : params_val (ad_params d) → wire P (params_val (ad_params d)) :=
  read_struct (ad_T d) (args_fields fuel 1 (ad_params d)) [] fuel.

Fixpoint args_writeFields (T : string) (id : Z) (ps : list (string * param_type)) : params_val ps → list (wire P unit) :=
  match ps with
  | [] => λ _, []
  | p :: ps => λ a,
      write_field T p.1 (param_ttype p.2) id (write_param T p.1 id p.2 a.1) :: args_writeFields T (id + 1) ps a.2
  end.

Definition args_Write (d : args_desc) (a : params_val (ad_params d)) : wire P unit :=
  write_struct (ad_T d) (ad_name d) (args_writeFields (ad_T d) 1 (ad_params d) a).

(** *** Results on the wire *)

Definition result_ReadField0 (fuel : nat) (r : ServiceResult) : wire P ServiceResult :=
  do x ← read_inner LaserResponse_T (LaserResponse_Read fuel NewLaserResponse); wret (mkServiceResult (Some x) (sr_E r)).
Definition result_ReadField1 (fuel : nat) (r : ServiceResult) : wire P ServiceResult :=
  do x ← read_inner LaserException_T (LaserException_Read fuel NewLaserException);
  wret (mkServiceResult (sr_Success r) (Some x)).

Definition result_fields (fuel : nat) : list (Z * (ServiceResult → wire P ServiceResult)) :=
  [(0, result_ReadField0 fuel); (1, result_ReadField1 fuel)].

Definition result_Read (d : result_desc) (fuel : nat) : ServiceResult → wire P ServiceResult :=
  read_struct (rd_T d) (result_fields fuel) [] fuel.

Definition result_writeField0 (T : string) (r : ServiceResult) : wire P unit :=
  if_set (sr_Success r) (λ x,
    write_field T "success" STRUCT 0 (write_inner LaserResponse_T (LaserResponse_Write (Some x)))).
Definition result_writeField1 (T : string) (r : ServiceResult) : wire P unit :=
  if_set (sr_E r) (λ x, write_field T "e" STRUCT 1 (write_inner LaserException_T (LaserException_Write (Some x)))).

Definition result_Write (d : result_desc) (r : ServiceResult) : wire P unit :=
  write_struct (rd_T d) (rd_name d) [result_writeField0 (rd_T d) r; result_writeField1 (rd_T d) r].

(** *** The client *)

(** A protocol that the factory makes of the transport is [lsc_GetProtocol], nil where the
    factory is. *)
Record LaserServiceClient := mkLaserServiceClient {
  lsc_GetProtocol : option P;
  lsc_InputProtocol : option P;
  lsc_OutputProtocol : option P;
  lsc_SeqId : Z
}.

Definition NewLaserServiceClientFactory (getProtocol : P) : LaserServiceClient :=
  mkLaserServiceClient (Some getProtocol) (Some getProtocol) (Some getProtocol) 0.
Definition NewLaserServiceClient (iprot oprot : option P) : LaserServiceClient := mkLaserServiceClient None iprot oprot 0.

(** A protocol of the client, made on first use. *)
Definition use_protocol (getProtocol prot : option P) : go P :=
  match prot with Some p => mret p | None => go_deref getProtocol end.

Definition flush : wire P unit := λ p,
  let '(p, err) := Flush p in mret (p, match err with Some err => inr err | None => inl tt end).

Definition send (m : method) (a : args_of m) (c : LaserServiceClient) : go (LaserServiceClient * (unit + error)) :=
  oprot ← use_protocol (lsc_GetProtocol c) (lsc_OutputProtocol c);
  let seqId := i32 (lsc_SeqId c + 1) in
  '(oprot, r) ←
    (do _ ← write (TMessageBegin (me_name m) CALL seqId);
     do _ ← args_Write (me_args m) a;
     do _ ← write TMessageEnd;
     flush) oprot;
  mret (mkLaserServiceClient (lsc_GetProtocol c) (lsc_InputProtocol c) (Some oprot) seqId, r).

(** The reply of the call: the method's name, the sequence number and the kind of message
    are looked at first. *)
Definition read_reply (m : method) (fuel : nat) (seqId : Z) : wire P ServiceResult := λ iprot,
  let refuse code text : wire P ServiceResult := wfail (NewApplicationException code (me_name m +:+ text)) in
  let '(iprot, (name, type, seqid, err)) := ReadMessageBegin iprot in
  match err with
  | Some err => mret (iprot, inr err)
  | None =>
      if negb (String.eqb name (me_name m)) then refuse WRONG_METHOD_NAME " failed: wrong method name" iprot
      else if negb (Z.eqb seqId seqid) then refuse BAD_SEQUENCE_ID " failed: out of sequence response" iprot
      else
        match type with
        | EXCEPTION => (do x ← lift ReadApplicationException; do _ ← lift ReadMessageEnd; wfail x) iprot
        | REPLY =>
            (do result ← result_Read (me_result m) fuel ServiceResult_zero; do _ ← lift ReadMessageEnd; wret result) iprot
        | _ => refuse INVALID_MESSAGE_TYPE_EXCEPTION " failed: invalid message type" iprot
        end
  end.

Definition recv (m : method) (fuel : nat) (c : LaserServiceClient)
  : go (LaserServiceClient * (option LaserResponse + call_error)) :=
  iprot ← use_protocol (lsc_GetProtocol c) (lsc_InputProtocol c);
  '(iprot, r) ← read_reply m fuel (lsc_SeqId c) iprot;
  mret (mkLaserServiceClient (lsc_GetProtocol c) (Some iprot) (lsc_OutputProtocol c) (lsc_SeqId c),
        match r with
        | inr err => inr (CallError err)
        | inl result => match sr_E result with Some e => inr (ServiceException e) | None => inl (sr_Success result) end
        end).

(** A call: what happens at the other end between the two halves is [network]. *)
Definition call (network : LaserServiceClient → LaserServiceClient) (m : method) (fuel : nat) (a : args_of m)
    (c : LaserServiceClient) : go (LaserServiceClient * (option LaserResponse + call_error)) :=
  '(c, r) ← send m a c;
  match r with
  | inr err => mret (c, inr (CallError err))
  | inl _ => recv m fuel (network c)
  end.

(** *** The processor *)

(** What a processor function gives to be written. *)
Inductive writable := WResult (r : ServiceResult) | WException (e : WireException) | WApplication (x : error).

Definition processor_Read (m : method) (fuel : nat) : wire P (args_of m) :=
  do a ← args_Read (me_args m) fuel (params_zero _);
  (λ p, let '(p, _) := ReadMessageEnd p in mret (p, inl a)).

Definition processor_Run (m : method) (handler : args_of m → option LaserResponse + call_error) (a : args_of m)
  : writable * option error :=
  match handler a with
  | inl retval => (WResult (mkServiceResult retval None), None)
  | inr (ServiceException e) => (WResult (mkServiceResult None (Some e)), None)
  | inr (CallError err) =>
      let x := NewApplicationException INTERNAL_ERROR ("Internal error processing " +:+ me_name m +:+ ": " +:+ err_msg err) in
      (WApplication x, Some x)
  end.

Definition write_writable (m : method) (result : writable) : wire P unit :=
  match result with
  | WResult r => result_Write (me_result m) r
  | WException e => result_Write (me_result m) (mkServiceResult None (Some e))
  | WApplication x => λ p, let '(p, err) := WriteApplicationException x p in
                           mret (p, match err with Some err => inr err | None => inl tt end)
  end.

(** Every part is written whether or not the ones before were; the first error is kept. *)
Fixpoint write_all_parts (parts : list (wire P unit)) (err : option error) (p : P) : go (P * option error) :=
  match parts with
  | [] => mret (p, err)
  | part :: parts =>
      '(p, r) ← part p;
      write_all_parts parts (match err, r with None, inr err2 => Some err2 | _, _ => err end) p
  end.

Definition processor_Write (m : method) (seqId : Z) (result : writable) : P → go (P * option error) :=
  let messageType := match result with WApplication _ => EXCEPTION | _ => REPLY end in
  write_all_parts
    [write (TMessageBegin (me_name m) messageType seqId); write_writable m result; write TMessageEnd; flush] None.
End Calls.

(** *** A client that goroutines share *)

(** A call that somebody makes. *)
Record request := mkRequest { rq_method : method; rq_args : args_of rq_method }.

(** What a goroutine that calls has left to do; [Unlock] is deferred. *)
Inductive ts_action := Lock | Send (rq : request) | Recv (rq : request) | Unlock.

Definition threadsafe_call (m : method) (a : args_of m) : list ts_action :=
  [Lock; Send (mkRequest m a); Recv (mkRequest m a); Unlock].
