(* ===== verification/LaserClient.v ===== *)
(** * The Laser client ([sdk/go/laser_client/laser_client.go], [metrics.go])

    [LaserClient] finds the server of a key and calls it.  The network is a
    parameter: what the [n]-th attempt to call a server comes to.  The state
    keeps the requests that were sent, to state where they went.  Meters and
    timers are counters; using one that was not registered is a use of a [nil]
    interface and panics.

    The batch operations run one goroutine for each group of keys; what the
    goroutines share is explicit and a schedule says who moves. *)

From S2P Require Import Prelude RouterTypes LoadBalance RouterDb Pool ThriftConn Registry.
From S2P Require Import Pullers Router Partition ConfigManager LaserTypes.

(** ** Metrics *)

Definition LASER_CLIENT_METRIC_CALL_SERVER_TIMES : string := "call_server_times".
Definition LASER_CLIENT_THRIFT_CALL_RS_NOT_FOUND : string :=
  "laser_client_thrift_call_rs_not_found".
Definition LASER_CLIENT_THRIFT_CALL_RS_KEY_EXPIRE : string :=
  "laser_client_thrift_call_rs_key_expire".
Definition LASER_CLIENT_THRIFT_CALL_TIMEOUT : string := "laser_client_thrift_call_timeout".
Definition LASER_CLIENT_THRIFT_CALL_ERROR : string := "laser_client_thrift_call_error".
Definition LASER_CLIENT_THRIFT_GET_STATUS_ERROR : string :=
  "laser_client_thrift_get_status_error".
Definition LASER_CLIENT_GET_CONNECTION_ERROR : string := "laser_client_get_connection_error".
Definition LASER_CLIENT_THRIFT_CALL_TIMER : string := "laser_client_thrift_call".
Definition LASER_CLIENT_SERVICE_ROUTER_DISCOVER_TIMER : string :=
  "laser_client_service_router_discover".
Definition LASER_CLIENT_GET_CONNECTION_TIMER : string := "laser_client_get_connection".

(** The commands, and the timer of each. *)
Inductive Command :=
  | DEL | EXPIRE | EXPIREAT | TTL | GET | SET_ | APPEND | SETX | MSET | MSET_DETAIL
  | MGET | MGET_DETAIL | EXIST | HSET | HGET | HDEL | HEXISTS | HGETALL | HKEYS | HLEN
  | HMSET | HMGET | LLEN | LPOP | LPUSH | RPOP | RPUSH | LRANGE | LINDEX | DECR | INCR
  | DECRBY | INCRBY | ZADD | ZRANGEBYSCORE | SADD | SISMEMBER | SREMOVE | SMEMBERS.

Definition command_timer (cmd : Command) : string :=
  match cmd with
  | DEL => "del_command" | EXPIRE => "expire_command" | EXPIREAT => "expireat_command"
  | TTL => "ttl_command" | GET => "get_command" | SET_ => "set_command"
  | APPEND => "append_command" | SETX => "setx_command" | MSET => "mset_command"
  | MSET_DETAIL => "mset_detail_command" | MGET => "mget_command"
  | MGET_DETAIL => "mget_detail_command" | EXIST => "exist_command"
  | HSET => "hset_command" | HGET => "hget_command" | HDEL => "hdel_command"
  | HEXISTS => "hexists_command" | HGETALL => "hgetall_command" | HKEYS => "hkeys_command"
  | HLEN => "hlen_command" | HMSET => "hmset_command" | HMGET => "hmget_command"
  | LLEN => "llen_command" | LPOP => "lpop_command" | LPUSH => "lpush_command"
  | RPOP => "rpop_command" | RPUSH => "rpush_command" | LRANGE => "lrange_command"
  | LINDEX => "lindex_command" | DECR => "decr_command" | INCR => "incr_command"
  | DECRBY => "decrby_command" | INCRBY => "incrby_command" | ZADD => "zadd_command"
  | ZRANGEBYSCORE => "zrangebyscore_command" | SADD => "sadd_command"
  | SISMEMBER => "sismember_command" | SREMOVE => "sremove_command"
  | SMEMBERS => "smembers_command"
  end.

(** ** Options *)

Inductive ReadMode := LEADER_READ | FOLLOWER_READ | MIXED_READ.

#[export] Instance ReadMode_eq_dec : EqDecision ReadMode.
Proof. solve_decision. Defined.

Definition defaultReceiveTimeoutMs : Z := 20.
Definition projectPrefix : string := "laser_go_".

Record LaserOption := mkLaserOption {
  lo_MaxConnPerServer : Z;
  lo_ConnIdleTimeoutMs : Z;
  lo_ReceiveTimeoutMs : Z;
  lo_ConnectionRetry : Z;
  lo_TimeoutRetry : Z;
  lo_ThriftTransport : ThriftTransportType;
  lo_ThriftCompressionMethod : Z;
  lo_LoadBalance : string;
  lo_IpDiffRange : Z;
  lo_ReadMode : ReadMode;
  lo_TargetServerAddress : ServerAddress
}.

Definition set_lo_ReadMode (m : ReadMode) (o : LaserOption) : LaserOption :=
  mkLaserOption (lo_MaxConnPerServer o) (lo_ConnIdleTimeoutMs o) (lo_ReceiveTimeoutMs o)
    (lo_ConnectionRetry o) (lo_TimeoutRetry o) (lo_ThriftTransport o)
    (lo_ThriftCompressionMethod o) (lo_LoadBalance o) (lo_IpDiffRange o) m
    (lo_TargetServerAddress o).
Definition set_lo_TargetServerAddress (a : ServerAddress) (o : LaserOption) : LaserOption :=
  mkLaserOption (lo_MaxConnPerServer o) (lo_ConnIdleTimeoutMs o) (lo_ReceiveTimeoutMs o)
    (lo_ConnectionRetry o) (lo_TimeoutRetry o) (lo_ThriftTransport o)
    (lo_ThriftCompressionMethod o) (lo_LoadBalance o) (lo_IpDiffRange o) (lo_ReadMode o) a.

Definition Validate (co : LaserOption) : option error :=
  if Z.ltb (lo_MaxConnPerServer co) 0
  then Some (mkError "option MaxConnPerServer can not be negative" false)
  else if Z.ltb (lo_ConnIdleTimeoutMs co) 0
  then Some (mkError "option ConnIdleTimeoutMs can not be negative" false)
  else if Z.ltb (lo_ReceiveTimeoutMs co) 0
  then Some (mkError "option.ReceiveTimeoutMs can not be negative" false)
  else if Z.ltb (lo_TimeoutRetry co) 0
  then Some (mkError "option TimeoutRetry can not be negative" false)
  else match SupportedLoadBalanceMethod !! lo_LoadBalance co with
       | Some true => None
       | _ => Some (mkError "unsupported loadbalance method" false)
       end.

Definition NewClientOptionFactory (numCPU : Z) (loadBalance : string) (timeoutMs : Z)
  : LaserOption :=
  {| lo_MaxConnPerServer := numCPU; lo_ConnIdleTimeoutMs := 0;
     lo_ReceiveTimeoutMs := timeoutMs; lo_ConnectionRetry := 0; lo_TimeoutRetry := 0;
     lo_ThriftTransport := THRIFT_TRANSPORT_HEADER;
     lo_ThriftCompressionMethod := ThriftCompressionMethod_None;
     lo_LoadBalance := loadBalance; lo_IpDiffRange := 65536; lo_ReadMode := FOLLOWER_READ;
     lo_TargetServerAddress := mkServerAddress "" 0 |}.

(** ** Requests and their outcomes *)

(** [float64] values go through the client unchanged but for one division. *)
Class Float64 := {
  float64 : Type;
  float64_of_int : Z → float64;
  float64_div : float64 → float64 → float64
}.

Inductive Request `{Float64} :=
  | RGet (key : LaserKey) | RSset (kv : LaserKV) | RAppend (key : LaserKey) (val : string)
  | RSetx (kv : LaserKV) (setOption : LaserSetOption)
  | RExpire (key : LaserKey) (time : Z) | RExpireAt (key : LaserKey) (time : Z)
  | RDelkey (key : LaserKey)
  | RMset (values : list LaserKV)
  | RMsetDetail (values : list LaserKV) (setOption : LaserSetOption)
  | RMget (keys : list LaserKey) | RMgetDetail (keys : list LaserKey)
  | RHset (key : LaserKey) (field value : string) | RHget (key : LaserKey) (field : string)
  | RHgetall (key : LaserKey) | RHexists (key : LaserKey) (field : string)
  | RHkeys (key : LaserKey) | RHlen (key : LaserKey)
  | RHdel (key : LaserKey) (field : string) | RHmset (key : LaserKey) (val : LaserValue)
  | RHmget (key : LaserKey) (fields : list string) | RTtl (key : LaserKey)
  | RLpush (key : LaserKey) (val : string) | RLpop (key : LaserKey)
  | RRpush (key : LaserKey) (val : string) | RRpop (key : LaserKey)
  | RLrange (key : LaserKey) (start end_ : Z) | RLindex (key : LaserKey) (index : Z)
  | RLlen (key : LaserKey) | RDecr (key : LaserKey) | RIncr (key : LaserKey)
  | RDecrBy (key : LaserKey) (step : Z) | RIncrBy (key : LaserKey) (step : Z)
  | RExist (key : LaserKey) | RZadd (key : LaserKey) (member_scores : gmap string float64)
  | RZrangeByScore (key : LaserKey) (min max : float64)
  | RSadd (key : LaserKey) (member : string) | RSismember (key : LaserKey) (member : string)
  | RSremove (key : LaserKey) (member : string) | RSmembers (key : LaserKey).

(** An error of a call: a [*LaserException], possibly wrapped in another error
    that [errors.As] looks through, or something else. *)
Inductive exception :=
  | LaserException (status : Z) (wrapped : bool)
  | OtherException (e : error).

(** What an attempt comes to: no connection, no answer in time, an error, an
    answer. *)
Inductive outcome :=
  | NoConnection (e : error)
  | TimedOut
  | Raised (e : exception)
  | Answered (resp : LaserResponse).

Class Network `{Float64} := attempt : nat → string → Z → Request → outcome.

Record callResp := mkCallResp {
  cr_idxes : list Z;
  cr_status : Z;
  cr_resp : LaserResponse
}.

Definition call_error (status : Z) : callResp := mkCallResp [] status NewLaserResponse.

(** ** The client *)

Section LaserClient.
Context {KVS : Type} {kvOps : ConsulKV KVS} {jsonServer : Json Server}
  {jsonRouter : Json ServiceRouterConfig} {jsonSchemas : Json (list DatabaseSchema)}
  {jsonCluster : Json ClusterInfo} {hash : CityHash} {order : MapOrder}
  {float : FloatConversion} {rand : Randomness} {thrift : ThriftLib} {Client : Type}
  {f64 : Float64} {net : Network}.
(** The thrift client's constructor, close and probe; the number of
    processors; the clock; fuel for the loops of the router. *)
Context (newLaserServiceClient : Transport → ProtocolFactory → Client)
  (closeThriftClient : Client → Client * option error) (thriftIsOpen : Client → bool)
  (numCPU : Z) (now : Z) (fuel : nat).

Record LaserClient := mkLaserClient {
  lc_laserServiceName : string;
  lc_localIp : string;
  lc_router : Router KVS;
  lc_cg : ConnGroup (Client:=Client);
  lc_configManager : ConfigManager;
  lc_meters : gmap string Z;
  lc_timers : gmap string Z;
  lc_poolMetrics : gset string;
  lc_attempts : nat;                               (* calls of the network so far *)
  lc_sent : list (string * Z * Request)            (* what reached a server *)
}.

Definition set_lc_router v c : LaserClient :=
  mkLaserClient (lc_laserServiceName c) (lc_localIp c) v (lc_cg c) (lc_configManager c)
    (lc_meters c) (lc_timers c) (lc_poolMetrics c) (lc_attempts c) (lc_sent c).
Definition set_lc_cg v c : LaserClient :=
  mkLaserClient (lc_laserServiceName c) (lc_localIp c) (lc_router c) v (lc_configManager c)
    (lc_meters c) (lc_timers c) (lc_poolMetrics c) (lc_attempts c) (lc_sent c).
Definition set_lc_configManager v c : LaserClient :=
  mkLaserClient (lc_laserServiceName c) (lc_localIp c) (lc_router c) (lc_cg c) v
    (lc_meters c) (lc_timers c) (lc_poolMetrics c) (lc_attempts c) (lc_sent c).
Definition set_lc_meters v c : LaserClient :=
  mkLaserClient (lc_laserServiceName c) (lc_localIp c) (lc_router c) (lc_cg c)
    (lc_configManager c) v (lc_timers c) (lc_poolMetrics c) (lc_attempts c) (lc_sent c).
Definition set_lc_timers v c : LaserClient :=
  mkLaserClient (lc_laserServiceName c) (lc_localIp c) (lc_router c) (lc_cg c)
    (lc_configManager c) (lc_meters c) v (lc_poolMetrics c) (lc_attempts c) (lc_sent c).
Definition set_lc_poolMetrics v c : LaserClient :=
  mkLaserClient (lc_laserServiceName c) (lc_localIp c) (lc_router c) (lc_cg c)
    (lc_configManager c) (lc_meters c) (lc_timers c) v (lc_attempts c) (lc_sent c).
Definition set_lc_attempts v c : LaserClient :=
  mkLaserClient (lc_laserServiceName c) (lc_localIp c) (lc_router c) (lc_cg c)
    (lc_configManager c) (lc_meters c) (lc_timers c) (lc_poolMetrics c) v (lc_sent c).
Definition set_lc_sent v c : LaserClient :=
  mkLaserClient (lc_laserServiceName c) (lc_localIp c) (lc_router c) (lc_cg c)
    (lc_configManager c) (lc_meters c) (lc_timers c) (lc_poolMetrics c) (lc_attempts c) v.

(** [client.meters[name].Mark(1)] and [client.timers[name].Start()]. *)
Definition mark (name : string) (c : LaserClient) : go LaserClient :=
  n ← go_deref (lc_meters c !! name);
  mret (set_lc_meters (<[name := n + 1]> (lc_meters c)) c).
Definition start_timer (name : string) (c : LaserClient) : go LaserClient :=
  n ← go_deref (lc_timers c !! name);
  mret (set_lc_timers (<[name := n + 1]> (lc_timers c)) c).

Definition getPoolMetric (host : string) (port : Z) (c : LaserClient) : LaserClient :=
  set_lc_poolMetrics ({[ host +:+ ":" +:+ Itoa port ]} ∪ lc_poolMetrics c) c.

(** A call of the router; the configuration manager hears what it was told. *)
Definition with_router {A} (f : Router KVS → go (Router KVS * A)) (c : LaserClient)
  : go (LaserClient * A) :=
  '(w, a) ← f (lc_router c);
  let '(w, cm) := drain w (lc_configManager c) in
  mret (set_lc_configManager cm (set_lc_router w c), a).

Definition parseException (e : exception) (c : LaserClient) : go (LaserClient * (Z * bool)) :=
  '(c, (status, ok)) ←
    match e with
    | LaserException status wrapped =>
        if wrapped then Panic (ExplicitPanic "interface conversion")
        else mret (c, (status, true))
    | OtherException _ =>
        c ← mark LASER_CLIENT_THRIFT_GET_STATUS_ERROR c;
        mret (c, (Status_CLIENT_THRIFT_CALL_ERROR, false))
    end;
  c ← (if Z.eqb status Status_RS_KEY_EXPIRE then mark LASER_CLIENT_THRIFT_CALL_RS_KEY_EXPIRE c
       else if Z.eqb status Status_RS_NOT_FOUND
       then mark LASER_CLIENT_THRIFT_CALL_RS_NOT_FOUND c
       else mark LASER_CLIENT_THRIFT_CALL_ERROR c);
  mret (c, (status, ok)).

Definition checkTargetServerAddress (address : ServerAddress) : bool :=
  (Z.ltb 0 (len (sa_Host address)) && Z.ltb 0 (sa_Port address))%bool.

Definition getClientOption (options : LaserOption) (shardId partitionHash : Z)
    (routeToEdgeNode : bool) (dc : string) (c : LaserClient) : ClientOption :=
  {| co_ServiceName := lc_laserServiceName c;
     co_ShardId := shardId;
     co_ShardType := match lo_ReadMode options with
                     | LEADER_READ => ShardType_LEADER
                     | FOLLOWER_READ => ShardType_FOLLOWER
                     | MIXED_READ => ShardType_ALL
                     end;
     co_Protocol := ServerProtocol_THRIFT;
     co_Loadbalance := lo_LoadBalance options;
     co_TargetServerAddress := lo_TargetServerAddress options;
     co_UserBalance := None;
     co_LocalFirstConfig :=
       mkBalanceLocalFirstConfig (lc_localIp c) (lo_IpDiffRange options);
     co_PartitionHash := partitionHash;
     co_RouteToEdgeNode := routeToEdgeNode;
     co_Idc := "";
     co_Dc := dc |}.

(** The loop at [GETCONN]: ask the router until it has a server. *)
Fixpoint getconn (rounds : nat) (connectTimes : Z) (options : LaserOption)
    (routerOption : ClientOption) (c : LaserClient) : go (LaserClient * option Server) :=
  match rounds with
  | O => OutOfFuel
  | S rounds =>
      let connectTimes := connectTimes + 1 in
      c ← start_timer LASER_CLIENT_SERVICE_ROUTER_DISCOVER_TIMER c;
      '(c, server) ← with_router (Router_Discover fuel now routerOption) c;
      match server with
      | Some server => mret (c, Some server)
      | None =>
          if Z.leb connectTimes (lo_ConnectionRetry options)
          then getconn rounds connectTimes options routerOption c
          else mret (c, None)
      end
  end.

(** One attempt to call a server: the pool's connection, the call in its
    goroutine and the wait for it.  [inl] is the answer, [inr] a timeout. *)
Definition call_server (options : LaserOption) (server : Server) (req : Request)
    (c : LaserClient) : go (LaserClient * (callResp + unit)) :=
  let thriftConfig := mkThriftConfig (Client:=Client) (sv_Host server) (sv_Port server)
    (lo_ThriftTransport options) (lo_ThriftCompressionMethod options) 0
    newLaserServiceClient closeThriftClient (Some thriftIsOpen) in
  c ← start_timer LASER_CLIENT_GET_CONNECTION_TIMER c;
  let c := getPoolMetric (sv_Host server) (sv_Port server) c in
  let '(cg, (dialled, _)) := GetConnection numCPU thriftConfig
    [PoolMaxActive (lo_MaxConnPerServer options); PoolWait false;
     PoolIdleTimeout (lo_ConnIdleTimeoutMs options * Millisecond); PoolMetric true] (lc_cg c) in
  let c := set_lc_cg cg c in
  let n := lc_attempts c in
  let c := set_lc_attempts (S n) c in
  let host := tcf_Host dialled in
  let port := tcf_Port dialled in
  match attempt n host port req with
  | NoConnection _ =>
      c ← mark LASER_CLIENT_GET_CONNECTION_ERROR c;
      mret (c, inl (call_error Status_CLIENT_THRIFT_CALL_ERROR))
  | TimedOut =>
      c ← mark LASER_CLIENT_METRIC_CALL_SERVER_TIMES c;
      c ← start_timer LASER_CLIENT_THRIFT_CALL_TIMER c;
      c ← mark LASER_CLIENT_THRIFT_CALL_TIMEOUT c;
      mret (set_lc_sent (lc_sent c ++ [(host, port, req)]) c, inr tt)
  | Raised e =>
      c ← mark LASER_CLIENT_METRIC_CALL_SERVER_TIMES c;
      c ← start_timer LASER_CLIENT_THRIFT_CALL_TIMER c;
      '(c, (status, _)) ← parseException e c;
      mret (set_lc_sent (lc_sent c ++ [(host, port, req)]) c, inl (call_error status))
  | Answered resp =>
      c ← mark LASER_CLIENT_METRIC_CALL_SERVER_TIMES c;
      c ← start_timer LASER_CLIENT_THRIFT_CALL_TIMER c;
      mret (set_lc_sent (lc_sent c ++ [(host, port, req)]) c,
            inl (mkCallResp [] Status_OK resp))
  end.

(** The loop at [RETRY]. *)
Fixpoint retry (rounds : nat) (callTimes : Z) (options : LaserOption)
    (routerOption : ClientOption) (req : Request) (c : LaserClient)
  : go (LaserClient * callResp) :=
  match rounds with
  | O => OutOfFuel
  | S rounds =>
      let callTimes := callTimes + 1 in
      let target := lo_TargetServerAddress options in
      '(c, server) ←
        (if checkTargetServerAddress target then
           let server :=
             mkServer (sa_Host target) (sa_Port target) "" "" "" 0 0 None None None None None
               None false "" "" in
           mret (set_lc_router (count_address (Some server) (lc_router c)) c, Some server)
         else getconn (S (Z.to_nat (lo_ConnectionRetry options))) 0 options routerOption c);
      match server with
      | None => mret (c, call_error Status_CLIENT_THRIFT_CALL_ERROR)
      | Some server =>
          '(c, res) ← call_server options server req c;
          match res with
          | inl resp => mret (c, resp)
          | inr _ =>
              if Z.leb callTimes (lo_TimeoutRetry options)
              then retry rounds callTimes options routerOption req c
              else mret (c, call_error Status_CLIENT_THRIFT_CALL_TIMEOUT)
          end
      end
  end.

(** The receive timeout itself only decides when an attempt is [TimedOut]. *)
Definition commonCallWithRouteId (shardId partitionHash : Z) (routeToEdgeNode : bool)
    (dc : string) (options : LaserOption) (req : Request) (c : LaserClient)
  : go (LaserClient * callResp) :=
  let routerOption := getClientOption options shardId partitionHash routeToEdgeNode dc c in
  retry (S (Z.to_nat (lo_TimeoutRetry options))) 0 options routerOption req c.

(** ** Routing *)

Definition key_partition (key : LaserKey) (schema : TableSchema) : go PartitionInfo :=
  let formatKey := NewLaserKeyFormat (lk_PrimaryKeys key) (lk_ColumnKeys key) in
  partitionId ← GetPartitionId (lk_DatabaseName key) (lk_TableName key) formatKey
                  (ts_PartitionNumber schema);
  mret (NewPartition (lk_DatabaseName key) (lk_TableName key) partitionId).

Definition Client_GetTableSchema (databaseName tableName : string) (c : LaserClient)
  : option TableSchema := GetTableSchema (lc_configManager c) databaseName tableName.

Definition GetShardIdAndParititionId (key : LaserKey) (c : LaserClient) : go (Z * Z) :=
  match Client_GetTableSchema (lk_DatabaseName key) (lk_TableName key) c with
  | None => mret (0, 0)
  | Some schema =>
      partition ← key_partition key schema;
      mret (GetShardId partition (lc_configManager c) (ts_Dc schema), partitionId partition)
  end.

(** [randomValue] is what [rand.Intn(100)] returns if it is asked. *)
Definition getRouteInfo (key : LaserKey) (readMode : ReadMode) (randomValue : Z)
    (c : LaserClient) : go (Z * Z * bool * string) :=
  match Client_GetTableSchema (lk_DatabaseName key) (lk_TableName key) c with
  | None => mret (0, 0, false, DEFAULT_DC)
  | Some schema =>
      partition ← key_partition key schema;
      let shardId := GetShardId partition (lc_configManager c) (ts_Dc schema) in
      let partitionHash := GetPartitionHash partition in
      let routeToEdgeNode :=
        match ts_BindEdgeNodes schema with
        | Some _ =>
            if decide (readMode ≠ LEADER_READ)
            then Z.ltb randomValue (ts_EdgeFlowRatio schema) else false
        | None => false
        end in
      mret (shardId, partitionHash, routeToEdgeNode, ts_Dc schema)
  end.

Definition commonCall (key : LaserKey) (options : LaserOption) (randomValue : Z)
    (req : Request) (c : LaserClient) : go (LaserClient * callResp) :=
  '(shardId, partitionHash, routeToEdgeNode, dc) ←
    getRouteInfo key (lo_ReadMode options) randomValue c;
  commonCallWithRouteId shardId partitionHash routeToEdgeNode dc options req c.

(** ** [init]: the configuration manager and the metrics *)

Definition init_meters : list string :=
  [ LASER_CLIENT_METRIC_CALL_SERVER_TIMES; LASER_CLIENT_THRIFT_CALL_RS_NOT_FOUND;
    LASER_CLIENT_THRIFT_CALL_RS_KEY_EXPIRE; LASER_CLIENT_THRIFT_CALL_TIMEOUT;
    LASER_CLIENT_THRIFT_CALL_ERROR; LASER_CLIENT_THRIFT_GET_STATUS_ERROR;
    LASER_CLIENT_GET_CONNECTION_ERROR ].

Definition init_timers : list string :=
  [ LASER_CLIENT_THRIFT_CALL_TIMER; LASER_CLIENT_GET_CONNECTION_TIMER;
    LASER_CLIENT_SERVICE_ROUTER_DISCOVER_TIMER;
    command_timer DEL; command_timer EXPIRE; command_timer EXPIREAT; command_timer TTL;
    command_timer GET; command_timer SET_; command_timer APPEND; command_timer SETX;
    command_timer MSET; command_timer MSET_DETAIL; command_timer MGET;
    command_timer MGET_DETAIL; command_timer EXIST; command_timer HSET; command_timer HGET;
    command_timer HDEL; command_timer HEXISTS; command_timer HGETALL; command_timer HKEYS;
    command_timer HLEN; command_timer HMSET; command_timer HMGET; command_timer LLEN;
    command_timer LPOP; command_timer LPUSH; command_timer RPOP; command_timer RPUSH;
    command_timer LRANGE; command_timer LINDEX; command_timer DECR; command_timer INCR;
    command_timer DECRBY; command_timer INCRBY; command_timer ZADD;
    command_timer ZRANGEBYSCORE; command_timer SADD; command_timer SISMEMBER;
    command_timer SREMOVE; command_timer SMEMBERS ].

(** The counters of a list of names, all at 0. *)
Definition zeros (names : list string) : gmap string Z :=
  foldl (λ m name, <[name := 0]> m) ∅ names.

Definition init (c : LaserClient) : go LaserClient :=
  '(w, cm) ← NewConfigManager fuel now (lc_laserServiceName c) (lc_router c);
  let c := set_lc_cg GetConnGroup c in
  let c := set_lc_configManager cm (set_lc_router w c) in
  mret (set_lc_timers (zeros init_timers) (set_lc_meters (zeros init_meters) c)).

(** [strings.TrimSpace] is an argument [trim]; the local address is [localIp]
    if the configuration has none. *)
Definition NewLaserClient (trim : string → string) (projectName laserServiceName : string)
    (configIp localIp : string) (httpPort : Z) (kv : KVS) : go LaserClient :=
  if String.eqb (trim projectName) ""
  then Panic (ExplicitPanic "please specify project name")
  else if String.eqb (trim laserServiceName) ""
  then Panic (ExplicitPanic "please specify laser service name")
  else
    let ip := if String.eqb (trim configIp) "" then localIp else configIp in
    w ← GetRouter fuel now (projectPrefix +:+ trim projectName) ip httpPort kv;
    init (mkLaserClient (trim laserServiceName) ip w GetConnGroup
            (mkConfigManager "" ∅ ClusterInfo_zero ∅) ∅ ∅ ∅ 0 []).

(** ** The commands on one key

    [r] is the draw for the edge nodes. *)

(** A command that may read from any replica, and one that writes: its
    timer, then the call. *)
Definition read_command (cmd : Command) (key : LaserKey) (options : LaserOption) (r : Z)
    (req : Request) (c : LaserClient) : go (LaserClient * callResp) :=
  c ← start_timer (command_timer cmd) c;
  commonCall key options r req c.

Definition write_command (cmd : Command) (key : LaserKey) (options : LaserOption) (r : Z)
    (req : Request) (c : LaserClient) : go (LaserClient * callResp) :=
  c ← start_timer (command_timer cmd) c;
  commonCall key (set_lo_ReadMode LEADER_READ options) r req c.

(** What a command returns next to the status. *)
Definition returning {A} (f : LaserResponse → A) (m : go (LaserClient * callResp))
  : go (LaserClient * (Z * A)) :=
  '(c, resp) ← m; mret (c, (cr_status resp, f (cr_resp resp))).

Definition returning_status (m : go (LaserClient * callResp)) : go (LaserClient * Z) :=
  '(c, resp) ← m; mret (c, cr_status resp).

Definition GetSync (o : LaserOption) (key : LaserKey) (r : Z) (c : LaserClient)
  : go (LaserClient * (Z * string)) :=
  returning GetStringData (read_command GET key o r (RGet key) c).

Definition SetSync (o : LaserOption) (kv : LaserKV) (r : Z) (c : LaserClient)
  : go (LaserClient * Z) :=
  key ← go_deref (lkv_Key kv);
  returning_status (write_command SET_ key o r (RSset kv) c).

Definition AppendSync (o : LaserOption) (key : LaserKey) (val : string) (r : Z) (c : LaserClient)
  : go (LaserClient * (Z * Z)) :=
  returning GetIntData (write_command APPEND key o r (RAppend key val) c).

Definition SetxSync (o : LaserOption) (kv : LaserKV) (setOption : LaserSetOption) (r : Z) (c : LaserClient)
  : go (LaserClient * Z) :=
  key ← go_deref (lkv_Key kv);
  returning_status (write_command SETX key o r (RSetx kv setOption) c).

Definition ExpireSync (o : LaserOption) (key : LaserKey) (time : Z) (r : Z) (c : LaserClient)
  : go (LaserClient * Z) :=
  returning_status (write_command EXPIRE key o r (RExpire key time) c).

Definition ExpireAtSync (o : LaserOption) (key : LaserKey) (time : Z) (r : Z) (c : LaserClient)
  : go (LaserClient * Z) :=
  returning_status (write_command EXPIREAT key o r (RExpireAt key time) c).

Definition DelSync (o : LaserOption) (key : LaserKey) (r : Z) (c : LaserClient)
  : go (LaserClient * Z) :=
  returning_status (write_command DEL key o r (RDelkey key) c).

Definition HsetSync (o : LaserOption) (key : LaserKey) (field value : string) (r : Z) (c : LaserClient)
  : go (LaserClient * Z) :=
  returning_status (write_command HSET key o r (RHset key field value) c).

Definition HgetSync (o : LaserOption) (key : LaserKey) (field : string) (r : Z) (c : LaserClient)
  : go (LaserClient * (Z * string)) :=
  returning GetStringData (read_command HGET key o r (RHget key field) c).

Definition HgetAllSync (o : LaserOption) (key : LaserKey) (r : Z) (c : LaserClient)
  : go (LaserClient * (Z * option (gmap string string))) :=
  returning GetMapStringData (read_command HGETALL key o r (RHgetall key) c).

Definition HexistsSync (o : LaserOption) (key : LaserKey) (field : string) (r : Z) (c : LaserClient)
  : go (LaserClient * (Z * bool)) :=
  returning GetBoolData (read_command HEXISTS key o r (RHexists key field) c).

Definition HkeysSync (o : LaserOption) (key : LaserKey) (r : Z) (c : LaserClient)
  : go (LaserClient * (Z * list string)) :=
  returning GetListStringData (read_command HKEYS key o r (RHkeys key) c).

Definition HlenSync (o : LaserOption) (key : LaserKey) (r : Z) (c : LaserClient)
  : go (LaserClient * (Z * Z)) :=
  returning GetIntData (read_command HLEN key o r (RHlen key) c).

Definition HdelSync (o : LaserOption) (key : LaserKey) (field : string) (r : Z) (c : LaserClient)
  : go (LaserClient * Z) :=
  returning_status (write_command HDEL key o r (RHdel key field) c).

Definition HmsetSync (o : LaserOption) (key : LaserKey) (val : LaserValue) (r : Z) (c : LaserClient)
  : go (LaserClient * Z) :=
  returning_status (write_command HMSET key o r (RHmset key val) c).

Definition HmgetSync (o : LaserOption) (key : LaserKey) (fields : list string) (r : Z) (c : LaserClient)
  : go (LaserClient * (Z * option (gmap string string))) :=
  returning GetMapStringData (read_command HMGET key o r (RHmget key fields) c).

Definition TtlSync (o : LaserOption) (key : LaserKey) (r : Z) (c : LaserClient)
  : go (LaserClient * (Z * Z)) :=
  returning GetIntData (read_command TTL key o r (RTtl key) c).

Definition LpushSync (o : LaserOption) (key : LaserKey) (val : string) (r : Z) (c : LaserClient)
  : go (LaserClient * Z) :=
  returning_status (write_command LPUSH key o r (RLpush key val) c).

Definition LpopSync (o : LaserOption) (key : LaserKey) (r : Z) (c : LaserClient)
  : go (LaserClient * (Z * string)) :=
  returning GetStringData (write_command LPOP key o r (RLpop key) c).

Definition RpushSync (o : LaserOption) (key : LaserKey) (val : string) (r : Z) (c : LaserClient)
  : go (LaserClient * Z) :=
  returning_status (write_command RPUSH key o r (RRpush key val) c).

Definition RpopSync (o : LaserOption) (key : LaserKey) (r : Z) (c : LaserClient)
  : go (LaserClient * (Z * string)) :=
  returning GetStringData (write_command RPOP key o r (RRpop key) c).

Definition LrangeSync (o : LaserOption) (key : LaserKey) (start end_ : Z) (r : Z) (c : LaserClient)
  : go (LaserClient * (Z * list string)) :=
  returning GetListStringData (read_command LRANGE key o r (RLrange key start end_) c).

Definition LindexSync (o : LaserOption) (key : LaserKey) (index : Z) (r : Z) (c : LaserClient)
  : go (LaserClient * (Z * string)) :=
  returning GetStringData (read_command LINDEX key o r (RLindex key index) c).

Definition LlenSync (o : LaserOption) (key : LaserKey) (r : Z) (c : LaserClient)
  : go (LaserClient * (Z * Z)) :=
  returning GetIntData (read_command LLEN key o r (RLlen key) c).

Definition DecrSync (o : LaserOption) (key : LaserKey) (r : Z) (c : LaserClient)
  : go (LaserClient * (Z * Z)) :=
  returning GetIntData (write_command DECR key o r (RDecr key) c).

Definition IncrSync (o : LaserOption) (key : LaserKey) (r : Z) (c : LaserClient)
  : go (LaserClient * (Z * Z)) :=
  returning GetIntData (write_command INCR key o r (RIncr key) c).

Definition DecrbySync (o : LaserOption) (key : LaserKey) (step : Z) (r : Z) (c : LaserClient)
  : go (LaserClient * (Z * Z)) :=
  returning GetIntData (write_command DECRBY key o r (RDecrBy key step) c).

Definition IncrbySync (o : LaserOption) (key : LaserKey) (step : Z) (r : Z) (c : LaserClient)
  : go (LaserClient * (Z * Z)) :=
  returning GetIntData (write_command INCRBY key o r (RIncrBy key step) c).

Definition ExistSync (o : LaserOption) (key : LaserKey) (r : Z) (c : LaserClient)
  : go (LaserClient * (Z * bool)) :=
  returning GetBoolData (read_command EXIST key o r (RExist key) c).

Definition ZaddSync (o : LaserOption) (key : LaserKey) (member_scores : gmap string float64) (r : Z) (c : LaserClient)
  : go (LaserClient * (Z * Z)) :=
  returning GetIntData (write_command ZADD key o r (RZadd key member_scores) c).

Definition SaddSync (o : LaserOption) (key : LaserKey) (member : string) (r : Z) (c : LaserClient)
  : go (LaserClient * Z) :=
  returning_status (write_command SADD key o r (RSadd key member) c).

Definition SismemberSync (o : LaserOption) (key : LaserKey) (member : string) (r : Z) (c : LaserClient)
  : go (LaserClient * Z) :=
  returning_status (read_command SISMEMBER key o r (RSismember key member) c).

Definition SremoveSync (o : LaserOption) (key : LaserKey) (member : string) (r : Z) (c : LaserClient)
  : go (LaserClient * Z) :=
  returning_status (write_command SREMOVE key o r (RSremove key member) c).

Definition SmembersSync (o : LaserOption) (key : LaserKey) (r : Z) (c : LaserClient)
  : go (LaserClient * (Z * list string)) :=
  returning GetListStringData (read_command SMEMBERS key o r (RSmembers key) c).

(** The scores are divided by ten thousand; a [nil] member panics. *)
Definition float_members (l : list (option LaserScoreMember)) : go (list (float64 * string)) :=
  go_fold (λ ret m,
    m ← go_deref m;
    mret (ret ++ [(float64_div (float64_of_int (lsm_Score m)) (float64_of_int 10000),
                   lsm_Member m)])) l [].

Definition ZrangeByscoreSync (o : LaserOption) (key : LaserKey) (min max : float64) (r : Z)
    (c : LaserClient) : go (LaserClient * (Z * list (float64 * string))) :=
  '(c, resp) ← write_command ZRANGEBYSCORE key o r (RZrangeByScore key min max) c;
  ret ← float_members (GetListScoreMemberData (cr_resp resp));
  mret (c, (cr_status resp, ret)).
End LaserClient.

(** ** Calls: lemmas *)

Section Calls.
Context {KVS : Type} {kvOps : ConsulKV KVS} {jsonServer : Json Server}
  {jsonRouter : Json ServiceRouterConfig} {jsonSchemas : Json (list DatabaseSchema)}
  {jsonCluster : Json ClusterInfo} {hash : CityHash} {order : MapOrder}
  {float : FloatConversion} {rand : Randomness} {thrift : ThriftLib} {Client : Type}
  {f64 : Float64} {net : Network}.
Context (newLaserServiceClient : Transport → ProtocolFactory → Client)
  (closeThriftClient : Client → Client * option error) (thriftIsOpen : Client → bool)
  (numCPU : Z) (now : Z) (fuel : nat).
Abbreviation client := (LaserClient (KVS:=KVS) (thrift:=thrift) (Client:=Client) (f64:=f64)).
Implicit Types (c : client).

(** Every meter and timer the client uses is registered. *)
Definition metrics_ok (c : client) : Prop :=
  Forall (λ name, is_Some (lc_meters c !! name)) init_meters ∧
  Forall (λ name, is_Some (lc_timers c !! name)) init_timers.

Lemma zeros_lookup names name : name ∈ names → is_Some (zeros names !! name).
Proof.
  unfold zeros. cut (∀ m : gmap string Z, name ∈ names ∨ is_Some (m !! name) →
    is_Some (foldl (λ m name, <[name := 0]> m) m names !! name)); [auto|].
  induction names as [|n names IH]; intros m Hm; cbn [foldl].
  { by destruct Hm as [?%elem_of_nil|]. }
  apply IH. rewrite elem_of_cons in Hm. rewrite lookup_insert_is_Some'. naive_solver.
Qed.

(** The parts of the client a metric does not touch. *)
Definition same_but_metrics c c' : Prop :=
  lc_attempts c' = lc_attempts c ∧ lc_sent c' = lc_sent c ∧ lc_cg c' = lc_cg c ∧
  lc_configManager c' = lc_configManager c.

Lemma mark_ok name c :
  metrics_ok c → name ∈ init_meters →
  ∃ c', mark name c = Ret c' ∧ metrics_ok c' ∧ same_but_metrics c c'.
Proof.
  intros [Hm Ht] Hn. pose proof (proj1 (Forall_forall _ _) Hm _ Hn) as [n En].
  unfold mark. rewrite En. cbn. eexists. split; [done|]. split; [|done].
  split; [|done]. cbn. eapply Forall_impl; [exact Hm|]. intros x Hx.
  rewrite lookup_insert_is_Some'. auto.
Qed.

Lemma start_timer_ok name c :
  metrics_ok c → name ∈ init_timers →
  ∃ c', start_timer name c = Ret c' ∧ metrics_ok c' ∧ same_but_metrics c c'.
Proof.
  intros [Hm Ht] Hn. pose proof (proj1 (Forall_forall _ _) Ht _ Hn) as [n En].
  unfold start_timer. rewrite En. cbn. eexists. split; [done|]. split; [|done].
  split; [done|]. cbn. eapply Forall_impl; [exact Ht|]. intros x Hx.
  rewrite lookup_insert_is_Some'. auto.
Qed.

(** No error of a call hides a [*LaserException] in another error. *)
Definition unwrapped : Prop :=
  ∀ n host port req status, attempt n host port req ≠ Raised (LaserException status true).

Lemma parseException_ok e c :
  metrics_ok c → (∀ status, e ≠ LaserException status true) →
  ∃ c' r, parseException e c = Ret (c', r) ∧ metrics_ok c' ∧ same_but_metrics c c'.
Proof.
  intros Hc He. unfold parseException.
  assert (∃ c1 r, match e with
    | LaserException status wrapped =>
        if wrapped then Panic (ExplicitPanic "interface conversion") else mret (c, (status, true))
    | OtherException _ =>
        c0 ← mark LASER_CLIENT_THRIFT_GET_STATUS_ERROR c;
        mret (c0, (Status_CLIENT_THRIFT_CALL_ERROR, false))
    end = Ret (c1, r) ∧ metrics_ok c1 ∧ same_but_metrics c c1) as (c1 & [status ok] & -> & Hc1 & Hs1).
  { destruct e as [status [|]|]; [by destruct (He status)|by eexists _, _|].
    destruct (mark_ok LASER_CLIENT_THRIFT_GET_STATUS_ERROR c) as (c1 & -> & ? & ?); [done| |].
    { apply (bool_decide_unpack _). vm_compute. exact I. }
    by eexists _, _. }
  cbn [mbind go_bind].
  assert (∀ name, name ∈ init_meters → ∃ c' r, (c0 ← mark name c1; mret (c0, (status, ok))) = Ret (c', r) ∧
    metrics_ok c' ∧ same_but_metrics c c') as Hmark.
  { intros name Hn. destruct (mark_ok name c1 Hc1 Hn) as (c2 & -> & ? & ?). eexists _, _.
    split; [done|]. split; [done|]. unfold same_but_metrics in *. intuition congruence. }
  destruct (Z.eqb _ _); [|destruct (Z.eqb _ _)]; apply Hmark;
    apply (bool_decide_unpack _); vm_compute; exact I.
Qed.

(** The client between calls. *)
Definition client_ok (c : client) : Prop := metrics_ok c ∧ keyed (lc_cg c).

(** What the caller gets for an attempt that did not time out. *)
Definition outcome_response (o : outcome) : callResp + unit :=
  match o with
  | NoConnection _ => inl (call_error Status_CLIENT_THRIFT_CALL_ERROR)
  | TimedOut => inr tt
  | Raised (LaserException status _) => inl (call_error status)
  | Raised (OtherException _) => inl (call_error Status_CLIENT_THRIFT_CALL_ERROR)
  | Answered resp => inl (mkCallResp [] Status_OK resp)
  end.

(** Two addresses share a connection pool. *)
Definition same_pool (host1 : string) (port1 : Z) (host2 : string) (port2 : Z) : Prop :=
  host1 +:+ Itoa port1 = host2 +:+ Itoa port2.

Lemma parseException_status e c c' status ok :
  parseException e c = Ret (c', (status, ok)) →
  outcome_response (Raised e) = inl (call_error status).
Proof.
  unfold parseException.
  destruct e as [st [|]|err]; cbn [mbind go_bind mret go_ret]; [done| |].
  - destruct (if Z.eqb _ _ then _ else _) as [c1| |]; cbn [mbind go_bind]; [|done..].
    by intros [= _ <- _].
  - destruct (mark _ c) as [c0| |]; cbn [mbind go_bind mret go_ret]; [|done..].
    destruct (if Z.eqb _ _ then _ else _) as [c1| |]; cbn [mbind go_bind]; [|done..].
    by intros [= _ <- _].
Qed.

Ltac known_metric := apply (bool_decide_unpack _); vm_compute; exact I.

(** [c ← mark name c; k c] and the same for a timer. *)
Ltac next_mark c' :=
  match goal with
  | H : metrics_ok ?c |- context [mark ?name ?c] =>
      let E := fresh in
      destruct (mark_ok name c H) as (c' & E & ? & ?); [known_metric|];
      rewrite E; clear E; cbn [mbind go_bind]
  end.
Ltac next_timer c' :=
  match goal with
  | H : metrics_ok ?c |- context [start_timer ?name ?c] =>
      let E := fresh in
      destruct (start_timer_ok name c H) as (c' & E & ? & ?); [known_metric|];
      rewrite E; clear E; cbn [mbind go_bind]
  end.

Lemma call_server_ok o srv req c :
  client_ok c → unwrapped →
  ∃ c' host port, 
    call_server newLaserServiceClient closeThriftClient thriftIsOpen numCPU o srv req c
      = Ret (c', outcome_response (attempt (lc_attempts c) host port req)) ∧
    client_ok c' ∧ same_pool host port (sv_Host srv) (sv_Port srv) ∧
    lc_attempts c' = S (lc_attempts c) ∧ lc_configManager c' = lc_configManager c.
Proof.
  intros [Hm Hk] Hu. unfold call_server. next_timer c1.
  set (config := mkThriftConfig _ _ _ _ _ _ _ _). set (opts := [PoolMaxActive _; _; _; _]).
  set (c2 := getPoolMetric _ _ c1).
  pose proof (GetConnection_keyed numCPU config opts (lc_cg c2)) as Hkeyed.
  destruct (GetConnection _ _ _ _) as [cg [dialled pool]]. cbn [fst snd] in Hkeyed.
  destruct Hkeyed as [Hcg Hpool]. { replace (lc_cg c2) with (lc_cg c); [done|]. unfold same_but_metrics in *. by destruct_and!. }
  set (c3 := set_lc_attempts _ _).
  assert (lc_attempts c2 = lc_attempts c) as En by (unfold same_but_metrics in *; cbn; tauto).
  assert (metrics_ok c3) as Hm3 by done. assert (lc_cg c3 = cg) as Hg3 by done.
  assert (lc_attempts c3 = S (lc_attempts c)) as Ha3 by exact (f_equal S En).
  assert (lc_configManager c3 = lc_configManager c) as Hcm3 by (unfold same_but_metrics in *; cbn; tauto).
  change (lc_attempts (set_lc_cg cg c2)) with (lc_attempts c2). rewrite En. clearbody c3.
  assert (∀ c', metrics_ok c' → lc_cg c' = lc_cg c3 → lc_attempts c' = lc_attempts c3 →
    lc_configManager c' = lc_configManager c3 →
    client_ok c' ∧ same_pool (tcf_Host dialled) (tcf_Port dialled) (sv_Host srv) (sv_Port srv) ∧
    lc_attempts c' = S (lc_attempts c) ∧ lc_configManager c' = lc_configManager c) as Hend.
  { intros c' ? Hcg' Ha' Hcm'. split; [split; [done|by rewrite Hcg', Hg3]|]. split; [exact Hpool|split; congruence]. }
  destruct (attempt _ _ _ _) as [e| |e|resp] eqn:Eo.
  - next_mark c4. eexists _, _, _. rewrite Eo. split; [done|].
    apply Hend; unfold same_but_metrics in *; cbn; destruct_and?; (done || congruence).
  - next_mark c4. next_timer c5. next_mark c6. eexists _, _, _. rewrite Eo. split; [done|].
    apply Hend; unfold same_but_metrics in *; cbn; destruct_and?; (done || congruence).
  - next_mark c4. next_timer c5.
    destruct (parseException_ok e c5) as (c6 & [status ok] & Ep & ? & ?);
      [done|by intros ? ->; by apply Hu in Eo|].
    rewrite Ep. cbn [mbind go_bind]. eexists _, _, _. rewrite Eo.
    apply parseException_status in Ep as ->. split; [done|].
    apply Hend; unfold same_but_metrics in *; cbn; destruct_and?; (done || congruence).
  - next_mark c4. next_timer c5. eexists _, _, _. rewrite Eo. split; [done|].
    apply Hend; unfold same_but_metrics in *; cbn; destruct_and?; (done || congruence).
Qed.

(** What a call comes to that starts with attempt [n] and may repeat it
    [budget] times: [k] attempts time out, then one decides, or times out as
    well if it was the last allowed.  All go to the address [a], or to one that
    shares its pool. *)
Record attempts_of (a : ServerAddress) (req : Request) (budget : Z) (n k : nat)
    (resp : callResp) : Prop := {
  at_budget : Z.of_nat k ≤ budget;
  at_timeouts : ∀ i, (i < k)%nat → ∃ host port,
    same_pool host port (sa_Host a) (sa_Port a) ∧ attempt (n + i) host port req = TimedOut;
  at_last : ∃ host port, same_pool host port (sa_Host a) (sa_Port a) ∧
    match outcome_response (attempt (n + k) host port req) with
    | inl answer => resp = answer
    | inr _ => resp = call_error Status_CLIENT_THRIFT_CALL_TIMEOUT ∧ Z.of_nat k = budget
    end
}.

Lemma outcome_response_timeout o : outcome_response o = inr tt → o = TimedOut.
Proof. by destruct o as [| |[]|]. Qed.

Lemma attempts_of_retry a req budget n k resp host port :
  same_pool host port (sa_Host a) (sa_Port a) → attempt n host port req = TimedOut →
  attempts_of a req budget (S n) k resp → attempts_of a req (budget + 1) n (S k) resp.
Proof.
  intros Hp E [Hb Hto (h & p & Hp' & Hl)]. split; [lia| |].
  - intros [|i] Hi; [exists host, port; by rewrite Nat.add_0_r|].
    rewrite <- plus_n_Sm. apply Hto. lia.
  - exists h, p. split; [done|]. rewrite <- plus_n_Sm. change (S (n + k)) with (S n + k)%nat.
    destruct (outcome_response _); [done|]. destruct Hl as [-> ?]. split; [done|lia].
Qed.

Abbreviation retry_loop := (retry newLaserServiceClient closeThriftClient thriftIsOpen numCPU
  now fuel).

Lemma retry_ok rounds callTimes o routerOption req c :
  client_ok c → unwrapped → checkTargetServerAddress (lo_TargetServerAddress o) = true →
  (Z.to_nat (lo_TimeoutRetry o - callTimes) < rounds)%nat → 0 ≤ callTimes ≤ lo_TimeoutRetry o →
  ∃ c' resp k, retry_loop rounds callTimes o routerOption req c = Ret (c', resp) ∧
    client_ok c' ∧ lc_configManager c' = lc_configManager c ∧ lc_attempts c' = (lc_attempts c + S k)%nat ∧
    attempts_of (lo_TargetServerAddress o) req (lo_TimeoutRetry o - callTimes)
      (lc_attempts c) k resp.
Proof.
  intros Hc Hu Ht. revert callTimes c Hc.
  induction rounds as [|rounds IH]; intros callTimes c Hc Hr Hb; [lia|].
  cbn [retry]. rewrite Ht. cbn [mbind go_bind mret go_ret].
  set (srv := mkServer _ _ _ _ _ _ _ _ _ _ _ _ _ _ _ _). set (c1 := set_lc_router _ _).
  destruct (call_server_ok o srv req c1) as (c2 & host & port & -> & Hc2 & Hp & Ha2 & Hcm2); [done..|].
  change (lc_configManager c1) with (lc_configManager c) in Hcm2. change (lc_attempts c1) with (lc_attempts c) in *. cbn [mbind go_bind].
  destruct (outcome_response _) as [resp|[]] eqn:Eo.
  { exists c2, resp, 0%nat. split_and!; [done|done|done|lia|]. split; [lia|lia|].
    exists host, port. by rewrite Nat.add_0_r, Eo. }
  destruct (Z.leb _ _) eqn:El; b2p.
  - destruct (IH (callTimes + 1) c2) as (c' & resp & k & -> & Hc' & Hcm' & Ha' & Hat); [done|lia|lia|].
    exists c', resp, (S k). split_and!; [done|done|congruence|lia|].
    apply outcome_response_timeout in Eo. rewrite Ha2 in Hat.
    replace (lo_TimeoutRetry o - callTimes) with (lo_TimeoutRetry o - (callTimes + 1) + 1) by lia.
    by apply (attempts_of_retry _ _ _ _ _ _ host port).
  - exists c2, (call_error Status_CLIENT_THRIFT_CALL_TIMEOUT), 0%nat.
    split_and!; [done|done|done|lia|]. split; [lia|lia|].
    exists host, port. rewrite Nat.add_0_r, Eo. split; [done|]. split; [done|lia].
Qed.

Lemma init_ok c c' : init now fuel c = Ret c' → client_ok c'.
Proof.
  unfold init. destruct (NewConfigManager _ _ _ _) as [[w cm]| |]; cbn [mbind go_bind]; [|done..].
  intros [= <-]. split; [split; apply Forall_forall; apply zeros_lookup|]. apply map_Forall_empty.
Qed.

Lemma command_timer_known cmd : command_timer cmd ∈ init_timers.
Proof. destruct cmd; known_metric. Qed.

Lemma NewLaserClient_ok trim projectName laserServiceName configIp localIp httpPort kv c :
  NewLaserClient now fuel trim projectName laserServiceName configIp localIp httpPort kv = Ret c →
  client_ok c.
Proof.
  unfold NewLaserClient. destruct (String.eqb _ _); [done|]. destruct (String.eqb _ _); [done|].
  destruct (GetRouter _ _ _ _ _ _) as [w| |]; cbn [mbind go_bind]; [|done..]. apply init_ok.
Qed.

(** A client is ready for every command.  [NewLaserClient] returns a
    client in which every meter and timer the commands use is registered, so
    that starting a command does not touch a [nil] metric, and whose
    connection pools are filed under the addresses they dial. *)
Theorem NewLaserClient_ready trim projectName laserServiceName configIp localIp httpPort kv c :
  NewLaserClient now fuel trim projectName laserServiceName configIp localIp httpPort kv = Ret c →
  client_ok c ∧
  ∀ cmd, ∃ c', start_timer (command_timer cmd) c = Ret c' ∧ client_ok c'.
Proof.
  intros [Hm Hk]%NewLaserClient_ok. split; [done|]. intros cmd.
  destruct (start_timer_ok (command_timer cmd) c Hm (command_timer_known cmd))
    as (c' & -> & Hm' & _ & _ & Hcg & _).
  exists c'. split; [done|]. split; [done|]. by rewrite Hcg.
Qed.

(** C3: a call to a known address returns, within its retries.  For a client
    that is ready, an option with a target address and no error that wraps a
    [*LaserException], the call never panics and makes at most
    [TimeoutRetry + 1] attempts: those before the last all timed out, the last
    decides the answer, and the answer is a timeout only if no attempt was
    left.  All attempts go to the address, or one that shares its pool. *)
Theorem commonCall_direct shardId partitionHash edge dc o req c :
  client_ok c → unwrapped → checkTargetServerAddress (lo_TargetServerAddress o) = true →
  0 ≤ lo_TimeoutRetry o →
  ∃ c' resp k,
    commonCallWithRouteId newLaserServiceClient closeThriftClient thriftIsOpen numCPU now fuel
      shardId partitionHash edge dc o req c = Ret (c', resp) ∧
    client_ok c' ∧ lc_attempts c' = (lc_attempts c + S k)%nat ∧
    attempts_of (lo_TargetServerAddress o) req (lo_TimeoutRetry o) (lc_attempts c) k resp.
Proof.
  intros Hc Hu Ht Hr. unfold commonCallWithRouteId.
  destruct (retry_ok (S (Z.to_nat (lo_TimeoutRetry o))) 0 o
    (getClientOption o shardId partitionHash edge dc c) req c) as (c' & resp & k & H & Hc' & _ & Ha & Hat);
    [done..|lia|lia|].
  exists c', resp, k. by rewrite Z.sub_0_r in Hat.
Qed.
End Calls.

(** ** Witnesses: a client of the store in memory *)

#[local] Existing Instances toy_city stdpp_order amd64_float.
#[local] Instance draws : Randomness := fixed_draws 0.
#[local] Instance router_json : Json ServiceRouterConfig := const_json DefaultServiceRouterConfig.
#[local] Instance server_json : Json Server :=
  const_json (registered_server 5 (leader_server "10.0.0.1" [0; 1])).
#[local] Instance schemas_json : Json (list DatabaseSchema) := const_json example_dbs.
#[local] Instance cluster_json : Json ClusterInfo := const_json ClusterInfo_zero.
#[local] Existing Instance named_sockets.

(** Scores by their integer part are enough to run the model. *)
Definition int_float64 : Float64 :=
  {| float64 := Z; float64_of_int z := z; float64_div a b := Z.quot a b |}.

(** The first attempt times out, the later ones answer. *)
Definition slow_start : Network (H:=int_float64) :=
  λ n _ _ _, if Nat.eqb n 0 then TimedOut else Answered NewLaserResponse.

Definition new_client : go (LaserClient (KVS:=mem_store) (Client:=bool) (f64:=int_float64)) :=
  NewLaserClient 10 5 id "project" "s" "10.0.0.9" "127.0.0.1" 80 (store_at "1" 1).

Definition no_client : LaserClient (KVS:=mem_store) (Client:=bool) (f64:=int_float64) :=
  mkLaserClient "" "" router0 GetConnGroup (mkConfigManager "" ∅ ClusterInfo_zero ∅) ∅ ∅ ∅ 0 [].

Definition client0 : LaserClient (KVS:=mem_store) (Client:=bool) (f64:=int_float64) :=
  state_of new_client no_client.

Lemma client0_ok : new_client = Ret client0.
Proof. apply state_of_Ret. vm_compute. reflexivity. Qed.

Lemma NewLaserClient_ready_witness :
  ∃ c', start_timer (command_timer ZRANGEBYSCORE) client0 = Ret c' ∧ client_ok c'.
Proof.
  exact (proj2 (NewLaserClient_ready 10 5 id "project" "s" "10.0.0.9" "127.0.0.1" 80
    (store_at "1" 1) client0 client0_ok) ZRANGEBYSCORE).
Defined.

Definition direct_option : LaserOption :=
  mkLaserOption 4 0 20 0 2 THRIFT_TRANSPORT_HEADER ThriftCompressionMethod_None
    LoadBalanceMethod_ROUNDROBIN 256 FOLLOWER_READ (mkServerAddress "10.0.0.1" 8080).

Lemma commonCall_direct_witness :
  ∃ c' resp k,
    commonCallWithRouteId (net:=slow_start) (λ _ _, true) (λ _, (false, None)) (λ b, b) 8 10 5
      0 0 false "" direct_option (RGet (mkLaserKey "db" "t" ["k"] [])) client0
      = Ret (c', resp) ∧
    client_ok c' ∧ lc_attempts c' = (lc_attempts client0 + S k)%nat ∧
    attempts_of (net:=slow_start) (mkServerAddress "10.0.0.1" 8080)
      (RGet (mkLaserKey "db" "t" ["k"] [])) 2 (lc_attempts client0) k resp.
Proof.
  refine (commonCall_direct (net:=slow_start) (λ _ _, true) (λ _, (false, None)) (λ b, b) 8 10 5
    0 0 false "" direct_option (RGet (mkLaserKey "db" "t" ["k"] [])) client0 _ _ _ _).
  - exact (NewLaserClient_ok _ _ _ _ _ _ _ _ _ _ client0_ok).
  - intros [|n] host port req status; discriminate.
  - reflexivity.
  - cbn. lia.
Defined.
