(* ===== verification/LaserBatch.v ===== *)
(** * The batch operations of the Laser client
    ([group], [mset], [mget] and the operations on them,
    [sdk/go/laser_client/laser_client.go])

    The keys of a batch are grouped by the server that has them; each group is
    one goroutine that calls its server, and what it returns is put back at
    the indexes of its keys.  The goroutines share the options of the call:
    each writes the address of its server into them and then passes them on,
    and a schedule, the group that moves next, interleaves the two. *)

From S2P Require Import Prelude RouterTypes LoadBalance RouterDb Pool ThriftConn Registry.
From S2P Require Import Pullers Router Partition ConfigManager LaserTypes LaserClient.

(** ** Grouping: the data *)

Record keyToIndex := mkKeyToIndex { ki_kv : LaserKV; ki_idx : Z }.

Record addressKeyMap := mkAddressKeyMap {
  am_address : option ServerAddress;
  am_keyToIndexList : list keyToIndex
}.

Record dcGroupInfo := mkDcGroupInfo {
  gi_routeId2Indexs : gmap Z (list keyToIndex);
  gi_uniqueShardIds : list Z;
  gi_uniquePartitionHashes : list Z;
  gi_partitionHash2ShardIds : gmap Z Z;
  gi_shardId : Z;
  gi_partitionHash : Z;
  gi_routeToEdgeNode : bool
}.

Definition newDcGroupInfo (shardId partitionHash : Z) (edge : bool) : dcGroupInfo :=
  mkDcGroupInfo ∅ [] [] ∅ shardId partitionHash edge.

Definition set_routeId2Indexs v g : dcGroupInfo :=
  mkDcGroupInfo v (gi_uniqueShardIds g) (gi_uniquePartitionHashes g)
    (gi_partitionHash2ShardIds g) (gi_shardId g) (gi_partitionHash g) (gi_routeToEdgeNode g).
Definition set_uniqueShardIds v g : dcGroupInfo :=
  mkDcGroupInfo (gi_routeId2Indexs g) v (gi_uniquePartitionHashes g)
    (gi_partitionHash2ShardIds g) (gi_shardId g) (gi_partitionHash g) (gi_routeToEdgeNode g).
Definition set_uniquePartitionHashes v g : dcGroupInfo :=
  mkDcGroupInfo (gi_routeId2Indexs g) (gi_uniqueShardIds g) v
    (gi_partitionHash2ShardIds g) (gi_shardId g) (gi_partitionHash g) (gi_routeToEdgeNode g).
Definition set_partitionHash2ShardIds v g : dcGroupInfo :=
  mkDcGroupInfo (gi_routeId2Indexs g) (gi_uniqueShardIds g) (gi_uniquePartitionHashes g)
    v (gi_shardId g) (gi_partitionHash g) (gi_routeToEdgeNode g).

Definition NIL_ADDRESS : string := "nil_address".

(** What [getRouteInfo] returns: shard, partition hash, edge, data centre. *)
Abbreviation RouteInfo := (Z * Z * bool * string)%type.

(** ** Grouping: the first loop, one key *)

Definition group_info (ki : keyToIndex) (shardId partitionHash : Z) (edge : bool)
    (g : dcGroupInfo) : dcGroupInfo :=
  let routerId := if edge then partitionHash else shardId in
  match gi_routeId2Indexs g !! routerId with
  | Some list =>
      set_routeId2Indexs (<[routerId := list ++ [ki]]> (gi_routeId2Indexs g)) g
  | None =>
      let g := set_routeId2Indexs (<[routerId := [ki]]> (gi_routeId2Indexs g)) g in
      if edge then
        set_partitionHash2ShardIds
          (<[partitionHash := shardId]> (gi_partitionHash2ShardIds g))
          (set_uniquePartitionHashes (gi_uniquePartitionHashes g ++ [routerId]) g)
      else set_uniqueShardIds (gi_uniqueShardIds g ++ [routerId]) g
  end.

Definition group_key (m : gmap string dcGroupInfo) (ki : keyToIndex) (info : RouteInfo)
  : gmap string dcGroupInfo :=
  let '(shardId, partitionHash, edge, dc) := info in
  let g := default (newDcGroupInfo shardId partitionHash edge) (m !! dc) in
  <[dc := group_info ki shardId partitionHash edge g]> m.

(** ** Grouping: the second loop, one data centre *)

(** A partition no edge node serves goes to its shard. *)
Definition edge_fallback (acc : dcGroupInfo * gmap Z (option Server))
    (kv : Z * option Server) : dcGroupInfo * gmap Z (option Server) :=
  let '(g, edges) := acc in
  let '(partitionHash, edgeServer) := kv in
  match edgeServer with
  | Some _ => acc
  | None =>
      match gi_partitionHash2ShardIds g !! partitionHash with
      | None => acc
      | Some shardId =>
          let moved := default [] (gi_routeId2Indexs g !! partitionHash) in
          let g :=
            match gi_routeId2Indexs g !! shardId with
            | None =>
                set_routeId2Indexs (<[shardId := moved]> (gi_routeId2Indexs g))
                  (set_uniqueShardIds (gi_uniqueShardIds g ++ [shardId]) g)
            | Some l =>
                set_routeId2Indexs (<[shardId := l ++ moved]> (gi_routeId2Indexs g)) g
            end in
          (set_routeId2Indexs (delete partitionHash (gi_routeId2Indexs g)) g,
           delete partitionHash edges)
      end
  end.

(** The keys of one route go to the server found for it. *)
Definition assign_route (g : dcGroupInfo) (result : gmap string addressKeyMap)
    (kv : Z * option Server) : gmap string addressKeyMap :=
  let '(routeId, server) := kv in
  let mapKey :=
    match server with
    | None => NIL_ADDRESS
    | Some s => sv_Host s +:+ ":" +:+ Itoa (sv_Port s)
    end in
  let address := (λ s, mkServerAddress (sv_Host s) (sv_Port s)) <$> server in
  let am := default (mkAddressKeyMap address []) (result !! mapKey) in
  <[mapKey := mkAddressKeyMap (am_address am)
      (am_keyToIndexList am ++ default [] (gi_routeId2Indexs g !! routeId))]> result.

Section Batch.
Context {KVS : Type} {kvOps : ConsulKV KVS} {jsonServer : Json Server}
  {jsonRouter : Json ServiceRouterConfig} {jsonSchemas : Json (list DatabaseSchema)}
  {jsonCluster : Json ClusterInfo} {hash : CityHash} {order : MapOrder}
  {float : FloatConversion} {rand : Randomness} {thrift : ThriftLib} {Client : Type}
  {f64 : Float64} {net : Network}.
Context (newLaserServiceClient : Transport → ProtocolFactory → Client)
  (closeThriftClient : Client → Client * option error) (thriftIsOpen : Client → bool)
  (numCPU : Z) (now : Z) (fuel : nat).
(** [intn i] is what [rand.Intn(100)] returns for the [i]-th key. *)
Context (intn : Z → Z).

Abbreviation client := (LaserClient (KVS:=KVS) (thrift:=thrift) (Client:=Client) (f64:=f64)).

Definition group_step (c : client) (readMode : ReadMode) (m : gmap string dcGroupInfo)
    (ikv : Z * LaserKV) : go (gmap string dcGroupInfo) :=
  let '(idx, kv) := ikv in
  key ← go_deref (lkv_Key kv);
  info ← getRouteInfo key readMode (intn idx) c;
  mret (group_key m (mkKeyToIndex kv idx) info).

(** The elements of a list with their indexes. *)
Definition indexed {A} (l : list A) : list (Z * A) := imap (λ i a, (Z.of_nat i, a)) l.

Definition group_dc (clientOption : LaserOption) (acc : client * gmap string addressKeyMap)
    (kv : string * dcGroupInfo) : go (client * gmap string addressKeyMap) :=
  let '(c, result) := acc in
  let '(dc, g) := kv in
  let routerOption := getClientOption clientOption (gi_shardId g) (gi_partitionHash g)
    (gi_routeToEdgeNode g) dc c in
  '(c, edges) ← with_router
    (Router_BatchDiscover fuel now routerOption (gi_uniquePartitionHashes g)) c;
  let '(g, edges) := foldl edge_fallback (g, edges) (map_range edges) in
  '(c, servers) ← with_router
    (Router_BatchDiscover fuel now routerOption (gi_uniqueShardIds g)) c;
  let servers := foldl (λ m kv, <[kv.1 := kv.2]> m) servers (map_range edges) in
  mret (c, foldl (assign_route g) result (map_range servers)).

Definition group (kvs : list LaserKV) (clientOption : LaserOption) (c : client)
  : go (client * gmap string addressKeyMap) :=
  dcGroupInfos ← go_fold (group_step c (lo_ReadMode clientOption)) (indexed kvs) ∅;
  go_fold (group_dc clientOption) (map_range dcGroupInfos) (c, ∅).

(** ** The goroutines of a batch *)

Inductive phase := Written | Finished.

#[export] Instance phase_eq_dec : EqDecision phase.
Proof. solve_decision. Defined.

Record mop := mkMop {
  mo_client : client;
  mo_option : LaserOption;              (* shared by the goroutines *)
  mo_phase : gmap string phase;
  mo_responses : list callResp          (* as they come out of the channel *)
}.

(** The goroutine of the group [key] moves: it writes its address, or calls,
    or does nothing if it is done.  [nil_resp] is what a group without a
    server answers, [request] what a group asks. *)
Definition mop_step (groups : gmap string addressKeyMap)
    (request : list keyToIndex → Request) (nil_resp : nat → callResp)
    (s : mop) (key : string) : go mop :=
  match groups !! key with
  | None => mret s
  | Some am =>
      let l := am_keyToIndexList am in
      let respond c phases resp :=
        mkMop c (mo_option s) phases
          (mo_responses s ++ [mkCallResp (ki_idx <$> l) (cr_status resp) (cr_resp resp)]) in
      match mo_phase s !! key with
      | Some Finished => mret s
      | Some Written =>
          '(c, resp) ← commonCallWithRouteId newLaserServiceClient closeThriftClient
            thriftIsOpen numCPU now fuel 0 0 false DEFAULT_DC (mo_option s) (request l)
            (mo_client s);
          mret (respond c (<[key := Finished]> (mo_phase s)) resp)
      | None =>
          if String.eqb key NIL_ADDRESS then
            mret (respond (mo_client s) (<[key := Finished]> (mo_phase s)) (nil_resp (length l)))
          else
            address ← go_deref (am_address am);
            mret (mkMop (mo_client s) (set_lo_TargetServerAddress address (mo_option s))
                    (<[key := Written]> (mo_phase s)) (mo_responses s))
      end
  end.

Definition run_mops (groups : gmap string addressKeyMap)
    (request : list keyToIndex → Request) (nil_resp : nat → callResp)
    (schedule : list string) (clientOption : LaserOption) (c : client) : go mop :=
  go_fold (mop_step groups request nil_resp) schedule (mkMop c clientOption ∅ []).

(** The answer for the keys nobody serves, in [mset] and in [mget]. *)
Definition mset_nil (length : nat) : callResp :=
  mkCallResp [] Status_OK
    (mkLaserResponse None None (Some (replicate length (-1))) None None None None None None).
Definition mget_nil (_ : nat) : callResp := call_error Status_CLIENT_THRIFT_CALL_ERROR.

(** [wg.Wait] returns once every goroutine is done. *)
Definition all_finished (groups : gmap string addressKeyMap) (s : mop) : Prop :=
  ∀ key, is_Some (groups !! key) → mo_phase s !! key = Some Finished.

Definition mset (clientOption : LaserOption) (kvs : list LaserKV)
    (callFunc : list LaserKV → Request) (schedule : list string) (c : client)
  : go (client * list callResp) :=
  '(c, groups) ← group kvs clientOption c;
  s ← run_mops groups (λ l, callFunc (ki_kv <$> l)) mset_nil schedule clientOption c;
  mret (mo_client s, mo_responses s).

(** The keys of the list, as [mget] passes them on. *)
Definition keys_of (l : list keyToIndex) : list LaserKey :=
  omap (λ ki, lkv_Key (ki_kv ki)) l.

Definition mget (clientOption : LaserOption) (keys : list LaserKey)
    (callFunc : list LaserKey → Request) (schedule : list string) (c : client)
  : go (client * list callResp) :=
  let kvs := (λ key, mkLaserKV (Some key) None) <$> keys in
  '(c, groups) ← group kvs clientOption c;
  s ← run_mops groups (λ l, callFunc (keys_of l)) mget_nil schedule clientOption c;
  mret (mo_client s, mo_responses s).

(** ** Putting the answers together *)

(** [result[index] = v]. *)
Definition store_at_index {A} (l : list A) (index : Z) (v : A) : go (list A) :=
  if (Z.leb 0 index && Z.ltb index (Z.of_nat (length l)))%bool
  then mret (<[Z.to_nat index := v]> l) else Panic IndexOutOfRange.

(** The body of the loop over [resp.idxes] in [MsetSync]. *)
Definition Mset_index (resp : callResp) (result : list Z) (iv : Z * Z) : go (list Z) :=
  let '(i, index) := iv in
  if negb (Z.eqb (cr_status resp) Status_OK) then store_at_index result index (cr_status resp)
  else
    res ← go_index (GetListIntData (cr_resp resp)) i;
    store_at_index result index
      (if Z.eqb res (-1) then Status_CLIENT_THRIFT_CALL_ERROR else Status_OK).

Definition Mset_response (result : list Z) (resp : callResp) : go (list Z) :=
  go_fold (Mset_index resp) (indexed (cr_idxes resp)) result.

Definition MsetSync (clientOption : LaserOption) (kvs : list LaserKV)
    (schedule : list string) (c : client) : go (client * list Z) :=
  c ← start_timer (command_timer MSET) c;
  let clientOption := set_lo_ReadMode LEADER_READ clientOption in
  if Nat.eqb (length kvs) 0 then mret (c, [])
  else
    '(c, responses) ← mset clientOption kvs RMset schedule c;
    result ← go_fold Mset_response responses (replicate (length kvs) 0);
    mret (c, result).

(** The entries of a detailed answer; [tolerated] are the statuses that do not
    count as failures. *)
Definition Detail_index (tolerated : list Z) (resp : callResp)
    (acc : list (option EntryValue) * Z) (iv : Z * Z) : go (list (option EntryValue) * Z) :=
  let '(result, nfailed) := acc in
  let '(i, index) := iv in
  let listResult := GetListValueData (cr_resp resp) in
  if negb (Z.eqb (cr_status resp) Status_OK) then
    result ← store_at_index result index (Some (mkEntryValue (cr_status resp) ""));
    mret (result, nfailed + 1)
  else if Nat.eqb (length listResult) 0 then
    result ← store_at_index result index (Some (mkEntryValue Status_RS_ERROR ""));
    mret (result, nfailed + 1)
  else
    value ← go_index listResult i;
    value ← go_deref value;
    entry ← go_deref (lv_EntryValue value);
    result ← store_at_index result index (Some entry);
    mret (result, if decide (ev_Status entry ∈ tolerated) then nfailed else nfailed + 1).

Definition Detail_response (tolerated : list Z) (acc : list (option EntryValue) * Z)
    (resp : callResp) : go (list (option EntryValue) * Z) :=
  go_fold (Detail_index tolerated resp) (indexed (cr_idxes resp)) acc.

Definition detail_status (nfailed : Z) (n : nat) : Z :=
  if Z.eqb nfailed (Z.of_nat n) then Status_RS_ERROR
  else if Z.ltb 0 nfailed then Status_RS_PART_FAILED
  else Status_OK.

Definition mset_tolerated : list Z := [Status_OK; Status_RS_KEY_EXPIRE].
Definition mget_tolerated : list Z := [Status_OK; Status_RS_NOT_FOUND; Status_RS_KEY_EXPIRE].

Definition MsetDetailSync (clientOption : LaserOption) (laserSetOpt : LaserSetOption)
    (kvs : list LaserKV) (schedule : list string) (c : client)
  : go (client * (Z * list (option EntryValue))) :=
  c ← start_timer (command_timer MSET_DETAIL) c;
  let clientOption := set_lo_ReadMode LEADER_READ clientOption in
  if Nat.eqb (length kvs) 0 then mret (c, (Status_RS_ERROR, []))
  else
    '(c, responses) ← mset clientOption kvs (λ values, RMsetDetail values laserSetOpt) schedule c;
    '(result, nfailed) ← go_fold (Detail_response mset_tolerated) responses
                           (replicate (length kvs) None, 0);
    mret (c, (detail_status nfailed (length kvs), result)).

Definition MgetDetailSync (clientOption : LaserOption) (keys : list LaserKey)
    (schedule : list string) (c : client) : go (client * (Z * list (option EntryValue))) :=
  c ← start_timer (command_timer MGET_DETAIL) c;
  '(c, responses) ← mget clientOption keys RMgetDetail schedule c;
  '(result, nfailed) ← go_fold (Detail_response mget_tolerated) responses
                         (replicate (length keys) None, 0);
  mret (c, (detail_status nfailed (length keys), result)).

Definition Mget_index (resp : callResp) (result : list LaserValue) (iv : Z * Z)
  : go (list LaserValue) :=
  let '(i, index) := iv in
  res ← go_index (GetListValueData (cr_resp resp)) i;
  res ← go_deref res;
  store_at_index result index res.

Definition Mget_response (acc : Z * list LaserValue) (resp : callResp)
  : go (Z * list LaserValue) :=
  let '(status, result) := acc in
  if negb (Z.eqb (cr_status resp) Status_OK) then mret (cr_status resp, result)
  else
    result ← go_fold (Mget_index resp) (indexed (cr_idxes resp)) result;
    mret (status, result).

Definition MgetSync (clientOption : LaserOption) (keys : list LaserKey)
    (schedule : list string) (c : client) : go (client * (Z * list LaserValue)) :=
  c ← start_timer (command_timer MGET) c;
  '(c, responses) ← mget clientOption keys RMget schedule c;
  '(status, result) ← go_fold Mget_response responses
                        (Status_OK, replicate (length keys) LaserValue_zero);
  mret (c, (status, result)).
End Batch.

(** ** Grouping: lemmas *)

(** What a data centre's group has: every route it has keys for is to be
    looked up, and a partition can fall back to a shard of another number. *)
Record group_ok (edges : gset Z) (g : dcGroupInfo) : Prop := {
  go_routes : dom (gi_routeId2Indexs g) ⊆ list_to_set (gi_uniqueShardIds g) ∪ edges;
  go_shards : ∀ p, p ∈ edges →
    ∃ s, gi_partitionHash2ShardIds g !! p = Some s ∧ s ≠ p
}.

Abbreviation group_keys g := (map_collect id (gi_routeId2Indexs g)).

Lemma group_info_keys ki s h e g :
  group_keys (group_info ki s h e g) ≡ₚ group_keys g ++ [ki].
Proof.
  unfold group_info. destruct (_ !! _) as [l|] eqn:E; [|destruct e];
    apply map_collect_grow; by rewrite E.
Qed.

Lemma group_info_ok ki s h e g :
  (e = true → h ≠ s) →
  group_ok (list_to_set (gi_uniquePartitionHashes g)) g →
  group_ok (list_to_set (gi_uniquePartitionHashes (group_info ki s h e g)))
    (group_info ki s h e g).
Proof.
  intros He [Hr Hs]. unfold group_info. destruct (_ !! _) as [l|] eqn:E.
  - apply elem_of_dom_2 in E. split; cbn; [set_solver|done].
  - destruct e; split; cbn; [set_solver| |set_solver|done].
    intros p Hp. destruct (decide (p = h)) as [->|Hne].
    + exists s. rewrite lookup_insert_eq. split; [done|]. naive_solver.
    + rewrite lookup_insert_ne by done. apply Hs. set_solver.
Qed.

(** Moving the keys of one route to another loses none. *)
Lemma map_collect_move {V} (m : gmap Z (list V)) p s :
  s ≠ p →
  map_collect id (delete p (<[s := default [] (m !! s) ++ default [] (m !! p)]> m))
  ≡ₚ map_collect id m.
Proof.
  intros Hne. rewrite delete_insert_ne, map_collect_insert by done.
  rewrite (map_collect_delete id m p), (map_collect_delete id (delete p m) s).
  rewrite lookup_delete_ne, !(assoc_L (++)) by done. apply Permutation_app_tail, (comm (++)).
Qed.

Lemma edge_fallback_ok g edges p srv g' edges' :
  group_ok (dom edges) g → p ∈ dom edges →
  edge_fallback (g, edges) (p, srv) = (g', edges') →
  group_ok (dom edges') g' ∧ group_keys g' ≡ₚ group_keys g ∧ dom edges ∖ {[ p ]} ⊆ dom edges'.
Proof.
  intros [Hr Hs] Hp. unfold edge_fallback. destruct srv as [srv|].
  { intros [= <- <-]. split_and!; [done|done|set_solver]. }
  destruct (Hs p Hp) as (s & -> & Hne).
  assert (∀ p', p' ∈ dom edges ∖ {[p]} →
    ∃ s', gi_partitionHash2ShardIds g !! p' = Some s' ∧ s' ≠ p') as Hs'
    by (intros; apply Hs; set_solver).
  pose proof (map_collect_move (gi_routeId2Indexs g) p s Hne) as Hmove.
  destruct (gi_routeId2Indexs g !! s) as [l|] eqn:E; cbn [default] in Hmove;
    intros [= <- <-]; cbn; rewrite dom_delete_L; (split_and!; [|done|done]);
    split; cbn; rewrite ?dom_delete_L, ?dom_insert_L; [|done| |done].
  - apply elem_of_dom_2 in E. set_solver.
  - set_solver.
Qed.

Lemma edge_fallbacks_ok l g edges g' edges' :
  group_ok (dom edges) g → NoDup l.*1 → Forall (λ kv, kv.1 ∈ dom edges) l →
  foldl edge_fallback (g, edges) l = (g', edges') →
  group_ok (dom edges') g' ∧ group_keys g' ≡ₚ group_keys g.
Proof.
  revert g edges. induction l as [|[p srv] l IH]; intros g edges Hok Hnd Hin E.
  { cbn [foldl] in E. by simplify_eq. }
  cbn [foldl] in E. destruct (edge_fallback _ _) as [g1 edges1] eqn:E1.
  apply NoDup_cons in Hnd as [Hp Hnd]. apply Forall_cons in Hin as [Hpin Hin].
  destruct (edge_fallback_ok _ _ _ _ _ _ Hok Hpin E1) as (Hok1 & <- & Hdom).
  apply IH with edges1; [done|done| |done].
  apply Forall_forall. intros [p' srv'] Hp'. cbn. apply Hdom.
  rewrite Forall_forall in Hin. specialize (Hin _ Hp'). cbn in Hin.
  apply (list_elem_of_fmap_2 fst) in Hp'. set_solver.
Qed.

Abbreviation batch_keys result := (map_collect am_keyToIndexList result).

Lemma assign_routes_keys g l result :
  batch_keys (foldl (assign_route g) result l)
  ≡ₚ batch_keys result ++ (l ≫= λ kv, default [] (gi_routeId2Indexs g !! kv.1)).
Proof.
  revert result. induction l as [|[r srv] l IH]; intros result; cbn [foldl mbind list_bind].
  { by rewrite app_nil_r. }
  rewrite IH, (assoc_L (++)). apply Permutation_app_tail. unfold assign_route.
  set (k := match srv with None => _ | Some _ => _ end).
  apply map_collect_grow. cbn. by destruct (result !! k).
Qed.

(** The address of a group spells its key; only the group of the keys nobody
    serves has none. *)
Definition addressed (key : string) (am : addressKeyMap) : Prop :=
  match am_address am with
  | None => key = NIL_ADDRESS
  | Some a => key = sa_Host a +:+ ":" +:+ Itoa (sa_Port a)
  end.

Lemma assign_routes_addressed g l result :
  map_Forall addressed result → map_Forall addressed (foldl (assign_route g) result l).
Proof.
  revert result. induction l as [|[r srv] l IH]; intros result Hr; cbn [foldl]; [done|].
  apply IH. unfold assign_route. apply map_Forall_insert_2; [|done].
  set (k := match srv with None => _ | Some _ => _ end). unfold addressed. cbn [am_address].
  destruct (result !! k) as [am|] eqn:E; cbn; [by apply (Hr k)|]. by destruct srv.
Qed.

Section Grouping.
Context {KVS : Type} {kvOps : ConsulKV KVS} {jsonServer : Json Server}
  {jsonRouter : Json ServiceRouterConfig} {jsonSchemas : Json (list DatabaseSchema)}
  {jsonCluster : Json ClusterInfo} {hash : CityHash} {order : MapOrder}
  {float : FloatConversion} {rand : Randomness} {thrift : ThriftLib} {Client : Type}
  {f64 : Float64} {net : Network}.
Context (now : Z) (fuel : nat) (intn : Z → Z).
Abbreviation client := (LaserClient (KVS:=KVS) (thrift:=thrift) (Client:=Client) (f64:=f64)).
Implicit Types (c : client).

Lemma with_router_ret {A} (f : Router KVS → go (Router KVS * A)) c c' a :
  with_router f c = Ret (c', a) → ∃ w, f (lc_router c) = Ret (w, a).
Proof.
  unfold with_router. destruct (f _) as [[w a']| |]; cbn [mbind go_bind]; [|done..].
  destruct (drain _ _). intros [= _ <-]. by exists w.
Qed.

Lemma group_dc_keys opt c result dc g c' result' :
  group_ok (list_to_set (gi_uniquePartitionHashes g)) g →
  group_dc now fuel opt (c, result) (dc, g) = Ret (c', result') →
  batch_keys result' ≡ₚ batch_keys result ++ group_keys g ∧
  (map_Forall addressed result → map_Forall addressed result').
Proof.
  intros Hok. unfold group_dc.
  destruct (with_router _ c) as [[c1 edges]| |] eqn:E1; cbn [mbind go_bind]; [|done..].
  apply with_router_ret in E1 as (w1 & E1). pose proof (Router_BatchDiscover_dom _ _ _ _ _ _ _ E1) as D1.
  assert (dom edges = list_to_set (gi_uniquePartitionHashes g)) as De.
  { apply set_eq. intros r. by rewrite elem_of_dom, D1, elem_of_list_to_set. }
  destruct (foldl _ _ _) as [g1 edges1] eqn:Ef.
  apply edge_fallbacks_ok in Ef as [[Hr _] Hk]; [|by rewrite De|apply NoDup_fst_map_range|].
  2: { apply Forall_forall. intros [p s] Hp%elem_of_map_range. by eapply elem_of_dom_2. }
  destruct (with_router _ c1) as [[c2 servers]| |] eqn:E2; cbn [mbind go_bind]; [|done..].
  apply with_router_ret in E2 as (w2 & E2). pose proof (Router_BatchDiscover_dom _ _ _ _ _ _ _ E2) as D2.
  intros [= _ <-]. rewrite foldl_insert_range. split; [|apply assign_routes_addressed].
  rewrite assign_routes_keys, map_range_perm, map_collect_lookup, Hk; [done|].
  intros r Hin%Hr. rewrite dom_union_L. apply elem_of_union.
  apply elem_of_union in Hin as [Hin|Hin]; [right|by left].
  apply elem_of_dom, D2. by apply elem_of_list_to_set in Hin.
Qed.

(** The keys of a batch with their indexes, as [group] numbers them. *)
Definition batch (kvs : list LaserKV) : list keyToIndex :=
  (λ ikv, mkKeyToIndex ikv.2 ikv.1) <$> indexed kvs.

Definition no_self_fallback (c : client) (mode : ReadMode) (kvs : list LaserKV) : Prop :=
  ∀ idx kv key s h dc, (idx, kv) ∈ indexed kvs → lkv_Key kv = Some key →
    getRouteInfo key mode (intn idx) c = Ret (s, h, true, dc) → h ≠ s.

Definition dc_ok (g : dcGroupInfo) : Prop :=
  group_ok (list_to_set (gi_uniquePartitionHashes g)) g.

Lemma newDcGroupInfo_ok s h e : dc_ok (newDcGroupInfo s h e).
Proof. split; cbn; [set_solver|]. intros p Hp. set_solver. Qed.

Lemma group_steps_keys c mode l m m' :
  (∀ idx kv key s h dc, (idx, kv) ∈ l → lkv_Key kv = Some key →
     getRouteInfo key mode (intn idx) c = Ret (s, h, true, dc) → h ≠ s) →
  map_Forall (λ _, dc_ok) m →
  go_fold (group_step intn c mode) l m = Ret m' →
  map_Forall (λ _, dc_ok) m' ∧
  map_collect (λ g, group_keys g) m'
  ≡ₚ map_collect (λ g, group_keys g) m ++ ((λ ikv, mkKeyToIndex ikv.2 ikv.1) <$> l).
Proof.
  revert m. induction l as [|[idx kv] l IH]; intros m Hself Hm E; cbn [go_fold] in E.
  { injection E as <-. by rewrite app_nil_r. }
  cbn [group_step] in E. destruct (lkv_Key kv) as [key|] eqn:Ek; [|done].
  cbn [go_deref mbind go_bind] in E.
  destruct (getRouteInfo key mode (intn idx) c) as [[[[s h] e] dc]| |] eqn:Er; [|done..].
  cbn [mbind go_bind mret go_ret] in E. unfold group_key in E.
  set (g := default (newDcGroupInfo s h e) (m !! dc)) in E.
  assert (dc_ok g) as Hg.
  { subst g. destruct (m !! dc) as [g|] eqn:Eg; [by apply (Hm dc)|apply newDcGroupInfo_ok]. }
  apply IH in E as [Hm' ->].
  - split; [done|]. trans ((map_collect (λ g, group_keys g) m ++ [mkKeyToIndex kv idx]) ++
      ((λ ikv, mkKeyToIndex ikv.2 ikv.1) <$> l)); [|by rewrite <- app_assoc].
    apply Permutation_app_tail, map_collect_grow. rewrite group_info_keys. subst g.
    apply Permutation_app_tail. destruct (m !! dc); [done|]. cbn. by rewrite map_collect_empty.
  - intros. eapply Hself; [by right|done..].
  - apply map_Forall_insert_2; [|done]. apply group_info_ok; [|done].
    intros ->. eapply (Hself idx kv); [by left|exact Ek|exact Er].
Qed.

Lemma group_dcs_keys opt l c result c' result' :
  Forall (λ kv, dc_ok kv.2) l → map_Forall addressed result →
  go_fold (group_dc now fuel opt) l (c, result) = Ret (c', result') →
  map_Forall addressed result' ∧
  batch_keys result' ≡ₚ batch_keys result ++ (l ≫= λ kv, group_keys kv.2).
Proof.
  revert c result. induction l as [|[dc g] l IH]; intros c result Hl Ha E; cbn [go_fold] in E.
  { injection E as _ <-. by rewrite app_nil_r. }
  apply Forall_cons in Hl as [Hg Hl].
  destruct (group_dc _ _ _ _ _) as [[c1 result1]| |] eqn:E1; cbn [mbind go_bind] in E; [|done..].
  apply group_dc_keys in E1 as [Hk1 Ha1]; [|done].
  apply IH in E as [Ha' ->]; [|by auto..].
  split; [done|]. rewrite Hk1. cbn [mbind list_bind snd]. by rewrite (assoc_L (++)).
Qed.

Lemma group_batch kvs opt c c' result :
  no_self_fallback c (lo_ReadMode opt) kvs →
  group now fuel intn kvs opt c = Ret (c', result) →
  batch_keys result ≡ₚ batch kvs ∧ map_Forall addressed result.
Proof.
  intros Hself. unfold group.
  destruct (go_fold (group_step _ _ _) _ _) as [m| |] eqn:E1; cbn [mbind go_bind]; [|done..].
  apply group_steps_keys in E1 as [Hm Hk]; [|done|done].
  intros E2. apply group_dcs_keys in E2 as [Ha Hk2]; [|apply Forall_forall|done].
  - split; [|done]. rewrite Hk2, map_collect_empty, map_range_perm. cbn [app].
    rewrite map_collect_empty in Hk. exact Hk.
  - intros [dc g] Hin%elem_of_map_range. by apply (Hm dc).
Qed.

(** C1: grouping neither loses nor duplicates: the groups [group] returns
    hold between them every pair of the batch with its index, just once,
    whatever was found for it (a server, an edge node, its shard's server in
    place of an edge node, or none), and a group's key spells the address its
    requests go to.  The one case left out is a partition whose hash is the
    number of the very shard it falls back to. *)
Theorem group_partition kvs opt c c' result :
  no_self_fallback c (lo_ReadMode opt) kvs →
  group now fuel intn kvs opt c = Ret (c', result) →
  map_collect am_keyToIndexList result ≡ₚ batch kvs ∧
  (∀ key am, result !! key = Some am →
     match am_address am with
     | None => key = NIL_ADDRESS
     | Some a => key = sa_Host a +:+ ":" +:+ Itoa (sa_Port a)
     end).
Proof. apply group_batch. Qed.
End Grouping.

(** ** The goroutines: lemmas *)

Definition idxes_of (am : addressKeyMap) : list Z := ki_idx <$> am_keyToIndexList am.

(** The indexes the groups that are done have answered for. *)
Definition answered (groups : gmap string addressKeyMap) (phases : gmap string phase)
  : list Z :=
  map_to_list groups ≫= λ kv,
    if decide (phases !! kv.1 = Some Finished) then idxes_of kv.2 else [].

Lemma answered_split groups phases key am :
  groups !! key = Some am →
  answered groups phases
  ≡ₚ (if decide (phases !! key = Some Finished) then idxes_of am else [])
     ++ answered (delete key groups) phases.
Proof.
  intros Hg. unfold answered. rewrite <- (insert_delete_id groups key am) at 1 by done.
  rewrite map_to_list_insert by apply lookup_delete_eq. done.
Qed.

Lemma answered_other groups phases key p :
  answered (delete key groups) (<[key := p]> phases) = answered (delete key groups) phases.
Proof.
  apply Forall_bind_ext, Forall_forall. intros [k am] Hin. cbn.
  apply elem_of_map_to_list in Hin.
  assert (key ≠ k) by (intros ->; by rewrite lookup_delete_eq in Hin).
  by rewrite lookup_insert_ne.
Qed.

Lemma answered_written groups phases key am :
  groups !! key = Some am → phases !! key = None →
  answered groups (<[key := Written]> phases) ≡ₚ answered groups phases.
Proof.
  intros Hg Hp. rewrite !(answered_split _ _ key am Hg), answered_other.
  by rewrite lookup_insert_eq, Hp.
Qed.

Lemma answered_finished groups phases key am :
  groups !! key = Some am → phases !! key ≠ Some Finished →
  answered groups (<[key := Finished]> phases) ≡ₚ answered groups phases ++ idxes_of am.
Proof.
  intros Hg Hp. rewrite !(answered_split _ _ key am Hg), answered_other.
  rewrite lookup_insert_eq, decide_True, decide_False by done. cbn. apply (comm (++)).
Qed.

Lemma answered_all groups phases :
  (∀ key, is_Some (groups !! key) → phases !! key = Some Finished) →
  answered groups phases = map_collect idxes_of groups.
Proof.
  intros Hall. apply Forall_bind_ext, Forall_forall. intros [k am] Hin. cbn.
  apply elem_of_map_to_list in Hin. by rewrite decide_True by eauto.
Qed.

Definition rank (p : option phase) : nat :=
  match p with None => 0 | Some Written => 1 | Some Finished => 2 end.

(** How often a group moves in a schedule. *)
Definition turns (key : string) (schedule : list string) : nat :=
  length (filter (λ k, k = key) schedule).

(** A schedule that lets every goroutine finish. *)
Definition complete (groups : gmap string addressKeyMap) (schedule : list string) : Prop :=
  ∀ key, is_Some (groups !! key) → (2 ≤ turns key schedule)%nat.

Section Running.
Context {KVS : Type} {kvOps : ConsulKV KVS} {jsonServer : Json Server}
  {jsonRouter : Json ServiceRouterConfig} {jsonSchemas : Json (list DatabaseSchema)}
  {jsonCluster : Json ClusterInfo} {hash : CityHash} {order : MapOrder}
  {float : FloatConversion} {rand : Randomness} {thrift : ThriftLib} {Client : Type}
  {f64 : Float64} {net : Network}.
Context (newLaserServiceClient : Transport → ProtocolFactory → Client)
  (closeThriftClient : Client → Client * option error) (thriftIsOpen : Client → bool)
  (numCPU : Z) (now : Z) (fuel : nat) (intn : Z → Z).
Abbreviation client := (LaserClient (KVS:=KVS) (thrift:=thrift) (Client:=Client) (f64:=f64)).
Abbreviation mop_state := (mop (KVS:=KVS) (thrift:=thrift) (Client:=Client) (f64:=f64)).
Implicit Types (c : client) (s : mop_state).
Context (groups : gmap string addressKeyMap) (request : list keyToIndex → Request)
  (nil_resp : nat → callResp).
Abbreviation step := (mop_step newLaserServiceClient closeThriftClient thriftIsOpen numCPU
  now fuel groups request nil_resp).

(** A step answers for a group at most once, and moves it on. *)
Lemma mop_step_answered s key s' :
  step s key = Ret s' →
  ((mo_responses s ≫= cr_idxes) ≡ₚ answered groups (mo_phase s) →
   (mo_responses s' ≫= cr_idxes) ≡ₚ answered groups (mo_phase s')) ∧
  (is_Some (groups !! key) →
   (2 `min` S (rank (mo_phase s !! key)) ≤ rank (mo_phase s' !! key))%nat) ∧
  (∀ key', key' ≠ key → mo_phase s' !! key' = mo_phase s !! key').
Proof.
  unfold mop_step. destruct (groups !! key) as [am|] eqn:Eg.
  2: { intros [= <-]. split_and!; [done| |done]. by intros []. }
  destruct (mo_phase s !! key) as [[]|] eqn:Ep.
  - destruct (commonCallWithRouteId _ _ _ _ _ _ _ _ _ _ _ _ _) as [[c resp]| |];
      cbn [mbind go_bind]; [|done..].
    intros [= <-]. cbn. split_and!.
    + intros H. rewrite bind_app, H, (answered_finished _ _ _ am) by (try done; congruence).
      cbn. by rewrite app_nil_r.
    + intros _. rewrite lookup_insert_eq. cbn. lia.
    + intros. by rewrite lookup_insert_ne.
  - intros [= <-]. rewrite Ep. split_and!; [done|by intros _|done].
  - destruct (String.eqb key NIL_ADDRESS).
    + intros [= <-]. cbn. split_and!.
      * intros H. rewrite bind_app, H, (answered_finished _ _ _ am) by (try done; congruence).
        cbn. by rewrite app_nil_r.
      * intros _. rewrite lookup_insert_eq. cbn. lia.
      * intros. by rewrite lookup_insert_ne.
    + destruct (am_address am) as [a|]; cbn [go_deref mbind go_bind]; [|done].
      intros [= <-]. cbn. split_and!.
      * intros H. by rewrite H, (answered_written _ _ _ am).
      * intros _. rewrite lookup_insert_eq. cbn. lia.
      * intros. by rewrite lookup_insert_ne.
Qed.

Lemma run_mops_answered schedule s s' :
  go_fold step schedule s = Ret s' →
  ((mo_responses s ≫= cr_idxes) ≡ₚ answered groups (mo_phase s) →
   (mo_responses s' ≫= cr_idxes) ≡ₚ answered groups (mo_phase s')) ∧
  (∀ key, is_Some (groups !! key) →
   (2 `min` (rank (mo_phase s !! key) + turns key schedule) ≤ rank (mo_phase s' !! key))%nat).
Proof.
  revert s. induction schedule as [|k schedule IH]; intros s E; cbn [go_fold] in E.
  { injection E as <-. split; [done|]. intros key _. change (turns key []) with 0%nat. lia. }
  destruct (step s k) as [s1| |] eqn:E1; cbn [mbind go_bind] in E; [|done..].
  destruct (mop_step_answered _ _ _ E1) as (Ha & Hk & Ho).
  apply IH in E as [Ha' Hk']. split; [auto|]. intros key Hkey. specialize (Hk' key Hkey).
  unfold turns in *. rewrite filter_cons. destruct (decide (k = key)) as [->|Hne].
  - specialize (Hk Hkey). cbn [length]. lia.
  - rewrite Ho in Hk' by done. done.
Qed.

(** When every goroutine is done, each index has been answered for once. *)
Lemma run_mops_complete schedule o c s :
  complete groups schedule →
  run_mops newLaserServiceClient closeThriftClient thriftIsOpen numCPU now fuel
    groups request nil_resp schedule o c = Ret s →
  all_finished groups s ∧ (mo_responses s ≫= cr_idxes) ≡ₚ map_collect idxes_of groups.
Proof.
  intros Hc E. destruct (run_mops_answered _ _ _ E) as [Ha Hk].
  assert (all_finished groups s) as Hall.
  { intros key Hkey. specialize (Hk key Hkey). specialize (Hc key Hkey).
    cbn [mo_phase] in Hk. rewrite lookup_empty in Hk.
    destruct (mo_phase s !! key) as [[]|]; cbn [rank] in Hk; [lia|done|lia]. }
  split; [done|]. rewrite Ha, answered_all; [done|done|]. cbn.
  unfold answered. clear. induction (map_to_list groups) as [|[k am] l IH]; [done|].
  cbn. rewrite lookup_empty, decide_False by done. exact IH.
Qed.
End Running.

(** ** Putting the answers together: lemmas *)

Lemma indexed_fst {A} (l : list A) : (indexed l).*1 = seqZ 0 (Z.of_nat (length l)).
Proof.
  apply list_eq. intros i. unfold indexed. rewrite list_lookup_fmap, list_lookup_imap.
  destruct (l !! i) as [a|] eqn:E; cbn.
  - apply lookup_lt_Some in E. symmetry. rewrite lookup_seqZ. lia.
  - apply lookup_ge_None in E. symmetry. rewrite lookup_seqZ_ge; [done|lia].
Qed.

Lemma batch_idx kvs : ki_idx <$> batch kvs = seqZ 0 (Z.of_nat (length kvs)).
Proof. rewrite <- indexed_fst. unfold batch. by rewrite <- list_fmap_compose. Qed.

Lemma map_collect_idxes (groups : gmap string addressKeyMap) kvs :
  batch_keys groups ≡ₚ batch kvs →
  map_collect idxes_of groups ≡ₚ seqZ 0 (Z.of_nat (length kvs)).
Proof.
  intros H. by rewrite <- batch_idx, <- H, map_collect_fmap.
Qed.

(** What one key of a detailed batch comes to: its entry, and whether it
    counts as failed. *)
Inductive detail_of (tolerated : list Z) (resp : callResp) (i : nat)
  : EntryValue → bool → Prop :=
  | call_failed :
      cr_status resp ≠ Status_OK →
      detail_of tolerated resp i (mkEntryValue (cr_status resp) "") true
  | no_values :
      cr_status resp = Status_OK → GetListValueData (cr_resp resp) = [] →
      detail_of tolerated resp i (mkEntryValue Status_RS_ERROR "") true
  | value_at v e :
      cr_status resp = Status_OK → GetListValueData (cr_resp resp) !! i = Some (Some v) →
      lv_EntryValue v = Some e →
      detail_of tolerated resp i e (bool_decide (ev_Status e ∉ tolerated)).

Lemma store_at_index_ret {A} (l : list A) k v l' :
  store_at_index l k v = Ret l' →
  0 ≤ k < Z.of_nat (length l) ∧ l' = <[Z.to_nat k := v]> l.
Proof.
  unfold store_at_index. destruct (_ && _)%bool eqn:E; [|done]. intros [= <-]. b2p. done.
Qed.

Lemma go_index_ret {A} (l : list A) i a : go_index l i = Ret a → l !! Z.to_nat i = Some a.
Proof.
  unfold go_index. destruct (Z.ltb _ _); [done|].
  by destruct (l !! Z.to_nat i); intros [= <-].
Qed.

Lemma Detail_index_spec tol resp result nf i k result' nf' :
  Detail_index tol resp (result, nf) (i, k) = Ret (result', nf') →
  ∃ e failed, detail_of tol resp (Z.to_nat i) e failed ∧ 0 ≤ k < Z.of_nat (length result) ∧
    result' = <[Z.to_nat k := Some e]> result ∧ nf' = nf + Z.b2z failed.
Proof.
  unfold Detail_index. destruct (negb _) eqn:Es; b2p.
  { destruct (store_at_index _ _ _) as [r| |] eqn:E; cbn [mbind go_bind]; [|done..].
    intros [= <- <-]. apply store_at_index_ret in E as [??].
    eexists _, true. by split; [apply call_failed|]. }
  destruct (Nat.eqb _ _) eqn:El.
  { apply Nat.eqb_eq, nil_length_inv in El.
    destruct (store_at_index _ _ _) as [r| |] eqn:E; cbn [mbind go_bind]; [|done..].
    intros [= <- <-]. apply store_at_index_ret in E as [??].
    eexists _, true. by split; [apply no_values|]. }
  destruct (go_index _ _) as [[v|]| |] eqn:Ei; cbn [mbind go_bind go_deref]; [|done..].
  destruct (lv_EntryValue v) as [e|] eqn:Ee; cbn [mbind go_bind go_deref]; [|done].
  destruct (store_at_index _ _ _) as [r| |] eqn:E; cbn [mbind go_bind]; [|done..].
  intros [= <- <-]. apply store_at_index_ret in E as [??]. apply go_index_ret in Ei.
  eexists _, _. split; [by apply (value_at _ _ _ v)|]. split_and!; [lia|lia|done|].
  case_decide; [rewrite bool_decide_false by auto|rewrite bool_decide_true by auto]; cbn; lia.
Qed.

Abbreviation outcome_list := (list (option (EntryValue * bool))).

Definition count_failed (os : outcome_list) : Z :=
  foldr (λ o n, match o with Some (_, true) => 1 + n | _ => n end) 0 os.

Lemma count_failed_insert os k e failed :
  os !! k = Some None →
  count_failed (<[k := Some (e, failed)]> os) = count_failed os + Z.b2z failed.
Proof.
  revert k. induction os as [|o os IH]; intros [|k] E; try done.
  - cbn in E |- *. injection E as ->. destruct failed; cbn; lia.
  - cbn in E. cbn [insert list_insert count_failed foldr]. fold (count_failed os).
    change (foldr _ 0 (<[k:=_]> os)) with (count_failed (<[k:=Some (e, failed)]> os)).
    rewrite IH by done. destruct o as [[? []]|]; lia.
Qed.

(** The state of the loop once the indexes [D] are written. *)
Definition detail_inv tol (responses : list callResp) (n : nat) (D : list Z)
    (acc : list (option EntryValue) * Z) : Prop :=
  ∃ os : outcome_list, acc = (option_map fst <$> os, count_failed os) ∧ length os = n ∧
    (∀ k e failed, os !! k = Some (Some (e, failed)) →
       ∃ resp i, resp ∈ responses ∧ cr_idxes resp !! i = Some (Z.of_nat k) ∧
         detail_of tol resp i e failed) ∧
    (∀ k, (k < n)%nat → os !! k = Some None ↔ Z.of_nat k ∉ D).

Lemma Detail_index_inv tol responses n D resp (i : nat) k acc acc' :
  resp ∈ responses → cr_idxes resp !! i = Some k → k ∉ D →
  detail_inv tol responses n D acc →
  Detail_index tol resp acc (Z.of_nat i, k) = Ret acc' →
  detail_inv tol responses n (k :: D) acc'.
Proof.
  intros Hr Hi Hk (os & -> & Hlen & Hos & HD) E. destruct acc' as [result' nf'].
  apply Detail_index_spec in E as (e & failed & Hd & Hrange & -> & ->).
  rewrite length_fmap in Hrange. rewrite Nat2Z.id in Hd.
  assert (os !! Z.to_nat k = Some None) as Hnone.
  { apply HD; [lia|]. by rewrite Z2Nat.id by lia. }
  exists (<[Z.to_nat k := Some (e, failed)]> os). split_and!.
  - by rewrite count_failed_insert, list_fmap_insert.
  - by rewrite length_insert.
  - intros k' e' failed' [(<- & [= <- <-] & _)|[_ ?]]%list_lookup_insert_Some; [|by eapply Hos].
    exists resp, i. by rewrite Z2Nat.id by lia.
  - intros k' Hk'. rewrite not_elem_of_cons. destruct (decide (Z.to_nat k = k')) as [<-|Hne].
    + rewrite list_lookup_insert_eq by lia. rewrite Z2Nat.id by lia. naive_solver.
    + rewrite list_lookup_insert_ne, HD by done. split; [split; [lia|done]|naive_solver].
Qed.

Lemma detail_inv_ext tol responses n D D' acc :
  (∀ k, k ∈ D ↔ k ∈ D') → detail_inv tol responses n D acc → detail_inv tol responses n D' acc.
Proof.
  intros HD (os & ? & ? & ? & Hos). exists os. split_and!; [done..|].
  intros k Hk. by rewrite <- HD, <- Hos.
Qed.

Lemma Detail_loop_inv tol responses n D resp l acc acc' :
  resp ∈ responses →
  Forall (λ iv, ∃ i, iv.1 = Z.of_nat i ∧ cr_idxes resp !! i = Some iv.2) l →
  NoDup (l.*2 ++ D) →
  detail_inv tol responses n D acc →
  go_fold (Detail_index tol resp) l acc = Ret acc' →
  detail_inv tol responses n (l.*2 ++ D) acc'.
Proof.
  intros Hr. revert D acc. induction l as [|[z k] l IH]; intros D acc Hl Hnd Hinv E;
    cbn [go_fold] in E.
  { by injection E as <-. }
  apply Forall_cons in Hl as [(i & Hz & Hi) Hl]. cbn [fst snd] in Hz, Hi. subst z.
  destruct (Detail_index _ _ _ _) as [acc1| |] eqn:E1; cbn [mbind go_bind] in E; [|done..].
  rewrite fmap_cons in Hnd |- *. cbn [app snd] in Hnd |- *. apply NoDup_cons in Hnd as [Hk Hnd].
  apply not_elem_of_app in Hk as [Hkl HkD].
  apply Detail_index_inv with (D := D) (responses := responses) (n := n) in E1; [|done..].
  apply (IH (k :: D)) in E; [|done| |done].
  - eapply detail_inv_ext, E. set_solver.
  - rewrite <- Permutation_middle. apply NoDup_cons. split; [|done].
    by apply not_elem_of_app.
Qed.

Lemma indexed_lookup {A} (l : list A) :
  Forall (λ iv, ∃ i, iv.1 = Z.of_nat i ∧ l !! i = Some iv.2) (indexed l).
Proof.
  apply Forall_forall. intros [z a] (i & Hi)%list_elem_of_lookup_1. unfold indexed in Hi.
  rewrite list_lookup_imap in Hi. destruct (l !! i) eqn:E; [|done].
  cbn in Hi. injection Hi as <- <-. by exists i.
Qed.

Lemma indexed_snd {A} (l : list A) : (indexed l).*2 = l.
Proof.
  apply list_eq. intros i. unfold indexed. rewrite list_lookup_fmap, list_lookup_imap.
  by destruct (l !! i).
Qed.

Lemma Detail_responses_inv tol responses n D rs acc acc' :
  Forall (λ r, r ∈ responses) rs → NoDup ((rs ≫= cr_idxes) ++ D) →
  detail_inv tol responses n D acc →
  go_fold (Detail_response tol) rs acc = Ret acc' →
  detail_inv tol responses n ((rs ≫= cr_idxes) ++ D) acc'.
Proof.
  revert D acc. induction rs as [|r rs IH]; intros D acc Hrs Hnd Hinv E; cbn [go_fold] in E.
  { by injection E as <-. }
  apply Forall_cons in Hrs as [Hr Hrs].
  destruct (Detail_response tol acc r) as [acc1| |] eqn:E1; cbn [mbind go_bind] in E;
    [|done..].
  rewrite bind_cons, <- (assoc_L (++)) in Hnd. rewrite bind_cons, <- (assoc_L (++)).
  assert (NoDup ((rs ≫= cr_idxes) ++ cr_idxes r ++ D)) as Hnd'.
  { eapply NoDup_Permutation_proper, Hnd. rewrite !(assoc_L (++)).
    apply Permutation_app_tail, (comm (++)). }
  apply Detail_loop_inv with (D := D) (responses := responses) (n := n) in E1;
    [|done|apply indexed_lookup| |done].
  2: { rewrite indexed_snd. by apply NoDup_app in Hnd' as (_ & _ & ?). }
  rewrite indexed_snd in E1. apply (IH (cr_idxes r ++ D)) in E; [|done..].
  eapply detail_inv_ext, E. intros k. set_solver.
Qed.

(** How many of the keys failed decides the status of the batch. *)
Lemma count_failed_bounds (os : list (EntryValue * bool)) :
  0 ≤ count_failed (Some <$> os) ≤ Z.of_nat (length os) ∧
  (count_failed (Some <$> os) = 0 ↔ Forall (λ o, o.2 = false) os) ∧
  (count_failed (Some <$> os) = Z.of_nat (length os) ↔ Forall (λ o, o.2 = true) os).
Proof.
  induction os as [|[e b] os (Hb & H0 & Hn)]; [by rewrite !Forall_nil|].
  rewrite !Forall_cons, <- H0, <- Hn, fmap_cons. cbn [count_failed foldr length snd].
  fold (count_failed (Some <$> os)). destruct b; split_and!; try lia; split; intros; try lia.
  all: destruct_and?; try done; try lia; split; try done; lia.
Qed.

Lemma all_some {A} (os : list (option A)) :
  (∀ k, os !! k ≠ Some None) → ∃ l, os = Some <$> l.
Proof.
  induction os as [|o os IH]; intros Hos; [by exists []|].
  destruct IH as [l ->]; [intros k; apply (Hos (S k))|].
  destruct o as [a|]; [by exists (a :: l)|]. by destruct (Hos 0%nat).
Qed.

Lemma detail_batch tol responses n result nf :
  (responses ≫= cr_idxes) ≡ₚ seqZ 0 (Z.of_nat n) →
  go_fold (Detail_response tol) responses (replicate n None, 0) = Ret (result, nf) →
  ∃ os : list (EntryValue * bool), length os = n ∧ result = Some ∘ fst <$> os ∧
    nf = count_failed (Some <$> os) ∧
    ∀ k e failed, os !! k = Some (e, failed) →
      ∃ resp i, resp ∈ responses ∧ cr_idxes resp !! i = Some (Z.of_nat k) ∧
        detail_of tol resp i e failed.
Proof.
  intros Hperm E.
  apply (Detail_responses_inv tol responses n []) in E as (os & [= -> ->] & Hlen & Hos & HD).
  - rewrite app_nil_r in HD.
    assert (∃ l, os = Some <$> l) as [l ->].
    { apply all_some. intros k Hk. pose proof (lookup_lt_Some _ _ _ Hk).
      apply HD in Hk; [|lia]. rewrite Hperm, elem_of_seqZ in Hk. lia. }
    exists l. rewrite length_fmap in Hlen. split_and!; [done| |done|].
    + by rewrite <- list_fmap_compose.
    + intros k e failed Hk. apply Hos. by rewrite list_lookup_fmap, Hk.
  - by apply Forall_forall.
  - rewrite app_nil_r, Hperm. apply NoDup_seqZ.
  - exists (replicate n None). split_and!.
    + rewrite fmap_replicate. f_equal. clear. induction n; [done|]. cbn. done.
    + apply length_replicate.
    + intros k e f Hk. by apply lookup_replicate in Hk as [? _].
    + intros k Hk. rewrite lookup_replicate. set_solver.
Qed.

(** ** The batch operations: properties *)

Section Batches.
Context {KVS : Type} {kvOps : ConsulKV KVS} {jsonServer : Json Server}
  {jsonRouter : Json ServiceRouterConfig} {jsonSchemas : Json (list DatabaseSchema)}
  {jsonCluster : Json ClusterInfo} {hash : CityHash} {order : MapOrder}
  {float : FloatConversion} {rand : Randomness} {thrift : ThriftLib} {Client : Type}
  {f64 : Float64} {net : Network}.
Context (newLaserServiceClient : Transport → ProtocolFactory → Client)
  (closeThriftClient : Client → Client * option error) (thriftIsOpen : Client → bool)
  (numCPU : Z) (now : Z) (fuel : nat) (intn : Z → Z).
Abbreviation client := (LaserClient (KVS:=KVS) (thrift:=thrift) (Client:=Client) (f64:=f64)).
Implicit Types (c : client).

Lemma getRouteInfo_timer name c c' key mode r :
  start_timer name c = Ret c' → getRouteInfo key mode r c' = getRouteInfo key mode r c.
Proof.
  unfold start_timer. destruct (lc_timers c !! name); [|done]. by intros [= <-].
Qed.

(** The batch [mget] makes of its keys. *)
Definition kvs_of (keys : list LaserKey) : list LaserKV :=
  (λ key, mkLaserKV (Some key) None) <$> keys.

Lemma mget_responses o keys callFunc schedule c c' responses :
  no_self_fallback intn c (lo_ReadMode o) (kvs_of keys) →
  (∀ c1 groups, group now fuel intn (kvs_of keys) o c = Ret (c1, groups) →
     complete groups schedule) →
  mget newLaserServiceClient closeThriftClient thriftIsOpen numCPU now fuel intn
    o keys callFunc schedule c = Ret (c', responses) →
  (responses ≫= cr_idxes) ≡ₚ seqZ 0 (Z.of_nat (length keys)).
Proof.
  intros Hself Hc. unfold mget. fold (kvs_of keys).
  destruct (group _ _ _ _ _ _) as [[c1 groups]| |] eqn:Eg; cbn [mbind go_bind]; [|done..].
  destruct (run_mops _ _ _ _ _ _ _ _ _ _ _ _) as [s| |] eqn:Er; cbn [mbind go_bind]; [|done..].
  intros [= _ <-]. apply run_mops_complete in Er as [_ ->]; [|by eapply Hc].
  apply group_batch in Eg as [Hk _]; [|done].
  rewrite (map_collect_idxes _ _ Hk). unfold kvs_of. by rewrite length_fmap.
Qed.

(** The status of a batch from the outcomes of its keys. *)
Definition batch_status (os : list (EntryValue * bool)) : Z :=
  if decide (Forall (λ o, o.2 = true) os) then Status_RS_ERROR
  else if decide (Forall (λ o, o.2 = false) os) then Status_OK
  else Status_RS_PART_FAILED.

Lemma detail_status_batch os :
  detail_status (count_failed (Some <$> os)) (length os) = batch_status os.
Proof.
  destruct (count_failed_bounds os) as (Hb & H0 & Hn). unfold detail_status, batch_status.
  destruct (Z.eqb_spec (count_failed (Some <$> os)) (Z.of_nat (length os))) as [E|E].
  { by rewrite decide_True by (by apply Hn). }
  rewrite decide_False by (by rewrite <- Hn).
  destruct (Z.ltb_spec 0 (count_failed (Some <$> os))) as [E0|E0].
  - rewrite decide_False; [done|]. rewrite <- H0. lia.
  - rewrite decide_True; [done|]. apply H0. lia.
Qed.

(** C2: a detailed batch read.  Whatever way its goroutines interleave, once
    all are done [MgetDetailSync] returns one entry for every key, at the
    key's own index: the entry the server that was asked for the key returned
    for it, or the status of that group's call if it failed.  The status is an
    error if every key failed, a partial failure if some did, and fine if none
    did.  No keys at all is an error too, as all of none failed. *)
Theorem MgetDetailSync_spec o keys schedule c c' status entries :
  no_self_fallback intn c (lo_ReadMode o) (kvs_of keys) →
  (∀ c0 c1 groups, start_timer (command_timer MGET_DETAIL) c = Ret c0 →
     group now fuel intn (kvs_of keys) o c0 = Ret (c1, groups) → complete groups schedule) →
  MgetDetailSync newLaserServiceClient closeThriftClient thriftIsOpen numCPU now fuel intn
    o keys schedule c = Ret (c', (status, entries)) →
  ∃ (c0 : client) (responses : list callResp) (os : list (EntryValue * bool)),
    mget newLaserServiceClient closeThriftClient thriftIsOpen numCPU now fuel intn
      o keys RMgetDetail schedule c0 = Ret (c', responses) ∧
    length os = length keys ∧ entries = Some ∘ fst <$> os ∧ status = batch_status os ∧
    ∀ k e failed, os !! k = Some (e, failed) →
      ∃ resp i, resp ∈ responses ∧ cr_idxes resp !! i = Some (Z.of_nat k) ∧
        detail_of mget_tolerated resp i e failed.
Proof.
  intros Hself Hc. unfold MgetDetailSync.
  destruct (start_timer _ c) as [c0| |] eqn:Et; cbn [mbind go_bind]; [|done..].
  destruct (mget _ _ _ _ _ _ _ _ _ _ _ _) as [[c1 responses]| |] eqn:Em;
    cbn [mbind go_bind]; [|done..].
  destruct (go_fold _ _ _) as [[result nf]| |] eqn:Ef; cbn [mbind go_bind]; [|done..].
  intros [= <- <- <-].
  assert (no_self_fallback intn c0 (lo_ReadMode o) (kvs_of keys)) as Hself0.
  { intros idx kv key s h dc Hin Hk Hr. eapply (Hself idx kv); [done..|].
    rewrite <- Hr. symmetry. by eapply getRouteInfo_timer. }
  pose proof Em as Em'. apply mget_responses in Em'; [|done|by eauto].
  apply detail_batch in Ef as (os & Hlen & -> & -> & Hos); [|done].
  exists c0, responses, os. split_and!; [done|done|done| |done].
  by rewrite <- Hlen, detail_status_batch.
Qed.

Section Steps.
Context (groups : gmap string addressKeyMap) (request : list keyToIndex → Request)
  (nil_resp : nat → callResp).
Abbreviation step := (mop_step newLaserServiceClient closeThriftClient thriftIsOpen numCPU
  now fuel groups request nil_resp).

(** The two moves of a goroutine that has a server. *)
Lemma mop_step_write s key am a :
  groups !! key = Some am → key ≠ NIL_ADDRESS → am_address am = Some a →
  mo_phase s !! key = None →
  step s key = Ret (mkMop (mo_client s) (set_lo_TargetServerAddress a (mo_option s))
                      (<[key := Written]> (mo_phase s)) (mo_responses s)).
Proof.
  intros Hg Hn%String.eqb_neq Ha Hp. unfold mop_step. by rewrite Hg, Hp, Hn, Ha.
Qed.

Lemma mop_step_call s key am :
  groups !! key = Some am → mo_phase s !! key = Some Written →
  step s key =
    ('(c, resp) ← commonCallWithRouteId newLaserServiceClient closeThriftClient thriftIsOpen
        numCPU now fuel 0 0 false DEFAULT_DC (mo_option s) (request (am_keyToIndexList am))
        (mo_client s);
     mret (mkMop c (mo_option s) (<[key := Finished]> (mo_phase s))
       (mo_responses s ++ [mkCallResp (idxes_of am) (cr_status resp) (cr_resp resp)]))).
Proof. intros Hg Hp. unfold mop_step. by rewrite Hg, Hp. Qed.
End Steps.

(** The goroutines of a batch share their options.  [mset] and [mget]
    give every goroutine the same options, and each writes the address of its
    group there before it calls: if another group's goroutine writes in
    between, the keys of the first group are sent to the other group's server.
    Undisturbed, they are sent to their own. *)
Theorem batch_address_race (groups : gmap string addressKeyMap)
    (request : list keyToIndex → Request) nil_resp key1 key2 am1 am2 a1 a2 o c :
  groups !! key1 = Some am1 → groups !! key2 = Some am2 → key1 ≠ key2 →
  key1 ≠ NIL_ADDRESS → key2 ≠ NIL_ADDRESS →
  am_address am1 = Some a1 → am_address am2 = Some a2 →
  let call a := commonCallWithRouteId newLaserServiceClient closeThriftClient thriftIsOpen
    numCPU now fuel 0 0 false DEFAULT_DC (set_lo_TargetServerAddress a o)
    (request (am_keyToIndexList am1)) c in
  let run schedule := run_mops newLaserServiceClient closeThriftClient thriftIsOpen numCPU now
    fuel groups request nil_resp schedule o c in
  let answers resp :=
    [mkCallResp (idxes_of am1) (cr_status resp) (cr_resp resp)] in
  run [key1; key1] = ('(c', resp) ← call a1;
    mret (mkMop c' (set_lo_TargetServerAddress a1 o) {[ key1 := Finished ]} (answers resp))) ∧
  run [key1; key2; key1] = ('(c', resp) ← call a2;
    mret (mkMop c' (set_lo_TargetServerAddress a2 o)
      {[ key1 := Finished; key2 := Written ]} (answers resp))).
Proof.
  intros H1 H2 Hne Hn1 Hn2 Ha1 Ha2 call run answers.
  unfold run, run_mops. cbn [go_fold]. split.
  - rewrite (mop_step_write _ _ _ _ key1 am1 a1) by done. cbn [mbind go_bind].
    rewrite (mop_step_call _ _ _ _ key1 am1) by (cbn; by rewrite ?lookup_insert_eq).
    cbn [mo_option mo_client mo_phase mo_responses]. fold (call a1).
    destruct (call a1) as [[c' resp]| |]; [|done..]. cbn. by rewrite insert_insert_eq.
  - rewrite (mop_step_write _ _ _ _ key1 am1 a1) by done. cbn [mbind go_bind].
    rewrite (mop_step_write _ _ _ _ key2 am2 a2)
      by (cbn; by rewrite ?lookup_insert_ne, ?lookup_empty by done). cbn [mbind go_bind].
    rewrite (mop_step_call _ _ _ _ key1 am1)
      by (cbn; by rewrite ?lookup_insert_ne, ?lookup_insert_eq by done).
    cbn [mo_option mo_client mo_phase mo_responses].
    change (set_lo_TargetServerAddress a2 (set_lo_TargetServerAddress a1 o))
      with (set_lo_TargetServerAddress a2 o). fold (call a2).
    destruct (call a2) as [[c' resp]| |]; [|done..]. cbn.
    rewrite insert_insert_ne, insert_insert_eq by done.
    by rewrite insert_insert_ne.
Qed.
End Batches.

(** ** Witnesses: two keys of a table bound to edge nodes, one of no table *)

#[local] Existing Instances toy_city stdpp_order amd64_float named_sockets int_float64.
#[local] Instance draws : Randomness := fixed_draws 0.
#[local] Instance router_json : Json ServiceRouterConfig := const_json DefaultServiceRouterConfig.
#[local] Instance server_json : Json Server :=
  const_json (registered_server 5 (leader_server "10.0.0.1" [0; 1])).
#[local] Instance schemas_json : Json (list DatabaseSchema) := const_json example_dbs.
#[local] Instance cluster_json : Json ClusterInfo := const_json ClusterInfo_zero.

Definition edge_table : TableSchema := mkTableSchema "db" "t" 7 0 (Some []) 100 "" "".

Definition edge_config : ConfigManager :=
  mkConfigManager "s" {[ getTableSchemaHash "db" "t" := edge_table ]}
    (mkClusterInfo "c" 2 [] []) ∅.

Definition client1 : LaserClient (KVS:=mem_store) (Client:=bool) (f64:=int_float64) :=
  set_lc_configManager edge_config client0.

Definition batch_option : LaserOption :=
  mkLaserOption 4 0 20 0 0 THRIFT_TRANSPORT_HEADER ThriftCompressionMethod_None
    LoadBalanceMethod_ROUNDROBIN 256 MIXED_READ (mkServerAddress "" 0).

Definition three_keys : list LaserKey :=
  [mkLaserKey "db" "t" ["a"] []; mkLaserKey "db" "t" ["b"] []; mkLaserKey "db" "u" ["a"] []].

(** A server that has the first key it is asked for, and not the others. *)
Definition entry_server : Network :=
  λ _ _ _ req,
    match req with
    | RMgetDetail keys =>
        Answered (mkLaserResponse None None None None
          (Some (imap (λ i _, Some (mkLaserValue None None None None (Some (mkEntryValue
             (if Nat.eqb i 0 then Status_OK else Status_RS_ERROR) "v")))) keys)) None None None None)
    | _ => Answered NewLaserResponse
    end.
#[local] Existing Instance entry_server.

Lemma client1_routes :
  no_self_fallback (λ _, 0) client1 (lo_ReadMode batch_option) (kvs_of three_keys).
Proof.
  intros idx kv key s h dc Hin Hk Hr. vm_compute in Hin.
  repeat (apply elem_of_cons in Hin as [Hin|Hin];
    [injection Hin as -> ->; injection Hk as <-; vm_compute in Hr; injection Hr; intros; lia|]).
  by apply elem_of_nil in Hin.
Qed.

Lemma group_partition_witness :
  ∃ c' result, group 10 5 (λ _, 0) (kvs_of three_keys) batch_option client1 = Ret (c', result) ∧
    map_collect am_keyToIndexList result ≡ₚ batch (kvs_of three_keys).
Proof.
  destruct (returns_Ret (group 10 5 (λ _, 0) (kvs_of three_keys) batch_option client1))
    as [[c' result] E]; [vm_compute; reflexivity|].
  exists c', result. split; [exact E|].
  exact (proj1 (group_partition 10 5 (λ _, 0) _ _ _ _ _ client1_routes E)).
Defined.

Definition one_group : list string := ["10.0.0.1:8080"; "10.0.0.1:8080"].

Lemma one_group_complete c0 c1 groups :
  start_timer (command_timer MGET_DETAIL) client1 = Ret c0 →
  group 10 5 (λ _, 0) (kvs_of three_keys) batch_option c0 = Ret (c1, groups) →
  complete groups one_group.
Proof.
  intros E0 E1 key [am Hkey].
  assert ((map_to_list groups).*1 = ["10.0.0.1:8080"]) as Hg.
  { transitivity (match start_timer (command_timer MGET_DETAIL) client1 with
      | Ret c => match group 10 5 (λ _, 0) (kvs_of three_keys) batch_option c with
                 | Ret (_, g) => (map_to_list g).*1 | _ => [] end
      | _ => [] end); [by rewrite E0, E1|]. vm_compute. reflexivity. }
  apply elem_of_map_to_list, (list_elem_of_fmap_2 fst) in Hkey. rewrite Hg in Hkey.
  cbn [fst] in Hkey. apply list_elem_of_singleton in Hkey as ->. vm_compute. lia.
Qed.

Lemma MgetDetailSync_spec_witness :
  ∃ c' entries,
    MgetDetailSync (λ _ _, true) (λ _, (false, None)) (λ b, b) 8 10 5 (λ _, 0) batch_option
      three_keys one_group client1 = Ret (c', (Status_RS_PART_FAILED, entries)) ∧
    ∃ os, length os = 3%nat ∧ entries = Some ∘ fst <$> os ∧
      batch_status os = Status_RS_PART_FAILED.
Proof.
  destruct (returns_Ret (MgetDetailSync (λ _ _, true) (λ _, (false, None)) (λ b, b) 8 10 5
    (λ _, 0) batch_option three_keys one_group client1)) as [[c' [status entries]] E];
    [vm_compute; reflexivity|].
  assert (status = Status_RS_PART_FAILED) as ->.
  { transitivity (match MgetDetailSync (λ _ _, true) (λ _, (false, None)) (λ b, b) 8 10 5
      (λ _, 0) batch_option three_keys one_group client1 with
      | Ret (_, (st, _)) => st | _ => 0 end); [by rewrite E|]. vm_compute. reflexivity. }
  exists c', entries. split; [exact E|].
  destruct (MgetDetailSync_spec (λ _ _, true) (λ _, (false, None)) (λ b, b) 8 10 5 (λ _, 0)
    batch_option three_keys one_group client1 c' Status_RS_PART_FAILED entries
    client1_routes one_group_complete E) as (c0 & rs & os & _ & Hl & He & Hs & _).
  exists os. split; [exact Hl|]. split; [exact He|]. symmetry. exact Hs.
Defined.

Definition group_at (host : string) (idx : Z) : addressKeyMap :=
  mkAddressKeyMap (Some (mkServerAddress host 80)) [mkKeyToIndex (mkLaserKV None None) idx].

Definition two_groups : gmap string addressKeyMap :=
  {[ "a:80" := group_at "a" 0; "b:80" := group_at "b" 1 ]}.

Lemma batch_address_race_witness :
  ∃ c' resp, run_mops (λ _ _, true) (λ _, (false, None)) (λ b, b) 8 10 5 two_groups
      (λ l, RMget (keys_of l)) mget_nil ["a:80"; "b:80"; "a:80"] batch_option client1
    = Ret (mkMop c' (set_lo_TargetServerAddress (mkServerAddress "b" 80) batch_option)
             {[ "a:80" := Finished; "b:80" := Written ]}
             [mkCallResp [0] (cr_status resp) (cr_resp resp)]).
Proof.
  destruct (batch_address_race (λ _ _, true) (λ _, (false, None)) (λ b, b) 8 10 5 two_groups
    (λ l, RMget (keys_of l)) mget_nil "a:80" "b:80" (group_at "a" 0) (group_at "b" 1)
    (mkServerAddress "a" 80) (mkServerAddress "b" 80) batch_option client1
    eq_refl eq_refl ltac:(discriminate) ltac:(discriminate) ltac:(discriminate)
    eq_refl eq_refl) as [_ E].
  destruct (returns_Ret (commonCallWithRouteId (λ _ _, true) (λ _, (false, None)) (λ b, b) 8 10 5
    0 0 false DEFAULT_DC (set_lo_TargetServerAddress (mkServerAddress "b" 80) batch_option)
    (RMget (keys_of (am_keyToIndexList (group_at "a" 0)))) client1)) as [[c' resp] Ec];
    [vm_compute; reflexivity|].
  exists c', resp. rewrite E, Ec. reflexivity.
Defined.
