(* ===== verification/ControlStatus.v ===== *)
(** * Statuses of the control plane ([control/common/errors.go])

    Every service returns a [Status]: a code, a message and the place it was
    made at.  The codes, their messages and the constructors. *)

From S2P Require Import Prelude RouterTypes.

(** [runtime.Caller]: the file and line of a caller of the running function,
    [None] when there is none at that depth. *)
Class Runtime := { runtime_Caller : Z → option (string * Z) }.

(** ** Codes *)

Definition OK : Z := 0.
Definition ERROR : Z := 1.
Definition ParamsInvalid : Z := 100.
Definition HttpRequestError : Z := 1001.
Definition ServiceDup : Z := 10001.
Definition FeatureNameDup : Z := 11001.
Definition ViewNameDup : Z := 12001.
Definition ViewNotFound : Z := 12002.
Definition TableNameDup : Z := 13001.
Definition TableNotExists : Z := 13002.
Definition DatabaseNameDup : Z := 14001.
Definition DatabaseNotExists : Z := 14002.
Definition DatabaseInUse : Z := 14003.
Definition ConsulLoadJsonFailed : Z := 15001.
Definition ConsulPutKVFailed : Z := 15002.
Definition ConsulGetKVFailed : Z := 15003.
Definition GetServerListFailed : Z := 16001.
Definition GetValueFromServerFailed : Z := 16002.
Definition TableConfigNameDup : Z := 170001.
Definition TableConfigNotExists : Z := 170002.
Definition TableConfigInUse : Z := 170003.
Definition TokenInvalid : Z := 20001.
Definition TokenExpired : Z := 20002.
Definition PermissionDenied : Z := 20003.
Definition ClusterParserError : Z := 30001.
Definition ClusterNameDup : Z := 30002.
Definition ClusterNotExist : Z := 30003.
Definition DcNameDup : Z := 31001.
Definition DcNotExist : Z := 31002.
Definition ShardLeaderDup : Z := 40001.
Definition ShardVersionNotFound : Z := 40002.
Definition GroupNameDup : Z := 50001.
Definition GroupNotExist : Z := 50002.
Definition GroupInUse : Z := 50003.
Definition VersionChangeApiError : Z := 60001.
Definition NodeDup : Z := 70001.
Definition NodeAddressDup : Z := 70002.
Definition NodeIdDup : Z := 70003.
Definition NodeNotExist : Z := 70004.
Definition NodeSetEdgeNodeAsMasterFail : Z := 70005.
Definition NodeConfigInUse : Z := 70006.
Definition GetInfoFailed : Z := 80001.
Definition ShardDupFailed : Z := 80002.
Definition AssignTableShardListNumTooLarge : Z := 90001.
Definition MachineCategoryDup : Z := 91001.
Definition MachineCategoryNotExists : Z := 91002.
Definition MachineCategoryDeleteWhenMachineExists : Z := 91003.
Definition MachineDup : Z := 92001.
Definition MachineNotExists : Z := 92002.
Definition MachineInUse : Z := 92003.
Definition AnsibleConfigDup : Z := 93001.
Definition AnsibleConfigNotExists : Z := 93002.
Definition AnsibleConfigInUse : Z := 93003.
Definition AnsibleUnknownTags : Z := 100001.
Definition AnsibleGroupHasNoTask : Z := 100002.
Definition AnsibleGroupHasTaskInProgress : Z := 100003.
Definition AnsibleParamsError : Z := 100004.
Definition TicketDup : Z := 110001.
Definition TicketNotExists : Z := 110002.
Definition TicketCanotHandle : Z := 110003.
Definition ReportQueryPrometheusFailed : Z := 120001.
Definition ReportPrometheusEmptyResult : Z := 120002.
Definition ReportPrometheusInvalidValueStruct : Z := 120003.
Definition ReportPrometheusInvalidValueType : Z := 120004.
Definition ReportPrometheusInvalidResponse : Z := 120005.

Definition statusMessages : gmap Z string := list_to_map [
  (OK, "OK");
  (ERROR, "ERROR");
  (ParamsInvalid, "参数不合法");
  (ServiceDup, "服务已经存在");
  (FeatureNameDup, "特征名称已经存在");
  (ViewNameDup, "特征视图已经存在");
  (ViewNotFound, "特征视图不存在");
  (TableNameDup, "数据表已经存在");
  (TableNotExists, "数据表不存在");
  (DatabaseNameDup, "数据库已经存在");
  (DatabaseNotExists, "数据库不存在");
  (DatabaseInUse, "数据库正在使用中");
  (ConsulLoadJsonFailed, "生成Json字符串失败");
  (ConsulPutKVFailed, "上传 Consule KV 失败");
  (ConsulGetKVFailed, "获取 Consule KV 失败");
  (TableConfigNameDup, "表配置已经存在");
  (TableConfigNotExists, "表配置不存在");
  (TableConfigInUse, "表配置正在使用中");
  (TokenInvalid, "非法 Token");
  (TokenExpired, "Token 已过期");
  (PermissionDenied, "没有权限");
  (ClusterParserError, "集群配置文件解析错误");
  (ClusterNameDup, "集群名字重复");
  (ClusterNotExist, "集群不存在");
  (DcNameDup, "数据中心名字重复");
  (DcNotExist, "数据中心不存在");
  (GroupNameDup, "组名字重复");
  (GroupNotExist, "组不存在");
  (GroupInUse, "组正在使用中");
  (NodeDup, "节点已经存在");
  (NodeAddressDup, "节点地址重复");
  (NodeIdDup, "节点ID重复");
  (NodeNotExist, "节点不存在");
  (NodeSetEdgeNodeAsMasterFail, "不允许将边缘节点设置为主节点");
  (NodeConfigInUse, "节点配置正在使用中");
  (GetInfoFailed, "获取信息失败");
  (ShardDupFailed, "shard降级失败");
  (AssignTableShardListNumTooLarge, "要分配的分片列表个数大于分片个数");
  (MachineCategoryDup, "机器资源分类已经存在");
  (MachineCategoryNotExists, "机器资源分类不存在");
  (MachineCategoryDeleteWhenMachineExists, "当前机器资源分类下仍有机器，不能删除");
  (MachineDup, "机器资源已经存在");
  (MachineNotExists, "机器资源不存在");
  (MachineInUse, "机器正在被使用中");
  (AnsibleConfigDup, "Ansible 配置已经存在");
  (AnsibleConfigNotExists, "Ansible 配置不存在");
  (AnsibleConfigInUse, "Ansible 正在使用中");
  (AnsibleUnknownTags, "不支持的 AnsiblePlaybook Tags");
  (AnsibleGroupHasNoTask, "没有当前组的任务信息");
  (AnsibleGroupHasTaskInProgress, "当前组仍有任务在执行中");
  (AnsibleParamsError, "参数错误");
  (TicketDup, "工单已经存在");
  (TicketNotExists, "工单不存在");
  (TicketCanotHandle, "没有权限处理");
  (ReportQueryPrometheusFailed, "Prometheus 查询失败");
  (ReportPrometheusEmptyResult, "Prometheus 结果为空");
  (ReportPrometheusInvalidValueStruct, "Promethues 无效的 Value 结构");
  (ReportPrometheusInvalidValueType, "Promethues 无效的 Value 类型");
  (ReportPrometheusInvalidResponse, "Promethues 无效的 Response")].

(** ** Statuses *)

Record Status := mkStatus {
  st_code : Z;
  st_message : string;
  st_where : string
}.

#[export] Instance Status_eq_dec : EqDecision Status.
Proof. solve_decision. Defined.

Section Status.
Context `{Runtime}.

(** [filepath.Base]: the last element of a path. *)
Definition filepath_Base (path : string) : string :=
  match last (filter (λ e, e ≠ "") (strings_Split "/" path)) with
  | Some e => e
  | None => if String.eqb path "" then "." else "/"
  end.

Definition caller (calldepth : Z) (short : bool) : string :=
  let '(file, line) := match runtime_Caller (calldepth + 1) with
                       | None => ("???", 0)
                       | Some (file, line) =>
                           (if short then filepath_Base file else file, line)
                       end in
  file +:+ ":" +:+ Itoa line.

Definition StatusOk : Status := mkStatus OK "" "".

Definition StatusError (code : Z) : Status :=
  let message := default "未知错误" (statusMessages !! code) in
  mkStatus code message (caller 1 false).

Definition StatusWithMessage (code : Z) (message : string) : Status :=
  mkStatus code message (caller 1 false).

Definition StatusWithError (err : option error) : Status :=
  let code := OK in
  let msg := "" in
  let '(code, msg) := match err with
                      | Some e => (ERROR, err_msg e)
                      | None => (code, msg)
                      end in
  mkStatus (u32 code) msg "".

Definition StatusErrorWhere (code : Z) (message : string) (callDepth : Z) : Status :=
  mkStatus code message (caller callDepth false).
End Status.

Definition Status_Ok (status : Status) : bool := Z.eqb (st_code status) OK.
Definition Status_Code (status : Status) : Z := st_code status.
Definition Status_Error (status : Status) : string := st_message status.
Definition Status_Where (status : Status) : string := st_where status.

(** ** Lemmas *)

Lemma StatusError_code `{Runtime} code : Status_Code (StatusError code) = code.
Proof. done. Qed.

(** A status made from an error is OK exactly when there was no error. *)
Lemma StatusWithError_Ok err : Status_Ok (StatusWithError err) = bool_decide (err = None).
Proof. by destruct err. Qed.

(** No two codes are equal, so a caller that compares codes tells them apart. *)
Lemma codes_distinct :
  NoDup [OK; ERROR; ParamsInvalid; HttpRequestError; ServiceDup; FeatureNameDup; ViewNameDup; ViewNotFound; TableNameDup; TableNotExists; DatabaseNameDup; DatabaseNotExists; DatabaseInUse; ConsulLoadJsonFailed; ConsulPutKVFailed; ConsulGetKVFailed; GetServerListFailed; GetValueFromServerFailed; TableConfigNameDup; TableConfigNotExists; TableConfigInUse; TokenInvalid; TokenExpired; PermissionDenied; ClusterParserError; ClusterNameDup; ClusterNotExist; DcNameDup; DcNotExist; ShardLeaderDup; ShardVersionNotFound; GroupNameDup; GroupNotExist; GroupInUse; VersionChangeApiError; NodeDup; NodeAddressDup; NodeIdDup; NodeNotExist; NodeSetEdgeNodeAsMasterFail; NodeConfigInUse; GetInfoFailed; ShardDupFailed; AssignTableShardListNumTooLarge; MachineCategoryDup; MachineCategoryNotExists; MachineCategoryDeleteWhenMachineExists; MachineDup; MachineNotExists; MachineInUse; AnsibleConfigDup; AnsibleConfigNotExists; AnsibleConfigInUse; AnsibleUnknownTags; AnsibleGroupHasNoTask; AnsibleGroupHasTaskInProgress; AnsibleParamsError; TicketDup; TicketNotExists; TicketCanotHandle; ReportQueryPrometheusFailed; ReportPrometheusEmptyResult; ReportPrometheusInvalidValueStruct; ReportPrometheusInvalidValueType; ReportPrometheusInvalidResponse].
Proof. apply (bool_decide_unpack _). vm_compute. exact I. Qed.

(** The real call stack of a program with one frame, for evaluation. *)
Definition main_go : Runtime := {| runtime_Caller _ := Some ("main.go", 1) |}.
