(* ===== verification/GoLib.v ===== *)
(** * Pieces of Go's library the control plane uses

    Sorting (package [sort]: any order of equal elements), [float64] as binary64
    of the standard library's [SpecFloat], the conversions of [strconv] and
    [strings], and copying a value through [encoding/json]. *)

From Stdlib Require Export SpecFloat.
From S2P Require Import Prelude RouterTypes Registry.

(** ** Sorting

    [sort.Sort] and [sort.Slice] promise a sorted permutation and leave the order
    of equal elements open; [sort.SliceStable] keeps it, which no theorem needs.  A theorem for every
    [GoSort] holds for every algorithm. *)

(** [less] is a strict weak order, what package [sort] asks for. *)
Record weak_order {A} (less : A → A → bool) : Prop := {
  less_asym a b : less a b = true → less b a = false;
  less_cotrans a b c : less a c = true → less a b = true ∨ less b c = true
}.

(** No element is less than one before it. *)
Abbreviation sorted less := (StronglySorted (λ a b, less b a = false)).

Class GoSort := {
  sort_Sort : ∀ {A}, (A → A → bool) → list A → list A;
  sort_SliceStable : ∀ {A}, (A → A → bool) → list A → list A;
  sort_Sort_perm : ∀ {A} (less : A → A → bool) l, sort_Sort less l ≡ₚ l;
  sort_Sort_sorted : ∀ {A} (less : A → A → bool) l,
    weak_order less → sorted less (sort_Sort less l);
  sort_SliceStable_perm : ∀ {A} (less : A → A → bool) l, sort_SliceStable less l ≡ₚ l;
  sort_SliceStable_sorted : ∀ {A} (less : A → A → bool) l,
    weak_order less → sorted less (sort_SliceStable less l)
}.

(** [sort.Reverse]. *)
Definition sort_Reverse {A} (less : A → A → bool) (a b : A) : bool := less b a.

(** ** [float64] *)

Abbreviation double := spec_float.

Definition f64_of_Z (z : Z) : double := binary_normalize 53 1024 z 0 false.
Definition f64_zero : double := S754_zero false.
Definition f64_add : double → double → double := SFadd 53 1024.
Definition f64_sub : double → double → double := SFsub 53 1024.
Definition f64_mul : double → double → double := SFmul 53 1024.
Definition f64_div : double → double → double := SFdiv 53 1024.

(** [math.Ceil]: the least integer at or above, with the sign of the argument. *)
Definition math_Ceil (x : double) : double :=
  match x with
  | S754_finite s m e =>
      if Z.leb 0 e then x
      else let z := if s then - Z.div (Zpos m) (2 ^ (- e)) else - Z.div (Zneg m) (2 ^ (- e)) in
           if Z.eqb z 0 then S754_zero s else f64_of_Z z
  | _ => x
  end.

(** The integer part of a finite number. *)
Definition f64_trunc (x : double) : option Z :=
  match x with
  | S754_zero _ => Some 0
  | S754_finite s m e =>
      let a := if Z.leb 0 e then Zpos m * 2 ^ e else Z.div (Zpos m) (2 ^ (- e)) in
      Some (if s then - a else a)
  | _ => None
  end.

(** Converting a number that does not fit, or is no number, to an unsigned
    integer gives an implementation-dependent value of the type. *)
Class FloatToUint := {
  f64_to_uint_other : Z → double → Z;
  f64_to_uint_other_range : ∀ w x, 0 ≤ w → 0 ≤ f64_to_uint_other w x < 2 ^ w
}.

(** [uint32(x)], [uint64(x)]. *)
Definition f64_to_uint `{FloatToUint} (w : Z) (x : double) : Z :=
  match f64_trunc x with
  | Some z => if (Z.leb 0 z && Z.ltb z (2 ^ w))%bool then z else f64_to_uint_other w x
  | None => f64_to_uint_other w x
  end.

(** ** Numbers and white space in strings *)

(** [strconv.ParseUint(s, 10, 32)], [None] for its errors. *)
Definition ParseUint32 (s : string) : option Z :=
  n ← digits s; if Z.ltb n (2 ^ 32) then Some n else None.

(** Unicode's white space in UTF-8. *)
Definition white_space : list (list Ascii.ascii) :=
  let b := Ascii.ascii_of_N in
  ((λ c, [b c]) <$> [9; 10; 11; 12; 13; 32]%N) ++
  ((λ c, [b 194%N; b c]) <$> [133; 160]%N) ++
  [[b 225%N; b 154%N; b 128%N]] ++
  ((λ c, [b 226%N; b 128%N; b c]) <$>
     [128; 129; 130; 131; 132; 133; 134; 135; 136; 137; 138; 168; 169; 175]%N) ++
  [[b 226%N; b 129%N; b 159%N]; [b 227%N; b 128%N; b 128%N]].

Fixpoint strip_prefix (p l : list Ascii.ascii) : option (list Ascii.ascii) :=
  match p, l with
  | [], _ => Some l
  | a :: p, b :: l => if Ascii.eqb a b then strip_prefix p l else None
  | _, [] => None
  end.

(** Drop prefixes from [ws] as long as there is one; the text itself is fuel
    enough, since every one is at least a byte long. *)
Fixpoint trim_left (ws : list (list Ascii.ascii)) (fuel l : list Ascii.ascii)
  : list Ascii.ascii :=
  match fuel with
  | [] => l
  | _ :: fuel => match head (omap (λ p, strip_prefix p l) ws) with
                 | Some l' => trim_left ws fuel l'
                 | None => l
                 end
  end.

(** [strings.TrimSpace]. *)
Definition strings_TrimSpace (s : string) : string :=
  let l := list_ascii_of_string s in
  let l := trim_left white_space l l in
  let r := reverse l in
  string_of_list_ascii (reverse (trim_left (reverse <$> white_space) r r)).

(** ** Copying through JSON

    [s, _ := json.Marshal(x); _ = json.Unmarshal(s, &y)], both errors ignored. *)

Definition json_copy {A} `{Json A} (x y : A) : A :=
  match json_Marshal x with
  | inl s => (json_Unmarshal s y).1
  | inr _ => (json_Unmarshal "" y).1
  end.

(** What [encoding/json] promises of a type without unexported fields: what was
    written is read back into a zero value, and nothing is read from the empty
    string. *)
Class JsonLaws (A : Type) `{Json A} (zero : A) := {
  json_roundtrip x s : json_Marshal x = inl s → json_Unmarshal s zero = (x, None);
  json_empty : (json_Unmarshal "" zero).1 = zero
}.

(** A copy into a zero value is the value, or zero when it cannot be written. *)
Lemma json_copy_spec {A} (zero : A) `{JsonLaws A zero} x :
  json_copy x zero = match json_Marshal x with inl _ => x | inr _ => zero end.
Proof.
  unfold json_copy. destruct (json_Marshal x) as [s|] eqn:E; [|apply json_empty].
  by rewrite (json_roundtrip _ _ E).
Qed.

Lemma json_copy_zero {A} (zero : A) `{JsonLaws A zero} : json_copy zero zero = zero.
Proof. rewrite (json_copy_spec zero zero). by destruct (json_Marshal zero). Qed.

(** ** Lemmas on numbers in strings *)

Lemma ParseUint32_Itoa n : 0 ≤ n < 2 ^ 32 → ParseUint32 (Itoa n) = Some n.
Proof.
  intros Hn. unfold ParseUint32. destruct (Itoa_digits n) as (_ & -> & _); [lia|]. cbn [mbind option_bind].
  by destruct (Z.ltb_spec n (2 ^ 32)); [|lia].
Qed.

(** White space starts and ends with bytes that are no digits. *)
Lemma white_space_digits ws l :
  ws = white_space ∨ ws = reverse <$> white_space →
  match l with c :: _ => digit c ≠ None | [] => True end → omap (λ p, strip_prefix p l) ws = [].
Proof.
  intros Hws Hc.
  assert (Forall (λ p, match p with c :: _ => bool_decide (digit c = None) | [] => false end = true) ws) as Hall.
  { destruct Hws as [-> | ->]; apply (bool_decide_unpack _); vm_compute; exact I. }
  clear Hws. induction Hall as [|p ws Hp Hall IH]; [done|]. cbn [omap list_omap]. rewrite IH.
  destruct p as [|a p]; [done|]. cbn. destruct l as [|b l]; [done|].
  apply bool_decide_eq_true_1 in Hp. by destruct (Ascii.eqb_spec a b) as [->|].
Qed.

Lemma trim_left_digits ws l :
  ws = white_space ∨ ws = reverse <$> white_space →
  Forall (λ c, digit c ≠ None) l → trim_left ws l l = l.
Proof.
  intros Hws Hl. destruct l as [|c l]; [done|]. cbn [trim_left].
  apply Forall_cons in Hl as [Hc _]. by rewrite white_space_digits.
Qed.

Lemma strings_TrimSpace_digits s : all_digits s = true → strings_TrimSpace s = s.
Proof.
  intros Hs. assert (Forall (λ c, digit c ≠ None) (list_ascii_of_string s)) as Hl.
  { induction s as [|c s IH]; cbn in *; [constructor|].
    destruct (digit c) eqn:E; [|done]. constructor; [by rewrite E|auto]. }
  unfold strings_TrimSpace. rewrite (trim_left_digits white_space) by (done || by left).
  rewrite trim_left_digits; [|by right|by apply Forall_reverse].
  rewrite reverse_involutive. apply string_of_list_ascii_of_string.
Qed.

(** ** Lemmas on sorting *)

Section Sorting.
Context {A : Type} (less : A → A → bool).

Lemma weak_order_trans : weak_order less → ∀ a b c,
  less b a = false → less c b = false → less c a = false.
Proof.
  intros W a b c Hba Hcb. destruct (less c a) eqn:E; [|done].
  destruct (less_cotrans _ W c b a E); congruence.
Qed.

Lemma weak_order_reverse : weak_order less → weak_order (sort_Reverse less).
Proof.
  unfold sort_Reverse. intros W. split; [intros; by apply (less_asym _ W)|].
  intros a b c Hca. destruct (less_cotrans _ W c b a Hca); auto.
Qed.

(** The head of a sorted list is least. *)
Lemma sorted_head a l b : sorted less (a :: l) → weak_order less → b ∈ a :: l → less b a = false.
Proof.
  intros Hs W Hb. apply StronglySorted_inv in Hs as [_ Hf].
  apply elem_of_cons in Hb as [->|Hb]; [|by apply (proj1 (Forall_forall _ _) Hf)].
  destruct (less a a) eqn:E; [|done]. pose proof (less_asym _ W _ _ E). congruence.
Qed.
End Sorting.

(** Comparing by a number is a weak order. *)
Lemma weak_order_by {A} (f : A → Z) : weak_order (λ a b, Z.ltb (f a) (f b)).
Proof. split; intros *; rewrite !Z.ltb_lt; rewrite ?Z.ltb_ge; lia. Qed.

Lemma weak_order_Z : weak_order Z.ltb.
Proof. apply (weak_order_by id). Qed.

Lemma sorted_Z_le (l : list Z) : sorted Z.ltb l → StronglySorted Z.le l.
Proof.
  induction 1 as [|a l Hl IH Hf]; constructor; [done|].
  eapply Forall_impl; [exact Hf|]. cbn. intros b Hb. by apply Z.ltb_ge.
Qed.

(** A sorted list of integers is determined by its elements. *)
Lemma sorted_Z_unique (l1 l2 : list Z) : l1 ≡ₚ l2 → sorted Z.ltb l1 → sorted Z.ltb l2 → l1 = l2.
Proof.
  intros Hp H1 H2. apply (StronglySorted_unique Z.le); [by apply sorted_Z_le..|done].
Qed.

#[export] Hint Resolve weak_order_by weak_order_Z weak_order_reverse : laser.

(** ** A concrete sort, conversion and copy *)

Section Merge.
Context {A : Type} (less : A → A → bool).

#[local] Instance less_le_dec : RelDecision (λ a b, less b a = false).
Proof. intros a b. apply _. Defined.

Definition merge_by (l : list A) : list A := merge_sort (λ a b, less b a = false) l.

Lemma merge_by_perm l : merge_by l ≡ₚ l.
Proof. apply merge_sort_Permutation. Qed.

Lemma merge_by_sorted l : weak_order less → sorted less (merge_by l).
Proof.
  intros W. apply StronglySorted_merge_sort.
  - intros a b c. by apply weak_order_trans.
  - intros a b. destruct (less b a) eqn:E; [right; by apply (less_asym _ W)|by left].
Qed.
End Merge.

Definition merge_sorting : GoSort :=
  {| sort_Sort A less l := merge_by less l;
     sort_SliceStable A less l := merge_by less l;
     sort_Sort_perm A less l := merge_by_perm less l;
     sort_Sort_sorted A less l := merge_by_sorted less l;
     sort_SliceStable_perm A less l := merge_by_perm less l;
     sort_SliceStable_sorted A less l := merge_by_sorted less l |}.

Definition amd64_uint : FloatToUint.
Proof.
  refine {| f64_to_uint_other w _ := 2 ^ w - 1 |}.
  intros w _ Hw. pose proof (Z.pow_pos_nonneg 2 w). lia.
Defined.

(** A JSON that writes the values of a list, each as its position, and no other. *)
Definition position (i : nat) : string := "#" +:+ pretty i.

Definition table_json {A} `{EqDecision A} (l : list A) : Json A :=
  {| json_Marshal x := match list_find (x =.) l with
                       | Some (i, _) => inl (position i)
                       | None => inr (mkError "unsupported value" false)
                       end;
     json_Unmarshal s y := match list_find (λ i, position i = s) (seq 0 (length l)) with
                           | Some (i, _) => (default y (l !! i), None)
                           | None => (y, Some (mkError "EOF" false))
                           end |}.

Lemma table_json_laws {A} `{EqDecision A} (l : list A) (zero : A) :
  JsonLaws (H:=table_json l) A zero.
Proof.
  split; cbn.
  - intros x s. destruct (list_find _ l) as [[i y]|] eqn:E; [|done]. intros [= <-].
    apply list_find_Some in E as (Hi & <- & _).
    assert (list_find (λ j, position j = position i) (seq 0 (length l)) = Some (i, i)) as ->.
    { apply list_find_Some. apply lookup_lt_Some in Hi as Hlt.
      split; [by rewrite lookup_seq_lt|split; [done|]].
      intros j y [-> _]%lookup_seq Hj Heq. injection Heq as Heq.
      change (pretty j = pretty i) in Heq. apply (inj pretty) in Heq. lia. }
    cbn. by rewrite Hi.
  - destruct (list_find _ _) as [[i y]|] eqn:E; [|done]. by apply list_find_Some in E as (_ & Hp & _).
Qed.

#[export] Instance spec_float_eq_dec : EqDecision spec_float.
Proof. solve_decision. Defined.
