(* ===== verification/Doubles.v ===== *)
(** * The size of a double

    How large the results of the [float64] operations of [GoLib] are: a conversion
    from an integer, a quotient and a product keep the number of binary digits of
    their operands, whatever the rounding, so that a comparison with a constant is
    decided by the digits alone.  [StatusManager] decides with them how far apart
    two sequence numbers may be. *)

From Stdlib Require Import SpecFloat.
From S2P Require Import Prelude GoLib.

(** ** Digits *)

(** At least [2 ^ (k - 1)], with an exponent to match. *)
Definition mag_ge (k : Z) (x : double) : Prop :=
  match x with
  | S754_infinity false => True
  | S754_finite false m e => k ≤ Zdigits2 (Zpos m) + e ∧ k - 53 ≤ e
  | _ => False
  end.

Lemma digits2_bounds p : 2 ^ (Zpos (digits2_pos p) - 1) ≤ Zpos p < 2 ^ Zpos (digits2_pos p).
Proof.
  induction p as [p IH|p IH|]; cbn [digits2_pos]; [| |done];
    rewrite Pos2Z.inj_succ, Z.sub_1_r, Z.pred_succ, Z.pow_succ_r by done;
    replace (2 ^ Zpos (digits2_pos p)) with (2 * 2 ^ (Zpos (digits2_pos p) - 1)) in *
      by (rewrite <- Z.pow_succ_r by lia; f_equal; lia); lia.
Qed.

Lemma digits_ge k m : 0 ≤ k → 2 ^ k ≤ m → k + 1 ≤ Zdigits2 m.
Proof.
  intros Hk Hm. assert (0 < 2 ^ k) by (by apply Z.pow_pos_nonneg). destruct m as [|p|p]; try lia. cbn.
  destruct (digits2_bounds p) as [_ Hp]. assert (2 ^ k < 2 ^ Zpos (digits2_pos p)) as Hlt by lia.
  apply Z.pow_lt_mono_r_iff in Hlt; lia.
Qed.

Lemma digits_le k m : 0 < m < 2 ^ k → 0 ≤ k → Zdigits2 m ≤ k.
Proof.
  intros Hm Hk. destruct m as [|p|p]; try lia. cbn. destruct (digits2_bounds p) as [Hp _].
  assert (2 ^ (Zpos (digits2_pos p) - 1) < 2 ^ k) as Hlt by lia. apply Z.pow_lt_mono_r_iff in Hlt; lia.
Qed.

Lemma digits_pos m : 0 < m → 1 ≤ Zdigits2 m ∧ 2 ^ (Zdigits2 m - 1) ≤ m < 2 ^ Zdigits2 m.
Proof. intros Hm. destruct m as [|p|p]; try lia. pose proof (digits2_bounds p). cbn. lia. Qed.

(** Shifting right drops as many digits as steps. *)
Lemma shr_1_digits r : 1 < Zdigits2 (shr_m r) → 0 < shr_m r →
  0 < shr_m (shr_1 r) ∧ Zdigits2 (shr_m (shr_1 r)) = Zdigits2 (shr_m r) - 1.
Proof. destruct r as [[|[p|p|]|p] g s]; cbn; lia. Qed.

Lemma iter_pos_nat {A} (f : A → A) p x : iter_pos f p x = Nat.iter (Pos.to_nat p) f x.
Proof.
  revert x. induction p as [p IH|p IH|]; intros x; cbn [iter_pos]; [| |done].
  - rewrite !IH, <- Nat.iter_add, Pos2Nat.inj_xI.
    replace (S (2 * Pos.to_nat p))%nat with (Pos.to_nat p + Pos.to_nat p + 1)%nat by lia. by rewrite (Nat.iter_add _ 1).
  - rewrite !IH, <- Nat.iter_add, Pos2Nat.inj_xO. f_equal. lia.
Qed.

Lemma shr_digits r e n : 0 < shr_m r → n < Zdigits2 (shr_m r) →
  let '(r', e') := shr r e n in
  0 < shr_m r' ∧ Zdigits2 (shr_m r') = Zdigits2 (shr_m r) - Z.max n 0 ∧ e' = e + Z.max n 0.
Proof.
  intros Hm Hn. destruct n as [|p|p]; cbn [shr]; [lia| |lia].
  rewrite iter_pos_nat. rewrite <- positive_nat_Z in *. generalize dependent (Pos.to_nat p). intros k.
  induction k as [|k IH]; intros Hk; [cbn; lia|]. destruct IH as (Hm' & Hd & _); [lia|].
  rewrite Nat.iter_succ.
  destruct (shr_1_digits (Nat.iter k shr_1 r)) as [Hp Hd']; lia.
Qed.

Lemma shr_fexp_digits m e l : 0 < m → -1074 < Zdigits2 m + e →
  let '(r, e') := shr_fexp 53 1024 m e l in
  0 < shr_m r ∧ Zdigits2 (shr_m r) + e' = Zdigits2 m + e ∧ Zdigits2 m + e - 53 ≤ e'.
Proof.
  intros Hm He. unfold shr_fexp. assert (shr_m (shr_record_of_loc m l) = m) as Er by (by destruct l as [|[]]).
  pose proof (shr_digits (shr_record_of_loc m l) e (fexp 53 1024 (Zdigits2 m + e) - e)) as H. rewrite Er in H.
  assert (fexp 53 1024 (Zdigits2 m + e) = Z.max (Zdigits2 m + e - 53) (-1074)) as Ef by done.
  destruct (shr _ e _) as [r e']. pose proof (digits_pos m Hm). destruct H as (H1 & H2 & H3); lia.
Qed.

(** Rounding keeps the size. *)
Lemma round_mag m e l : 0 < m → -1074 < Zdigits2 m + e → mag_ge (Zdigits2 m + e) (binary_round_aux 53 1024 false m e l).
Proof.
  intros Hm He. unfold binary_round_aux. pose proof (shr_fexp_digits m e l Hm He) as H1.
  destruct (shr_fexp 53 1024 m e l) as [r1 e1]. destruct H1 as (Hp1 & Hs1 & He1).
  set (m1 := round_nearest_even _ _).
  assert (shr_m r1 ≤ m1) as Hle by (unfold m1, round_nearest_even; destruct (loc_of_shr_record r1) as [|[]]; try destruct (Z.even _); lia).
  assert (Zdigits2 (shr_m r1) ≤ Zdigits2 m1) as Hd.
  { destruct (digits_pos (shr_m r1) Hp1) as [Hd1 [Hd2 _]].
    pose proof (digits_ge (Zdigits2 (shr_m r1) - 1) m1 ltac:(lia) ltac:(lia)). lia. }
  pose proof (shr_fexp_digits m1 e1 loc_Exact ltac:(lia) ltac:(lia)) as H2.
  destruct (shr_fexp 53 1024 m1 e1 loc_Exact) as [r2 e2]. destruct H2 as (Hp2 & Hs2 & He2).
  destruct (shr_m r2) as [|p|p]; try lia. destruct (Z.leb e2 _); [|done]. unfold mag_ge. lia.
Qed.

Lemma Pos_iter_xO (m : positive) d : Zpos (Pos.iter xO m d) = Zpos m * 2 ^ Zpos d.
Proof.
  induction d as [|d IH] using Pos.peano_ind; [cbn; lia|].
  rewrite Pos.iter_succ, Pos2Z.inj_succ, Z.pow_succ_r by done. change (Zpos (Pos.iter xO m d)~0) with (2 * Zpos (Pos.iter xO m d)).
  rewrite IH. ring.
Qed.

Lemma digits_shift m n : 0 < m → 0 ≤ n → Zdigits2 (m * 2 ^ n) = Zdigits2 m + n.
Proof.
  intros Hm Hn. destruct (digits_pos m Hm) as (Hd & Hlo & Hhi). assert (0 < 2 ^ n) by (by apply Z.pow_pos_nonneg).
  assert (2 ^ (Zdigits2 m - 1 + n) ≤ m * 2 ^ n < 2 ^ (Zdigits2 m + n)) as [H1 H2] by (rewrite !Z.pow_add_r by lia; nia).
  pose proof (digits_ge (Zdigits2 m - 1 + n) (m * 2 ^ n) ltac:(lia) H1). pose proof (digits_le (Zdigits2 m + n) (m * 2 ^ n) ltac:(nia) ltac:(lia)). lia.
Qed.

Lemma fexp_def e : fexp 53 1024 e = Z.max (e - 53) (-1074).
Proof. done. Qed.

(** A number is as large as a double, and exact where it has at most 53 digits. *)
Lemma f64_of_Z_mag z : 0 < z → mag_ge (Zdigits2 z) (f64_of_Z z).
Proof.
  intros Hz. destruct z as [|p|p]; try lia. unfold f64_of_Z, binary_normalize, binary_round, shl_align.
  destruct (digits_pos (Zpos p) Hz) as [Hd _]. cbn [Zdigits2] in *.
  assert (fexp 53 1024 (Zpos (digits2_pos p) + 0) = Zpos (digits2_pos p) - 53) as -> by (rewrite fexp_def; lia).
  destruct (Zpos (digits2_pos p) - 53 - 0) as [|d|d] eqn:Ed.
  1,2: pose proof (round_mag (Zpos p) 0 loc_Exact Hz ltac:(cbn; lia)) as H; cbn [Zdigits2] in H; by rewrite Z.add_0_r in H.
  assert (Zdigits2 (Zpos (Pos.iter xO p d)) = 53) as E53 by (rewrite Pos_iter_xO, digits_shift by lia; cbn; lia).
  pose proof (round_mag (Zpos (Pos.iter xO p d)) (Zpos (digits2_pos p) - 53) loc_Exact ltac:(lia) ltac:(lia)) as H.
  rewrite E53 in H. by replace (53 + (Zpos (digits2_pos p) - 53)) with (Zpos (digits2_pos p)) in H by lia.
Qed.

Lemma f64_of_Z_exact z : 0 < z < 2 ^ 53 → ∃ m, f64_of_Z z = S754_finite false m (Zdigits2 z - 53) ∧ Zdigits2 (Zpos m) = 53.
Proof.
  intros Hz. destruct z as [|p|p]; try lia. unfold f64_of_Z, binary_normalize, binary_round, shl_align.
  pose proof (digits_le 53 (Zpos p) ltac:(lia) ltac:(lia)) as Hd. destruct (digits_pos (Zpos p) ltac:(lia)) as [Hd1 _].
  cbn [Zdigits2] in *.
  assert (fexp 53 1024 (Zpos (digits2_pos p) + 0) = Zpos (digits2_pos p) - 53) as -> by (rewrite fexp_def; lia).
  assert (∃ m e, (match Zpos (digits2_pos p) - 53 - 0 with Zneg d => (Pos.iter xO p d, Zpos (digits2_pos p) - 53) | _ => (p, 0) end)
    = (m, e) ∧ Zdigits2 (Zpos m) = 53 ∧ e = Zpos (digits2_pos p) - 53) as (m & e & -> & Hm & ->).
  { destruct (Zpos (digits2_pos p) - 53 - 0) as [|d|d] eqn:Ed; [|lia|].
    - eexists _, _. split; [done|]. cbn. lia.
    - eexists _, _. split; [done|]. split; [rewrite Pos_iter_xO, digits_shift by lia; cbn; lia|lia]. }
  exists m. split; [|done]. set (e := Zpos (digits2_pos p) - 53) in *.
  assert (shr_fexp 53 1024 (Zpos m) e loc_Exact = (Build_shr_record (Zpos m) false false, e)) as Eshr.
  { unfold shr_fexp. rewrite Hm. replace (fexp 53 1024 (53 + e) - e) with 0 by (rewrite fexp_def; lia). done. }
  unfold binary_round_aux. rewrite Eshr. cbn [shr_m loc_of_shr_record round_nearest_even]. rewrite Eshr. cbn [shr_m].
  by replace (Z.leb e (1024 - 53)) with true by (symmetry; apply Z.leb_le; lia).
Qed.

Lemma f64_div_mag k x m e :
  mag_ge k x → Zdigits2 (Zpos m) + e < k → mag_ge (k - (Zdigits2 (Zpos m) + e)) (f64_div x (S754_finite false m e)).
Proof.
  intros Hx Hk. destruct x as [s|[]| |[] m1 e1]; try done. destruct Hx as [Hx _]. unfold f64_div, SFdiv, SFdiv_core_binary.
  set (D1 := Zdigits2 (Zpos m1)) in *. set (D2 := Zdigits2 (Zpos m)) in *.
  set (e' := Z.min (fexp 53 1024 (D1 + e1 - (D2 + e))) (e1 - e)).
  assert (e' ≤ e1 - e ∧ e' ≤ D1 + e1 - (D2 + e) - 53) as [He1 He2].
  { subst e'. assert (fexp 53 1024 (D1 + e1 - (D2 + e)) = Z.max (D1 + e1 - (D2 + e) - 53) (-1074)) as -> by done. lia. }
  set (s := e1 - e - e') in *.
  assert (match s with Z0 => Zpos m1 | Zpos _ => Z.shiftl (Zpos m1) s | Zneg _ => 0 end = Zpos m1 * 2 ^ s) as ->.
  { destruct s as [|q|q] eqn:Es; [by rewrite Z.pow_0_r, Z.mul_1_r|by rewrite Z.shiftl_mul_pow2|lia]. }
  destruct (Z.div_eucl _ _) as [q r] eqn:Eq.
  assert (q = (Zpos m1 * 2 ^ s) / Zpos m) as -> by (unfold Z.div; by rewrite Eq).
  destruct (digits_pos (Zpos m1) ltac:(lia)) as (_ & Hlo & _). destruct (digits_pos (Zpos m) ltac:(lia)) as (_ & _ & Hhi).
  fold D1 in Hlo. fold D2 in Hhi.
  assert (2 ^ (D1 + s - D2 - 1) ≤ Zpos m1 * 2 ^ s / Zpos m) as Hq.
  { apply Z.div_le_lower_bound; [lia|].
    assert (2 ^ (D1 - 1) * 2 ^ s = 2 ^ (D1 + s - D2 - 1) * 2 ^ D2) as E
      by (rewrite <- !Z.pow_add_r by (unfold D1, D2; destruct (digits_pos (Zpos m1)), (digits_pos (Zpos m)); lia); f_equal; lia).
    assert (0 < 2 ^ s) by (apply Z.pow_pos_nonneg; lia). assert (0 < 2 ^ (D1 + s - D2 - 1)) by (apply Z.pow_pos_nonneg; lia). nia. }
  pose proof (digits_ge (D1 + s - D2 - 1) _ ltac:(lia) Hq) as Hdq.
  assert (0 < Zpos m1 * 2 ^ s / Zpos m) as Hqpos by (assert (0 < 2 ^ (D1 + s - D2 - 1)) by (apply Z.pow_pos_nonneg; lia); lia).
  pose proof (round_mag _ e' (new_location (Zpos m) r) Hqpos ltac:(lia)) as H. cbn [xorb].
  destruct (binary_round_aux _ _ _ _ _ _) as [|[]| |[]]; cbn in *; lia.
Qed.

Lemma f64_mul_mag k x m e :
  mag_ge k x → -1074 < k + (Zdigits2 (Zpos m) + e) - 1 →
  mag_ge (k + (Zdigits2 (Zpos m) + e) - 1) (f64_mul x (S754_finite false m e)).
Proof.
  intros Hx Hk. destruct x as [s|[]| |[] m1 e1]; try done. destruct Hx as [Hx _]. unfold f64_mul, SFmul. cbn [xorb].
  destruct (digits_pos (Zpos m1) ltac:(lia)) as (Hp1 & Hlo & _). destruct (digits_pos (Zpos m) ltac:(lia)) as (Hp2 & Hlo2 & _).
  set (D1 := Zdigits2 (Zpos m1)) in *. set (D2 := Zdigits2 (Zpos m)) in *.
  assert (2 ^ (D1 + D2 - 2) ≤ Zpos (m1 * m)) as Hm.
  { rewrite Pos2Z.inj_mul. replace (D1 + D2 - 2) with (D1 - 1 + (D2 - 1)) by lia. rewrite Z.pow_add_r by lia.
    assert (0 < 2 ^ (D1 - 1)) by (apply Z.pow_pos_nonneg; lia). assert (0 < 2 ^ (D2 - 1)) by (apply Z.pow_pos_nonneg; lia). nia. }
  pose proof (digits_ge (D1 + D2 - 2) _ ltac:(lia) Hm) as Hd.
  pose proof (round_mag (Zpos (m1 * m)) (e1 + e) loc_Exact ltac:(lia) ltac:(lia)) as H.
  destruct (binary_round_aux _ _ _ _ _ _) as [|[]| |[]]; cbn in *; lia.
Qed.

(** A double that is large enough is above another. *)
Lemma mag_above k x m e : mag_ge k x → e < k - 53 → SFcompare x (S754_finite false m e) = Some Gt.
Proof.
  intros Hx He. destruct x as [|[]| |[] m1 e1]; try done. destruct Hx as [_ Hx]. cbn.
  by replace (Z.compare e1 e) with Gt by (symmetry; apply Z.compare_gt_iff; lia).
Qed.

Lemma SFabs_mag k x : mag_ge k x → SFabs x = x.
Proof. by destruct x as [|[]| |[]]. Qed.
