(* ===== verification/LaserMethods.v ===== *)
(** * The methods of the Laser service
    ([sdk/go/laser_client/if/laser/laserservice.go])

    Every method of the interface: its two structs, its call through the client and
    through the client that goroutines share, and its function of the processor, each an
    instance of what LaserService.v has for all of them.  [Zadd] and [ZrangeByScore] of
    the client take floating-point scores and make integers of them first. *)

From Stdlib Require Import SpecFloat.
From S2P Require Import Prelude RouterTypes ThriftWire LaserTypes LaserWire LaserService GoLib.

(** ** The structs of the methods *)

Definition LaserServiceDelkeyArgs : args_desc :=
  mkArgs "*laser.LaserServiceDelkeyArgs" "delkey_args" [("key", PKey)].
Definition LaserServiceDelkeyResult : result_desc := mkResultDesc "*laser.LaserServiceDelkeyResult" "delkey_result".
Definition LaserServiceExistsArgs : args_desc :=
  mkArgs "*laser.LaserServiceExistsArgs" "exists_args" [("key", PKey)].
Definition LaserServiceExistsResult : result_desc := mkResultDesc "*laser.LaserServiceExistsResult" "exists_result".
Definition LaserServiceExpireArgs : args_desc :=
  mkArgs "*laser.LaserServiceExpireArgs" "expire_args" [("key", PKey); ("time", PI64)].
Definition LaserServiceExpireResult : result_desc := mkResultDesc "*laser.LaserServiceExpireResult" "expire_result".
Definition LaserServiceExpireAtArgs : args_desc :=
  mkArgs "*laser.LaserServiceExpireAtArgs" "expireAt_args" [("key", PKey); ("time_at", PI64)].
Definition LaserServiceExpireAtResult : result_desc := mkResultDesc "*laser.LaserServiceExpireAtResult" "expireAt_result".
Definition LaserServiceTtlArgs : args_desc :=
  mkArgs "*laser.LaserServiceTtlArgs" "ttl_args" [("key", PKey)].
Definition LaserServiceTtlResult : result_desc := mkResultDesc "*laser.LaserServiceTtlResult" "ttl_result".
Definition LaserServiceAppendArgs : args_desc :=
  mkArgs "*laser.LaserServiceAppendArgs" "append_args" [("key", PKey); ("value", PString)].
Definition LaserServiceAppendResult : result_desc := mkResultDesc "*laser.LaserServiceAppendResult" "append_result".
Definition LaserServiceGetArgs : args_desc :=
  mkArgs "*laser.LaserServiceGetArgs" "get_args" [("key", PKey)].
Definition LaserServiceGetResult : result_desc := mkResultDesc "*laser.LaserServiceGetResult" "get_result".
Definition LaserServiceSsetArgs : args_desc :=
  mkArgs "*laser.LaserServiceSsetArgs" "sset_args" [("kv", PKV)].
Definition LaserServiceSsetResult : result_desc := mkResultDesc "*laser.LaserServiceSsetResult" "sset_result".
Definition LaserServiceSetxArgs : args_desc :=
  mkArgs "*laser.LaserServiceSetxArgs" "setx_args" [("kv", PKV); ("option", PSetOption)].
Definition LaserServiceSetxResult : result_desc := mkResultDesc "*laser.LaserServiceSetxResult" "setx_result".
Definition LaserServiceMgetArgs : args_desc :=
  mkArgs "*laser.LaserServiceMgetArgs" "mget_args" [("keys", PKeys)].
Definition LaserServiceMgetResult : result_desc := mkResultDesc "*laser.LaserServiceMgetResult" "mget_result".
Definition LaserServiceMsetArgs : args_desc :=
  mkArgs "*laser.LaserServiceMsetArgs" "mset_args" [("values", PKVs)].
Definition LaserServiceMsetResult : result_desc := mkResultDesc "*laser.LaserServiceMsetResult" "mset_result".
Definition LaserServiceMgetDetailArgs : args_desc :=
  mkArgs "*laser.LaserServiceMgetDetailArgs" "mgetDetail_args" [("keys", PKeys)].
Definition LaserServiceMgetDetailResult : result_desc := mkResultDesc "*laser.LaserServiceMgetDetailResult" "mgetDetail_result".
Definition LaserServiceMsetDetailArgs : args_desc :=
  mkArgs "*laser.LaserServiceMsetDetailArgs" "msetDetail_args" [("values", PKVs); ("option", PSetOption)].
Definition LaserServiceMsetDetailResult : result_desc := mkResultDesc "*laser.LaserServiceMsetDetailResult" "msetDetail_result".
Definition LaserServiceMdelArgs : args_desc :=
  mkArgs "*laser.LaserServiceMdelArgs" "mdel_args" [("keys", PKeys)].
Definition LaserServiceMdelResult : result_desc := mkResultDesc "*laser.LaserServiceMdelResult" "mdel_result".
Definition LaserServiceExistArgs : args_desc :=
  mkArgs "*laser.LaserServiceExistArgs" "exist_args" [("key", PKey)].
Definition LaserServiceExistResult : result_desc := mkResultDesc "*laser.LaserServiceExistResult" "exist_result".
Definition LaserServiceDecrArgs : args_desc :=
  mkArgs "*laser.LaserServiceDecrArgs" "decr_args" [("key", PKey)].
Definition LaserServiceDecrResult : result_desc := mkResultDesc "*laser.LaserServiceDecrResult" "decr_result".
Definition LaserServiceIncrArgs : args_desc :=
  mkArgs "*laser.LaserServiceIncrArgs" "incr_args" [("key", PKey)].
Definition LaserServiceIncrResult : result_desc := mkResultDesc "*laser.LaserServiceIncrResult" "incr_result".
Definition LaserServiceDecrByArgs : args_desc :=
  mkArgs "*laser.LaserServiceDecrByArgs" "decrBy_args" [("key", PKey); ("step", PI64)].
Definition LaserServiceDecrByResult : result_desc := mkResultDesc "*laser.LaserServiceDecrByResult" "decrBy_result".
Definition LaserServiceIncrByArgs : args_desc :=
  mkArgs "*laser.LaserServiceIncrByArgs" "incrBy_args" [("key", PKey); ("step", PI64)].
Definition LaserServiceIncrByResult : result_desc := mkResultDesc "*laser.LaserServiceIncrByResult" "incrBy_result".
Definition LaserServiceHdelArgs : args_desc :=
  mkArgs "*laser.LaserServiceHdelArgs" "hdel_args" [("key", PKey); ("field", PString)].
Definition LaserServiceHdelResult : result_desc := mkResultDesc "*laser.LaserServiceHdelResult" "hdel_result".
Definition LaserServiceHexistsArgs : args_desc :=
  mkArgs "*laser.LaserServiceHexistsArgs" "hexists_args" [("key", PKey); ("field", PString)].
Definition LaserServiceHexistsResult : result_desc := mkResultDesc "*laser.LaserServiceHexistsResult" "hexists_result".
Definition LaserServiceHgetArgs : args_desc :=
  mkArgs "*laser.LaserServiceHgetArgs" "hget_args" [("key", PKey); ("field", PString)].
Definition LaserServiceHgetResult : result_desc := mkResultDesc "*laser.LaserServiceHgetResult" "hget_result".
Definition LaserServiceHsetArgs : args_desc :=
  mkArgs "*laser.LaserServiceHsetArgs" "hset_args" [("key", PKey); ("field", PString); ("value", PString)].
Definition LaserServiceHsetResult : result_desc := mkResultDesc "*laser.LaserServiceHsetResult" "hset_result".
Definition LaserServiceHgetallArgs : args_desc :=
  mkArgs "*laser.LaserServiceHgetallArgs" "hgetall_args" [("key", PKey)].
Definition LaserServiceHgetallResult : result_desc := mkResultDesc "*laser.LaserServiceHgetallResult" "hgetall_result".
Definition LaserServiceHkeysArgs : args_desc :=
  mkArgs "*laser.LaserServiceHkeysArgs" "hkeys_args" [("key", PKey)].
Definition LaserServiceHkeysResult : result_desc := mkResultDesc "*laser.LaserServiceHkeysResult" "hkeys_result".
Definition LaserServiceHlenArgs : args_desc :=
  mkArgs "*laser.LaserServiceHlenArgs" "hlen_args" [("key", PKey)].
Definition LaserServiceHlenResult : result_desc := mkResultDesc "*laser.LaserServiceHlenResult" "hlen_result".
Definition LaserServiceHmgetArgs : args_desc :=
  mkArgs "*laser.LaserServiceHmgetArgs" "hmget_args" [("key", PKey); ("fields", PStrings)].
Definition LaserServiceHmgetResult : result_desc := mkResultDesc "*laser.LaserServiceHmgetResult" "hmget_result".
Definition LaserServiceHmsetArgs : args_desc :=
  mkArgs "*laser.LaserServiceHmsetArgs" "hmset_args" [("key", PKey); ("value", PValue)].
Definition LaserServiceHmsetResult : result_desc := mkResultDesc "*laser.LaserServiceHmsetResult" "hmset_result".
Definition LaserServiceLindexArgs : args_desc :=
  mkArgs "*laser.LaserServiceLindexArgs" "lindex_args" [("key", PKey); ("index", PI32)].
Definition LaserServiceLindexResult : result_desc := mkResultDesc "*laser.LaserServiceLindexResult" "lindex_result".
Definition LaserServiceLlenArgs : args_desc :=
  mkArgs "*laser.LaserServiceLlenArgs" "llen_args" [("key", PKey)].
Definition LaserServiceLlenResult : result_desc := mkResultDesc "*laser.LaserServiceLlenResult" "llen_result".
Definition LaserServiceLpopArgs : args_desc :=
  mkArgs "*laser.LaserServiceLpopArgs" "lpop_args" [("key", PKey)].
Definition LaserServiceLpopResult : result_desc := mkResultDesc "*laser.LaserServiceLpopResult" "lpop_result".
Definition LaserServiceLpushArgs : args_desc :=
  mkArgs "*laser.LaserServiceLpushArgs" "lpush_args" [("key", PKey); ("value", PString)].
Definition LaserServiceLpushResult : result_desc := mkResultDesc "*laser.LaserServiceLpushResult" "lpush_result".
Definition LaserServiceLrangeArgs : args_desc :=
  mkArgs "*laser.LaserServiceLrangeArgs" "lrange_args" [("key", PKey); ("start", PI32); ("end", PI32)].
Definition LaserServiceLrangeResult : result_desc := mkResultDesc "*laser.LaserServiceLrangeResult" "lrange_result".
Definition LaserServiceRpopArgs : args_desc :=
  mkArgs "*laser.LaserServiceRpopArgs" "rpop_args" [("key", PKey)].
Definition LaserServiceRpopResult : result_desc := mkResultDesc "*laser.LaserServiceRpopResult" "rpop_result".
Definition LaserServiceRpushArgs : args_desc :=
  mkArgs "*laser.LaserServiceRpushArgs" "rpush_args" [("key", PKey); ("value", PString)].
Definition LaserServiceRpushResult : result_desc := mkResultDesc "*laser.LaserServiceRpushResult" "rpush_result".
Definition LaserServiceSaddArgs : args_desc :=
  mkArgs "*laser.LaserServiceSaddArgs" "sadd_args" [("key", PKey); ("member", PString)].
Definition LaserServiceSaddResult : result_desc := mkResultDesc "*laser.LaserServiceSaddResult" "sadd_result".
Definition LaserServiceScardArgs : args_desc :=
  mkArgs "*laser.LaserServiceScardArgs" "scard_args" [("req", PKey)].
Definition LaserServiceScardResult : result_desc := mkResultDesc "*laser.LaserServiceScardResult" "scard_result".
Definition LaserServiceSismemberArgs : args_desc :=
  mkArgs "*laser.LaserServiceSismemberArgs" "sismember_args" [("req", PKey); ("member", PString)].
Definition LaserServiceSismemberResult : result_desc := mkResultDesc "*laser.LaserServiceSismemberResult" "sismember_result".
Definition LaserServiceSremoveArgs : args_desc :=
  mkArgs "*laser.LaserServiceSremoveArgs" "sremove_args" [("req", PKey); ("member", PString)].
Definition LaserServiceSremoveResult : result_desc := mkResultDesc "*laser.LaserServiceSremoveResult" "sremove_result".
Definition LaserServiceSmembersArgs : args_desc :=
  mkArgs "*laser.LaserServiceSmembersArgs" "smembers_args" [("req", PKey)].
Definition LaserServiceSmembersResult : result_desc := mkResultDesc "*laser.LaserServiceSmembersResult" "smembers_result".
Definition LaserServiceZaddArgs : args_desc :=
  mkArgs "*laser.LaserServiceZaddArgs" "zadd_args" [("key", PKey); ("member_score", PValue)].
Definition LaserServiceZaddResult : result_desc := mkResultDesc "*laser.LaserServiceZaddResult" "zadd_result".
Definition LaserServiceZcardArgs : args_desc :=
  mkArgs "*laser.LaserServiceZcardArgs" "zcard_args" [("key", PKey)].
Definition LaserServiceZcardResult : result_desc := mkResultDesc "*laser.LaserServiceZcardResult" "zcard_result".
Definition LaserServiceZrankArgs : args_desc :=
  mkArgs "*laser.LaserServiceZrankArgs" "zrank_args" [("key", PKey); ("member", PString)].
Definition LaserServiceZrankResult : result_desc := mkResultDesc "*laser.LaserServiceZrankResult" "zrank_result".
Definition LaserServiceZscoreArgs : args_desc :=
  mkArgs "*laser.LaserServiceZscoreArgs" "zscore_args" [("key", PKey); ("member", PString)].
Definition LaserServiceZscoreResult : result_desc := mkResultDesc "*laser.LaserServiceZscoreResult" "zscore_result".
Definition LaserServiceZremArgs : args_desc :=
  mkArgs "*laser.LaserServiceZremArgs" "zrem_args" [("key", PKey); ("member", PString)].
Definition LaserServiceZremResult : result_desc := mkResultDesc "*laser.LaserServiceZremResult" "zrem_result".
Definition LaserServiceZrangeArgs : args_desc :=
  mkArgs "*laser.LaserServiceZrangeArgs" "zrange_args" [("key", PKey); ("start", PI64); ("stop", PI64)].
Definition LaserServiceZrangeResult : result_desc := mkResultDesc "*laser.LaserServiceZrangeResult" "zrange_result".
Definition LaserServiceZrangeByScoreArgs : args_desc :=
  mkArgs "*laser.LaserServiceZrangeByScoreArgs" "zrangeByScore_args" [("key", PKey); ("min", PI64); ("max", PI64)].
Definition LaserServiceZrangeByScoreResult : result_desc := mkResultDesc "*laser.LaserServiceZrangeByScoreResult" "zrangeByScore_result".
Definition LaserServiceZremRangeByScoreArgs : args_desc :=
  mkArgs "*laser.LaserServiceZremRangeByScoreArgs" "zremRangeByScore_args" [("key", PKey); ("min", PI64); ("max", PI64)].
Definition LaserServiceZremRangeByScoreResult : result_desc := mkResultDesc "*laser.LaserServiceZremRangeByScoreResult" "zremRangeByScore_result".

Section Structs.
Context {P : Type} {prot : Protocol P} {order : MapOrder}.

Definition LaserServiceDelkeyArgs_Read (fuel : nat) := args_Read (P:=P) LaserServiceDelkeyArgs fuel.
Definition LaserServiceDelkeyArgs_Write := args_Write (P:=P) LaserServiceDelkeyArgs.
Definition LaserServiceDelkeyResult_Read (fuel : nat) := result_Read (P:=P) LaserServiceDelkeyResult fuel.
Definition LaserServiceDelkeyResult_Write := result_Write (P:=P) LaserServiceDelkeyResult.
Definition LaserServiceExistsArgs_Read (fuel : nat) := args_Read (P:=P) LaserServiceExistsArgs fuel.
Definition LaserServiceExistsArgs_Write := args_Write (P:=P) LaserServiceExistsArgs.
Definition LaserServiceExistsResult_Read (fuel : nat) := result_Read (P:=P) LaserServiceExistsResult fuel.
Definition LaserServiceExistsResult_Write := result_Write (P:=P) LaserServiceExistsResult.
Definition LaserServiceExpireArgs_Read (fuel : nat) := args_Read (P:=P) LaserServiceExpireArgs fuel.
Definition LaserServiceExpireArgs_Write := args_Write (P:=P) LaserServiceExpireArgs.
Definition LaserServiceExpireResult_Read (fuel : nat) := result_Read (P:=P) LaserServiceExpireResult fuel.
Definition LaserServiceExpireResult_Write := result_Write (P:=P) LaserServiceExpireResult.
Definition LaserServiceExpireAtArgs_Read (fuel : nat) := args_Read (P:=P) LaserServiceExpireAtArgs fuel.
Definition LaserServiceExpireAtArgs_Write := args_Write (P:=P) LaserServiceExpireAtArgs.
Definition LaserServiceExpireAtResult_Read (fuel : nat) := result_Read (P:=P) LaserServiceExpireAtResult fuel.
Definition LaserServiceExpireAtResult_Write := result_Write (P:=P) LaserServiceExpireAtResult.
Definition LaserServiceTtlArgs_Read (fuel : nat) := args_Read (P:=P) LaserServiceTtlArgs fuel.
Definition LaserServiceTtlArgs_Write := args_Write (P:=P) LaserServiceTtlArgs.
Definition LaserServiceTtlResult_Read (fuel : nat) := result_Read (P:=P) LaserServiceTtlResult fuel.
Definition LaserServiceTtlResult_Write := result_Write (P:=P) LaserServiceTtlResult.
Definition LaserServiceAppendArgs_Read (fuel : nat) := args_Read (P:=P) LaserServiceAppendArgs fuel.
Definition LaserServiceAppendArgs_Write := args_Write (P:=P) LaserServiceAppendArgs.
Definition LaserServiceAppendResult_Read (fuel : nat) := result_Read (P:=P) LaserServiceAppendResult fuel.
Definition LaserServiceAppendResult_Write := result_Write (P:=P) LaserServiceAppendResult.
Definition LaserServiceGetArgs_Read (fuel : nat) := args_Read (P:=P) LaserServiceGetArgs fuel.
Definition LaserServiceGetArgs_Write := args_Write (P:=P) LaserServiceGetArgs.
Definition LaserServiceGetResult_Read (fuel : nat) := result_Read (P:=P) LaserServiceGetResult fuel.
Definition LaserServiceGetResult_Write := result_Write (P:=P) LaserServiceGetResult.
Definition LaserServiceSsetArgs_Read (fuel : nat) := args_Read (P:=P) LaserServiceSsetArgs fuel.
Definition LaserServiceSsetArgs_Write := args_Write (P:=P) LaserServiceSsetArgs.
Definition LaserServiceSsetResult_Read (fuel : nat) := result_Read (P:=P) LaserServiceSsetResult fuel.
Definition LaserServiceSsetResult_Write := result_Write (P:=P) LaserServiceSsetResult.
Definition LaserServiceSetxArgs_Read (fuel : nat) := args_Read (P:=P) LaserServiceSetxArgs fuel.
Definition LaserServiceSetxArgs_Write := args_Write (P:=P) LaserServiceSetxArgs.
Definition LaserServiceSetxResult_Read (fuel : nat) := result_Read (P:=P) LaserServiceSetxResult fuel.
Definition LaserServiceSetxResult_Write := result_Write (P:=P) LaserServiceSetxResult.
Definition LaserServiceMgetArgs_Read (fuel : nat) := args_Read (P:=P) LaserServiceMgetArgs fuel.
Definition LaserServiceMgetArgs_Write := args_Write (P:=P) LaserServiceMgetArgs.
Definition LaserServiceMgetResult_Read (fuel : nat) := result_Read (P:=P) LaserServiceMgetResult fuel.
Definition LaserServiceMgetResult_Write := result_Write (P:=P) LaserServiceMgetResult.
Definition LaserServiceMsetArgs_Read (fuel : nat) := args_Read (P:=P) LaserServiceMsetArgs fuel.
Definition LaserServiceMsetArgs_Write := args_Write (P:=P) LaserServiceMsetArgs.
Definition LaserServiceMsetResult_Read (fuel : nat) := result_Read (P:=P) LaserServiceMsetResult fuel.
Definition LaserServiceMsetResult_Write := result_Write (P:=P) LaserServiceMsetResult.
Definition LaserServiceMgetDetailArgs_Read (fuel : nat) := args_Read (P:=P) LaserServiceMgetDetailArgs fuel.
Definition LaserServiceMgetDetailArgs_Write := args_Write (P:=P) LaserServiceMgetDetailArgs.
Definition LaserServiceMgetDetailResult_Read (fuel : nat) := result_Read (P:=P) LaserServiceMgetDetailResult fuel.
Definition LaserServiceMgetDetailResult_Write := result_Write (P:=P) LaserServiceMgetDetailResult.
Definition LaserServiceMsetDetailArgs_Read (fuel : nat) := args_Read (P:=P) LaserServiceMsetDetailArgs fuel.
Definition LaserServiceMsetDetailArgs_Write := args_Write (P:=P) LaserServiceMsetDetailArgs.
Definition LaserServiceMsetDetailResult_Read (fuel : nat) := result_Read (P:=P) LaserServiceMsetDetailResult fuel.
Definition LaserServiceMsetDetailResult_Write := result_Write (P:=P) LaserServiceMsetDetailResult.
Definition LaserServiceMdelArgs_Read (fuel : nat) := args_Read (P:=P) LaserServiceMdelArgs fuel.
Definition LaserServiceMdelArgs_Write := args_Write (P:=P) LaserServiceMdelArgs.
Definition LaserServiceMdelResult_Read (fuel : nat) := result_Read (P:=P) LaserServiceMdelResult fuel.
Definition LaserServiceMdelResult_Write := result_Write (P:=P) LaserServiceMdelResult.
Definition LaserServiceExistArgs_Read (fuel : nat) := args_Read (P:=P) LaserServiceExistArgs fuel.
Definition LaserServiceExistArgs_Write := args_Write (P:=P) LaserServiceExistArgs.
Definition LaserServiceExistResult_Read (fuel : nat) := result_Read (P:=P) LaserServiceExistResult fuel.
Definition LaserServiceExistResult_Write := result_Write (P:=P) LaserServiceExistResult.
Definition LaserServiceDecrArgs_Read (fuel : nat) := args_Read (P:=P) LaserServiceDecrArgs fuel.
Definition LaserServiceDecrArgs_Write := args_Write (P:=P) LaserServiceDecrArgs.
Definition LaserServiceDecrResult_Read (fuel : nat) := result_Read (P:=P) LaserServiceDecrResult fuel.
Definition LaserServiceDecrResult_Write := result_Write (P:=P) LaserServiceDecrResult.
Definition LaserServiceIncrArgs_Read (fuel : nat) := args_Read (P:=P) LaserServiceIncrArgs fuel.
Definition LaserServiceIncrArgs_Write := args_Write (P:=P) LaserServiceIncrArgs.
Definition LaserServiceIncrResult_Read (fuel : nat) := result_Read (P:=P) LaserServiceIncrResult fuel.
Definition LaserServiceIncrResult_Write := result_Write (P:=P) LaserServiceIncrResult.
Definition LaserServiceDecrByArgs_Read (fuel : nat) := args_Read (P:=P) LaserServiceDecrByArgs fuel.
Definition LaserServiceDecrByArgs_Write := args_Write (P:=P) LaserServiceDecrByArgs.
Definition LaserServiceDecrByResult_Read (fuel : nat) := result_Read (P:=P) LaserServiceDecrByResult fuel.
Definition LaserServiceDecrByResult_Write := result_Write (P:=P) LaserServiceDecrByResult.
Definition LaserServiceIncrByArgs_Read (fuel : nat) := args_Read (P:=P) LaserServiceIncrByArgs fuel.
Definition LaserServiceIncrByArgs_Write := args_Write (P:=P) LaserServiceIncrByArgs.
Definition LaserServiceIncrByResult_Read (fuel : nat) := result_Read (P:=P) LaserServiceIncrByResult fuel.
Definition LaserServiceIncrByResult_Write := result_Write (P:=P) LaserServiceIncrByResult.
Definition LaserServiceHdelArgs_Read (fuel : nat) := args_Read (P:=P) LaserServiceHdelArgs fuel.
Definition LaserServiceHdelArgs_Write := args_Write (P:=P) LaserServiceHdelArgs.
Definition LaserServiceHdelResult_Read (fuel : nat) := result_Read (P:=P) LaserServiceHdelResult fuel.
Definition LaserServiceHdelResult_Write := result_Write (P:=P) LaserServiceHdelResult.
Definition LaserServiceHexistsArgs_Read (fuel : nat) := args_Read (P:=P) LaserServiceHexistsArgs fuel.
Definition LaserServiceHexistsArgs_Write := args_Write (P:=P) LaserServiceHexistsArgs.
Definition LaserServiceHexistsResult_Read (fuel : nat) := result_Read (P:=P) LaserServiceHexistsResult fuel.
Definition LaserServiceHexistsResult_Write := result_Write (P:=P) LaserServiceHexistsResult.
Definition LaserServiceHgetArgs_Read (fuel : nat) := args_Read (P:=P) LaserServiceHgetArgs fuel.
Definition LaserServiceHgetArgs_Write := args_Write (P:=P) LaserServiceHgetArgs.
Definition LaserServiceHgetResult_Read (fuel : nat) := result_Read (P:=P) LaserServiceHgetResult fuel.
Definition LaserServiceHgetResult_Write := result_Write (P:=P) LaserServiceHgetResult.
Definition LaserServiceHsetArgs_Read (fuel : nat) := args_Read (P:=P) LaserServiceHsetArgs fuel.
Definition LaserServiceHsetArgs_Write := args_Write (P:=P) LaserServiceHsetArgs.
Definition LaserServiceHsetResult_Read (fuel : nat) := result_Read (P:=P) LaserServiceHsetResult fuel.
Definition LaserServiceHsetResult_Write := result_Write (P:=P) LaserServiceHsetResult.
Definition LaserServiceHgetallArgs_Read (fuel : nat) := args_Read (P:=P) LaserServiceHgetallArgs fuel.
Definition LaserServiceHgetallArgs_Write := args_Write (P:=P) LaserServiceHgetallArgs.
Definition LaserServiceHgetallResult_Read (fuel : nat) := result_Read (P:=P) LaserServiceHgetallResult fuel.
Definition LaserServiceHgetallResult_Write := result_Write (P:=P) LaserServiceHgetallResult.
Definition LaserServiceHkeysArgs_Read (fuel : nat) := args_Read (P:=P) LaserServiceHkeysArgs fuel.
Definition LaserServiceHkeysArgs_Write := args_Write (P:=P) LaserServiceHkeysArgs.
Definition LaserServiceHkeysResult_Read (fuel : nat) := result_Read (P:=P) LaserServiceHkeysResult fuel.
Definition LaserServiceHkeysResult_Write := result_Write (P:=P) LaserServiceHkeysResult.
Definition LaserServiceHlenArgs_Read (fuel : nat) := args_Read (P:=P) LaserServiceHlenArgs fuel.
Definition LaserServiceHlenArgs_Write := args_Write (P:=P) LaserServiceHlenArgs.
Definition LaserServiceHlenResult_Read (fuel : nat) := result_Read (P:=P) LaserServiceHlenResult fuel.
Definition LaserServiceHlenResult_Write := result_Write (P:=P) LaserServiceHlenResult.
Definition LaserServiceHmgetArgs_Read (fuel : nat) := args_Read (P:=P) LaserServiceHmgetArgs fuel.
Definition LaserServiceHmgetArgs_Write := args_Write (P:=P) LaserServiceHmgetArgs.
Definition LaserServiceHmgetResult_Read (fuel : nat) := result_Read (P:=P) LaserServiceHmgetResult fuel.
Definition LaserServiceHmgetResult_Write := result_Write (P:=P) LaserServiceHmgetResult.
Definition LaserServiceHmsetArgs_Read (fuel : nat) := args_Read (P:=P) LaserServiceHmsetArgs fuel.
Definition LaserServiceHmsetArgs_Write := args_Write (P:=P) LaserServiceHmsetArgs.
Definition LaserServiceHmsetResult_Read (fuel : nat) := result_Read (P:=P) LaserServiceHmsetResult fuel.
Definition LaserServiceHmsetResult_Write := result_Write (P:=P) LaserServiceHmsetResult.
Definition LaserServiceLindexArgs_Read (fuel : nat) := args_Read (P:=P) LaserServiceLindexArgs fuel.
Definition LaserServiceLindexArgs_Write := args_Write (P:=P) LaserServiceLindexArgs.
Definition LaserServiceLindexResult_Read (fuel : nat) := result_Read (P:=P) LaserServiceLindexResult fuel.
Definition LaserServiceLindexResult_Write := result_Write (P:=P) LaserServiceLindexResult.
Definition LaserServiceLlenArgs_Read (fuel : nat) := args_Read (P:=P) LaserServiceLlenArgs fuel.
Definition LaserServiceLlenArgs_Write := args_Write (P:=P) LaserServiceLlenArgs.
Definition LaserServiceLlenResult_Read (fuel : nat) := result_Read (P:=P) LaserServiceLlenResult fuel.
Definition LaserServiceLlenResult_Write := result_Write (P:=P) LaserServiceLlenResult.
Definition LaserServiceLpopArgs_Read (fuel : nat) := args_Read (P:=P) LaserServiceLpopArgs fuel.
Definition LaserServiceLpopArgs_Write := args_Write (P:=P) LaserServiceLpopArgs.
Definition LaserServiceLpopResult_Read (fuel : nat) := result_Read (P:=P) LaserServiceLpopResult fuel.
Definition LaserServiceLpopResult_Write := result_Write (P:=P) LaserServiceLpopResult.
Definition LaserServiceLpushArgs_Read (fuel : nat) := args_Read (P:=P) LaserServiceLpushArgs fuel.
Definition LaserServiceLpushArgs_Write := args_Write (P:=P) LaserServiceLpushArgs.
Definition LaserServiceLpushResult_Read (fuel : nat) := result_Read (P:=P) LaserServiceLpushResult fuel.
Definition LaserServiceLpushResult_Write := result_Write (P:=P) LaserServiceLpushResult.
Definition LaserServiceLrangeArgs_Read (fuel : nat) := args_Read (P:=P) LaserServiceLrangeArgs fuel.
Definition LaserServiceLrangeArgs_Write := args_Write (P:=P) LaserServiceLrangeArgs.
Definition LaserServiceLrangeResult_Read (fuel : nat) := result_Read (P:=P) LaserServiceLrangeResult fuel.
Definition LaserServiceLrangeResult_Write := result_Write (P:=P) LaserServiceLrangeResult.
Definition LaserServiceRpopArgs_Read (fuel : nat) := args_Read (P:=P) LaserServiceRpopArgs fuel.
Definition LaserServiceRpopArgs_Write := args_Write (P:=P) LaserServiceRpopArgs.
Definition LaserServiceRpopResult_Read (fuel : nat) := result_Read (P:=P) LaserServiceRpopResult fuel.
Definition LaserServiceRpopResult_Write := result_Write (P:=P) LaserServiceRpopResult.
Definition LaserServiceRpushArgs_Read (fuel : nat) := args_Read (P:=P) LaserServiceRpushArgs fuel.
Definition LaserServiceRpushArgs_Write := args_Write (P:=P) LaserServiceRpushArgs.
Definition LaserServiceRpushResult_Read (fuel : nat) := result_Read (P:=P) LaserServiceRpushResult fuel.
Definition LaserServiceRpushResult_Write := result_Write (P:=P) LaserServiceRpushResult.
Definition LaserServiceSaddArgs_Read (fuel : nat) := args_Read (P:=P) LaserServiceSaddArgs fuel.
Definition LaserServiceSaddArgs_Write := args_Write (P:=P) LaserServiceSaddArgs.
Definition LaserServiceSaddResult_Read (fuel : nat) := result_Read (P:=P) LaserServiceSaddResult fuel.
Definition LaserServiceSaddResult_Write := result_Write (P:=P) LaserServiceSaddResult.
Definition LaserServiceScardArgs_Read (fuel : nat) := args_Read (P:=P) LaserServiceScardArgs fuel.
Definition LaserServiceScardArgs_Write := args_Write (P:=P) LaserServiceScardArgs.
Definition LaserServiceScardResult_Read (fuel : nat) := result_Read (P:=P) LaserServiceScardResult fuel.
Definition LaserServiceScardResult_Write := result_Write (P:=P) LaserServiceScardResult.
Definition LaserServiceSismemberArgs_Read (fuel : nat) := args_Read (P:=P) LaserServiceSismemberArgs fuel.
Definition LaserServiceSismemberArgs_Write := args_Write (P:=P) LaserServiceSismemberArgs.
Definition LaserServiceSismemberResult_Read (fuel : nat) := result_Read (P:=P) LaserServiceSismemberResult fuel.
Definition LaserServiceSismemberResult_Write := result_Write (P:=P) LaserServiceSismemberResult.
Definition LaserServiceSremoveArgs_Read (fuel : nat) := args_Read (P:=P) LaserServiceSremoveArgs fuel.
Definition LaserServiceSremoveArgs_Write := args_Write (P:=P) LaserServiceSremoveArgs.
Definition LaserServiceSremoveResult_Read (fuel : nat) := result_Read (P:=P) LaserServiceSremoveResult fuel.
Definition LaserServiceSremoveResult_Write := result_Write (P:=P) LaserServiceSremoveResult.
Definition LaserServiceSmembersArgs_Read (fuel : nat) := args_Read (P:=P) LaserServiceSmembersArgs fuel.
Definition LaserServiceSmembersArgs_Write := args_Write (P:=P) LaserServiceSmembersArgs.
Definition LaserServiceSmembersResult_Read (fuel : nat) := result_Read (P:=P) LaserServiceSmembersResult fuel.
Definition LaserServiceSmembersResult_Write := result_Write (P:=P) LaserServiceSmembersResult.
Definition LaserServiceZaddArgs_Read (fuel : nat) := args_Read (P:=P) LaserServiceZaddArgs fuel.
Definition LaserServiceZaddArgs_Write := args_Write (P:=P) LaserServiceZaddArgs.
Definition LaserServiceZaddResult_Read (fuel : nat) := result_Read (P:=P) LaserServiceZaddResult fuel.
Definition LaserServiceZaddResult_Write := result_Write (P:=P) LaserServiceZaddResult.
Definition LaserServiceZcardArgs_Read (fuel : nat) := args_Read (P:=P) LaserServiceZcardArgs fuel.
Definition LaserServiceZcardArgs_Write := args_Write (P:=P) LaserServiceZcardArgs.
Definition LaserServiceZcardResult_Read (fuel : nat) := result_Read (P:=P) LaserServiceZcardResult fuel.
Definition LaserServiceZcardResult_Write := result_Write (P:=P) LaserServiceZcardResult.
Definition LaserServiceZrankArgs_Read (fuel : nat) := args_Read (P:=P) LaserServiceZrankArgs fuel.
Definition LaserServiceZrankArgs_Write := args_Write (P:=P) LaserServiceZrankArgs.
Definition LaserServiceZrankResult_Read (fuel : nat) := result_Read (P:=P) LaserServiceZrankResult fuel.
Definition LaserServiceZrankResult_Write := result_Write (P:=P) LaserServiceZrankResult.
Definition LaserServiceZscoreArgs_Read (fuel : nat) := args_Read (P:=P) LaserServiceZscoreArgs fuel.
Definition LaserServiceZscoreArgs_Write := args_Write (P:=P) LaserServiceZscoreArgs.
Definition LaserServiceZscoreResult_Read (fuel : nat) := result_Read (P:=P) LaserServiceZscoreResult fuel.
Definition LaserServiceZscoreResult_Write := result_Write (P:=P) LaserServiceZscoreResult.
Definition LaserServiceZremArgs_Read (fuel : nat) := args_Read (P:=P) LaserServiceZremArgs fuel.
Definition LaserServiceZremArgs_Write := args_Write (P:=P) LaserServiceZremArgs.
Definition LaserServiceZremResult_Read (fuel : nat) := result_Read (P:=P) LaserServiceZremResult fuel.
Definition LaserServiceZremResult_Write := result_Write (P:=P) LaserServiceZremResult.
Definition LaserServiceZrangeArgs_Read (fuel : nat) := args_Read (P:=P) LaserServiceZrangeArgs fuel.
Definition LaserServiceZrangeArgs_Write := args_Write (P:=P) LaserServiceZrangeArgs.
Definition LaserServiceZrangeResult_Read (fuel : nat) := result_Read (P:=P) LaserServiceZrangeResult fuel.
Definition LaserServiceZrangeResult_Write := result_Write (P:=P) LaserServiceZrangeResult.
Definition LaserServiceZrangeByScoreArgs_Read (fuel : nat) := args_Read (P:=P) LaserServiceZrangeByScoreArgs fuel.
Definition LaserServiceZrangeByScoreArgs_Write := args_Write (P:=P) LaserServiceZrangeByScoreArgs.
Definition LaserServiceZrangeByScoreResult_Read (fuel : nat) := result_Read (P:=P) LaserServiceZrangeByScoreResult fuel.
Definition LaserServiceZrangeByScoreResult_Write := result_Write (P:=P) LaserServiceZrangeByScoreResult.
Definition LaserServiceZremRangeByScoreArgs_Read (fuel : nat) := args_Read (P:=P) LaserServiceZremRangeByScoreArgs fuel.
Definition LaserServiceZremRangeByScoreArgs_Write := args_Write (P:=P) LaserServiceZremRangeByScoreArgs.
Definition LaserServiceZremRangeByScoreResult_Read (fuel : nat) := result_Read (P:=P) LaserServiceZremRangeByScoreResult fuel.
Definition LaserServiceZremRangeByScoreResult_Write := result_Write (P:=P) LaserServiceZremRangeByScoreResult.
End Structs.

(** ** The methods *)

Definition m_Delkey : method := mkMethod "delkey" LaserServiceDelkeyArgs LaserServiceDelkeyResult.
Definition m_Exists : method := mkMethod "exists" LaserServiceExistsArgs LaserServiceExistsResult.
Definition m_Expire : method := mkMethod "expire" LaserServiceExpireArgs LaserServiceExpireResult.
Definition m_ExpireAt : method := mkMethod "expireAt" LaserServiceExpireAtArgs LaserServiceExpireAtResult.
Definition m_Ttl : method := mkMethod "ttl" LaserServiceTtlArgs LaserServiceTtlResult.
Definition m_Append : method := mkMethod "append" LaserServiceAppendArgs LaserServiceAppendResult.
Definition m_Get : method := mkMethod "get" LaserServiceGetArgs LaserServiceGetResult.
Definition m_Sset : method := mkMethod "sset" LaserServiceSsetArgs LaserServiceSsetResult.
Definition m_Setx : method := mkMethod "setx" LaserServiceSetxArgs LaserServiceSetxResult.
Definition m_Mget : method := mkMethod "mget" LaserServiceMgetArgs LaserServiceMgetResult.
Definition m_Mset : method := mkMethod "mset" LaserServiceMsetArgs LaserServiceMsetResult.
Definition m_MgetDetail : method := mkMethod "mgetDetail" LaserServiceMgetDetailArgs LaserServiceMgetDetailResult.
Definition m_MsetDetail : method := mkMethod "msetDetail" LaserServiceMsetDetailArgs LaserServiceMsetDetailResult.
Definition m_Mdel : method := mkMethod "mdel" LaserServiceMdelArgs LaserServiceMdelResult.
Definition m_Exist : method := mkMethod "exist" LaserServiceExistArgs LaserServiceExistResult.
Definition m_Decr : method := mkMethod "decr" LaserServiceDecrArgs LaserServiceDecrResult.
Definition m_Incr : method := mkMethod "incr" LaserServiceIncrArgs LaserServiceIncrResult.
Definition m_DecrBy : method := mkMethod "decrBy" LaserServiceDecrByArgs LaserServiceDecrByResult.
Definition m_IncrBy : method := mkMethod "incrBy" LaserServiceIncrByArgs LaserServiceIncrByResult.
Definition m_Hdel : method := mkMethod "hdel" LaserServiceHdelArgs LaserServiceHdelResult.
Definition m_Hexists : method := mkMethod "hexists" LaserServiceHexistsArgs LaserServiceHexistsResult.
Definition m_Hget : method := mkMethod "hget" LaserServiceHgetArgs LaserServiceHgetResult.
Definition m_Hset : method := mkMethod "hset" LaserServiceHsetArgs LaserServiceHsetResult.
Definition m_Hgetall : method := mkMethod "hgetall" LaserServiceHgetallArgs LaserServiceHgetallResult.
Definition m_Hkeys : method := mkMethod "hkeys" LaserServiceHkeysArgs LaserServiceHkeysResult.
Definition m_Hlen : method := mkMethod "hlen" LaserServiceHlenArgs LaserServiceHlenResult.
Definition m_Hmget : method := mkMethod "hmget" LaserServiceHmgetArgs LaserServiceHmgetResult.
Definition m_Hmset : method := mkMethod "hmset" LaserServiceHmsetArgs LaserServiceHmsetResult.
Definition m_Lindex : method := mkMethod "lindex" LaserServiceLindexArgs LaserServiceLindexResult.
Definition m_Llen : method := mkMethod "llen" LaserServiceLlenArgs LaserServiceLlenResult.
Definition m_Lpop : method := mkMethod "lpop" LaserServiceLpopArgs LaserServiceLpopResult.
Definition m_Lpush : method := mkMethod "lpush" LaserServiceLpushArgs LaserServiceLpushResult.
Definition m_Lrange : method := mkMethod "lrange" LaserServiceLrangeArgs LaserServiceLrangeResult.
Definition m_Rpop : method := mkMethod "rpop" LaserServiceRpopArgs LaserServiceRpopResult.
Definition m_Rpush : method := mkMethod "rpush" LaserServiceRpushArgs LaserServiceRpushResult.
Definition m_Sadd : method := mkMethod "sadd" LaserServiceSaddArgs LaserServiceSaddResult.
Definition m_Scard : method := mkMethod "scard" LaserServiceScardArgs LaserServiceScardResult.
Definition m_Sismember : method := mkMethod "sismember" LaserServiceSismemberArgs LaserServiceSismemberResult.
Definition m_Sremove : method := mkMethod "sremove" LaserServiceSremoveArgs LaserServiceSremoveResult.
Definition m_Smembers : method := mkMethod "smembers" LaserServiceSmembersArgs LaserServiceSmembersResult.
Definition m_Zadd : method := mkMethod "zadd" LaserServiceZaddArgs LaserServiceZaddResult.
Definition m_Zcard : method := mkMethod "zcard" LaserServiceZcardArgs LaserServiceZcardResult.
Definition m_Zrank : method := mkMethod "zrank" LaserServiceZrankArgs LaserServiceZrankResult.
Definition m_Zscore : method := mkMethod "zscore" LaserServiceZscoreArgs LaserServiceZscoreResult.
Definition m_Zrem : method := mkMethod "zrem" LaserServiceZremArgs LaserServiceZremResult.
Definition m_Zrange : method := mkMethod "zrange" LaserServiceZrangeArgs LaserServiceZrangeResult.
Definition m_ZrangeByScore : method := mkMethod "zrangeByScore" LaserServiceZrangeByScoreArgs LaserServiceZrangeByScoreResult.
Definition m_ZremRangeByScore : method := mkMethod "zremRangeByScore" LaserServiceZremRangeByScoreArgs LaserServiceZremRangeByScoreResult.

(** Every method, in the order of the interface. *)
Definition service_methods : list method :=
  [m_Delkey; m_Exists; m_Expire; m_ExpireAt; m_Ttl; m_Append; m_Get; m_Sset; m_Setx; m_Mget; m_Mset; m_MgetDetail;
   m_MsetDetail; m_Mdel; m_Exist; m_Decr; m_Incr; m_DecrBy; m_IncrBy; m_Hdel; m_Hexists; m_Hget; m_Hset; m_Hgetall;
   m_Hkeys; m_Hlen; m_Hmget; m_Hmset; m_Lindex; m_Llen; m_Lpop; m_Lpush; m_Lrange; m_Rpop; m_Rpush; m_Sadd; m_Scard;
   m_Sismember; m_Sremove; m_Smembers; m_Zadd; m_Zcard; m_Zrank; m_Zscore; m_Zrem; m_Zrange; m_ZrangeByScore;
   m_ZremRangeByScore].

(** ** Scores *)

(** [int64(x)] of a number that does not fit is up to the implementation. *)
Class Int64Conversion := f64_to_int64_other : double → Z.

Definition int64_of `{Int64Conversion} (x : double) : Z :=
  match f64_trunc x with
  | Some z => if (Z.leb (- 2 ^ 63) z && Z.ltb z (2 ^ 63))%bool then z else f64_to_int64_other x
  | None => f64_to_int64_other x
  end.

Definition LASER_FLOAT_AMPLIFICATION_FACTOR : Z := 10000.

Definition getMaxIntScore `{Int64Conversion} (num : double) : Z :=
  let zoom_score := f64_mul num (f64_of_Z LASER_FLOAT_AMPLIFICATION_FACTOR) in
  if SFltb (f64_of_Z (2 ^ 63 - 1)) zoom_score then 2 ^ 63 - 1 else int64_of zoom_score.

Definition getMinIntScore `{Int64Conversion} (num : double) : Z :=
  let zoom_score := f64_mul num (f64_of_Z LASER_FLOAT_AMPLIFICATION_FACTOR) in
  if SFltb zoom_score (f64_of_Z (- 2 ^ 63)) then - 2 ^ 63 else int64_of zoom_score.

(** ** The client *)

Section Client.
Context {P : Type} {prot : Protocol P} {messages : Messages P} {order : MapOrder} {conv : Int64Conversion}.
Context (network : LaserServiceClient (P:=P) → LaserServiceClient (P:=P)) (fuel : nat).

Definition Client_sendDelkey (key : option LaserKey) := send (P:=P) m_Delkey (key, tt).
Definition Client_recvDelkey := recv (P:=P) m_Delkey fuel.
Definition Client_Delkey (key : option LaserKey) := call network m_Delkey fuel (key, tt).
Definition Client_sendExists (key : option LaserKey) := send (P:=P) m_Exists (key, tt).
Definition Client_recvExists := recv (P:=P) m_Exists fuel.
Definition Client_Exists (key : option LaserKey) := call network m_Exists fuel (key, tt).
Definition Client_sendExpire (key : option LaserKey) (time : Z) := send (P:=P) m_Expire (key, (time, tt)).
Definition Client_recvExpire := recv (P:=P) m_Expire fuel.
Definition Client_Expire (key : option LaserKey) (time : Z) := call network m_Expire fuel (key, (time, tt)).
Definition Client_sendExpireAt (key : option LaserKey) (time_at : Z) := send (P:=P) m_ExpireAt (key, (time_at, tt)).
Definition Client_recvExpireAt := recv (P:=P) m_ExpireAt fuel.
Definition Client_ExpireAt (key : option LaserKey) (time_at : Z) := call network m_ExpireAt fuel (key, (time_at, tt)).
Definition Client_sendTtl (key : option LaserKey) := send (P:=P) m_Ttl (key, tt).
Definition Client_recvTtl := recv (P:=P) m_Ttl fuel.
Definition Client_Ttl (key : option LaserKey) := call network m_Ttl fuel (key, tt).
Definition Client_sendAppend (key : option LaserKey) (value : string) := send (P:=P) m_Append (key, (value, tt)).
Definition Client_recvAppend := recv (P:=P) m_Append fuel.
Definition Client_Append (key : option LaserKey) (value : string) := call network m_Append fuel (key, (value, tt)).
Definition Client_sendGet (key : option LaserKey) := send (P:=P) m_Get (key, tt).
Definition Client_recvGet := recv (P:=P) m_Get fuel.
Definition Client_Get (key : option LaserKey) := call network m_Get fuel (key, tt).
Definition Client_sendSset (kv : option LaserKV) := send (P:=P) m_Sset (kv, tt).
Definition Client_recvSset := recv (P:=P) m_Sset fuel.
Definition Client_Sset (kv : option LaserKV) := call network m_Sset fuel (kv, tt).
Definition Client_sendSetx (kv : option LaserKV) (option : option LaserSetOption) :=
  send (P:=P) m_Setx (kv, (option, tt)).
Definition Client_recvSetx := recv (P:=P) m_Setx fuel.
Definition Client_Setx (kv : option LaserKV) (option : option LaserSetOption) :=
  call network m_Setx fuel (kv, (option, tt)).
Definition Client_sendMget (keys : option LaserKeys) := send (P:=P) m_Mget (keys, tt).
Definition Client_recvMget := recv (P:=P) m_Mget fuel.
Definition Client_Mget (keys : option LaserKeys) := call network m_Mget fuel (keys, tt).
Definition Client_sendMset (values : option LaserKVs) := send (P:=P) m_Mset (values, tt).
Definition Client_recvMset := recv (P:=P) m_Mset fuel.
Definition Client_Mset (values : option LaserKVs) := call network m_Mset fuel (values, tt).
Definition Client_sendMgetDetail (keys : option LaserKeys) := send (P:=P) m_MgetDetail (keys, tt).
Definition Client_recvMgetDetail := recv (P:=P) m_MgetDetail fuel.
Definition Client_MgetDetail (keys : option LaserKeys) := call network m_MgetDetail fuel (keys, tt).
Definition Client_sendMsetDetail (values : option LaserKVs) (option : option LaserSetOption) :=
  send (P:=P) m_MsetDetail (values, (option, tt)).
Definition Client_recvMsetDetail := recv (P:=P) m_MsetDetail fuel.
Definition Client_MsetDetail (values : option LaserKVs) (option : option LaserSetOption) :=
  call network m_MsetDetail fuel (values, (option, tt)).
Definition Client_sendMdel (keys : option LaserKeys) := send (P:=P) m_Mdel (keys, tt).
Definition Client_recvMdel := recv (P:=P) m_Mdel fuel.
Definition Client_Mdel (keys : option LaserKeys) := call network m_Mdel fuel (keys, tt).
Definition Client_sendExist (key : option LaserKey) := send (P:=P) m_Exist (key, tt).
Definition Client_recvExist := recv (P:=P) m_Exist fuel.
Definition Client_Exist (key : option LaserKey) := call network m_Exist fuel (key, tt).
Definition Client_sendDecr (key : option LaserKey) := send (P:=P) m_Decr (key, tt).
Definition Client_recvDecr := recv (P:=P) m_Decr fuel.
Definition Client_Decr (key : option LaserKey) := call network m_Decr fuel (key, tt).
Definition Client_sendIncr (key : option LaserKey) := send (P:=P) m_Incr (key, tt).
Definition Client_recvIncr := recv (P:=P) m_Incr fuel.
Definition Client_Incr (key : option LaserKey) := call network m_Incr fuel (key, tt).
Definition Client_sendDecrBy (key : option LaserKey) (step : Z) := send (P:=P) m_DecrBy (key, (step, tt)).
Definition Client_recvDecrBy := recv (P:=P) m_DecrBy fuel.
Definition Client_DecrBy (key : option LaserKey) (step : Z) := call network m_DecrBy fuel (key, (step, tt)).
Definition Client_sendIncrBy (key : option LaserKey) (step : Z) := send (P:=P) m_IncrBy (key, (step, tt)).
Definition Client_recvIncrBy := recv (P:=P) m_IncrBy fuel.
Definition Client_IncrBy (key : option LaserKey) (step : Z) := call network m_IncrBy fuel (key, (step, tt)).
Definition Client_sendHdel (key : option LaserKey) (field : string) := send (P:=P) m_Hdel (key, (field, tt)).
Definition Client_recvHdel := recv (P:=P) m_Hdel fuel.
Definition Client_Hdel (key : option LaserKey) (field : string) := call network m_Hdel fuel (key, (field, tt)).
Definition Client_sendHexists (key : option LaserKey) (field : string) := send (P:=P) m_Hexists (key, (field, tt)).
Definition Client_recvHexists := recv (P:=P) m_Hexists fuel.
Definition Client_Hexists (key : option LaserKey) (field : string) := call network m_Hexists fuel (key, (field, tt)).
Definition Client_sendHget (key : option LaserKey) (field : string) := send (P:=P) m_Hget (key, (field, tt)).
Definition Client_recvHget := recv (P:=P) m_Hget fuel.
Definition Client_Hget (key : option LaserKey) (field : string) := call network m_Hget fuel (key, (field, tt)).
Definition Client_sendHset (key : option LaserKey) (field : string) (value : string) :=
  send (P:=P) m_Hset (key, (field, (value, tt))).
Definition Client_recvHset := recv (P:=P) m_Hset fuel.
Definition Client_Hset (key : option LaserKey) (field : string) (value : string) :=
  call network m_Hset fuel (key, (field, (value, tt))).
Definition Client_sendHgetall (key : option LaserKey) := send (P:=P) m_Hgetall (key, tt).
Definition Client_recvHgetall := recv (P:=P) m_Hgetall fuel.
Definition Client_Hgetall (key : option LaserKey) := call network m_Hgetall fuel (key, tt).
Definition Client_sendHkeys (key : option LaserKey) := send (P:=P) m_Hkeys (key, tt).
Definition Client_recvHkeys := recv (P:=P) m_Hkeys fuel.
Definition Client_Hkeys (key : option LaserKey) := call network m_Hkeys fuel (key, tt).
Definition Client_sendHlen (key : option LaserKey) := send (P:=P) m_Hlen (key, tt).
Definition Client_recvHlen := recv (P:=P) m_Hlen fuel.
Definition Client_Hlen (key : option LaserKey) := call network m_Hlen fuel (key, tt).
Definition Client_sendHmget (key : option LaserKey) (fields : list string) := send (P:=P) m_Hmget (key, (fields, tt)).
Definition Client_recvHmget := recv (P:=P) m_Hmget fuel.
Definition Client_Hmget (key : option LaserKey) (fields : list string) :=
  call network m_Hmget fuel (key, (fields, tt)).
Definition Client_sendHmset (key : option LaserKey) (value : option LaserValue) :=
  send (P:=P) m_Hmset (key, (value, tt)).
Definition Client_recvHmset := recv (P:=P) m_Hmset fuel.
Definition Client_Hmset (key : option LaserKey) (value : option LaserValue) :=
  call network m_Hmset fuel (key, (value, tt)).
Definition Client_sendLindex (key : option LaserKey) (index : Z) := send (P:=P) m_Lindex (key, (index, tt)).
Definition Client_recvLindex := recv (P:=P) m_Lindex fuel.
Definition Client_Lindex (key : option LaserKey) (index : Z) := call network m_Lindex fuel (key, (index, tt)).
Definition Client_sendLlen (key : option LaserKey) := send (P:=P) m_Llen (key, tt).
Definition Client_recvLlen := recv (P:=P) m_Llen fuel.
Definition Client_Llen (key : option LaserKey) := call network m_Llen fuel (key, tt).
Definition Client_sendLpop (key : option LaserKey) := send (P:=P) m_Lpop (key, tt).
Definition Client_recvLpop := recv (P:=P) m_Lpop fuel.
Definition Client_Lpop (key : option LaserKey) := call network m_Lpop fuel (key, tt).
Definition Client_sendLpush (key : option LaserKey) (value : string) := send (P:=P) m_Lpush (key, (value, tt)).
Definition Client_recvLpush := recv (P:=P) m_Lpush fuel.
Definition Client_Lpush (key : option LaserKey) (value : string) := call network m_Lpush fuel (key, (value, tt)).
Definition Client_sendLrange (key : option LaserKey) (start : Z) (end_ : Z) :=
  send (P:=P) m_Lrange (key, (start, (end_, tt))).
Definition Client_recvLrange := recv (P:=P) m_Lrange fuel.
Definition Client_Lrange (key : option LaserKey) (start : Z) (end_ : Z) :=
  call network m_Lrange fuel (key, (start, (end_, tt))).
Definition Client_sendRpop (key : option LaserKey) := send (P:=P) m_Rpop (key, tt).
Definition Client_recvRpop := recv (P:=P) m_Rpop fuel.
Definition Client_Rpop (key : option LaserKey) := call network m_Rpop fuel (key, tt).
Definition Client_sendRpush (key : option LaserKey) (value : string) := send (P:=P) m_Rpush (key, (value, tt)).
Definition Client_recvRpush := recv (P:=P) m_Rpush fuel.
Definition Client_Rpush (key : option LaserKey) (value : string) := call network m_Rpush fuel (key, (value, tt)).
Definition Client_sendSadd (key : option LaserKey) (member : string) := send (P:=P) m_Sadd (key, (member, tt)).
Definition Client_recvSadd := recv (P:=P) m_Sadd fuel.
Definition Client_Sadd (key : option LaserKey) (member : string) := call network m_Sadd fuel (key, (member, tt)).
Definition Client_sendScard (req : option LaserKey) := send (P:=P) m_Scard (req, tt).
Definition Client_recvScard := recv (P:=P) m_Scard fuel.
Definition Client_Scard (req : option LaserKey) := call network m_Scard fuel (req, tt).
Definition Client_sendSismember (req : option LaserKey) (member : string) :=
  send (P:=P) m_Sismember (req, (member, tt)).
Definition Client_recvSismember := recv (P:=P) m_Sismember fuel.
Definition Client_Sismember (req : option LaserKey) (member : string) :=
  call network m_Sismember fuel (req, (member, tt)).
Definition Client_sendSremove (req : option LaserKey) (member : string) := send (P:=P) m_Sremove (req, (member, tt)).
Definition Client_recvSremove := recv (P:=P) m_Sremove fuel.
Definition Client_Sremove (req : option LaserKey) (member : string) :=
  call network m_Sremove fuel (req, (member, tt)).
Definition Client_sendSmembers (req : option LaserKey) := send (P:=P) m_Smembers (req, tt).
Definition Client_recvSmembers := recv (P:=P) m_Smembers fuel.
Definition Client_Smembers (req : option LaserKey) := call network m_Smembers fuel (req, tt).
Definition Client_sendZadd (key : option LaserKey) (member_score : option LaserValue) :=
  send (P:=P) m_Zadd (key, (member_score, tt)).
Definition Client_recvZadd := recv (P:=P) m_Zadd fuel.
Definition int_member_score (member_score : gmap string double) : gmap string Z := getMaxIntScore <$> member_score.
Definition Client_Zadd (key : option LaserKey) (member_score : gmap string double) :=
  call network m_Zadd fuel
    (key, (Some (mkLaserValue None None None (Some (int_member_score member_score)) None), tt)).
Definition Client_sendZcard (key : option LaserKey) := send (P:=P) m_Zcard (key, tt).
Definition Client_recvZcard := recv (P:=P) m_Zcard fuel.
Definition Client_Zcard (key : option LaserKey) := call network m_Zcard fuel (key, tt).
Definition Client_sendZrank (key : option LaserKey) (member : string) := send (P:=P) m_Zrank (key, (member, tt)).
Definition Client_recvZrank := recv (P:=P) m_Zrank fuel.
Definition Client_Zrank (key : option LaserKey) (member : string) := call network m_Zrank fuel (key, (member, tt)).
Definition Client_sendZscore (key : option LaserKey) (member : string) := send (P:=P) m_Zscore (key, (member, tt)).
Definition Client_recvZscore := recv (P:=P) m_Zscore fuel.
Definition Client_Zscore (key : option LaserKey) (member : string) := call network m_Zscore fuel (key, (member, tt)).
Definition Client_sendZrem (key : option LaserKey) (member : string) := send (P:=P) m_Zrem (key, (member, tt)).
Definition Client_recvZrem := recv (P:=P) m_Zrem fuel.
Definition Client_Zrem (key : option LaserKey) (member : string) := call network m_Zrem fuel (key, (member, tt)).
Definition Client_sendZrange (key : option LaserKey) (start : Z) (stop : Z) :=
  send (P:=P) m_Zrange (key, (start, (stop, tt))).
Definition Client_recvZrange := recv (P:=P) m_Zrange fuel.
Definition Client_Zrange (key : option LaserKey) (start : Z) (stop : Z) :=
  call network m_Zrange fuel (key, (start, (stop, tt))).
Definition Client_sendZrangeByScore (key : option LaserKey) (min : Z) (max : Z) :=
  send (P:=P) m_ZrangeByScore (key, (min, (max, tt))).
Definition Client_recvZrangeByScore := recv (P:=P) m_ZrangeByScore fuel.
Definition Client_ZrangeByScore (key : option LaserKey) (min max : double) :=
  call network m_ZrangeByScore fuel (key, (getMinIntScore min, (getMaxIntScore max, tt))).
Definition Client_sendZremRangeByScore (key : option LaserKey) (min : Z) (max : Z) :=
  send (P:=P) m_ZremRangeByScore (key, (min, (max, tt))).
Definition Client_recvZremRangeByScore := recv (P:=P) m_ZremRangeByScore fuel.
Definition Client_ZremRangeByScore (key : option LaserKey) (min : Z) (max : Z) :=
  call network m_ZremRangeByScore fuel (key, (min, (max, tt))).
End Client.

(** ** The client that goroutines share *)

Definition Threadsafe_Delkey (key : option LaserKey) : list ts_action := threadsafe_call m_Delkey (key, tt).
Definition Threadsafe_Exists (key : option LaserKey) : list ts_action := threadsafe_call m_Exists (key, tt).
Definition Threadsafe_Expire (key : option LaserKey) (time : Z) : list ts_action :=
  threadsafe_call m_Expire (key, (time, tt)).
Definition Threadsafe_ExpireAt (key : option LaserKey) (time_at : Z) : list ts_action :=
  threadsafe_call m_ExpireAt (key, (time_at, tt)).
Definition Threadsafe_Ttl (key : option LaserKey) : list ts_action := threadsafe_call m_Ttl (key, tt).
Definition Threadsafe_Append (key : option LaserKey) (value : string) : list ts_action :=
  threadsafe_call m_Append (key, (value, tt)).
Definition Threadsafe_Get (key : option LaserKey) : list ts_action := threadsafe_call m_Get (key, tt).
Definition Threadsafe_Sset (kv : option LaserKV) : list ts_action := threadsafe_call m_Sset (kv, tt).
Definition Threadsafe_Setx (kv : option LaserKV) (option : option LaserSetOption) : list ts_action :=
  threadsafe_call m_Setx (kv, (option, tt)).
Definition Threadsafe_Mget (keys : option LaserKeys) : list ts_action := threadsafe_call m_Mget (keys, tt).
Definition Threadsafe_Mset (values : option LaserKVs) : list ts_action := threadsafe_call m_Mset (values, tt).
Definition Threadsafe_MgetDetail (keys : option LaserKeys) : list ts_action :=
  threadsafe_call m_MgetDetail (keys, tt).
Definition Threadsafe_MsetDetail (values : option LaserKVs) (option : option LaserSetOption) : list ts_action :=
  threadsafe_call m_MsetDetail (values, (option, tt)).
Definition Threadsafe_Mdel (keys : option LaserKeys) : list ts_action := threadsafe_call m_Mdel (keys, tt).
Definition Threadsafe_Exist (key : option LaserKey) : list ts_action := threadsafe_call m_Exist (key, tt).
Definition Threadsafe_Decr (key : option LaserKey) : list ts_action := threadsafe_call m_Decr (key, tt).
Definition Threadsafe_Incr (key : option LaserKey) : list ts_action := threadsafe_call m_Incr (key, tt).
Definition Threadsafe_DecrBy (key : option LaserKey) (step : Z) : list ts_action :=
  threadsafe_call m_DecrBy (key, (step, tt)).
Definition Threadsafe_IncrBy (key : option LaserKey) (step : Z) : list ts_action :=
  threadsafe_call m_IncrBy (key, (step, tt)).
Definition Threadsafe_Hdel (key : option LaserKey) (field : string) : list ts_action :=
  threadsafe_call m_Hdel (key, (field, tt)).
Definition Threadsafe_Hexists (key : option LaserKey) (field : string) : list ts_action :=
  threadsafe_call m_Hexists (key, (field, tt)).
Definition Threadsafe_Hget (key : option LaserKey) (field : string) : list ts_action :=
  threadsafe_call m_Hget (key, (field, tt)).
Definition Threadsafe_Hset (key : option LaserKey) (field : string) (value : string) : list ts_action :=
  threadsafe_call m_Hset (key, (field, (value, tt))).
Definition Threadsafe_Hgetall (key : option LaserKey) : list ts_action := threadsafe_call m_Hgetall (key, tt).
Definition Threadsafe_Hkeys (key : option LaserKey) : list ts_action := threadsafe_call m_Hkeys (key, tt).
Definition Threadsafe_Hlen (key : option LaserKey) : list ts_action := threadsafe_call m_Hlen (key, tt).
Definition Threadsafe_Hmget (key : option LaserKey) (fields : list string) : list ts_action :=
  threadsafe_call m_Hmget (key, (fields, tt)).
Definition Threadsafe_Hmset (key : option LaserKey) (value : option LaserValue) : list ts_action :=
  threadsafe_call m_Hmset (key, (value, tt)).
Definition Threadsafe_Lindex (key : option LaserKey) (index : Z) : list ts_action :=
  threadsafe_call m_Lindex (key, (index, tt)).
Definition Threadsafe_Llen (key : option LaserKey) : list ts_action := threadsafe_call m_Llen (key, tt).
Definition Threadsafe_Lpop (key : option LaserKey) : list ts_action := threadsafe_call m_Lpop (key, tt).
Definition Threadsafe_Lpush (key : option LaserKey) (value : string) : list ts_action :=
  threadsafe_call m_Lpush (key, (value, tt)).
Definition Threadsafe_Lrange (key : option LaserKey) (start : Z) (end_ : Z) : list ts_action :=
  threadsafe_call m_Lrange (key, (start, (end_, tt))).
Definition Threadsafe_Rpop (key : option LaserKey) : list ts_action := threadsafe_call m_Rpop (key, tt).
Definition Threadsafe_Rpush (key : option LaserKey) (value : string) : list ts_action :=
  threadsafe_call m_Rpush (key, (value, tt)).
Definition Threadsafe_Sadd (key : option LaserKey) (member : string) : list ts_action :=
  threadsafe_call m_Sadd (key, (member, tt)).
Definition Threadsafe_Scard (req : option LaserKey) : list ts_action := threadsafe_call m_Scard (req, tt).
Definition Threadsafe_Sismember (req : option LaserKey) (member : string) : list ts_action :=
  threadsafe_call m_Sismember (req, (member, tt)).
Definition Threadsafe_Sremove (req : option LaserKey) (member : string) : list ts_action :=
  threadsafe_call m_Sremove (req, (member, tt)).
Definition Threadsafe_Smembers (req : option LaserKey) : list ts_action := threadsafe_call m_Smembers (req, tt).
Definition Threadsafe_Zadd (key : option LaserKey) (member_score : option LaserValue) : list ts_action :=
  threadsafe_call m_Zadd (key, (member_score, tt)).
Definition Threadsafe_Zcard (key : option LaserKey) : list ts_action := threadsafe_call m_Zcard (key, tt).
Definition Threadsafe_Zrank (key : option LaserKey) (member : string) : list ts_action :=
  threadsafe_call m_Zrank (key, (member, tt)).
Definition Threadsafe_Zscore (key : option LaserKey) (member : string) : list ts_action :=
  threadsafe_call m_Zscore (key, (member, tt)).
Definition Threadsafe_Zrem (key : option LaserKey) (member : string) : list ts_action :=
  threadsafe_call m_Zrem (key, (member, tt)).
Definition Threadsafe_Zrange (key : option LaserKey) (start : Z) (stop : Z) : list ts_action :=
  threadsafe_call m_Zrange (key, (start, (stop, tt))).
Definition Threadsafe_ZrangeByScore (key : option LaserKey) (min : Z) (max : Z) : list ts_action :=
  threadsafe_call m_ZrangeByScore (key, (min, (max, tt))).
Definition Threadsafe_ZremRangeByScore (key : option LaserKey) (min : Z) (max : Z) : list ts_action :=
  threadsafe_call m_ZremRangeByScore (key, (min, (max, tt))).

(** ** The processor *)

(** What a handler of the service answers to each method. *)
Definition answers : Type := option LaserResponse + call_error.

Record LaserService := mkLaserService {
  ls_Delkey : option LaserKey → answers;
  ls_Exists : option LaserKey → answers;
  ls_Expire : option LaserKey → Z → answers;
  ls_ExpireAt : option LaserKey → Z → answers;
  ls_Ttl : option LaserKey → answers;
  ls_Append : option LaserKey → string → answers;
  ls_Get : option LaserKey → answers;
  ls_Sset : option LaserKV → answers;
  ls_Setx : option LaserKV → option LaserSetOption → answers;
  ls_Mget : option LaserKeys → answers;
  ls_Mset : option LaserKVs → answers;
  ls_MgetDetail : option LaserKeys → answers;
  ls_MsetDetail : option LaserKVs → option LaserSetOption → answers;
  ls_Mdel : option LaserKeys → answers;
  ls_Exist : option LaserKey → answers;
  ls_Decr : option LaserKey → answers;
  ls_Incr : option LaserKey → answers;
  ls_DecrBy : option LaserKey → Z → answers;
  ls_IncrBy : option LaserKey → Z → answers;
  ls_Hdel : option LaserKey → string → answers;
  ls_Hexists : option LaserKey → string → answers;
  ls_Hget : option LaserKey → string → answers;
  ls_Hset : option LaserKey → string → string → answers;
  ls_Hgetall : option LaserKey → answers;
  ls_Hkeys : option LaserKey → answers;
  ls_Hlen : option LaserKey → answers;
  ls_Hmget : option LaserKey → list string → answers;
  ls_Hmset : option LaserKey → option LaserValue → answers;
  ls_Lindex : option LaserKey → Z → answers;
  ls_Llen : option LaserKey → answers;
  ls_Lpop : option LaserKey → answers;
  ls_Lpush : option LaserKey → string → answers;
  ls_Lrange : option LaserKey → Z → Z → answers;
  ls_Rpop : option LaserKey → answers;
  ls_Rpush : option LaserKey → string → answers;
  ls_Sadd : option LaserKey → string → answers;
  ls_Scard : option LaserKey → answers;
  ls_Sismember : option LaserKey → string → answers;
  ls_Sremove : option LaserKey → string → answers;
  ls_Smembers : option LaserKey → answers;
  ls_Zadd : option LaserKey → option LaserValue → answers;
  ls_Zcard : option LaserKey → answers;
  ls_Zrank : option LaserKey → string → answers;
  ls_Zscore : option LaserKey → string → answers;
  ls_Zrem : option LaserKey → string → answers;
  ls_Zrange : option LaserKey → Z → Z → answers;
  ls_ZrangeByScore : option LaserKey → Z → Z → answers;
  ls_ZremRangeByScore : option LaserKey → Z → Z → answers
}.

(** A function of the processor: its method and what the handler answers to it. *)
Record processor := mkProcessor { pr_method : method; pr_handler : args_of pr_method → answers }.

Definition laserServiceProcessorDelkey (handler : LaserService) : processor :=
  mkProcessor m_Delkey (λ a, ls_Delkey handler a.1).
Definition laserServiceProcessorExists (handler : LaserService) : processor :=
  mkProcessor m_Exists (λ a, ls_Exists handler a.1).
Definition laserServiceProcessorExpire (handler : LaserService) : processor :=
  mkProcessor m_Expire (λ a, ls_Expire handler a.1 a.2.1).
Definition laserServiceProcessorExpireAt (handler : LaserService) : processor :=
  mkProcessor m_ExpireAt (λ a, ls_ExpireAt handler a.1 a.2.1).
Definition laserServiceProcessorTtl (handler : LaserService) : processor :=
  mkProcessor m_Ttl (λ a, ls_Ttl handler a.1).
Definition laserServiceProcessorAppend (handler : LaserService) : processor :=
  mkProcessor m_Append (λ a, ls_Append handler a.1 a.2.1).
Definition laserServiceProcessorGet (handler : LaserService) : processor :=
  mkProcessor m_Get (λ a, ls_Get handler a.1).
Definition laserServiceProcessorSset (handler : LaserService) : processor :=
  mkProcessor m_Sset (λ a, ls_Sset handler a.1).
Definition laserServiceProcessorSetx (handler : LaserService) : processor :=
  mkProcessor m_Setx (λ a, ls_Setx handler a.1 a.2.1).
Definition laserServiceProcessorMget (handler : LaserService) : processor :=
  mkProcessor m_Mget (λ a, ls_Mget handler a.1).
Definition laserServiceProcessorMset (handler : LaserService) : processor :=
  mkProcessor m_Mset (λ a, ls_Mset handler a.1).
Definition laserServiceProcessorMgetDetail (handler : LaserService) : processor :=
  mkProcessor m_MgetDetail (λ a, ls_MgetDetail handler a.1).
Definition laserServiceProcessorMsetDetail (handler : LaserService) : processor :=
  mkProcessor m_MsetDetail (λ a, ls_MsetDetail handler a.1 a.2.1).
Definition laserServiceProcessorMdel (handler : LaserService) : processor :=
  mkProcessor m_Mdel (λ a, ls_Mdel handler a.1).
Definition laserServiceProcessorExist (handler : LaserService) : processor :=
  mkProcessor m_Exist (λ a, ls_Exist handler a.1).
Definition laserServiceProcessorDecr (handler : LaserService) : processor :=
  mkProcessor m_Decr (λ a, ls_Decr handler a.1).
Definition laserServiceProcessorIncr (handler : LaserService) : processor :=
  mkProcessor m_Incr (λ a, ls_Incr handler a.1).
Definition laserServiceProcessorDecrBy (handler : LaserService) : processor :=
  mkProcessor m_DecrBy (λ a, ls_DecrBy handler a.1 a.2.1).
Definition laserServiceProcessorIncrBy (handler : LaserService) : processor :=
  mkProcessor m_IncrBy (λ a, ls_IncrBy handler a.1 a.2.1).
Definition laserServiceProcessorHdel (handler : LaserService) : processor :=
  mkProcessor m_Hdel (λ a, ls_Hdel handler a.1 a.2.1).
Definition laserServiceProcessorHexists (handler : LaserService) : processor :=
  mkProcessor m_Hexists (λ a, ls_Hexists handler a.1 a.2.1).
Definition laserServiceProcessorHget (handler : LaserService) : processor :=
  mkProcessor m_Hget (λ a, ls_Hget handler a.1 a.2.1).
Definition laserServiceProcessorHset (handler : LaserService) : processor :=
  mkProcessor m_Hset (λ a, ls_Hset handler a.1 a.2.1 a.2.2.1).
Definition laserServiceProcessorHgetall (handler : LaserService) : processor :=
  mkProcessor m_Hgetall (λ a, ls_Hgetall handler a.1).
Definition laserServiceProcessorHkeys (handler : LaserService) : processor :=
  mkProcessor m_Hkeys (λ a, ls_Hkeys handler a.1).
Definition laserServiceProcessorHlen (handler : LaserService) : processor :=
  mkProcessor m_Hlen (λ a, ls_Hlen handler a.1).
Definition laserServiceProcessorHmget (handler : LaserService) : processor :=
  mkProcessor m_Hmget (λ a, ls_Hmget handler a.1 a.2.1).
Definition laserServiceProcessorHmset (handler : LaserService) : processor :=
  mkProcessor m_Hmset (λ a, ls_Hmset handler a.1 a.2.1).
Definition laserServiceProcessorLindex (handler : LaserService) : processor :=
  mkProcessor m_Lindex (λ a, ls_Lindex handler a.1 a.2.1).
Definition laserServiceProcessorLlen (handler : LaserService) : processor :=
  mkProcessor m_Llen (λ a, ls_Llen handler a.1).
Definition laserServiceProcessorLpop (handler : LaserService) : processor :=
  mkProcessor m_Lpop (λ a, ls_Lpop handler a.1).
Definition laserServiceProcessorLpush (handler : LaserService) : processor :=
  mkProcessor m_Lpush (λ a, ls_Lpush handler a.1 a.2.1).
Definition laserServiceProcessorLrange (handler : LaserService) : processor :=
  mkProcessor m_Lrange (λ a, ls_Lrange handler a.1 a.2.1 a.2.2.1).
Definition laserServiceProcessorRpop (handler : LaserService) : processor :=
  mkProcessor m_Rpop (λ a, ls_Rpop handler a.1).
Definition laserServiceProcessorRpush (handler : LaserService) : processor :=
  mkProcessor m_Rpush (λ a, ls_Rpush handler a.1 a.2.1).
Definition laserServiceProcessorSadd (handler : LaserService) : processor :=
  mkProcessor m_Sadd (λ a, ls_Sadd handler a.1 a.2.1).
Definition laserServiceProcessorScard (handler : LaserService) : processor :=
  mkProcessor m_Scard (λ a, ls_Scard handler a.1).
Definition laserServiceProcessorSismember (handler : LaserService) : processor :=
  mkProcessor m_Sismember (λ a, ls_Sismember handler a.1 a.2.1).
Definition laserServiceProcessorSremove (handler : LaserService) : processor :=
  mkProcessor m_Sremove (λ a, ls_Sremove handler a.1 a.2.1).
Definition laserServiceProcessorSmembers (handler : LaserService) : processor :=
  mkProcessor m_Smembers (λ a, ls_Smembers handler a.1).
Definition laserServiceProcessorZadd (handler : LaserService) : processor :=
  mkProcessor m_Zadd (λ a, ls_Zadd handler a.1 a.2.1).
Definition laserServiceProcessorZcard (handler : LaserService) : processor :=
  mkProcessor m_Zcard (λ a, ls_Zcard handler a.1).
Definition laserServiceProcessorZrank (handler : LaserService) : processor :=
  mkProcessor m_Zrank (λ a, ls_Zrank handler a.1 a.2.1).
Definition laserServiceProcessorZscore (handler : LaserService) : processor :=
  mkProcessor m_Zscore (λ a, ls_Zscore handler a.1 a.2.1).
Definition laserServiceProcessorZrem (handler : LaserService) : processor :=
  mkProcessor m_Zrem (λ a, ls_Zrem handler a.1 a.2.1).
Definition laserServiceProcessorZrange (handler : LaserService) : processor :=
  mkProcessor m_Zrange (λ a, ls_Zrange handler a.1 a.2.1 a.2.2.1).
Definition laserServiceProcessorZrangeByScore (handler : LaserService) : processor :=
  mkProcessor m_ZrangeByScore (λ a, ls_ZrangeByScore handler a.1 a.2.1 a.2.2.1).
Definition laserServiceProcessorZremRangeByScore (handler : LaserService) : processor :=
  mkProcessor m_ZremRangeByScore (λ a, ls_ZremRangeByScore handler a.1 a.2.1 a.2.2.1).

Section Functions.
Context {P : Type} {prot : Protocol P} {messages : Messages P} {order : MapOrder}.

Definition laserServiceProcessorDelkey_Read (fuel : nat) := processor_Read (P:=P) m_Delkey fuel.
Definition laserServiceProcessorDelkey_Write := processor_Write (P:=P) m_Delkey.
Definition laserServiceProcessorDelkey_Run (handler : LaserService) :=
  processor_Run (P:=P) m_Delkey (pr_handler (laserServiceProcessorDelkey handler)).
Definition laserServiceProcessorExists_Read (fuel : nat) := processor_Read (P:=P) m_Exists fuel.
Definition laserServiceProcessorExists_Write := processor_Write (P:=P) m_Exists.
Definition laserServiceProcessorExists_Run (handler : LaserService) :=
  processor_Run (P:=P) m_Exists (pr_handler (laserServiceProcessorExists handler)).
Definition laserServiceProcessorExpire_Read (fuel : nat) := processor_Read (P:=P) m_Expire fuel.
Definition laserServiceProcessorExpire_Write := processor_Write (P:=P) m_Expire.
Definition laserServiceProcessorExpire_Run (handler : LaserService) :=
  processor_Run (P:=P) m_Expire (pr_handler (laserServiceProcessorExpire handler)).
Definition laserServiceProcessorExpireAt_Read (fuel : nat) := processor_Read (P:=P) m_ExpireAt fuel.
Definition laserServiceProcessorExpireAt_Write := processor_Write (P:=P) m_ExpireAt.
Definition laserServiceProcessorExpireAt_Run (handler : LaserService) :=
  processor_Run (P:=P) m_ExpireAt (pr_handler (laserServiceProcessorExpireAt handler)).
Definition laserServiceProcessorTtl_Read (fuel : nat) := processor_Read (P:=P) m_Ttl fuel.
Definition laserServiceProcessorTtl_Write := processor_Write (P:=P) m_Ttl.
Definition laserServiceProcessorTtl_Run (handler : LaserService) :=
  processor_Run (P:=P) m_Ttl (pr_handler (laserServiceProcessorTtl handler)).
Definition laserServiceProcessorAppend_Read (fuel : nat) := processor_Read (P:=P) m_Append fuel.
Definition laserServiceProcessorAppend_Write := processor_Write (P:=P) m_Append.
Definition laserServiceProcessorAppend_Run (handler : LaserService) :=
  processor_Run (P:=P) m_Append (pr_handler (laserServiceProcessorAppend handler)).
Definition laserServiceProcessorGet_Read (fuel : nat) := processor_Read (P:=P) m_Get fuel.
Definition laserServiceProcessorGet_Write := processor_Write (P:=P) m_Get.
Definition laserServiceProcessorGet_Run (handler : LaserService) :=
  processor_Run (P:=P) m_Get (pr_handler (laserServiceProcessorGet handler)).
Definition laserServiceProcessorSset_Read (fuel : nat) := processor_Read (P:=P) m_Sset fuel.
Definition laserServiceProcessorSset_Write := processor_Write (P:=P) m_Sset.
Definition laserServiceProcessorSset_Run (handler : LaserService) :=
  processor_Run (P:=P) m_Sset (pr_handler (laserServiceProcessorSset handler)).
Definition laserServiceProcessorSetx_Read (fuel : nat) := processor_Read (P:=P) m_Setx fuel.
Definition laserServiceProcessorSetx_Write := processor_Write (P:=P) m_Setx.
Definition laserServiceProcessorSetx_Run (handler : LaserService) :=
  processor_Run (P:=P) m_Setx (pr_handler (laserServiceProcessorSetx handler)).
Definition laserServiceProcessorMget_Read (fuel : nat) := processor_Read (P:=P) m_Mget fuel.
Definition laserServiceProcessorMget_Write := processor_Write (P:=P) m_Mget.
Definition laserServiceProcessorMget_Run (handler : LaserService) :=
  processor_Run (P:=P) m_Mget (pr_handler (laserServiceProcessorMget handler)).
Definition laserServiceProcessorMset_Read (fuel : nat) := processor_Read (P:=P) m_Mset fuel.
Definition laserServiceProcessorMset_Write := processor_Write (P:=P) m_Mset.
Definition laserServiceProcessorMset_Run (handler : LaserService) :=
  processor_Run (P:=P) m_Mset (pr_handler (laserServiceProcessorMset handler)).
Definition laserServiceProcessorMgetDetail_Read (fuel : nat) := processor_Read (P:=P) m_MgetDetail fuel.
Definition laserServiceProcessorMgetDetail_Write := processor_Write (P:=P) m_MgetDetail.
Definition laserServiceProcessorMgetDetail_Run (handler : LaserService) :=
  processor_Run (P:=P) m_MgetDetail (pr_handler (laserServiceProcessorMgetDetail handler)).
Definition laserServiceProcessorMsetDetail_Read (fuel : nat) := processor_Read (P:=P) m_MsetDetail fuel.
Definition laserServiceProcessorMsetDetail_Write := processor_Write (P:=P) m_MsetDetail.
Definition laserServiceProcessorMsetDetail_Run (handler : LaserService) :=
  processor_Run (P:=P) m_MsetDetail (pr_handler (laserServiceProcessorMsetDetail handler)).
Definition laserServiceProcessorMdel_Read (fuel : nat) := processor_Read (P:=P) m_Mdel fuel.
Definition laserServiceProcessorMdel_Write := processor_Write (P:=P) m_Mdel.
Definition laserServiceProcessorMdel_Run (handler : LaserService) :=
  processor_Run (P:=P) m_Mdel (pr_handler (laserServiceProcessorMdel handler)).
Definition laserServiceProcessorExist_Read (fuel : nat) := processor_Read (P:=P) m_Exist fuel.
Definition laserServiceProcessorExist_Write := processor_Write (P:=P) m_Exist.
Definition laserServiceProcessorExist_Run (handler : LaserService) :=
  processor_Run (P:=P) m_Exist (pr_handler (laserServiceProcessorExist handler)).
Definition laserServiceProcessorDecr_Read (fuel : nat) := processor_Read (P:=P) m_Decr fuel.
Definition laserServiceProcessorDecr_Write := processor_Write (P:=P) m_Decr.
Definition laserServiceProcessorDecr_Run (handler : LaserService) :=
  processor_Run (P:=P) m_Decr (pr_handler (laserServiceProcessorDecr handler)).
Definition laserServiceProcessorIncr_Read (fuel : nat) := processor_Read (P:=P) m_Incr fuel.
Definition laserServiceProcessorIncr_Write := processor_Write (P:=P) m_Incr.
Definition laserServiceProcessorIncr_Run (handler : LaserService) :=
  processor_Run (P:=P) m_Incr (pr_handler (laserServiceProcessorIncr handler)).
Definition laserServiceProcessorDecrBy_Read (fuel : nat) := processor_Read (P:=P) m_DecrBy fuel.
Definition laserServiceProcessorDecrBy_Write := processor_Write (P:=P) m_DecrBy.
Definition laserServiceProcessorDecrBy_Run (handler : LaserService) :=
  processor_Run (P:=P) m_DecrBy (pr_handler (laserServiceProcessorDecrBy handler)).
Definition laserServiceProcessorIncrBy_Read (fuel : nat) := processor_Read (P:=P) m_IncrBy fuel.
Definition laserServiceProcessorIncrBy_Write := processor_Write (P:=P) m_IncrBy.
Definition laserServiceProcessorIncrBy_Run (handler : LaserService) :=
  processor_Run (P:=P) m_IncrBy (pr_handler (laserServiceProcessorIncrBy handler)).
Definition laserServiceProcessorHdel_Read (fuel : nat) := processor_Read (P:=P) m_Hdel fuel.
Definition laserServiceProcessorHdel_Write := processor_Write (P:=P) m_Hdel.
Definition laserServiceProcessorHdel_Run (handler : LaserService) :=
  processor_Run (P:=P) m_Hdel (pr_handler (laserServiceProcessorHdel handler)).
Definition laserServiceProcessorHexists_Read (fuel : nat) := processor_Read (P:=P) m_Hexists fuel.
Definition laserServiceProcessorHexists_Write := processor_Write (P:=P) m_Hexists.
Definition laserServiceProcessorHexists_Run (handler : LaserService) :=
  processor_Run (P:=P) m_Hexists (pr_handler (laserServiceProcessorHexists handler)).
Definition laserServiceProcessorHget_Read (fuel : nat) := processor_Read (P:=P) m_Hget fuel.
Definition laserServiceProcessorHget_Write := processor_Write (P:=P) m_Hget.
Definition laserServiceProcessorHget_Run (handler : LaserService) :=
  processor_Run (P:=P) m_Hget (pr_handler (laserServiceProcessorHget handler)).
Definition laserServiceProcessorHset_Read (fuel : nat) := processor_Read (P:=P) m_Hset fuel.
Definition laserServiceProcessorHset_Write := processor_Write (P:=P) m_Hset.
Definition laserServiceProcessorHset_Run (handler : LaserService) :=
  processor_Run (P:=P) m_Hset (pr_handler (laserServiceProcessorHset handler)).
Definition laserServiceProcessorHgetall_Read (fuel : nat) := processor_Read (P:=P) m_Hgetall fuel.
Definition laserServiceProcessorHgetall_Write := processor_Write (P:=P) m_Hgetall.
Definition laserServiceProcessorHgetall_Run (handler : LaserService) :=
  processor_Run (P:=P) m_Hgetall (pr_handler (laserServiceProcessorHgetall handler)).
Definition laserServiceProcessorHkeys_Read (fuel : nat) := processor_Read (P:=P) m_Hkeys fuel.
Definition laserServiceProcessorHkeys_Write := processor_Write (P:=P) m_Hkeys.
Definition laserServiceProcessorHkeys_Run (handler : LaserService) :=
  processor_Run (P:=P) m_Hkeys (pr_handler (laserServiceProcessorHkeys handler)).
Definition laserServiceProcessorHlen_Read (fuel : nat) := processor_Read (P:=P) m_Hlen fuel.
Definition laserServiceProcessorHlen_Write := processor_Write (P:=P) m_Hlen.
Definition laserServiceProcessorHlen_Run (handler : LaserService) :=
  processor_Run (P:=P) m_Hlen (pr_handler (laserServiceProcessorHlen handler)).
Definition laserServiceProcessorHmget_Read (fuel : nat) := processor_Read (P:=P) m_Hmget fuel.
Definition laserServiceProcessorHmget_Write := processor_Write (P:=P) m_Hmget.
Definition laserServiceProcessorHmget_Run (handler : LaserService) :=
  processor_Run (P:=P) m_Hmget (pr_handler (laserServiceProcessorHmget handler)).
Definition laserServiceProcessorHmset_Read (fuel : nat) := processor_Read (P:=P) m_Hmset fuel.
Definition laserServiceProcessorHmset_Write := processor_Write (P:=P) m_Hmset.
Definition laserServiceProcessorHmset_Run (handler : LaserService) :=
  processor_Run (P:=P) m_Hmset (pr_handler (laserServiceProcessorHmset handler)).
Definition laserServiceProcessorLindex_Read (fuel : nat) := processor_Read (P:=P) m_Lindex fuel.
Definition laserServiceProcessorLindex_Write := processor_Write (P:=P) m_Lindex.
Definition laserServiceProcessorLindex_Run (handler : LaserService) :=
  processor_Run (P:=P) m_Lindex (pr_handler (laserServiceProcessorLindex handler)).
Definition laserServiceProcessorLlen_Read (fuel : nat) := processor_Read (P:=P) m_Llen fuel.
Definition laserServiceProcessorLlen_Write := processor_Write (P:=P) m_Llen.
Definition laserServiceProcessorLlen_Run (handler : LaserService) :=
  processor_Run (P:=P) m_Llen (pr_handler (laserServiceProcessorLlen handler)).
Definition laserServiceProcessorLpop_Read (fuel : nat) := processor_Read (P:=P) m_Lpop fuel.
Definition laserServiceProcessorLpop_Write := processor_Write (P:=P) m_Lpop.
Definition laserServiceProcessorLpop_Run (handler : LaserService) :=
  processor_Run (P:=P) m_Lpop (pr_handler (laserServiceProcessorLpop handler)).
Definition laserServiceProcessorLpush_Read (fuel : nat) := processor_Read (P:=P) m_Lpush fuel.
Definition laserServiceProcessorLpush_Write := processor_Write (P:=P) m_Lpush.
Definition laserServiceProcessorLpush_Run (handler : LaserService) :=
  processor_Run (P:=P) m_Lpush (pr_handler (laserServiceProcessorLpush handler)).
Definition laserServiceProcessorLrange_Read (fuel : nat) := processor_Read (P:=P) m_Lrange fuel.
Definition laserServiceProcessorLrange_Write := processor_Write (P:=P) m_Lrange.
Definition laserServiceProcessorLrange_Run (handler : LaserService) :=
  processor_Run (P:=P) m_Lrange (pr_handler (laserServiceProcessorLrange handler)).
Definition laserServiceProcessorRpop_Read (fuel : nat) := processor_Read (P:=P) m_Rpop fuel.
Definition laserServiceProcessorRpop_Write := processor_Write (P:=P) m_Rpop.
Definition laserServiceProcessorRpop_Run (handler : LaserService) :=
  processor_Run (P:=P) m_Rpop (pr_handler (laserServiceProcessorRpop handler)).
Definition laserServiceProcessorRpush_Read (fuel : nat) := processor_Read (P:=P) m_Rpush fuel.
Definition laserServiceProcessorRpush_Write := processor_Write (P:=P) m_Rpush.
Definition laserServiceProcessorRpush_Run (handler : LaserService) :=
  processor_Run (P:=P) m_Rpush (pr_handler (laserServiceProcessorRpush handler)).
Definition laserServiceProcessorSadd_Read (fuel : nat) := processor_Read (P:=P) m_Sadd fuel.
Definition laserServiceProcessorSadd_Write := processor_Write (P:=P) m_Sadd.
Definition laserServiceProcessorSadd_Run (handler : LaserService) :=
  processor_Run (P:=P) m_Sadd (pr_handler (laserServiceProcessorSadd handler)).
Definition laserServiceProcessorScard_Read (fuel : nat) := processor_Read (P:=P) m_Scard fuel.
Definition laserServiceProcessorScard_Write := processor_Write (P:=P) m_Scard.
Definition laserServiceProcessorScard_Run (handler : LaserService) :=
  processor_Run (P:=P) m_Scard (pr_handler (laserServiceProcessorScard handler)).
Definition laserServiceProcessorSismember_Read (fuel : nat) := processor_Read (P:=P) m_Sismember fuel.
Definition laserServiceProcessorSismember_Write := processor_Write (P:=P) m_Sismember.
Definition laserServiceProcessorSismember_Run (handler : LaserService) :=
  processor_Run (P:=P) m_Sismember (pr_handler (laserServiceProcessorSismember handler)).
Definition laserServiceProcessorSremove_Read (fuel : nat) := processor_Read (P:=P) m_Sremove fuel.
Definition laserServiceProcessorSremove_Write := processor_Write (P:=P) m_Sremove.
Definition laserServiceProcessorSremove_Run (handler : LaserService) :=
  processor_Run (P:=P) m_Sremove (pr_handler (laserServiceProcessorSremove handler)).
Definition laserServiceProcessorSmembers_Read (fuel : nat) := processor_Read (P:=P) m_Smembers fuel.
Definition laserServiceProcessorSmembers_Write := processor_Write (P:=P) m_Smembers.
Definition laserServiceProcessorSmembers_Run (handler : LaserService) :=
  processor_Run (P:=P) m_Smembers (pr_handler (laserServiceProcessorSmembers handler)).
Definition laserServiceProcessorZadd_Read (fuel : nat) := processor_Read (P:=P) m_Zadd fuel.
Definition laserServiceProcessorZadd_Write := processor_Write (P:=P) m_Zadd.
Definition laserServiceProcessorZadd_Run (handler : LaserService) :=
  processor_Run (P:=P) m_Zadd (pr_handler (laserServiceProcessorZadd handler)).
Definition laserServiceProcessorZcard_Read (fuel : nat) := processor_Read (P:=P) m_Zcard fuel.
Definition laserServiceProcessorZcard_Write := processor_Write (P:=P) m_Zcard.
Definition laserServiceProcessorZcard_Run (handler : LaserService) :=
  processor_Run (P:=P) m_Zcard (pr_handler (laserServiceProcessorZcard handler)).
Definition laserServiceProcessorZrank_Read (fuel : nat) := processor_Read (P:=P) m_Zrank fuel.
Definition laserServiceProcessorZrank_Write := processor_Write (P:=P) m_Zrank.
Definition laserServiceProcessorZrank_Run (handler : LaserService) :=
  processor_Run (P:=P) m_Zrank (pr_handler (laserServiceProcessorZrank handler)).
Definition laserServiceProcessorZscore_Read (fuel : nat) := processor_Read (P:=P) m_Zscore fuel.
Definition laserServiceProcessorZscore_Write := processor_Write (P:=P) m_Zscore.
Definition laserServiceProcessorZscore_Run (handler : LaserService) :=
  processor_Run (P:=P) m_Zscore (pr_handler (laserServiceProcessorZscore handler)).
Definition laserServiceProcessorZrem_Read (fuel : nat) := processor_Read (P:=P) m_Zrem fuel.
Definition laserServiceProcessorZrem_Write := processor_Write (P:=P) m_Zrem.
Definition laserServiceProcessorZrem_Run (handler : LaserService) :=
  processor_Run (P:=P) m_Zrem (pr_handler (laserServiceProcessorZrem handler)).
Definition laserServiceProcessorZrange_Read (fuel : nat) := processor_Read (P:=P) m_Zrange fuel.
Definition laserServiceProcessorZrange_Write := processor_Write (P:=P) m_Zrange.
Definition laserServiceProcessorZrange_Run (handler : LaserService) :=
  processor_Run (P:=P) m_Zrange (pr_handler (laserServiceProcessorZrange handler)).
Definition laserServiceProcessorZrangeByScore_Read (fuel : nat) := processor_Read (P:=P) m_ZrangeByScore fuel.
Definition laserServiceProcessorZrangeByScore_Write := processor_Write (P:=P) m_ZrangeByScore.
Definition laserServiceProcessorZrangeByScore_Run (handler : LaserService) :=
  processor_Run (P:=P) m_ZrangeByScore (pr_handler (laserServiceProcessorZrangeByScore handler)).
Definition laserServiceProcessorZremRangeByScore_Read (fuel : nat) := processor_Read (P:=P) m_ZremRangeByScore fuel.
Definition laserServiceProcessorZremRangeByScore_Write := processor_Write (P:=P) m_ZremRangeByScore.
Definition laserServiceProcessorZremRangeByScore_Run (handler : LaserService) :=
  processor_Run (P:=P) m_ZremRangeByScore (pr_handler (laserServiceProcessorZremRangeByScore handler)).
End Functions.

Record LaserServiceProcessor := mkLaserServiceProcessor { lsp_processorMap : gmap string processor; lsp_handler : LaserService }.

Definition AddToProcessorMap (key : string) (f : processor) (p : LaserServiceProcessor) : LaserServiceProcessor :=
  mkLaserServiceProcessor (<[key := f]> (lsp_processorMap p)) (lsp_handler p).
Definition GetProcessorFunction (key : string) (p : LaserServiceProcessor) : option processor := lsp_processorMap p !! key.
Definition ProcessorMap (p : LaserServiceProcessor) : gmap string processor := lsp_processorMap p.

Definition processor_entries (handler : LaserService) : list (string * processor) :=
  [("delkey", laserServiceProcessorDelkey handler);
   ("exists", laserServiceProcessorExists handler);
   ("expire", laserServiceProcessorExpire handler);
   ("expireAt", laserServiceProcessorExpireAt handler);
   ("ttl", laserServiceProcessorTtl handler);
   ("append", laserServiceProcessorAppend handler);
   ("get", laserServiceProcessorGet handler);
   ("sset", laserServiceProcessorSset handler);
   ("setx", laserServiceProcessorSetx handler);
   ("mget", laserServiceProcessorMget handler);
   ("mset", laserServiceProcessorMset handler);
   ("mgetDetail", laserServiceProcessorMgetDetail handler);
   ("msetDetail", laserServiceProcessorMsetDetail handler);
   ("mdel", laserServiceProcessorMdel handler);
   ("exist", laserServiceProcessorExist handler);
   ("decr", laserServiceProcessorDecr handler);
   ("incr", laserServiceProcessorIncr handler);
   ("decrBy", laserServiceProcessorDecrBy handler);
   ("incrBy", laserServiceProcessorIncrBy handler);
   ("hdel", laserServiceProcessorHdel handler);
   ("hexists", laserServiceProcessorHexists handler);
   ("hget", laserServiceProcessorHget handler);
   ("hset", laserServiceProcessorHset handler);
   ("hgetall", laserServiceProcessorHgetall handler);
   ("hkeys", laserServiceProcessorHkeys handler);
   ("hlen", laserServiceProcessorHlen handler);
   ("hmget", laserServiceProcessorHmget handler);
   ("hmset", laserServiceProcessorHmset handler);
   ("lindex", laserServiceProcessorLindex handler);
   ("llen", laserServiceProcessorLlen handler);
   ("lpop", laserServiceProcessorLpop handler);
   ("lpush", laserServiceProcessorLpush handler);
   ("lrange", laserServiceProcessorLrange handler);
   ("rpop", laserServiceProcessorRpop handler);
   ("rpush", laserServiceProcessorRpush handler);
   ("sadd", laserServiceProcessorSadd handler);
   ("scard", laserServiceProcessorScard handler);
   ("sismember", laserServiceProcessorSismember handler);
   ("sremove", laserServiceProcessorSremove handler);
   ("smembers", laserServiceProcessorSmembers handler);
   ("zadd", laserServiceProcessorZadd handler);
   ("zcard", laserServiceProcessorZcard handler);
   ("zrank", laserServiceProcessorZrank handler);
   ("zscore", laserServiceProcessorZscore handler);
   ("zrem", laserServiceProcessorZrem handler);
   ("zrange", laserServiceProcessorZrange handler);
   ("zrangeByScore", laserServiceProcessorZrangeByScore handler);
   ("zremRangeByScore", laserServiceProcessorZremRangeByScore handler)].

Definition NewLaserServiceProcessor (handler : LaserService) : LaserServiceProcessor :=
  mkLaserServiceProcessor (foldl (λ m kf, <[kf.1 := kf.2]> m) ∅ (processor_entries handler)) handler.
