(* ===== verification/LaserRpc.v ===== *)
(** * A call reaches the handler, and its answer the caller
    ([sdk/go/laser_client/if/laser/laserservice.go])

    The two halves of a call, the processor and the wire in between put together: for
    every method of the service the caller gets what the handler answers, for any
    protocol that keeps its promises.  Then a client that goroutines share, and scores. *)

From Stdlib Require Import SpecFloat.
From S2P Require Import Prelude RouterTypes ThriftWire LaserTypes LaserWire LaserRoundTrip LaserService LaserMethods GoLib.

(** ** What messages promise *)

Class MessageLaws (P : Type) `{laws : ProtocolLaws P} {messages : Messages P} := {
  application_tokens : exception_code → string → list token;
  law_message_begin p name type seqid l :
    spells p (TMessageBegin name type seqid :: l) → ∃ p', ReadMessageBegin p = (p', (name, type, seqid, None)) ∧ spells p' l;
  law_message_end p l : spells p (TMessageEnd :: l) → ∃ p', ReadMessageEnd p = (p', inl tt) ∧ spells p' l;
  law_flush p l : spells p l → ∃ p', Flush p = (p', None) ∧ spells p' l;
  law_read_application p code text l :
    spells p (application_tokens code text ++ l) →
    ∃ p', ReadApplicationException p = (p', inl (NewApplicationException code text)) ∧ spells p' l;
  law_write_application p code text l :
    Forall token_ok (application_tokens code text) → spells p l →
    ∃ p', WriteApplicationException (NewApplicationException code text) p = (p', None) ∧
      spells p' (l ++ application_tokens code text);
  law_no_message p name type seqid l : spells p [] → spells p (TMessageBegin name type seqid :: l) → False
}.

(** ** The tokens of a call *)

Section Tokens.
Context {order : MapOrder}.

Definition param_tokens (t : param_type) : param_val t → list token :=
  match t with
  | PKey => ptr_tokens LaserKey_tokens
  | PKeys => ptr_tokens LaserKeys_tokens
  | PKV => ptr_tokens LaserKV_tokens
  | PKVs => ptr_tokens LaserKVs_tokens
  | PSetOption => ptr_tokens LaserSetOption_tokens
  | PValue => ptr_tokens LaserValue_tokens
  | PString => string_tokens
  | PStrings => list_tokens STRING string_tokens
  | PI64 => i64_tokens
  | PI32 => λ z, [TI32 z]
  end.

(** An item of the parameters after the first. *)
Definition item_on_rest {A B} (it : item B) : item (A * B) :=
  mkItem (it_name it) (it_type it) (it_id it) (it_tokens it) (λ s, (s.1, it_does it s.2)).

Fixpoint args_items (id : Z) (ps : list (string * param_type)) : params_val ps → list (item (params_val ps)) :=
  match ps with
  | [] => λ _, []
  | p :: ps => λ a,
      mkItem p.1 (param_ttype p.2) id (param_tokens p.2 a.1) (λ s, (a.1, s.2)) :: (item_on_rest <$> args_items (id + 1) ps a.2)
  end.

Definition args_tokens (m : method) (a : args_of m) : list token :=
  tokens_of (ad_name (me_args m)) (args_items 1 (ad_params (me_args m)) a).

Definition request_tokens (m : method) (seqid : Z) (a : args_of m) : list token :=
  TMessageBegin (me_name m) CALL seqid :: args_tokens m a ++ [TMessageEnd].

Definition result_items (r : ServiceResult) : list (list (item ServiceResult)) :=
  [opt_item (sr_Success r) (λ x, mkItem "success" STRUCT 0 (LaserResponse_tokens x) (λ s, mkServiceResult (Some x) (sr_E s)));
   opt_item (sr_E r) (λ x, mkItem "e" STRUCT 1 (LaserException_tokens x) (λ s, mkServiceResult (sr_Success s) (Some x)))].
Definition result_tokens (m : method) (r : ServiceResult) : list token :=
  tokens_of (rd_name (me_result m)) (concat (result_items r)).
End Tokens.

(** What can be sent: see LaserRoundTrip.v. *)
Definition param_ok (t : param_type) : param_val t → Prop :=
  match t with
  | PKey | PSetOption => ptr_ok (λ _, True)
  | PKeys => ptr_ok LaserKeys_ok
  | PKV => ptr_ok LaserKV_ok
  | PKVs => ptr_ok LaserKVs_ok
  | PValue => ptr_ok LaserValue_ok
  | _ => λ _, True
  end.

Fixpoint params_ok (ps : list (string * param_type)) : params_val ps → Prop :=
  match ps with
  | [] => λ _, True
  | p :: ps => λ a, param_ok p.2 a.1 ∧ params_ok ps a.2
  end.

Definition result_ok (r : ServiceResult) : Prop :=
  opt_ok LaserResponse_ok (sr_Success r) ∧ opt_ok LaserException_ok (sr_E r).

(** ** Lemmas: arguments and results *)

Section Structs.
Context {P : Type} {prot : Protocol P} {laws : ProtocolLaws P} {order : MapOrder}.

Lemma param_writes T name id t v : param_ok t v → writes (write_param T name id t v) (param_tokens t v).
Proof.
  destruct t; cbn; intros Hv; try apply writes_scalar; [..|apply writes_strings];
    eapply writes_ptr; [|exact Hv| |exact Hv| |exact Hv| |exact Hv| |exact Hv| |exact Hv]; intros;
    [apply LaserKey_writes|by apply LaserKeys_writes|by apply LaserKV_writes|by apply LaserKVs_writes
    |apply LaserSetOption_writes|by apply LaserValue_writes].
Qed.

Lemma param_reads fuel id t v : (10 ≤ fuel)%nat → param_ok t v → reads (read_param fuel id t) (param_tokens t v) v.
Proof.
  intros Hfuel. destruct t; cbn; intros Hv;
    [..|apply reads_string|apply reads_strings|apply reads_i64|apply reads_i32];
    eapply reads_ptr; [|exact Hv| |exact Hv| |exact Hv| |exact Hv| |exact Hv| |exact Hv]; intros;
    [by apply LaserKey_reads|by apply LaserKeys_reads|by apply LaserKV_reads|by apply LaserKVs_reads
    |by apply LaserSetOption_reads|by apply LaserValue_reads].
Qed.

Lemma item_tokens_on_rest {A B} (its : list (item B)) :
  item_tokens <$> (item_on_rest (A:=A) <$> its) = item_tokens <$> its.
Proof. rewrite <- list_fmap_compose. by apply list_fmap_ext. Qed.

Lemma args_fields_write T id ps a :
  params_ok ps a → Forall2 writes (args_writeFields T id ps a) (item_tokens <$> args_items id ps a).
Proof.
  revert id a. induction ps as [|[name t] ps IH]; intros id a Hok; cbn; [constructor|].
  destruct Hok as [Hp Hok]. constructor; [by apply writes_field, param_writes|].
  rewrite item_tokens_on_rest. by apply IH.
Qed.

Lemma args_write m a : params_ok _ a → writes (args_Write (me_args m) a) (args_tokens m a).
Proof. intros Hok. by apply writes_struct, args_fields_write. Qed.

(** The fields of the first parameter and of the rest. *)
Lemma field_of_on_rest {A B} id (f : A * B → wire P (A * B)) (fs : list (Z * (B → wire P B))) i :
  i ≠ id → field_of ((id, f) :: (on_rest <$> fs)) i = (λ g a, do rest ← g a.2; wret (a.1, rest)) <$> field_of fs i.
Proof.
  intros Hne. unfold field_of. cbn [List.find fst]. destruct (Z.eqb_spec id i) as [->|_]; [done|].
  induction fs as [|[j g] fs IH]; [done|]. cbn. by destruct (Z.eqb j i).
Qed.

Lemma item_on_rest_ok {A B} id (f : A * B → wire P (A * B)) (fs : list (Z * (B → wire P B))) it :
  id + 1 ≤ it_id it → item_ok fs it → item_ok ((id, f) :: (on_rest <$> fs)) (item_on_rest it).
Proof.
  intros Hid [Hstop Hit]. split; [done|]. cbn [it_id item_on_rest]. rewrite field_of_on_rest by lia.
  destruct (field_of fs (it_id it)) as [g|]; cbn.
  - intros s. eapply reads_put; [apply Hit|done].
  - destruct Hit as [Hv Hdoes]. split; [done|]. intros [x s]. cbn. by rewrite Hdoes.
Qed.

Lemma args_items_from id ps a : Forall (λ it, id ≤ it_id it) (args_items id ps a).
Proof.
  revert id a. induction ps as [|p ps IH]; intros id a; cbn; constructor; [cbn; lia|].
  apply Forall_fmap. eapply Forall_impl; [apply IH|]. intros it Hit.
  exact (Z.le_trans _ _ _ (Z.le_succ_diag_r id) Hit).
Qed.

Lemma param_ttype_not_stop t : param_ttype t ≠ STOP.
Proof. by destruct t. Qed.

Lemma args_items_ok fuel id ps a :
  (10 ≤ fuel)%nat → params_ok ps a → Forall (item_ok (args_fields fuel id ps)) (args_items id ps a).
Proof.
  intros Hfuel. revert id a. induction ps as [|p ps IH]; intros id a Hok; [constructor|].
  destruct Hok as [Hp Hok]. cbn [args_items args_fields]. constructor.
  - split; [apply param_ttype_not_stop|]. unfold field_of. cbn. rewrite Z.eqb_refl. cbn. intros s.
    eapply reads_put; [by apply param_reads|done].
  - apply Forall_fmap.
    eapply Forall_impl; [exact (proj2 (Forall_and _ _) (conj (IH (id + 1) a.2 Hok) (args_items_from (id + 1) ps a.2)))|].
    intros it [Hit Hid]. exact (item_on_rest_ok id _ _ it Hid Hit).
Qed.

Lemma all_do_on_rest {A B} (its : list (item B)) (x : A) (s : B) :
  all_do (item_on_rest <$> its) (x, s) = (x, all_do its s).
Proof. revert s. induction its as [|it its IH]; intros s; [done|]. apply IH. Qed.

Lemma args_all id ps a s : all_do (args_items id ps a) s = a.
Proof.
  revert id a s. induction ps as [|p ps IH]; intros id a s; [by destruct a, s|].
  destruct a as [v a], s as [v0 s]. etransitivity; [exact (all_do_on_rest (args_items (id + 1) ps a) v s)|].
  by rewrite IH.
Qed.

Lemma length_args_items id ps a : length (args_items id ps a) = length ps.
Proof. revert id a. induction ps as [|p ps IH]; intros id a; [done|]. cbn. f_equal. rewrite length_fmap. apply IH. Qed.

Lemma args_read m fuel a :
  (10 ≤ fuel)%nat → (length (ad_params (me_args m)) < fuel)%nat → params_ok _ a →
  reads (args_Read (me_args m) fuel (params_zero _)) (args_tokens m a) a.
Proof.
  intros Hfuel Hlen Hok. eapply reads_struct_as; [by apply args_items_ok| |done|apply args_all].
  by rewrite length_args_items.
Qed.

Lemma result_write m r : result_ok r → writes (result_Write (me_result m) r) (result_tokens m r).
Proof.
  intros [Hs He]. apply writes_union. repeat first [apply Forall2_cons_2|apply Forall2_nil_2]; apply writes_opt_item.
  - eapply opt_ok_impl; [exact Hs|]. intros x Hx. by apply writes_field, writes_prepend, LaserResponse_writes.
  - eapply opt_ok_impl; [exact He|]. intros x Hx. by apply writes_field, writes_prepend, LaserException_writes.
Qed.

Lemma result_read m fuel r :
  (10 ≤ fuel)%nat → result_ok r → reads (result_Read (me_result m) fuel ServiceResult_zero) (result_tokens m r) r.
Proof.
  intros Hfuel [Hs He]. eapply reads_struct_as; [| |done|by destruct r as [[] []]].
  - apply Forall_concat. repeat first [apply Forall_cons; split|apply Forall_nil_2]; apply Forall_opt_item.
    + eapply opt_ok_impl; [exact Hs|]. intros x Hx. split; [done|]. cbn. intros s.
      eapply reads_put; [by apply reads_prepend, LaserResponse_reads|done].
    + eapply opt_ok_impl; [exact He|]. intros x Hx. split; [done|]. cbn. intros s.
      eapply reads_put; [by apply reads_prepend, LaserException_reads|done].
  - eapply Nat.le_lt_trans; [apply length_concat_opt|cbn; lia].
    repeat (apply Forall_cons; split; [apply length_opt_item|]). apply Forall_nil_2.
Qed.
End Structs.

(** ** Lemmas: the two halves of a call, and the processor *)

(** What the caller gets to see of the handler's answer: an error of the handler comes back as
    an application exception with its text. *)
Definition internal_text (m : method) (err : error) : string :=
  "Internal error processing " +:+ me_name m +:+ ": " +:+ err_msg err.

Definition caller_sees {P} {messages : Messages P} (m : method) (answer : answers) : answers :=
  match answer with
  | inr (CallError err) => inr (CallError (NewApplicationException INTERNAL_ERROR (internal_text m err)))
  | _ => answer
  end.

Definition answer_ok (answer : answers) : Prop :=
  match answer with
  | inl r => opt_ok LaserResponse_ok r
  | inr (ServiceException e) => LaserException_ok e
  | inr (CallError _) => True
  end.

Section Rpc.
Context {P : Type} {prot : Protocol P} {laws : ProtocolLaws P} {messages : Messages P} {mlaws : MessageLaws P}
  {order : MapOrder}.
Implicit Types (m : method) (c : LaserServiceClient (P:=P)) (p q : P).

Definition answer_body m (answer : answers) : list token :=
  match answer with
  | inl r => result_tokens m (mkServiceResult r None)
  | inr (ServiceException e) => result_tokens m (mkServiceResult None (Some e))
  | inr (CallError err) => application_tokens INTERNAL_ERROR (internal_text m err)
  end.

Definition answer_type (answer : answers) : message_type :=
  match answer with inr (CallError _) => EXCEPTION | _ => REPLY end.

Definition reply_tokens m (seqid : Z) (answer : answers) : list token :=
  TMessageBegin (me_name m) (answer_type answer) seqid :: answer_body m answer ++ [TMessageEnd].

Lemma writes_flush : writes flush [].
Proof.
  intros _ p l Hp. destruct (law_flush p l Hp) as (p' & E & Hp'). exists p'. unfold flush. by rewrite E, app_nil_r.
Qed.

Lemma reads_message_end : reads (lift ReadMessageEnd) [TMessageEnd] tt.
Proof. apply reads_lift. intros p l. apply law_message_end. Qed.

Lemma message_ok name type seqid body :
  - 2 ^ 31 ≤ seqid < 2 ^ 31 → Forall token_ok body → Forall token_ok (TMessageBegin name type seqid :: body ++ [TMessageEnd]).
Proof. intros Hseq Hbody. constructor; [exact Hseq|]. apply Forall_app. split; [done|]. by repeat constructor. Qed.

Lemma send_writes m a c p :
  params_ok _ a → Forall token_ok (args_tokens m a) → lsc_OutputProtocol c = Some p → spells p [] →
  ∃ p', send m a c = Ret (mkLaserServiceClient (lsc_GetProtocol c) (lsc_InputProtocol c) (Some p') (i32 (lsc_SeqId c + 1)), inl tt) ∧
    spells p' (request_tokens m (i32 (lsc_SeqId c + 1)) a).
Proof.
  intros Hok Htok Ec Hp. set (seq := i32 (lsc_SeqId c + 1)).
  assert (writes (do _ ← write (TMessageBegin (me_name m) CALL seq); do _ ← args_Write (me_args m) a;
    do _ ← write TMessageEnd; flush) (request_tokens m seq a)) as Hw.
  { apply (writes_bind _ _ [_]); [apply writes_token|]. apply writes_bind; [by apply args_write|].
    apply (writes_bind _ _ [_] []); [apply writes_token|apply writes_flush]. }
  destruct (Hw (message_ok _ _ _ _ (wraps_range 32 _ ltac:(lia)) Htok) p [] Hp) as (p' & E & Hp').
  exists p'. split; [|exact Hp']. unfold send. rewrite Ec. cbn. fold seq. by rewrite E.
Qed.

Lemma processor_reads m fuel a :
  (10 ≤ fuel)%nat → (length (ad_params (me_args m)) < fuel)%nat → params_ok _ a →
  reads (processor_Read m fuel) (args_tokens m a ++ [TMessageEnd]) a.
Proof.
  intros Hfuel Hlen Hok. eapply reads_bind; [by apply args_read|]. intros p l Hp.
  destruct (law_message_end p l Hp) as (p' & E & Hp'). exists p'. by rewrite E.
Qed.

Lemma write_all_parts_writes (parts : list (wire P unit)) (tokss : list (list token)) p l :
  Forall2 writes parts tokss → Forall token_ok (concat tokss) → spells p l →
  ∃ p', write_all_parts parts None p = Ret (p', None) ∧ spells p' (l ++ concat tokss).
Proof.
  intros Hw. revert p l. induction Hw as [|part toks parts tokss Hpart _ IH]; intros p l Hok Hp.
  - exists p. cbn. by rewrite app_nil_r.
  - apply Forall_app in Hok as [Hok1 Hok2]. destruct (Hpart Hok1 p l Hp) as (p1 & E1 & Hp1).
    destruct (IH p1 _ Hok2 Hp1) as (p2 & E2 & Hp2). exists p2. cbn. rewrite E1. cbn. by rewrite E2, <- app_assoc in *.
Qed.

Lemma answer_writes m handler (a : args_of m) :
  answer_ok (handler a) → writes (write_writable m (processor_Run m handler a).1) (answer_body m (handler a)).
Proof.
  unfold processor_Run. destruct (handler a) as [r|[err|e]]; cbn [fst write_writable answer_body answer_ok];
    intros Hok; [by apply result_write| |by apply result_write].
  fold (internal_text m err). intros Htok p l Hp. destruct (law_write_application p _ _ l Htok Hp) as (p' & E & Hp').
  exists p'. by rewrite E.
Qed.

Lemma processor_writes m handler (a : args_of m) seqid p :
  - 2 ^ 31 ≤ seqid < 2 ^ 31 → answer_ok (handler a) → Forall token_ok (answer_body m (handler a)) → spells p [] →
  ∃ p', processor_Write m seqid (processor_Run m handler a).1 p = Ret (p', None) ∧
    spells p' (reply_tokens m seqid (handler a)).
Proof.
  intros Hseq Hok Htok Hp.
  destruct (write_all_parts_writes
    [write (TMessageBegin (me_name m) (answer_type (handler a)) seqid); write_writable m (processor_Run m handler a).1;
     write TMessageEnd; flush] 
    [[TMessageBegin (me_name m) (answer_type (handler a)) seqid]; answer_body m (handler a); [TMessageEnd]; []] p []) as (p' & E & Hp').
  - repeat first [apply Forall2_cons_2|apply Forall2_nil_2];
      [apply writes_token|by apply answer_writes|apply writes_token|apply writes_flush].
  - cbn. rewrite ?app_nil_r. by apply message_ok.
  - done.
  - exists p'. split; [|exact Hp']. rewrite <- E. unfold processor_Write, processor_Run, answer_type.
    by destruct (handler a) as [r|[err|e]].
Qed.

Lemma result_message m fuel r :
  (10 ≤ fuel)%nat → result_ok r →
  reads (do result ← result_Read (me_result m) fuel ServiceResult_zero; do _ ← lift ReadMessageEnd; wret result)
    (result_tokens m r ++ [TMessageEnd]) r.
Proof.
  intros Hfuel Hr. eapply reads_bind; [by apply result_read|].
  apply (reads_set _ (λ _ : unit, r) _ tt), reads_message_end.
Qed.

(** The result of a reply, or the error it stands for. *)
Definition read_answer (answer : answers) m : ServiceResult + error :=
  match answer with
  | inl r => inl (mkServiceResult r None)
  | inr (ServiceException e) => inl (mkServiceResult None (Some e))
  | inr (CallError err) => inr (NewApplicationException INTERNAL_ERROR (internal_text m err))
  end.

Lemma read_reply_reads m fuel seqid answer q :
  (10 ≤ fuel)%nat → answer_ok answer → spells q (reply_tokens m seqid answer) →
  ∃ q', read_reply m fuel seqid q = Ret (q', read_answer answer m) ∧ spells q' [].
Proof.
  intros Hfuel Hok Hq. destruct (law_message_begin q _ _ _ _ Hq) as (q1 & E1 & Hq1).
  unfold read_reply. rewrite E1, String.eqb_refl, Z.eqb_refl. cbn [negb].
  assert (∀ r, result_ok r → spells q1 (result_tokens m r ++ [TMessageEnd]) → ∃ q',
    (do result ← result_Read (me_result m) fuel ServiceResult_zero; do _ ← lift ReadMessageEnd; wret result) q1
      = Ret (q', inl r) ∧ spells q' []) as Hresult.
  { intros r Hr Hsp. apply (result_message m fuel r Hfuel Hr q1 []). by rewrite app_nil_r. }
  destruct answer as [r|[err|e]]; cbn [answer_type answer_body read_answer] in *;
    [exact (Hresult (mkServiceResult r None) (conj Hok I) Hq1)| |
     exact (Hresult (mkServiceResult None (Some e)) (conj I Hok) Hq1)].
  destruct (law_read_application q1 _ _ _ Hq1) as (q2 & E2 & Hq2). destruct (law_message_end q2 [] Hq2) as (q3 & E3 & Hq3).
  exists q3. split; [|exact Hq3]. unfold wbind, lift. rewrite E2. cbn. by rewrite E3.
Qed.

(** The reply to the call that the client waits for is taken for what it is. *)
Lemma recv_reads m fuel answer c q :
  (10 ≤ fuel)%nat → answer_ok answer → lsc_InputProtocol c = Some q → spells q (reply_tokens m (lsc_SeqId c) answer) →
  ∃ q', recv m fuel c = Ret (mkLaserServiceClient (lsc_GetProtocol c) (Some q') (lsc_OutputProtocol c) (lsc_SeqId c),
      caller_sees m answer) ∧ spells q' [].
Proof.
  intros Hfuel Hok Ec Hq. destruct (read_reply_reads m fuel _ answer q Hfuel Hok Hq) as (q' & E & Hq').
  exists q'. split; [|exact Hq']. unfold recv. rewrite Ec. unfold use_protocol.
  change (mret q ≫= ?k) with (k q). cbv beta. rewrite E. by destruct answer as [r|[err|e]].
Qed.
End Rpc.

(** ** The processor's functions *)

Lemma foldl_insert_other {A} (kvs : list (string * A)) (m : gmap string A) k :
  k ∉ kvs.*1 → foldl (λ m kf, <[kf.1 := kf.2]> m) m kvs !! k = m !! k.
Proof.
  revert m. induction kvs as [|[k' v] kvs IH]; intros m Hk; [done|]. cbn in *. rewrite not_elem_of_cons in Hk.
  destruct Hk as [Hne Hk]. rewrite IH by done. by rewrite lookup_insert_ne.
Qed.

Lemma foldl_insert_lookup {A} (kvs : list (string * A)) (m : gmap string A) k v :
  NoDup (kvs.*1) → (k, v) ∈ kvs → foldl (λ m kf, <[kf.1 := kf.2]> m) m kvs !! k = Some v.
Proof.
  revert m. induction kvs as [|[k' v'] kvs IH]; intros m Hnd Hin; [by apply not_elem_of_nil in Hin|].
  apply NoDup_cons in Hnd as [Hk' Hnd]. apply elem_of_cons in Hin as [[= -> ->]|Hin]; [|by apply IH].
  cbn in *. rewrite foldl_insert_other by done. by rewrite lookup_insert_eq.
Qed.

Lemma processor_names handler :
  (processor_entries handler).*1 = me_name <$> service_methods ∧ pr_method <$> (processor_entries handler).*2 = service_methods.
Proof. done. Qed.

Lemma service_names_distinct : NoDup (me_name <$> service_methods).
Proof. apply (bool_decide_eq_true_1 _). vm_compute. reflexivity. Qed.

Lemma entry_named handler name f : (name, f) ∈ processor_entries handler → name = me_name (pr_method f).
Proof.
  assert (Forall (λ kf : string * processor, kf.1 = me_name (pr_method kf.2)) (processor_entries handler)) as H
    by (by repeat constructor).
  intros Hin. by apply (proj1 (Forall_forall _ _) H (name, f)).
Qed.

Lemma processor_found handler f :
  f ∈ (processor_entries handler).*2 →
  GetProcessorFunction (me_name (pr_method f)) (NewLaserServiceProcessor handler) = Some f.
Proof.
  intros ([name f'] & -> & Hin)%list_elem_of_fmap. cbn [snd]. rewrite <- (entry_named _ _ _ Hin).
  apply foldl_insert_lookup; [|done]. rewrite (proj1 (processor_names handler)). exact service_names_distinct.
Qed.

Lemma few_params handler f : f ∈ (processor_entries handler).*2 → (length (ad_params (me_args (pr_method f))) ≤ 3)%nat.
Proof.
  assert (Forall (λ m, length (ad_params (me_args m)) ≤ 3)%nat service_methods) as H
    by (apply (bool_decide_eq_true_1 _); vm_compute; reflexivity).
  intros Hin. apply (proj1 (Forall_forall _ _) H). rewrite <- (proj2 (processor_names handler)).
  by apply list_elem_of_fmap_2.
Qed.

(** ** Calls over a network *)

Section Network.
Context {P : Type} {prot : Protocol P} {laws : ProtocolLaws P} {messages : Messages P} {mlaws : MessageLaws P}
  {order : MapOrder} (fuel : nat) (handler : LaserService).
Implicit Types (c : LaserServiceClient (P:=P)) (p q : P).

(** Nothing is on the way between the client and the server. *)
Definition idle c : Prop :=
  ∃ p q, lsc_OutputProtocol c = Some p ∧ lsc_InputProtocol c = Some q ∧ spells p [] ∧ spells q [].

(** The network brings what the client has written to a server and what the server writes to
    the client.  The server finds the function of the method, reads the arguments, runs the
    function and writes what it gives, with the number of the call. *)
Definition serves (network : LaserServiceClient → LaserServiceClient) : Prop :=
  ∀ c p q name seqid body f ps ps' a po po' reply,
  lsc_OutputProtocol c = Some p → lsc_InputProtocol c = Some q →
  spells p (TMessageBegin name CALL seqid :: body) → spells q [] →
  GetProcessorFunction name (NewLaserServiceProcessor handler) = Some f →
  spells ps body → processor_Read (pr_method f) fuel ps = Ret (ps', inl a) →
  spells po [] → processor_Write (pr_method f) seqid (processor_Run (pr_method f) (pr_handler f) a).1 po = Ret (po', None) →
  spells po' reply →
  ∃ p' q', network c = mkLaserServiceClient (lsc_GetProtocol c) (Some q') (Some p') (lsc_SeqId c) ∧
    spells p' [] ∧ spells q' reply.

(** A request that is on the way is answered by the handler. *)
Lemma network_answers network f a c p q seqid :
  (10 ≤ fuel)%nat → serves network → f ∈ (processor_entries handler).*2 → params_ok _ a →
  answer_ok (pr_handler f a) → Forall token_ok (answer_body (pr_method f) (pr_handler f a)) →
  - 2 ^ 31 ≤ seqid < 2 ^ 31 → lsc_OutputProtocol c = Some p → lsc_InputProtocol c = Some q →
  spells p (request_tokens (pr_method f) seqid a) → spells q [] →
  ∃ p' q', network c = mkLaserServiceClient (lsc_GetProtocol c) (Some q') (Some p') (lsc_SeqId c) ∧
    spells p' [] ∧ spells q' (reply_tokens (pr_method f) seqid (pr_handler f a)).
Proof.
  intros Hfuel Hnet Hf Hok Hans Htok Hseq Ep Eq Hp Hq.
  destruct (law_message_begin p _ _ _ _ Hp) as (p1 & _ & Hp1).
  destruct (processor_reads (pr_method f) fuel a Hfuel ltac:(pose proof (few_params _ _ Hf); lia) Hok p1 [])
    as (ps' & Eread & _); [by rewrite app_nil_r|].
  destruct (processor_writes (pr_method f) (pr_handler f) a seqid q Hseq Hans Htok Hq) as (po' & Ewrite & Hpo').
  exact (Hnet c p q _ _ _ f p1 ps' a q po' _ Ep Eq Hp Hq (processor_found handler f Hf) Hp1 Eread Hq Ewrite Hpo').
Qed.

Lemma call_answered network f a c :
  (10 ≤ fuel)%nat → serves network → f ∈ (processor_entries handler).*2 →
  params_ok _ a → Forall token_ok (args_tokens (pr_method f) a) →
  answer_ok (pr_handler f a) → Forall token_ok (answer_body (pr_method f) (pr_handler f a)) → idle c →
  ∃ c', call network (pr_method f) fuel a c = Ret (c', caller_sees (pr_method f) (pr_handler f a)) ∧ idle c' ∧
    lsc_SeqId c' = i32 (lsc_SeqId c + 1).
Proof.
  intros Hfuel Hnet Hf Hok Htok Hans Hrtok (p & q & Ep & Eq & Hp & Hq).
  destruct (send_writes (pr_method f) a c p Hok Htok Ep Hp) as (p1 & Esend & Hp1).
  set (c1 := mkLaserServiceClient _ _ (Some p1) _) in *.
  destruct (network_answers network f a c1 p1 q (lsc_SeqId c1) Hfuel Hnet Hf Hok Hans Hrtok
    (wraps_range 32 _ ltac:(lia)) eq_refl Eq Hp1 Hq) as (p2 & q2 & Enet & Hp2 & Hq2).
  destruct (recv_reads (pr_method f) fuel (pr_handler f a) (network c1) q2 Hfuel Hans) as (q3 & Erecv & Hq3);
    [by rewrite Enet|by rewrite Enet|].
  eexists. unfold call. rewrite Esend. split; [exact Erecv|]. rewrite Enet. split; [|done]. by exists p2, q3.
Qed.
End Network.

(** ** Calls one after the other *)

(** A call of a function of the processor. *)
Record served_call := mkServedCall { sc_function : processor; sc_args : args_of (pr_method sc_function) }.

Definition sc_method (k : served_call) : method := pr_method (sc_function k).
Definition sc_answer (k : served_call) : answers := pr_handler (sc_function k) (sc_args k).

Section Sequences.
Context {P : Type} {prot : Protocol P} {laws : ProtocolLaws P} {messages : Messages P} {mlaws : MessageLaws P}
  {order : MapOrder} (fuel : nat) (handler : LaserService).

(** The call can be sent and its answer can. *)
Definition sendable (k : served_call) : Prop :=
  sc_function k ∈ (processor_entries handler).*2 ∧ params_ok _ (sc_args k) ∧
  Forall token_ok (args_tokens (sc_method k) (sc_args k)) ∧
  answer_ok (sc_answer k) ∧ Forall token_ok (answer_body (sc_method k) (sc_answer k)).

Fixpoint calls (network : LaserServiceClient (P:=P) → LaserServiceClient (P:=P)) (ks : list served_call)
    (c : LaserServiceClient) : go (LaserServiceClient (P:=P) * list answers) :=
  match ks with
  | [] => mret (c, [])
  | k :: ks =>
      '(c, r) ← call network (sc_method k) fuel (sc_args k) c;
      '(c, rs) ← calls network ks c;
      mret (c, r :: rs)
  end.
End Sequences.

(** C5: For every method of the service, over any protocol that keeps its promises and any
    network that brings messages to a server that runs the processor's functions: a client
    that makes any number of calls one after the other, however its sequence numbers wrap
    around, gets for each of them what the handler answers to these very arguments.  An
    error of the handler that is not the service's exception comes back as an application
    exception with its text. *)
Theorem remote_calls {P} {prot : Protocol P} {laws : ProtocolLaws P} {messages : Messages P} {mlaws : MessageLaws P}
    {order : MapOrder} (fuel : nat) (handler : LaserService) network (ks : list served_call) (c : LaserServiceClient) :
  (10 ≤ fuel)%nat → serves fuel handler network → Forall (sendable handler) ks → idle c →
  ∃ c', calls fuel network ks c = Ret (c', (λ k, caller_sees (sc_method k) (sc_answer k)) <$> ks) ∧ idle c'.
Proof.
  intros Hfuel Hnet Hks. revert c. induction Hks as [|k ks (Hf & Hok & Htok & Hans & Hrtok) _ IH]; intros c Hc;
    [by exists c|].
  destruct (call_answered fuel handler network (sc_function k) (sc_args k) c Hfuel Hnet Hf Hok Htok Hans Hrtok Hc)
    as (c1 & E1 & Hc1 & _).
  destruct (IH c1 Hc1) as (c2 & E2 & Hc2). exists c2. split; [|done]. cbn [calls]. unfold sc_method at 1.
  rewrite E1. change (Ret ?x ≫= ?f) with (f x). cbv beta iota. rewrite E2. done.
Qed.

(** ** Messages in memory, and a server *)

Definition mem_messages : Messages (list token) :=
  {| ReadMessageBegin l := match l with
                           | TMessageBegin name type seqid :: l => (l, (name, type, seqid, None))
                           | _ => (l, ("", CALL, 0, Some unexpected))
                           end;
     ReadMessageEnd := take_token (λ t, match t with TMessageEnd => Some tt | _ => None end);
     Flush l := (l, None);
     NewApplicationException _ text := mkError text false;
     ReadApplicationException := take_token (λ t, match t with TString s => Some (mkError s false) | _ => None end);
     WriteApplicationException x l := (l ++ [TString (err_msg x)], None) |}.

Definition mem_message_laws :
  MessageLaws (list token) (H:=mem_protocol) (laws:=mem_protocol_laws) (messages:=mem_messages).
Proof.
  refine {| application_tokens _ text := [TString text] |}; cbn; intros; subst; by repeat eexists.
Defined.

Definition mem_server (handler : LaserService) (c : LaserServiceClient (P:=list token)) : LaserServiceClient :=
  match lsc_OutputProtocol c with
  | Some (TMessageBegin name CALL seqid :: body) =>
      match GetProcessorFunction name (NewLaserServiceProcessor handler) with
      | Some f =>
          match processor_Read (prot:=mem_protocol) (messages:=mem_messages) (pr_method f) 10 body with
          | Ret (_, inl a) =>
              match processor_Write (prot:=mem_protocol) (messages:=mem_messages) (order:=stdpp_order) (pr_method f) seqid
                      (processor_Run (messages:=mem_messages) (pr_method f) (pr_handler f) a).1 [] with
              | Ret (reply, _) => mkLaserServiceClient (lsc_GetProtocol c) (Some reply) (Some []) (lsc_SeqId c)
              | _ => c
              end
          | _ => c
          end
      | None => c
      end
  | _ => c
  end.

Lemma mem_server_serves handler :
  serves (prot:=mem_protocol) (laws:=mem_protocol_laws) (messages:=mem_messages) (order:=stdpp_order) 10 handler
    (mem_server handler).
Proof.
  intros c p q name seqid body f ps ps' a po po' reply Ep Eq Hp Hq Hf Hps Eread Hpo Ewrite Hpo'.
  cbn in Hp, Hq, Hps, Hpo, Hpo'. subst. exists [], reply. split; [|done].
  unfold mem_server. rewrite Ep. rewrite Hf. rewrite Eread. by rewrite Ewrite.
Qed.

(** A handler that knows one key. *)
Definition no_answer : answers := inr (CallError (mkError "not implemented" false)).
Definition one_key : LaserService :=
  {| ls_Get key := inl (Some (mkLaserResponse None (Some "v") None None None None None None None));
     ls_Ttl _ := inr (ServiceException (mkWireException "no ttl" Status_RS_NOT_FOUND));
     ls_Delkey _ := no_answer; ls_Exists _ := no_answer; ls_Expire _ _ := no_answer; ls_ExpireAt _ _ := no_answer;
     ls_Append _ _ := no_answer; ls_Sset _ := no_answer; ls_Setx _ _ := no_answer; ls_Mget _ := no_answer;
     ls_Mset _ := no_answer; ls_MgetDetail _ := no_answer; ls_MsetDetail _ _ := no_answer; ls_Mdel _ := no_answer;
     ls_Exist _ := no_answer; ls_Decr _ := no_answer; ls_Incr _ := no_answer; ls_DecrBy _ _ := no_answer;
     ls_IncrBy _ _ := no_answer; ls_Hdel _ _ := no_answer; ls_Hexists _ _ := no_answer; ls_Hget _ _ := no_answer;
     ls_Hset _ _ _ := no_answer; ls_Hgetall _ := no_answer; ls_Hkeys _ := no_answer; ls_Hlen _ := no_answer;
     ls_Hmget _ _ := no_answer; ls_Hmset _ _ := no_answer; ls_Lindex _ _ := no_answer; ls_Llen _ := no_answer;
     ls_Lpop _ := no_answer; ls_Lpush _ _ := no_answer; ls_Lrange _ _ _ := no_answer; ls_Rpop _ := no_answer;
     ls_Rpush _ _ := no_answer; ls_Sadd _ _ := no_answer; ls_Scard _ := no_answer; ls_Sismember _ _ := no_answer;
     ls_Sremove _ _ := no_answer; ls_Smembers _ := no_answer; ls_Zadd _ _ := no_answer; ls_Zcard _ := no_answer;
     ls_Zrank _ _ := no_answer; ls_Zscore _ _ := no_answer; ls_Zrem _ _ := no_answer; ls_Zrange _ _ _ := no_answer;
     ls_ZrangeByScore _ _ _ := no_answer; ls_ZremRangeByScore _ _ _ := no_answer |}.

Definition sample_key : LaserKey := mkLaserKey "db" "t" ["k"] [].
Definition sample_calls : list served_call :=
  [mkServedCall (laserServiceProcessorGet one_key) (Some sample_key, tt);
   mkServedCall (laserServiceProcessorTtl one_key) (Some sample_key, tt);
   mkServedCall (laserServiceProcessorLrange one_key) (Some sample_key, (0, (-1, tt)))].

(** A client whose next sequence number wraps around. *)
Definition sample_client : LaserServiceClient (P:=list token) := mkLaserServiceClient None (Some []) (Some []) (2 ^ 31 - 1).

Lemma sample_sendable :
  Forall (sendable (prot:=mem_protocol) (laws:=mem_protocol_laws) (messages:=mem_messages) (mlaws:=mem_message_laws)
    (order:=stdpp_order) one_key) sample_calls.
Proof.
  repeat first [apply Forall_cons; split|apply Forall_nil_2]; split_and!;
    try (by repeat split); try (apply (bool_decide_eq_true_1 _); vm_compute; reflexivity).
  - by apply list_elem_of_lookup_2 with 6%nat.
  - by apply list_elem_of_lookup_2 with 4%nat.
  - by apply list_elem_of_lookup_2 with 32%nat.
Qed.

Lemma remote_calls_witness :
  ∃ c', calls (prot:=mem_protocol) (messages:=mem_messages) (order:=stdpp_order) 10 (mem_server one_key) sample_calls sample_client
    = Ret (c', [inl (Some (mkLaserResponse None (Some "v") None None None None None None None));
                inr (ServiceException (mkWireException "no ttl" Status_RS_NOT_FOUND));
                inr (CallError (mkError "Internal error processing lrange: not implemented" false))]).
Proof.
  destruct (remote_calls (mlaws:=mem_message_laws) (order:=stdpp_order) 10 one_key (mem_server one_key) sample_calls sample_client)
    as (c' & E & _); [lia|apply mem_server_serves|exact sample_sendable|by exists [], []|].
  exists c'. exact E.
Defined.

(** ** A reply to something else *)

(** A reply with another name or number is refused; what follows its head stays unread. *)
Lemma other_reply_refused {P} {prot : Protocol P} {laws : ProtocolLaws P} {messages : Messages P} {mlaws : MessageLaws P}
    m fuel (c : LaserServiceClient (P:=P)) q name type seqid body :
  lsc_InputProtocol c = Some q → spells q (TMessageBegin name type seqid :: body) →
  name ≠ me_name m ∨ seqid ≠ lsc_SeqId c →
  ∃ q' code text, recv m fuel c = Ret (mkLaserServiceClient (lsc_GetProtocol c) (Some q') (lsc_OutputProtocol c) (lsc_SeqId c),
      inr (CallError (NewApplicationException code text))) ∧ spells q' body.
Proof.
  intros Ec Hq Hne. destruct (law_message_begin q _ _ _ _ Hq) as (q1 & E1 & Hq1). exists q1.
  unfold recv. rewrite Ec. unfold use_protocol. change (mret q ≫= ?k) with (k q). cbv beta. unfold read_reply. rewrite E1.
  destruct (String.eqb_spec name (me_name m)) as [->|_]; [|by repeat eexists].
  destruct (Z.eqb_spec (lsc_SeqId c) seqid) as [Es|_]; [by destruct Hne|]. by repeat eexists.
Qed.

(** ** A client that goroutines share *)

Section Threadsafe.
Context {P : Type} {prot : Protocol P} {laws : ProtocolLaws P} {messages : Messages P} {mlaws : MessageLaws P}
  {order : MapOrder} (fuel : nat) (network : LaserServiceClient (P:=P) → LaserServiceClient (P:=P)).

(** The client, the goroutine that holds its lock, and what every goroutine has left to do
    and has been answered. *)
Record ts_state := mkTs {
  ts_client : LaserServiceClient (P:=P);
  ts_Mu : option nat;
  ts_goroutines : list (list ts_action * option answers)
}.

(** A message has been written, or has arrived. *)
Definition written (c : LaserServiceClient (P:=P)) : Prop :=
  ∃ p name type seqid l, lsc_OutputProtocol c = Some p ∧ spells p (TMessageBegin name type seqid :: l).
Definition arrived (c : LaserServiceClient (P:=P)) : Prop :=
  ∃ q name type seqid l, lsc_InputProtocol c = Some q ∧ spells q (TMessageBegin name type seqid :: l).

(** One step of a goroutine, or of the network.  [recv] waits for a message. *)
Inductive ts_step : ts_state → ts_state → Prop :=
  | step_lock c gs i rest answer :
      gs !! i = Some (Lock :: rest, answer) → ts_step (mkTs c None gs) (mkTs c (Some i) (<[i := (rest, answer)]> gs))
  | step_send c mu gs i rq rest answer c' :
      gs !! i = Some (Send rq :: rest, answer) → send (rq_method rq) (rq_args rq) c = Ret (c', inl tt) →
      ts_step (mkTs c mu gs) (mkTs c' mu (<[i := (rest, answer)]> gs))
  | step_send_error c mu gs i rq rest answer c' err :
      gs !! i = Some (Send rq :: rest, answer) → send (rq_method rq) (rq_args rq) c = Ret (c', inr err) →
      ts_step (mkTs c mu gs) (mkTs c' mu (<[i := ([Unlock], Some (inr (CallError err)))]> gs))
  | step_recv c mu gs i rq rest answer c' r :
      gs !! i = Some (Recv rq :: rest, answer) → arrived c → recv (rq_method rq) fuel c = Ret (c', r) →
      ts_step (mkTs c mu gs) (mkTs c' mu (<[i := (rest, Some r)]> gs))
  | step_unlock c mu gs i rest answer :
      gs !! i = Some (Unlock :: rest, answer) → ts_step (mkTs c mu gs) (mkTs c None (<[i := (rest, answer)]> gs))
  | step_network c mu gs : written c → ts_step (mkTs c mu gs) (mkTs (network c) mu gs).

Definition ts_start (ks : list served_call) (c : LaserServiceClient (P:=P)) : ts_state :=
  mkTs c None ((λ k, (threadsafe_call (sc_method k) (sc_args k), None)) <$> ks).

(** *** What holds in between *)

Definition sc_request (k : served_call) : request := mkRequest (sc_method k) (sc_args k).
Definition sc_seen (k : served_call) : answers := caller_sees (sc_method k) (sc_answer k).

(** A goroutine that does not hold the lock has not begun or is done. *)
Definition outside (k : served_call) (g : list ts_action * option answers) : Prop :=
  g = (threadsafe_call (sc_method k) (sc_args k), None) ∨ g = ([], Some (sc_seen k)).

(** The request of the call is on its way, or its reply is. *)
Definition request_out (k : served_call) (c : LaserServiceClient (P:=P)) : Prop :=
  ∃ p q, lsc_OutputProtocol c = Some p ∧ lsc_InputProtocol c = Some q ∧ - 2 ^ 31 ≤ lsc_SeqId c < 2 ^ 31 ∧
    spells p (request_tokens (sc_method k) (lsc_SeqId c) (sc_args k)) ∧ spells q [].
Definition reply_in (k : served_call) (c : LaserServiceClient (P:=P)) : Prop :=
  ∃ p q, lsc_OutputProtocol c = Some p ∧ lsc_InputProtocol c = Some q ∧
    spells p [] ∧ spells q (reply_tokens (sc_method k) (lsc_SeqId c) (sc_answer k)).

(** The one that holds it is at one of four places. *)
Inductive inside (k : served_call) (c : LaserServiceClient (P:=P)) : list ts_action * option answers → Prop :=
  | in_locked : idle c → inside k c ([Send (sc_request k); Recv (sc_request k); Unlock], None)
  | in_sent : request_out k c → inside k c ([Recv (sc_request k); Unlock], None)
  | in_replied : reply_in k c → inside k c ([Recv (sc_request k); Unlock], None)
  | in_done : idle c → inside k c ([Unlock], Some (sc_seen k)).

Definition ts_inv (ks : list served_call) (s : ts_state) : Prop :=
  length (ts_goroutines s) = length ks ∧
  (∀ i k g, ks !! i = Some k → ts_goroutines s !! i = Some g →
     if decide (ts_Mu s = Some i) then inside k (ts_client s) g else outside k g) ∧
  (ts_Mu s = None → idle (ts_client s)) ∧ (∀ i, ts_Mu s = Some i → (i < length ks)%nat).

Section Invariant.
Context (handler : LaserService) (ks : list served_call).
Hypotheses (Hfuel : (10 ≤ fuel)%nat) (Hnet : serves fuel handler network) (Hks : Forall (sendable handler) ks).

Lemma ts_inv_start c : idle c → ts_inv ks (ts_start ks c).
Proof.
  intros Hc. split_and!; cbn; [by rewrite length_fmap| |done|done].
  intros i k g Hk Hg. rewrite list_lookup_fmap, Hk in Hg. injection Hg as <-. by left.
Qed.

Lemma ks_sendable i k : ks !! i = Some k → sendable handler k.
Proof. intros Hk. exact (Forall_lookup_1 _ _ _ _ Hks Hk). Qed.

(** Only the goroutine with the lock is in the middle of a call. *)
Lemma ts_inv_holder c mu gs i a rest answer k :
  ts_inv ks (mkTs c mu gs) → gs !! i = Some (a :: rest, answer) → a ≠ Lock → ks !! i = Some k → mu = Some i ∧ inside k c (a :: rest, answer).
Proof.
  intros (_ & Hg & _ & _) Hi Ha Hk. pose proof (Hg i k _ Hk Hi) as H. cbn in H.
  destruct (decide (mu = Some i)) as [->|]; [done|]. destruct H as [H|H]; [|done]. unfold threadsafe_call in H. congruence.
Qed.

(** The goroutine that has the lock or takes it goes on to the next place. *)
Lemma ts_inv_move c c' mu gs i k g g' :
  mu = None ∨ mu = Some i → ts_inv ks (mkTs c mu gs) → gs !! i = Some g → ks !! i = Some k → inside k c' g' →
  ts_inv ks (mkTs c' (Some i) (<[i := g']> gs)).
Proof.
  intros Hmu (Hlen & Hg & _ & _) Hi Hk Hin. split_and!; cbn in *;
    [by rewrite length_insert| |done|intros j [= <-]; by eapply lookup_lt_Some].
  intros j k' g0 Hk' Hg0. destruct (decide (i = j)) as [<-|Hne].
  - rewrite list_lookup_insert_eq in Hg0 by (by eapply lookup_lt_Some). simplify_eq. by rewrite decide_True.
  - rewrite list_lookup_insert_ne in Hg0 by done. pose proof (Hg j k' g0 Hk' Hg0) as H.
    rewrite decide_False by congruence. rewrite decide_False in H by (destruct Hmu; congruence). done.
Qed.

Lemma ts_inv_lookup s i g : ts_inv ks s → ts_goroutines s !! i = Some g → ∃ k, ks !! i = Some k.
Proof. intros (Hlen & _) Hi. apply lookup_lt_is_Some. rewrite <- Hlen. by eapply lookup_lt_Some. Qed.

Lemma not_written c : idle c → ¬ written c.
Proof.
  intros (p & q & Ep & _ & Hp & _) (p' & name & type & seqid & l & Ep' & Hp'). rewrite Ep in Ep'. injection Ep' as <-.
  exact (law_no_message p _ _ _ _ Hp Hp').
Qed.

Lemma network_moves k c g : sendable handler k → inside k c g → written c → inside k (network c) g.
Proof.
  intros (Hf & Hok & Htok & Hans & Hrtok) Hin Hw. destruct Hin as [Hc|Hc|Hc|Hc].
  - by destruct (not_written c Hc).
  - destruct Hc as (p & q & Ep & Eq & Hseq & Hp & Hq).
    destruct (network_answers fuel handler network (sc_function k) (sc_args k) c p q (lsc_SeqId c) Hfuel Hnet Hf Hok Hans
      Hrtok Hseq Ep Eq Hp Hq) as (p' & q' & -> & Hp' & Hq'). apply in_replied. by exists p', q'.
  - destruct Hc as (p & q & Ep & _ & Hp & _). destruct Hw as (p' & name & type & seqid & l & Ep' & Hp').
    rewrite Ep in Ep'. injection Ep' as <-. by destruct (law_no_message p _ _ _ _ Hp Hp').
  - by destruct (not_written c Hc).
Qed.

Lemma send_moves k c g c' r :
  sendable handler k → inside k c (Send (sc_request k) :: g, None) → send (sc_method k) (sc_args k) c = Ret (c', r) →
  r = inl tt ∧ request_out k c'.
Proof.
  intros (Hf & Hok & Htok & _ & _) Hin Hsend. inversion Hin as [(p & q & Ep & Eq & Hp & Hq)| | |]; subst.
  destruct (send_writes (sc_method k) (sc_args k) c p Hok Htok Ep Hp) as (p' & E & Hp'). rewrite E in Hsend.
  injection Hsend as <- <-. split; [done|]. exists p', q. split_and!; try done; apply (wraps_range 32); lia.
Qed.

Lemma recv_moves k c g c' r :
  sendable handler k → inside k c (Recv (sc_request k) :: g, None) → arrived c → recv (sc_method k) fuel c = Ret (c', r) →
  r = sc_seen k ∧ idle c'.
Proof.
  intros (_ & _ & _ & Hans & _) Hin Harr Hrecv.
  inversion Hin as [|(p & q & Ep & Eq & _ & Hp & Hq)|(p & q & Ep & Eq & Hp & Hq)|]; subst.
  - destruct Harr as (q' & name & type & seqid & l & Eq' & Hq'). rewrite Eq in Eq'. injection Eq' as <-.
    by destruct (law_no_message q _ _ _ _ Hq Hq').
  - destruct (recv_reads (sc_method k) fuel (sc_answer k) c q Hfuel Hans Eq Hq) as (q' & E & Hq'). rewrite E in Hrecv.
    injection Hrecv as <- <-. split; [done|]. by exists p, q'.
Qed.

Lemma inside_send k c rq rest answer :
  inside k c (Send rq :: rest, answer) → rq = sc_request k ∧ rest = [Recv (sc_request k); Unlock] ∧ answer = None.
Proof. inversion 1; subst; by split_and!. Qed.
Lemma inside_recv k c rq rest answer :
  inside k c (Recv rq :: rest, answer) → rq = sc_request k ∧ rest = [Unlock] ∧ answer = None.
Proof. inversion 1; subst; by split_and!. Qed.

(** The goroutine with the lock, or the network for it, can go on. *)
Lemma inside_moves k c gs i g :
  sendable handler k → inside k c g → gs !! i = Some g → ∃ s', ts_step (mkTs c (Some i) gs) s'.
Proof.
  intros (Hf & Hok & Htok & Hans & Hrtok) Hin Hi.
  destruct Hin as [(p & q & Ep & Eq & Hp & Hq)|(p & q & Ep & Eq & Hseq & Hp & Hq)|(p & q & Ep & Eq & Hp & Hq)|Hc].
  - destruct (send_writes (sc_method k) (sc_args k) c p Hok Htok Ep Hp) as (p' & E & _). eexists. by eapply step_send.
  - eexists. apply step_network. by repeat eexists.
  - destruct (recv_reads (sc_method k) fuel (sc_answer k) c q Hfuel Hans Eq Hq) as (q' & E & _).
    eexists. eapply step_recv; [done|by repeat eexists|exact E].
  - eexists. by eapply step_unlock.
Qed.

Lemma ts_inv_progress s :
  ts_inv ks s → (∃ i g, ts_goroutines s !! i = Some g ∧ g.1 ≠ []) → ∃ s', ts_step s s'.
Proof.
  intros Hinv (i & g & Hi & Hrest). destruct (ts_inv_lookup _ _ _ Hinv Hi) as [k Hk].
  destruct s as [c mu gs]. destruct Hinv as (Hlen & Hg & _ & Hmu). cbn in *. destruct mu as [j|].
  - destruct (lookup_lt_is_Some_2 ks j (Hmu j eq_refl)) as [kj Hkj].
    destruct (lookup_lt_is_Some_2 gs j ltac:(rewrite Hlen; auto)) as [gj Hgj]. pose proof (Hg j kj gj Hkj Hgj) as H.
    rewrite decide_True in H by done. by eapply inside_moves; [eapply ks_sendable|..].
  - pose proof (Hg i k g Hk Hi) as H. cbn in H. destruct H as [->| ->]; [|done]. eexists. by eapply step_lock.
Qed.

Lemma ts_inv_step s s' : ts_inv ks s → ts_step s s' → ts_inv ks s'.
Proof.
  intros Hinv Hstep. destruct Hstep as [c gs i rest answer Hi|c mu gs i rq rest answer c' Hi Hsend
    |c mu gs i rq rest answer c' err Hi Hsend|c mu gs i rq rest answer c' r Hi Harr Hrecv|c mu gs i rest answer Hi|c mu gs Hw].
  - destruct (ts_inv_lookup _ _ _ Hinv Hi) as [k Hk]. destruct Hinv as (Hlen & Hg & Hidle & Hmu).
    pose proof (Hg i k _ Hk Hi) as H. cbn in H. destruct H as [[= -> ->]|[=]].
    apply (ts_inv_move c c None gs i k _ _ (or_introl eq_refl) (conj Hlen (conj Hg (conj Hidle Hmu))) Hi Hk).
    apply in_locked. by apply Hidle.
  - destruct (ts_inv_lookup _ _ _ Hinv Hi) as [k Hk].
    destruct (ts_inv_holder c mu gs i _ _ _ k Hinv Hi ltac:(done) Hk) as [-> Hin].
    destruct (inside_send _ _ _ _ _ Hin) as (-> & -> & ->).
    destruct (send_moves k c _ c' _ (ks_sendable i k Hk) Hin Hsend) as [_ Hout].
    eapply ts_inv_move; [by right|done..|]. by apply in_sent.
  - destruct (ts_inv_lookup _ _ _ Hinv Hi) as [k Hk].
    destruct (ts_inv_holder c mu gs i _ _ _ k Hinv Hi ltac:(done) Hk) as [-> Hin].
    destruct (inside_send _ _ _ _ _ Hin) as (-> & -> & ->).
    by destruct (send_moves k c _ c' _ (ks_sendable i k Hk) Hin Hsend) as [? _].
  - destruct (ts_inv_lookup _ _ _ Hinv Hi) as [k Hk].
    destruct (ts_inv_holder c mu gs i _ _ _ k Hinv Hi ltac:(done) Hk) as [-> Hin].
    destruct (inside_recv _ _ _ _ _ Hin) as (-> & -> & ->).
    destruct (recv_moves k c _ c' _ (ks_sendable i k Hk) Hin Harr Hrecv) as [-> Hout].
    eapply ts_inv_move; [by right|done..|]. by apply in_done.
  - destruct (ts_inv_lookup _ _ _ Hinv Hi) as [k Hk].
    destruct (ts_inv_holder c mu gs i _ _ _ k Hinv Hi ltac:(done) Hk) as [-> Hin]. inversion Hin; subst.
    destruct Hinv as (Hlen & Hg & _ & _). split_and!; cbn in *; [by rewrite length_insert| |done|done].
    intros j k' g0 Hk' Hg0. destruct (decide (i = j)) as [<-|Hne].
    + rewrite list_lookup_insert_eq in Hg0 by (by eapply lookup_lt_Some). simplify_eq. by right.
    + rewrite list_lookup_insert_ne in Hg0 by done. pose proof (Hg j k' g0 Hk' Hg0) as H.
      rewrite decide_False in H by congruence. done.
  - destruct Hinv as (Hlen & Hg & Hidle & Hmu). cbn in *. destruct mu as [i|]; [|by destruct (not_written c (Hidle eq_refl))].
    split_and!; cbn; [done| |done|done]. intros j k g Hk Hgj. pose proof (Hg j k g Hk Hgj) as H. cbn in H.
    destruct (decide (Some i = Some j)); [|done]. by apply network_moves; [eapply ks_sendable|..].
Qed.
End Invariant.
End Threadsafe.

(** C6: Goroutines that share a client under its lock, in any order and with the network
    answering whenever it likes: a goroutine that has finished was answered what the handler
    answers to its own call, there is never more than one in the middle of a call, and as
    long as one has not finished something can move. *)
Theorem threadsafe_answers {P} {prot : Protocol P} {laws : ProtocolLaws P} {messages : Messages P} {mlaws : MessageLaws P}
    {order : MapOrder} (fuel : nat) (handler : LaserService) network (ks : list served_call) c s :
  (10 ≤ fuel)%nat → serves fuel handler network → Forall (sendable handler) ks → idle c →
  rtc (ts_step fuel network) (ts_start ks c) s →
  (∀ i k g, ks !! i = Some k → ts_goroutines s !! i = Some g →
     (g.1 = [] → g.2 = Some (caller_sees (sc_method k) (sc_answer k))) ∧
     (ts_Mu s ≠ Some i → g.1 = [] ∨ g.1 = threadsafe_call (sc_method k) (sc_args k))) ∧
  ((∃ i g, ts_goroutines s !! i = Some g ∧ g.1 ≠ []) → ∃ s', ts_step fuel network s s').
Proof.
  intros Hfuel Hnet Hks Hc Hsteps.
  assert (ts_inv ks s) as Hinv.
  { eapply rtc_ind_r; [by apply ts_inv_start| |exact Hsteps]. intros s1 s2 _ Hstep Hs1. by eapply ts_inv_step. }
  split; [|by eapply ts_inv_progress]. intros i k g Hk Hg. destruct Hinv as (_ & Hg' & _).
  pose proof (Hg' i k g Hk Hg) as H. destruct (decide (ts_Mu s = Some i)) as [E|E].
  - split; [|done]. by destruct H.
  - destruct H as [->| ->]; split; auto. intros [=].
Qed.

Lemma threadsafe_answers_witness :
  ∃ s g, rtc (ts_step (prot:=mem_protocol) (laws:=mem_protocol_laws) (messages:=mem_messages) (order:=stdpp_order) 10
      (mem_server one_key)) (ts_start sample_calls sample_client) s ∧
    ts_goroutines s !! 1%nat = Some g ∧ g.1 = [] ∧
    g.2 = Some (inr (ServiceException (mkWireException "no ttl" Status_RS_NOT_FOUND))).
Proof.
  assert (∃ s g, rtc (ts_step (prot:=mem_protocol) (laws:=mem_protocol_laws) (messages:=mem_messages) (order:=stdpp_order) 10
      (mem_server one_key)) (ts_start sample_calls sample_client) s ∧
    ts_goroutines s !! 1%nat = Some g ∧ g.1 = []) as (s & g & Hs & Hg & Hdone).
  { eexists _, _. split_and!.
    - eapply rtc_l; [by eapply (step_lock _ _ _ _ 1)|].
      eapply rtc_l; [by eapply (step_send _ _ _ _ _ 1)|].
      eapply rtc_l; [apply step_network; by repeat eexists|].
      eapply rtc_l; [eapply (step_recv _ _ _ _ _ 1); [done|by repeat eexists|reflexivity]|].
      eapply rtc_l; [by eapply (step_unlock _ _ _ _ _ 1)|]. apply rtc_refl.
    - reflexivity.
    - reflexivity. }
  exists s, g. split_and!; [done..|].
  destruct (threadsafe_answers (mlaws:=mem_message_laws) (order:=stdpp_order) 10 one_key (mem_server one_key) sample_calls
    sample_client s ltac:(lia) (mem_server_serves one_key) sample_sendable ltac:(by exists [], []) Hs) as [H _].
  exact (proj1 (H 1%nat _ g eq_refl Hg) Hdone).
Defined.

(** ** Scores *)

(** A number that is too large for [getMinIntScore], or no number: the conversion of amd64 gives
    the smallest integer. *)
Definition amd64_conversion : Int64Conversion := λ _, - 2 ^ 63.

(** A minimum that is too large asks for every score, and a maximum that is too small for none but
    the smallest: only one end of each is looked at. *)
Lemma scores_out_of_range :
  getMinIntScore (H:=amd64_conversion) (f64_of_Z (10 ^ 15)) = - 2 ^ 63 ∧
  getMaxIntScore (H:=amd64_conversion) (f64_of_Z (10 ^ 15)) = 2 ^ 63 - 1 ∧
  getMinIntScore (H:=amd64_conversion) (f64_of_Z 3) = 30000.
Proof. vm_compute. done. Qed.
