(* ===== verification/LaserRemote.v ===== *)
(** * The SDK's client over the wire
    ([sdk/go/laser_client/laser_client.go], [sdk/go/laser_client/if/laser/laserservice.go])

    The client of LaserClient.v takes what an attempt to call a server comes to from the
    class [Network].  Here every attempt is a call of the generated client through a
    protocol to a server with the generated processor, and the client's answer is the
    handler's. *)

From S2P Require Import Prelude RouterTypes Partition LoadBalance RouterDb Pool ThriftConn Registry Router ConfigManager LaserTypes ThriftWire LaserWire LaserRoundTrip LaserService LaserClient GoLib LaserMethods LaserRpc.

Definition double_float64 : Float64 :=
  {| float64 := double; float64_of_int := f64_of_Z; float64_div := f64_div |}.

(** The call of the generated client that a request of the SDK is. *)
Definition served_request {conv : Int64Conversion} (h : LaserService) (req : Request (H:=double_float64)) : served_call :=
  match req with
  | RGet key => mkServedCall (laserServiceProcessorGet h) (Some key, tt)
  | RSset kv => mkServedCall (laserServiceProcessorSset h) (Some kv, tt)
  | RAppend key val => mkServedCall (laserServiceProcessorAppend h) (Some key, (val, tt))
  | RSetx kv setOption => mkServedCall (laserServiceProcessorSetx h) (Some kv, (Some setOption, tt))
  | RExpire key time => mkServedCall (laserServiceProcessorExpire h) (Some key, (time, tt))
  | RExpireAt key time => mkServedCall (laserServiceProcessorExpireAt h) (Some key, (time, tt))
  | RDelkey key => mkServedCall (laserServiceProcessorDelkey h) (Some key, tt)
  | RMset values => mkServedCall (laserServiceProcessorMset h) (Some (mkLaserKVs (Some <$> values)), tt)
  | RMsetDetail values setOption =>
      mkServedCall (laserServiceProcessorMsetDetail h) (Some (mkLaserKVs (Some <$> values)), (Some setOption, tt))
  | RMget keys => mkServedCall (laserServiceProcessorMget h) (Some (mkLaserKeys (Some <$> keys)), tt)
  | RMgetDetail keys => mkServedCall (laserServiceProcessorMgetDetail h) (Some (mkLaserKeys (Some <$> keys)), tt)
  | RHset key field value => mkServedCall (laserServiceProcessorHset h) (Some key, (field, (value, tt)))
  | RHget key field => mkServedCall (laserServiceProcessorHget h) (Some key, (field, tt))
  | RHgetall key => mkServedCall (laserServiceProcessorHgetall h) (Some key, tt)
  | RHexists key field => mkServedCall (laserServiceProcessorHexists h) (Some key, (field, tt))
  | RHkeys key => mkServedCall (laserServiceProcessorHkeys h) (Some key, tt)
  | RHlen key => mkServedCall (laserServiceProcessorHlen h) (Some key, tt)
  | RHdel key field => mkServedCall (laserServiceProcessorHdel h) (Some key, (field, tt))
  | RHmset key val => mkServedCall (laserServiceProcessorHmset h) (Some key, (Some val, tt))
  | RHmget key fields => mkServedCall (laserServiceProcessorHmget h) (Some key, (fields, tt))
  | RTtl key => mkServedCall (laserServiceProcessorTtl h) (Some key, tt)
  | RLpush key val => mkServedCall (laserServiceProcessorLpush h) (Some key, (val, tt))
  | RLpop key => mkServedCall (laserServiceProcessorLpop h) (Some key, tt)
  | RRpush key val => mkServedCall (laserServiceProcessorRpush h) (Some key, (val, tt))
  | RRpop key => mkServedCall (laserServiceProcessorRpop h) (Some key, tt)
  | RLrange key start end_ => mkServedCall (laserServiceProcessorLrange h) (Some key, (start, (end_, tt)))
  | RLindex key index => mkServedCall (laserServiceProcessorLindex h) (Some key, (index, tt))
  | RLlen key => mkServedCall (laserServiceProcessorLlen h) (Some key, tt)
  | RDecr key => mkServedCall (laserServiceProcessorDecr h) (Some key, tt)
  | RIncr key => mkServedCall (laserServiceProcessorIncr h) (Some key, tt)
  | RDecrBy key step => mkServedCall (laserServiceProcessorDecrBy h) (Some key, (step, tt))
  | RIncrBy key step => mkServedCall (laserServiceProcessorIncrBy h) (Some key, (step, tt))
  | RExist key => mkServedCall (laserServiceProcessorExist h) (Some key, tt)
  | RZadd key member_scores =>
      mkServedCall (laserServiceProcessorZadd h)
        (Some key, (Some (mkLaserValue None None None (Some (int_member_score member_scores)) None), tt))
  | RZrangeByScore key min max =>
      mkServedCall (laserServiceProcessorZrangeByScore h) (Some key, (getMinIntScore min, (getMaxIntScore max, tt)))
  | RSadd key member => mkServedCall (laserServiceProcessorSadd h) (Some key, (member, tt))
  | RSismember key member => mkServedCall (laserServiceProcessorSismember h) (Some key, (member, tt))
  | RSremove key member => mkServedCall (laserServiceProcessorSremove h) (Some key, (member, tt))
  | RSmembers key => mkServedCall (laserServiceProcessorSmembers h) (Some key, tt)
  end.

(** What the call comes to for the SDK.  A handler answers with a response, an exception or
    an error; a nil response without an error, which the getters of the SDK would
    dereference, stands here for a response without fields. *)
Definition call_outcome (answer : answers) : outcome :=
  match answer with
  | inl (Some r) => Answered r
  | inl None => Answered NewLaserResponse
  | inr (ServiceException e) => Raised (LaserException (wex_Status e) false)
  | inr (CallError err) => Raised (OtherException err)
  end.

Section Remote.
Context {P : Type} {prot : Protocol P} {laws : ProtocolLaws P} {messages : Messages P} {mlaws : MessageLaws P}
  {order : MapOrder} {conv : Int64Conversion} (wire_fuel : nat).
(** The handler at an address, the connection that the pool has to it and the network behind. *)
Context (handler_at : string → Z → LaserService)
  (connection : string → Z → LaserServiceClient (P:=P))
  (network : string → Z → LaserServiceClient (P:=P) → LaserServiceClient (P:=P)).

Definition remote_network : Network (H:=double_float64) := λ n host port req,
  let k := served_request (handler_at host port) req in
  match call (network host port) (sc_method k) wire_fuel (sc_args k) (connection host port) with
  | Ret (_, answer) => call_outcome answer
  | _ => NoConnection unexpected
  end.

Lemma served_request_entry h req : sc_function (served_request h req) ∈ (processor_entries h).*2.
Proof. destruct req; unfold processor_entries; cbn [fmap list_fmap snd served_request sc_function]; set_solver. Qed.

Hypotheses (Hfuel : (10 ≤ wire_fuel)%nat) (Hserves : ∀ host port, serves wire_fuel (handler_at host port) (network host port))
  (Hidle : ∀ host port, idle (connection host port)).

Lemma remote_attempt n host port req :
  sendable (handler_at host port) (served_request (handler_at host port) req) →
  remote_network n host port req =
    call_outcome (caller_sees (sc_method (served_request (handler_at host port) req))
      (sc_answer (served_request (handler_at host port) req))).
Proof.
  intros (Hf & Hok & Htok & Hans & Hrtok). unfold remote_network. set (k := served_request _ _) in *.
  destruct (call_answered wire_fuel (handler_at host port) (network host port) (sc_function k) (sc_args k)
    (connection host port) Hfuel (Hserves host port) Hf Hok Htok Hans Hrtok (Hidle host port)) as (c' & E & _).
  unfold sc_method at 1. by rewrite E.
Qed.

Lemma call_outcome_unwrapped answer status : call_outcome answer ≠ Raised (LaserException status true).
Proof. by destruct answer as [[r|]|[err|e]]. Qed.

Lemma remote_unwrapped : unwrapped (net:=remote_network).
Proof.
  intros n host port req status. unfold attempt, remote_network.
  destruct (call _ _ _ _ _) as [[c answer]| |]; [apply call_outcome_unwrapped|done..].
Qed.

Lemma call_outcome_in_time answer : call_outcome answer ≠ TimedOut.
Proof. by destruct answer as [[r|]|[err|e]]. Qed.
End Remote.

(** What the SDK's caller gets for the handler's answer. *)
Definition answer_response (answer : answers) : callResp :=
  match answer with
  | inl (Some r) => mkCallResp [] Status_OK r
  | inl None => mkCallResp [] Status_OK NewLaserResponse
  | inr (ServiceException e) => call_error (wex_Status e)
  | inr (CallError _) => call_error Status_CLIENT_THRIFT_CALL_ERROR
  end.

Lemma outcome_of_answer {P} {messages : Messages P} m answer :
  outcome_response (call_outcome (caller_sees m answer)) = inl (answer_response answer).
Proof. by destruct answer as [[r|]|[err|e]]. Qed.

Section EndToEnd.
Context {P : Type} {prot : Protocol P} {laws : ProtocolLaws P} {messages : Messages P} {mlaws : MessageLaws P}
  {conv : Int64Conversion}.
Context {KVS : Type} {kvOps : ConsulKV KVS} {jsonServer : Json Server}
  {jsonRouter : Json ServiceRouterConfig} {jsonSchemas : Json (list DatabaseSchema)}
  {jsonCluster : Json ClusterInfo} {hash : CityHash} {order : MapOrder}
  {float : FloatConversion} {rand : Randomness} {thrift : ThriftLib} {Client : Type}.
Context (newLaserServiceClient : Transport → ProtocolFactory → Client)
  (closeThriftClient : Client → Client * option error) (thriftIsOpen : Client → bool)
  (numCPU now : Z) (fuel wire_fuel : nat).

(** C4: The SDK's client, the generated client, the wire and the generated processor
    together: a call to a server that is there returns, at the first attempt, what the
    handler at that address (or at one whose text is the same, which shares its pool)
    answers to the request, with the status OK, the status of the
    service's exception, or that of a failed call where the handler had another error.  (A
    handler that answers nil without an error is taken for one that answers without
    fields, see [call_outcome].) *)
Theorem remote_answer handler_at connection network shardId partitionHash edge dc (o : LaserOption) req
    (c : LaserClient (KVS:=KVS) (Client:=Client) (f64:=double_float64)) :
  (10 ≤ wire_fuel)%nat → (∀ host port, serves wire_fuel (handler_at host port) (network host port)) →
  (∀ host port, idle (P:=P) (connection host port)) →
  (∀ host port, sendable (handler_at host port) (served_request (handler_at host port) req)) →
  client_ok c → checkTargetServerAddress (lo_TargetServerAddress o) = true → 0 ≤ lo_TimeoutRetry o →
  ∃ c' host port, same_pool host port (sa_Host (lo_TargetServerAddress o)) (sa_Port (lo_TargetServerAddress o)) ∧
    commonCallWithRouteId (net:=remote_network wire_fuel handler_at connection network)
      newLaserServiceClient closeThriftClient thriftIsOpen numCPU now fuel shardId partitionHash edge dc o req c
      = Ret (c', answer_response (sc_answer (served_request (handler_at host port) req))) ∧
    client_ok c' ∧ lc_attempts c' = S (lc_attempts c).
Proof.
  intros Hfuel Hserves Hidle Hsend Hc Ht Hr. set (net := remote_network wire_fuel handler_at connection network).
  destruct (retry_ok (net:=net) newLaserServiceClient closeThriftClient thriftIsOpen numCPU now fuel
    (S (Z.to_nat (lo_TimeoutRetry o))) 0 o (getClientOption o shardId partitionHash edge dc c) req c)
    as (c' & resp & k & E & Hc' & _ & Ha & [_ Hto (host & port & Hpool & Hlast)]);
    [done|apply remote_unwrapped|done|lia|lia|].
  assert (∀ n h p, attempt (Network:=net) n h p req = call_outcome (caller_sees (sc_method (served_request (handler_at h p) req))
    (sc_answer (served_request (handler_at h p) req)))) as Hatt by (intros; by apply remote_attempt).
  rewrite Hatt, outcome_of_answer in Hlast. subst resp.
  assert (k = 0%nat) as ->.
  { destruct k; [done|]. destruct (Hto 0%nat ltac:(lia)) as (h & p & _ & Htimed). rewrite Hatt in Htimed.
    by apply call_outcome_in_time in Htimed. }
  exists c', host, port. split_and!; [done|exact E|done|lia].
Qed.
End EndToEnd.

(** ** A client, a handler and the memory in between *)

#[local] Existing Instances toy_city stdpp_order amd64_float.
#[local] Instance remote_draws : Randomness := fixed_draws 0.
#[local] Instance remote_router_json : Json ServiceRouterConfig := const_json DefaultServiceRouterConfig.
#[local] Instance remote_server_json : Json Server :=
  const_json (registered_server 5 (leader_server "10.0.0.1" [0; 1])).
#[local] Instance remote_schemas_json : Json (list DatabaseSchema) := const_json example_dbs.
#[local] Instance remote_cluster_json : Json ClusterInfo := const_json ClusterInfo_zero.
#[local] Existing Instance named_sockets.

Definition new_remote_client : go (LaserClient (KVS:=mem_store) (Client:=bool) (f64:=double_float64)) :=
  NewLaserClient 10 5 id "project" "s" "10.0.0.9" "127.0.0.1" 80 (store_at "1" 1).
Definition remote_client : LaserClient (KVS:=mem_store) (Client:=bool) (f64:=double_float64) :=
  state_of new_remote_client
    (mkLaserClient "" "" router0 GetConnGroup (mkConfigManager "" ∅ ClusterInfo_zero ∅) ∅ ∅ ∅ 0 []).

Lemma remote_client_ok : new_remote_client = Ret remote_client.
Proof. apply state_of_Ret. vm_compute. reflexivity. Qed.

Lemma remote_answer_witness :
  ∃ c', commonCallWithRouteId
      (net:=remote_network (prot:=mem_protocol) (messages:=mem_messages) (conv:=amd64_conversion) 10 (λ _ _, one_key)
              (λ _ _, sample_client) (λ _ _, mem_server one_key))
      (λ _ _, true) (λ _, (false, None)) (λ b, b) 8 10 5 0 0 false "" direct_option (RTtl sample_key) remote_client
    = Ret (c', call_error Status_RS_NOT_FOUND).
Proof.
  destruct (remote_answer (mlaws:=mem_message_laws) (conv:=amd64_conversion) (λ _ _, true) (λ _, (false, None)) (λ b, b) 8 10 5 10
    (λ _ _, one_key) (λ _ _, sample_client) (λ _ _, mem_server one_key) 0 0 false "" direct_option (RTtl sample_key)
    remote_client) as (c' & host & port & _ & E & _);
    [lia|intros; apply mem_server_serves|intros; by exists [], []
    |intros; exact (Forall_lookup_1 _ _ 1%nat _ sample_sendable eq_refl)
    |exact (NewLaserClient_ok _ _ _ _ _ _ _ _ _ _ remote_client_ok)|reflexivity|cbn; lia|].
  exists c'. exact E.
Defined.
