(* ===== verification/ControlData.v ===== *)
(** * The rows of the control plane's database ([control/service/*.go])

    Clusters, data centres, groups, nodes, databases and tables as gorm maps them,
    the queries the services list them with, and the parameters of those lists
    ([control/params/params.go]).  gorm itself is the class [Gorm]: the code says
    what a [Query] asks for, the database says what it finds.

    gorm fills the associations of a row one level deep, as far as a query
    preloads them.  The associations that lead back to the row they were reached
    from and that no modelled operation reads are left out of the records. *)

From S2P Require Import Prelude RouterTypes GoLib ControlStatus.

(** ** Queries *)

(** A condition: the non-zero fields of a struct, or SQL with arguments. *)
Inductive Cond (Row : Type) :=
  | WhereStruct (r : Row)
  | WhereSql (sql : string) (args : list string)
  | JoinsSql (sql : string) (args : list string)
  | NotIn (column : string) (values : list string).
Arguments WhereStruct {Row}. Arguments WhereSql {Row}. Arguments JoinsSql {Row}.
Arguments NotIn {Row}.

Record Query (Row : Type) := mkQuery {
  q_conds : list (Cond Row);
  q_range : option (Z * Z); (* offset and limit *)
  q_preload : list string
}.
Arguments mkQuery {Row}. Arguments q_conds {Row}. Arguments q_range {Row}.
Arguments q_preload {Row}.

(** [db.Count] and [db.Find]; after an error, which the lists ignore, the count
    is [0] and the rows are none. *)
Class Gorm (DB Row : Type) := {
  gorm_Count : Query Row → DB → Z;
  gorm_Find : Query Row → DB → list Row
}.

(** The page of a list: [Page] counts from 1, and a zero asks for everything. *)
Definition paged {Row} (page limit : Z) (q : Query Row) : Query Row :=
  if (Z.ltb 0 page && Z.ltb 0 limit)%bool
  then mkQuery (q_conds q) (Some (u32 (u32 (page - 1) * limit), limit)) (q_preload q)
  else q.

Definition preload {Row} (names : list string) (q : Query Row) : Query Row :=
  mkQuery (q_conds q) (q_range q) (q_preload q ++ names).

Definition where_ {Row} (c : Cond Row) (q : Query Row) : Query Row :=
  mkQuery (q_conds q ++ [c]) (q_range q) (q_preload q).

(** [db.Model(&Row{})]. *)
Definition gorm_Model {Row} : Query Row := mkQuery [] None [].

(** ** Rows *)

Record Dc := mkDc {
  dc_Id : Z;
  dc_ClusterId : Z;
  dc_Name : string;
  dc_ShardNumber : Z;
  dc_Desc : string;
  dc_CreatedAt : Z
}.
Definition Dc_zero : Dc := mkDc 0 0 "" 0 "" 0.

Record Cluster := mkCluster {
  cl_Id : Z;
  cl_Name : string;
  cl_Alias : string;
  cl_ShardTotal : Z;
  cl_Desc : string;
  cl_Dcs : list Dc;
  cl_CreatedAt : Z
}.

Record NodeRateLimitEntry := mkNodeRateLimitEntry {
  nr_Id : Z;
  nr_BeginHour : option Z;
  nr_EndHour : Z;
  nr_RateBytesPerSec : Z;
  nr_NodeConfigId : Z
}.

Record NodeConfig := mkNodeConfig {
  nc_Id : Z;
  nc_Name : string;
  nc_Desc : string;
  nc_BlockCacheSizeGb : Z;
  nc_WriteBufferSizeGb : Z;
  nc_NumShardBits : Z;
  nc_HighPriPoolRatio : option double;
  nc_StrictCapacityLimit : Z;
  nc_RateLimitStrategy : list NodeRateLimitEntry;
  nc_CreatedAt : Z
}.
Definition NodeConfig_zero : NodeConfig := mkNodeConfig 0 "" "" 0 0 0 None 0 [] 0.

Record AnsibleConfig := mkAnsibleConfig {
  ac_Id : Z;
  ac_Name : string;
  ac_Vars : string;
  ac_Roles : string;
  ac_Desc : string;
  ac_CreatedAt : Z
}.
Definition AnsibleConfig_zero : AnsibleConfig := mkAnsibleConfig 0 "" "" "" "" 0.

(** The columns of a group, which are all a node's [GroupInfo] has. *)
Record GroupRow := mkGroupRow {
  g_Id : Z;
  g_Name : string;
  g_Alias : string;
  g_NodeConfigId : Z;
  g_Desc : string;
  g_ClusterId : Z;
  g_DcId : Z;
  g_CreatedAt : Z
}.
Definition GroupRow_zero : GroupRow := mkGroupRow 0 "" "" 0 "" 0 0 0.

Definition NodeStatusDisabled : Z := 0.
Definition NodeStatusEnabled : Z := 1.
Definition NodeInactive : Z := 0.
Definition NodeActive : Z := 1.

Record Node := mkNode {
  n_Id : Z;
  n_NodeId : Z;
  n_Active : option Z;
  n_Status : option Z;
  n_Host : string;
  n_Port : Z;
  n_Weight : option Z;
  n_Master : option bool;
  n_IsEdgeNode : option bool;
  n_Desc : string;
  n_GroupId : Z;
  n_GroupInfo : GroupRow;
  n_ConfigId : Z;
  n_Config : NodeConfig;
  n_LeaderShardList : option string;
  n_FollowerShardList : option string;
  n_AnsibleConfigId : Z;
  n_AnsibleConfig : AnsibleConfig
}.

(** [Node{GroupId: groupId, IsEdgeNode: isEdgeNode}]. *)
Definition Node_where (groupId : Z) (isEdgeNode : option bool) : Node :=
  mkNode 0 0 None None "" 0 None None isEdgeNode "" groupId GroupRow_zero 0 NodeConfig_zero
    None None 0 AnsibleConfig_zero.

Record Group := mkGroup {
  g_row : GroupRow;
  g_Config : NodeConfig;
  g_Nodes : list Node;
  g_Dc : Dc
}.

(** [Group{Id: id, Name: name, ClusterId: clusterId}]. *)
Definition Group_where (id : Z) (name : string) (clusterId : Z) : Group :=
  mkGroup (mkGroupRow id name "" 0 "" clusterId 0 0) NodeConfig_zero [] Dc_zero.

Record LaserDatabase := mkLaserDatabase {
  ld_Id : Z;
  ld_Name : string;
  ld_Desc : string;
  ld_CreatedAt : Z
}.
Definition LaserDatabase_zero : LaserDatabase := mkLaserDatabase 0 "" "" 0.

Record TableConfigItem := mkTableConfigItem {
  ti_Id : Z;
  ti_Name : string;
  ti_Value : string;
  ti_Type : Z;
  ti_ConfigId : Z
}.

Record TableConfig := mkTableConfig {
  tc_Id : Z;
  tc_Name : string;
  tc_Version : Z;
  tc_IsDefault : option Z;
  tc_Desc : string;
  tc_ConfigItems : list TableConfigItem
}.
Definition TableConfig_zero : TableConfig := mkTableConfig 0 "" 0 None "" [].

Record TrafficRestrictionLimit := mkTrafficRestrictionLimit {
  tl_Id : Z;
  tl_Name : string;
  tl_OperationType : Z;
  tl_LimitType : option Z;
  tl_LimitValue : Z;
  tl_TableId : Z
}.

Record Table := mkTable {
  t_Id : Z;
  t_Name : string;
  t_Status : option Z;
  t_DenyAll : option Z;
  t_PartitionNumber : Z;
  t_Ttl : option Z;
  t_Desc : string;
  t_DcId : Z;
  t_Dc : Dc;
  t_DistDcId : Z;
  t_DistDc : Dc;
  t_DatabaseId : Z;
  t_ConfigId : Z;
  t_Database : LaserDatabase;
  t_Config : TableConfig;
  t_EdgeFlowRatio : option Z;
  t_TrafficLimits : list TrafficRestrictionLimit;
  t_BindEdgeNodes : list Node;
  t_CreatedAt : Z
}.

(** [Table{Id: id, DatabaseId: databaseId}]. *)
Definition Table_where (id databaseId : Z) : Table :=
  mkTable id "" None None 0 None "" 0 Dc_zero 0 Dc_zero databaseId 0 LaserDatabase_zero
    TableConfig_zero None [] [] 0.

Record ProxyTableConfig := mkProxyTableConfig {
  pc_Id : Z;
  pc_DatabaseName : string;
  pc_TableName : string;
  pc_ReadTimeout : Z;
  pc_WriteTimeout : Z;
  pc_AllowedFlow : Z;
  pc_CreatedAt : Z
}.

(** ** Parameters of the lists *)

Record ClusterListParams := mkClusterListParams { clp_Page : Z; clp_Limit : Z }.
Record DcListParams := mkDcListParams { dlp_Page : Z; dlp_Limit : Z }.

Record GroupListParams := mkGroupListParams {
  glp_Page : Z;
  glp_Limit : Z;
  glp_ClusterId : Z;
  glp_GroupId : Z;
  glp_GroupName : string;
  glp_ShowDetails : bool
}.

Record NodeListParams := mkNodeListParams {
  nlp_Page : Z;
  nlp_Limit : Z;
  nlp_GroupId : Z;
  nlp_IsEdgeNode : option bool
}.

Record TableListParams := mkTableListParams {
  tlp_Page : Z;
  tlp_Limit : Z;
  tlp_DatabaseId : Z;
  tlp_TableId : Z;
  tlp_DatabaseName : string;
  tlp_TableName : string
}.

Record DatabaseListParams := mkDatabaseListParams { dblp_Page : Z; dblp_Limit : Z }.

Record TableConfigListParams := mkTableConfigListParams {
  tclp_Page : Z;
  tclp_Limit : Z;
  tclp_Name : string;
  tclp_ExcludedNames : option (list string) (* [None] is nil *)
}.

Record ProxyTableConfigParams := mkProxyTableConfigParams {
  pcp_Id : Z;
  pcp_DatabaseName : string;
  pcp_TableName : string;
  pcp_ReadTimeout : Z;
  pcp_WriteTimeout : Z;
  pcp_AllowedFlow : Z
}.

Record ProxyTableConfigListParams := mkProxyTableConfigListParams {
  pclp_Page : Z;
  pclp_Limit : Z;
  pclp_DatabaseName : string
}.

Record NodeConfigListParams := mkNodeConfigListParams {
  nclp_Page : Z;
  nclp_Limit : Z;
  nclp_Name : string
}.

(** ** The lists *)

(** The database the services share. *)
Class ControlDb (DB : Type) := {
  db_clusters :: Gorm DB Cluster;
  db_dcs :: Gorm DB Dc;
  db_groups :: Gorm DB Group;
  db_nodes :: Gorm DB Node;
  db_tables :: Gorm DB Table
}.

Section Lists.
Context {DB : Type} `{ControlDb DB}.

(** The shape of every list: a count where the total is asked for, then the rows
    of the page. *)
Definition list_rows {Row} `{Gorm DB Row} (db : DB) (q : Query Row) (page limit : Z)
    (preloads : list string) (isTotal : bool) : list Row * Z :=
  let total := if isTotal then gorm_Count q db else 0 in
  (gorm_Find (preload preloads (paged page limit q)) db, total).

Definition Cluster_List (db : DB) (params : ClusterListParams) (isTotal : bool)
  : list Cluster * Z :=
  list_rows db gorm_Model (clp_Page params) (clp_Limit params) ["Groups"; "Dcs"] isTotal.

Definition Dc_List (db : DB) (params : DcListParams) (isTotal : bool) : list Dc * Z :=
  list_rows db gorm_Model (dlp_Page params) (dlp_Limit params) ["ClusterInfo"; "Groups"] isTotal.

Definition Group_List (db : DB) (params : GroupListParams) (isTotal : bool)
  : list Group * Z :=
  list_rows db
    (where_ (WhereStruct (Group_where (glp_GroupId params) (glp_GroupName params)
                            (glp_ClusterId params))) gorm_Model)
    (glp_Page params) (glp_Limit params)
    (if glp_ShowDetails params then ["Config"; "Nodes"; "ClusterInfo"; "Dc"] else ["Dc"])
    isTotal.

Definition Node_list (db : DB) (params : NodeListParams) (isTotal : bool)
  : list Node * Z :=
  list_rows db
    (where_ (WhereStruct (Node_where (nlp_GroupId params) (nlp_IsEdgeNode params))) gorm_Model)
    (nlp_Page params) (nlp_Limit params) ["GroupInfo"; "Config"; "AnsibleConfig"] isTotal.

Definition Table_List (db : DB) (params : TableListParams) (isTotal : bool)
  : list Table * Z :=
  let q := where_ (WhereSql "tables.name like ?" ["%" +:+ tlp_TableName params +:+ "%"])
             gorm_Model in
  let q := where_ (JoinsSql "Join laser_databases on tables.database_id = laser_databases.id AND laser_databases.name like ?"
             ["%" +:+ tlp_DatabaseName params +:+ "%"]) q in
  let q := if Z.ltb 0 (tlp_TableId params)
           then where_ (WhereStruct (Table_where (tlp_TableId params) 0)) q else q in
  let q := if Z.ltb 0 (tlp_DatabaseId params)
           then where_ (WhereStruct (Table_where 0 (tlp_DatabaseId params))) q else q in
  list_rows db q (tlp_Page params) (tlp_Limit params)
    ["Dc"; "DistDc"; "Database"; "Config"] isTotal.

Definition Table_ListDetail (db : DB) (params : TableListParams) (isTotal : bool)
  : list Table * Z :=
  list_rows db
    (where_ (WhereStruct (Table_where (tlp_TableId params) (tlp_DatabaseId params))) gorm_Model)
    (tlp_Page params) (tlp_Limit params)
    ["Dc"; "DistDc"; "Database"; "Config"; "TrafficLimits"; "BindEdgeNodes"] isTotal.
End Lists.

(** ** Configurations *)

Definition TableDisabled : Z := 0.
Definition TableEnabled : Z := 1.
Definition SingleOperation : Z := 1.
Definition MultipleOperation : Z := 2.
Definition TypeDbOptions : Z := 1.
Definition TypeTableOptions : Z := 2.
Definition TypeCfOptions : Z := 3.
Definition DefaultConfigName : string := "default".
Definition defaultDbName : string := "global".
Definition defaultTbName : string := "global".

(** The rows of configurations.  [db.Count] with the error a duplicate check looks
    at, and [db.Create]. *)
Class ConfigDb (DB : Type) := {
  db_databases :: Gorm DB LaserDatabase;
  db_tableConfigs :: Gorm DB TableConfig;
  db_proxyConfigs :: Gorm DB ProxyTableConfig;
  db_nodeConfigs :: Gorm DB NodeConfig;
  proxy_Count : string → string → DB → Z + error;
  proxy_Create : ProxyTableConfig → DB → DB * option error
}.

Section Configs.
Context {DB : Type} `{ConfigDb DB} `{Runtime}.

Definition LaserDatabase_List (db : DB) (params : DatabaseListParams) (isTotal : bool)
  : list LaserDatabase * Z :=
  list_rows db gorm_Model (dblp_Page params) (dblp_Limit params) [] isTotal.

(** The query both lists of table configurations start from. *)
Definition TableConfig_query (params : TableConfigListParams) : Query TableConfig :=
  let excludedNames := default [""] (tclp_ExcludedNames params) in
  where_ (NotIn "name" excludedNames)
    (where_ (WhereStruct (mkTableConfig 0 (tclp_Name params) 0 None "" [])) gorm_Model).

Definition TableConfig_List (db : DB) (params : TableConfigListParams) (isTotal : bool)
  : list TableConfig * Z :=
  list_rows db (TableConfig_query params) (tclp_Page params) (tclp_Limit params) [] isTotal.

Definition ListWithDetailItems (db : DB) (params : TableConfigListParams) (isTotal : bool)
  : list TableConfig * Z :=
  list_rows db (TableConfig_query params) (tclp_Page params) (tclp_Limit params) ["ConfigItems"] isTotal.

Definition NodeConfig_where (name : string) : NodeConfig := mkNodeConfig 0 name "" 0 0 0 None 0 [] 0.

Definition NodeConfig_List (db : DB) (para : NodeConfigListParams) (isTotal : bool)
  : list NodeConfig * Z :=
  list_rows db (where_ (WhereStruct (NodeConfig_where (nclp_Name para))) gorm_Model)
    (nclp_Page para) (nclp_Limit para) ["RateLimitStrategy"] isTotal.

(** *** Proxy configurations *)

Definition ProxyTableConfig_where (databaseName : string) : ProxyTableConfig :=
  mkProxyTableConfig 0 databaseName "" 0 0 0 0.

Definition ProxyTableConfig_checkDupName (db : DB) (databaseName tableName : string) : Status :=
  match proxy_Count databaseName tableName db with
  | inr err => StatusWithError (Some err)
  | inl count => if negb (Z.eqb count 0) then StatusError TableNameDup else StatusOk
  end.

Definition ProxyTableConfig_Store (now : Z) (params : ProxyTableConfigParams) (db : DB) : DB * Status :=
  let status := ProxyTableConfig_checkDupName db (pcp_DatabaseName params) (pcp_TableName params) in
  if (negb (Status_Ok status) && negb (String.eqb (pcp_DatabaseName params) defaultDbName))%bool
  then (db, status)
  else match proxy_Create (mkProxyTableConfig 0 (pcp_DatabaseName params) (pcp_TableName params)
                             (pcp_ReadTimeout params) (pcp_WriteTimeout params)
                             (pcp_AllowedFlow params) now) db with
       | (db, Some err) => (db, StatusWithError (Some err))
       | (db, None) => (db, StatusOk)
       end.

(** The list first stores a default configuration where there is none; the total
    is that of the defaults where none is asked for. *)
Definition ProxyTableConfig_List (now : Z) (para : ProxyTableConfigListParams) (isTotal : bool) (db : DB)
  : DB * (list ProxyTableConfig * Z) :=
  let q name : Query ProxyTableConfig := where_ (WhereStruct (ProxyTableConfig_where name)) gorm_Model in
  let total := gorm_Count (q defaultDbName) db in
  let db := if Z.eqb total 0
            then (ProxyTableConfig_Store now
                    (mkProxyTableConfigParams 0 defaultDbName defaultTbName 10 10 100) db).1
            else db in
  let total := if isTotal then gorm_Count (q (pclp_DatabaseName para)) db else total in
  (db, (gorm_Find (paged (pclp_Page para) (pclp_Limit para) (q (pclp_DatabaseName para))) db, total)).
End Configs.

(** ** A concrete database

    A database that answers every query with its rows, for evaluation. *)

Record Rows := mkRows {
  rows_clusters : list Cluster;
  rows_dcs : list Dc;
  rows_groups : list Group;
  rows_nodes : list Node;
  rows_tables : list Table
}.

(** The rows whose non-zero fields a struct condition names agree with it. *)
Definition matches {Row} (m : Row → Row → bool) (q : Query Row) (r : Row) : bool :=
  forallb (λ c, match c with WhereStruct s => m s r | _ => true end) (q_conds q).

Definition page_of {Row} (q : Query Row) (l : list Row) : list Row :=
  match q_range q with
  | Some (offset, limit) => take (Z.to_nat limit) (drop (Z.to_nat offset) l)
  | None => l
  end.

Definition rows_gorm {Row} (m : Row → Row → bool) (get : Rows → list Row) : Gorm Rows Row :=
  {| gorm_Count q db := Z.of_nat (length (List.filter (matches m q) (get db)));
     gorm_Find q db := page_of q (List.filter (matches m q) (get db)) |}.

Definition zero_or (a b : Z) : bool := (Z.eqb a 0 || Z.eqb a b)%bool.
Definition empty_or (a b : string) : bool := (String.eqb a "" || String.eqb a b)%bool.

Definition rows_db : ControlDb Rows :=
  {| db_clusters := rows_gorm (λ _ _, true) rows_clusters;
     db_dcs := rows_gorm (λ _ _, true) rows_dcs;
     db_groups := rows_gorm (λ s r, zero_or (g_Id (g_row s)) (g_Id (g_row r)) &&
                                    empty_or (g_Name (g_row s)) (g_Name (g_row r)) &&
                                    zero_or (g_ClusterId (g_row s)) (g_ClusterId (g_row r)))%bool
                    rows_groups;
     db_nodes := rows_gorm (λ s r, zero_or (n_GroupId s) (n_GroupId r)) rows_nodes;
     db_tables := rows_gorm (λ s r, zero_or (t_Id s) (t_Id r) &&
                                    zero_or (t_DatabaseId s) (t_DatabaseId r))%bool rows_tables |}.
