(* ===== verification/ShardMetrics.v ===== *)
(** * The metrics cache ([control/service/metrics_info.go])

    [ShardMetricsManager] polls every node of the database over HTTP for its
    shards and their metrics and keeps what it learnt by group and node.  The
    shard assigner, the shard status, the metrics reduction and the validator
    read the cache.  The answers of the nodes, the order in which they arrive and
    the answers that come too late are parameters. *)

From S2P Require Import Prelude RouterTypes Partition Registry GoLib ControlData.

(** ** What a node answers *)

Record ShardPartitionInfo := mkShardPartitionInfo {
  pi_ReplicateLag : Z;
  pi_SeqNo : Z;
  pi_DeltaVersions : list string;
  pi_PartitionId : Z;
  pi_Hash : Z;
  pi_DatabaseName : string;
  pi_TableName : string;
  pi_Role : string;
  pi_BaseVersion : string;
  pi_Size : Z;
  pi_ReadKps : Z;
  pi_WriteKps : Z;
  pi_ReadBytes : Z;
  pi_WriteBytes : Z
}.

Definition ShardPartitionInfos_Less (a b : ShardPartitionInfo) : bool :=
  Z.ltb (pi_Hash b) (pi_Hash a).

Record ShardListData := mkShardListData {
  sl_Status : string;
  sl_Role : string;
  sl_ShardId : Z;
  sl_Partitions : list ShardPartitionInfo
}.

Record ShardListJson := mkShardListJson {
  sl_Code : Z;
  sl_Message : string;
  sl_Data : list ShardListData
}.
Definition ShardListJson_zero : ShardListJson := mkShardListJson 0 "" [].

(** Of [server/status], the status of the service and the values of the shards'
    statistics; the code reads nothing else of it. *)
Record ServerStatus := mkServerStatus {
  ss_ServerStatus : string;
  ss_Stat : gmap string double
}.
Definition ServerStatus_zero : ServerStatus := mkServerStatus "" ∅.

(** ** The cache *)

(** [ShardRole] and [ShardServiceState]; [0] is the zero value of both. *)
Definition Leader : Z := 1.
Definition Follower : Z := 2.
Definition ServiceAvailable : Z := 1.
Definition ServiceUnavailable : Z := 2.

Definition AvailableString : string := "available".
Definition UnavailableString : string := "unavailable".

Record ShardInfo := mkShardInfo {
  si_ShardId : Z;
  si_ShardHash : string;
  si_Role : Z;
  si_ServiceState : Z;
  si_SeqNo : Z;
  si_BaseVersionHash : Z;
  si_Metrics : gmap string double;
  si_Partitions : list ShardPartitionInfo
}.
#[export] Instance ShardPartitionInfo_eq_dec : EqDecision ShardPartitionInfo.
Proof. solve_decision. Defined.
#[export] Instance ShardInfo_eq_dec : EqDecision ShardInfo.
Proof. solve_decision. Defined.

Definition ShardInfo_zero : ShardInfo := mkShardInfo 0 "" 0 0 0 0 ∅ [].

Record NodeBasicInfo := mkNodeBasicInfo {
  nb_GroupName : string;
  nb_NodeId : Z;
  nb_Host : string;
  nb_Port : Z;
  nb_Master : option bool;
  nb_IsAvailable : bool
}.
#[export] Instance NodeBasicInfo_eq_dec : EqDecision NodeBasicInfo.
Proof. solve_decision. Defined.

Definition NodeBasicInfo_zero : NodeBasicInfo := mkNodeBasicInfo "" 0 "" 0 None false.

Record GroupShardMetrics := mkGroupShardMetrics {
  gm_nodeInfo : gmap Z NodeBasicInfo;
  gm_nodeShardInfo : gmap Z (gmap string ShardInfo)
}.
Definition GroupShardMetrics_zero : GroupShardMetrics := mkGroupShardMetrics ∅ ∅.

Record ShardPullNodeMetricsResult := mkPullResult {
  pr_groupName : string;
  pr_nodeId : Z;
  pr_basicInfo : NodeBasicInfo;
  pr_shardMetrics : gmap string ShardInfo
}.

Record ShardMetricsManager := mkShardMetricsManager {
  mm_shardMetrics : gmap string GroupShardMetrics;
  mm_ttlMs : Z
}.

Definition GetShardMetricsManager : ShardMetricsManager := mkShardMetricsManager ∅ 5000.

Definition WriteKpsMin1 : string := "write_kps_min_1".
Definition ReadKpsMin1 : string := "read_kps_min_1".
Definition WriteBytesMin1 : string := "write_bytes_min_1".
Definition ReadBytesMin1 : string := "read_bytes_min_1".
Definition LiveSstFilesSize : string := "live-sst-files-size".

Definition metricsType : list string :=
  [WriteKpsMin1; ReadKpsMin1; WriteBytesMin1; ReadBytesMin1; LiveSstFilesSize].

(** [http.Get] and [ioutil.ReadAll] of the body: the outer error is the
    request's, the inner one the reader's. *)
Class Http := { http_Get : string → (string + error) + error }.

Section Hashes.
Context `{CityHash}.

Definition GetNodeHash (group : string) (nodeId : Z) : Z := city group (u64 nodeId).

Definition GetShardHash (nodeHash shardId : Z) : string :=
  Itoa (city (Itoa shardId) nodeHash).

Definition GetPartitionHash64 (databaseName tableName : string) (partitionId : Z) : Z :=
  city tableName (city databaseName (u64 partitionId)).

Definition GetTableHash (databaseName tableName : string) : Z :=
  city tableName (city databaseName 0).
End Hashes.

Definition getMetricKey (nodeId : Z) (metricName : string) (shardId : Z) : string :=
  "property=rocksdb." +:+ metricName +:+ ",shard_id=" +:+ Itoa shardId +:+
  ",node_id=" +:+ Itoa nodeId.

Definition getShardListUrl (address : string) : string :=
  "http://" +:+ address +:+ "/shard/list".

Definition getServerStatusUrl (address : string) : string :=
  "http://" +:+ address +:+ "/server/status".

(** ** Pulling *)

Section Pull.
Context `{CityHash} `{MapOrder} `{GoSort} `{Http}
  {jsonList : Json ShardListJson} {jsonStatus : Json ServerStatus}.

Definition address_of (node : Node) : string := n_Host node +:+ ":" +:+ Itoa (n_Port node).

(** The version hash and the sequence number of a shard: over its partitions in
    descending order of their hashes. *)
Definition fold_partitions (partitions : list ShardPartitionInfo) : Z * Z :=
  foldl (λ '(versionHash, seqNumber) p,
    (city (pi_BaseVersion p) versionHash, u64 (seqNumber + pi_SeqNo p))) (0, 0) partitions.

Definition shard_of_list (nodeHash : Z) (d : ShardListData) : ShardInfo :=
  let partitions := sort_Sort ShardPartitionInfos_Less (sl_Partitions d) in
  let '(versionHash, seqNumber) := fold_partitions partitions in
  mkShardInfo (sl_ShardId d) (GetShardHash nodeHash (sl_ShardId d))
    (if String.eqb (sl_Role d) "leader" then Leader else Follower)
    (if String.eqb (sl_Status d) AvailableString then ServiceAvailable else ServiceUnavailable)
    seqNumber versionHash ∅ partitions.

Definition getNodeShardInfoFromShardList (groupName : string) (node : Node) : GroupShardMetrics :=
  let nodeHash := GetNodeHash groupName (n_NodeId node) in
  match http_Get (getShardListUrl (address_of node)) with
  | inr _ | inl (inr _) => GroupShardMetrics_zero
  | inl (inl response) =>
      match json_Unmarshal response ShardListJson_zero with
      | (_, Some _) => GroupShardMetrics_zero
      | (shardListJson, None) =>
          let '(_, info) :=
            foldl (λ '(shardList, info) d,
              let shardBasicInfo := shard_of_list nodeHash d in
              let shardList := <[si_ShardHash shardBasicInfo := shardBasicInfo]> shardList in
              (shardList, mkGroupShardMetrics (gm_nodeInfo info)
                            (<[nodeHash := shardList]> (gm_nodeShardInfo info))))
              (∅, GroupShardMetrics_zero) (sl_Data shardListJson) in
          info
      end
  end.

(** The metrics of a shard the node reports and that are not zero. *)
Definition shard_metrics (stat : gmap string double) (nodeId shardId : Z) : gmap string double :=
  foldl (λ metric metricName,
    match stat !! getMetricKey nodeId metricName shardId with
    | Some value => if SFeqb value f64_zero then metric else <[metricName := value]> metric
    | None => metric
    end) ∅ metricsType.

Definition getShardMetricsFromServerStatus (node : Node) (nodeHash : Z)
    (shardList : gmap string ShardInfo) : bool * gmap string ShardInfo :=
  match http_Get (getServerStatusUrl (address_of node)) with
  | inr _ | inl (inr _) => (false, ∅)
  | inl (inl response) =>
      match json_Unmarshal response ServerStatus_zero with
      | (_, Some _) => (false, ∅)
      | (serverStatusJson, None) =>
          (String.eqb (ss_ServerStatus serverStatusJson) AvailableString,
           foldl (λ shardMetricsInfo '(_, info),
             <[GetShardHash nodeHash (si_ShardId info) :=
                 mkShardInfo (si_ShardId info) (si_ShardHash info) (si_Role info)
                   (si_ServiceState info) (si_SeqNo info) (si_BaseVersionHash info)
                   (shard_metrics (ss_Stat serverStatusJson) (n_NodeId node) (si_ShardId info))
                   (si_Partitions info)]> shardMetricsInfo) ∅ (map_range shardList))
      end
  end.

(** One goroutine of a synchronisation. *)
Definition pull_node (groupName : string) (node : Node) : ShardPullNodeMetricsResult :=
  let nodeHash := GetNodeHash groupName (n_NodeId node) in
  let nodeShardMetrics := getNodeShardInfoFromShardList groupName node in
  let '(isNodeAvailable, nodeMetricsInfo) :=
    getShardMetricsFromServerStatus node nodeHash
      (default ∅ (gm_nodeShardInfo nodeShardMetrics !! nodeHash)) in
  mkPullResult groupName (n_NodeId node)
    (mkNodeBasicInfo groupName (n_NodeId node) (n_Host node) (n_Port node) (n_Master node)
       isNodeAvailable) nodeMetricsInfo.

Context {DB : Type} `{ControlDb DB}.

(** Every goroutine a synchronisation starts. *)
Definition pulls (db : DB) : list ShardPullNodeMetricsResult :=
  group ← (Group_List db (mkGroupListParams 0 0 0 0 "" true) false).1;
  pull_node (g_Name (g_row group)) <$> g_Nodes group.

(** One result taken from the channel. *)
Definition store_result (m : gmap string GroupShardMetrics) (r : ShardPullNodeMetricsResult)
  : gmap string GroupShardMetrics :=
  let nodeHash := GetNodeHash (pr_groupName r) (pr_nodeId r) in
  let groupMetrics := default GroupShardMetrics_zero (m !! pr_groupName r) in
  <[pr_groupName r :=
      mkGroupShardMetrics (<[nodeHash := pr_basicInfo r]> (gm_nodeInfo groupMetrics))
        (<[nodeHash := pr_shardMetrics r]> (gm_nodeShardInfo groupMetrics))]> m.

(** The collecting loop, for the results that arrive in time, in their order; a
    turn that times out stores nothing. *)
Definition collect_results (arrivals : list ShardPullNodeMetricsResult)
    (mm : ShardMetricsManager) : ShardMetricsManager :=
  mkShardMetricsManager (foldl store_result (mm_shardMetrics mm) arrivals) (mm_ttlMs mm).

(** A synchronisation: some of the goroutines' results arrive, in some order. *)
Inductive syncShardMetrics (db : DB) (mm : ShardMetricsManager) : ShardMetricsManager → Prop :=
  | sync_arrivals arrivals late :
      arrivals ++ late ≡ₚ pulls db →
      syncShardMetrics db mm (collect_results arrivals mm).
End Pull.

(** ** Reading *)

Section Read.
Context `{CityHash} `{MapOrder} {DB : Type} `{ControlDb DB}.

(** The data centre's own number of shards, [None] where no data centre of the
    cluster has the name. *)
Fixpoint dc_shard_number (dc : string) (dcs : list Dc) : option Z :=
  match dcs with
  | [] => None
  | d :: dcs => if String.eqb (dc_Name d) dc then Some (dc_ShardNumber d)
                else dc_shard_number dc dcs
  end.

Fixpoint GetShardNum_loop (dc : string) (clusterList : list Cluster) (shardNumber : Z) : Z :=
  match clusterList with
  | [] => shardNumber
  | clusterInfo :: clusterList =>
      let shardNumber := default shardNumber (dc_shard_number dc (cl_Dcs clusterInfo)) in
      if Z.eqb shardNumber 0 then cl_ShardTotal clusterInfo
      else GetShardNum_loop dc clusterList shardNumber
  end.

Definition GetShardNum (db : DB) (dc : string) : Z :=
  GetShardNum_loop dc (Cluster_List db (mkClusterListParams 0 0) false).1 0.

Definition is_table (databaseName tableName : string) (t : Table) : bool :=
  (String.eqb (ld_Name (t_Database t)) databaseName && String.eqb (t_Name t) tableName)%bool.

Definition GetPartitionNumAndDc (db : DB) (databaseName tableName : string) : Z * string :=
  match List.find (is_table databaseName tableName)
          (Table_List db (mkTableListParams 0 0 0 0 "" "") false).1 with
  | Some tableInfo => (t_PartitionNumber tableInfo, dc_Name (t_Dc tableInfo))
  | None => (0, "")
  end.

(** The shards of the partitions [ids], each once, in the order they come up. *)
Definition shard_list (databaseName tableName : string) (shardNumber : Z) (ids : list Z) : list Z :=
  (foldl (λ '(shardList, unique) partitionId,
     let shardId := GetShardIdByShardNumber (NewPartition databaseName tableName partitionId)
                      shardNumber in
     if decide (shardId ∈ unique) then (shardList, unique)
     else (shardList ++ [shardId], {[shardId]} ∪ unique)) ([], (∅ : gset Z)) ids).1.

Definition GetTableShardList (db : DB) (databaseName tableName : string) : list Z :=
  let '(partitionNumber, dc) := GetPartitionNumAndDc db databaseName tableName in
  let shardNumber := GetShardNum db dc in
  shard_list databaseName tableName shardNumber (seqZ 0 partitionNumber).

(** [m[k] += v] on [uint64]. *)
Definition map_add (m : gmap Z Z) (k v : Z) : gmap Z Z := <[k := u64 (default 0 (m !! k) + v)]> m.

(** One partition of a shard added to the two maps. *)
Definition add_partition (databaseName tableName : string) (shardId : Z)
    (acc : gmap Z Z * gmap Z Z) (p : ShardPartitionInfo) : gmap Z Z * gmap Z Z :=
  if (String.eqb (pi_DatabaseName p) databaseName && String.eqb (pi_TableName p) tableName)%bool
  then (if String.eqb (pi_Role p) "leader" then map_add acc.1 shardId (pi_Size p) else acc.1,
        map_add acc.2 shardId (pi_ReadKps p))
  else acc.

Definition GetTableShardSizeAndKps (db : DB) (mm : ShardMetricsManager)
    (databaseName tableName : string) : gmap Z Z * gmap Z Z :=
  let tableShardList := GetTableShardList db databaseName tableName in
  foldl (λ acc '(_, groupMetrics),
    foldl (λ acc '(nodeHash, nodeMetrics),
      foldl (λ acc shardId,
        let shardHash := GetShardHash nodeHash (u32 shardId) in
        foldl (add_partition databaseName tableName shardId) acc
          (si_Partitions (default ShardInfo_zero (nodeMetrics !! shardHash))))
        acc tableShardList)
      acc (map_range (gm_nodeShardInfo groupMetrics)))
    (∅, ∅) (map_range (mm_shardMetrics mm)).

Definition IsNodeAvailable (mm : ShardMetricsManager) (groupName : string) (nodeId : Z) : bool :=
  let nodeHash := GetNodeHash groupName nodeId in
  match mm_shardMetrics mm !! groupName with
  | None => false
  | Some groupMetrics =>
      match gm_nodeInfo groupMetrics !! nodeHash with
      | Some val => nb_IsAvailable val
      | None => false
      end
  end.

Definition GetNodeMetricValue (mm : ShardMetricsManager) (groupName : string) (nodeId : Z)
    (metricName : string) : double :=
  let nodeHash := GetNodeHash groupName nodeId in
  match mm_shardMetrics mm !! groupName with
  | None => f64_zero
  | Some groupMetrics =>
      match gm_nodeShardInfo groupMetrics !! nodeHash with
      | Some nodeMetrics =>
          foldl (λ sum '(_, shardMetrics),
            match si_Metrics shardMetrics !! metricName with
            | Some metricValue => f64_add sum metricValue
            | None => sum
            end) f64_zero (map_range nodeMetrics)
      | None => f64_zero
      end
  end.

Definition getShardIdByDbAndTb `{FloatToUint} (databaseName tableName : string)
    (partitionId shardNumber : Z) : go Z :=
  let partitionHash := GetPartitionHash64 databaseName tableName partitionId in
  shardId ← go_rem (f64_to_uint 64 (SFabs (f64_of_Z partitionHash))) shardNumber;
  mret (u32 shardId).

(** Every shard in the cache, in the order a run ranges over it. *)
Definition cached_shards (mm : ShardMetricsManager) : list ShardInfo :=
  '(_, groupMetrics) ← map_range (mm_shardMetrics mm);
  '(_, nodeMetrics) ← map_range (gm_nodeShardInfo groupMetrics);
  snd <$> map_range nodeMetrics.

Definition getShardMetricsFromCacheById (mm : ShardMetricsManager) (shardId : Z) : ShardInfo :=
  default ShardInfo_zero (List.find (λ s, Z.eqb (si_ShardId s) shardId) (cached_shards mm)).

Definition checkShardExist (shardId : Z) (shardInfo : list ShardInfo) : bool :=
  existsb (λ info, Z.eqb (si_ShardId info) shardId) shardInfo.

Definition GetNodeShardInfo {jsonNode : Json NodeBasicInfo} {jsonShards : Json (gmap string ShardInfo)}
    (mm : ShardMetricsManager) (groupName : string) (nodeId : Z)
  : NodeBasicInfo * gmap string ShardInfo :=
  let nodeHash := GetNodeHash groupName nodeId in
  let groupMetrics := default GroupShardMetrics_zero (mm_shardMetrics mm !! groupName) in
  (json_copy (default NodeBasicInfo_zero (gm_nodeInfo groupMetrics !! nodeHash)) NodeBasicInfo_zero,
   json_copy (default ∅ (gm_nodeShardInfo groupMetrics !! nodeHash)) ∅).

Definition getShardListByDbAndTb `{FloatToUint} (db : DB) (mm : ShardMetricsManager)
    (databaseName tableName : string) : go (list ShardInfo) :=
  let '(partitionNumer, dc) := GetPartitionNumAndDc db databaseName tableName in
  let shardNumber := GetShardNum db dc in
  go_fold (λ result partitionId,
    shardId ← getShardIdByDbAndTb databaseName tableName (u32 partitionId) shardNumber;
    let shardMetrics := getShardMetricsFromCacheById mm shardId in
    let isExist := checkShardExist shardId result in
    mret (if isExist then result else result ++ [shardMetrics]))
    (seqZ 0 (partitionNumer + 1)) [].

Definition ShardMetricsManager_GetSpecShardNum (mm : ShardMetricsManager) (shardId shardRole : Z) : Z :=
  foldl (λ num s,
    if (Z.eqb (si_ShardId s) shardId && Z.eqb (si_Role s) shardRole)%bool then u32 (num + 1)
    else num) 0 (cached_shards mm).
End Read.

(** ** Lemmas *)

Section Lemmas.
Context `{CityHash} `{MapOrder} {DB : Type} `{ControlDb DB}.

(** The shard of a partition, as the clients compute it. *)
Definition shard_of_partition (databaseName tableName : string) (shardNumber partitionId : Z) : Z :=
  GetShardIdByShardNumber (NewPartition databaseName tableName partitionId) shardNumber.

Lemma shard_list_inv d t n ids :
  let '(l, u) := foldl (λ '(shardList, unique) partitionId,
     let shardId := shard_of_partition d t n partitionId in
     if decide (shardId ∈ unique) then (shardList, unique)
     else (shardList ++ [shardId], {[shardId]} ∪ unique)) ([], (∅ : gset Z)) ids in
  l = shard_list d t n ids ∧ NoDup l ∧
  (∀ s, s ∈ l ↔ s ∈ u) ∧ (∀ s, s ∈ l ↔ s ∈ shard_of_partition d t n <$> ids).
Proof.
  induction ids as [|p ids IH] using rev_ind; cbn [foldl].
  { split_and!; [done|constructor|set_solver|set_solver]. }
  unfold shard_list, shard_of_partition in *. rewrite fmap_app, foldl_app. set (acc := foldl _ _ _) in *. destruct acc as [l u].
  cbn [foldl fst]. destruct IH as (_ & Hnd & Hu & Hs).
  cbn [fmap list_fmap]. case_decide as Hd; (split_and!; [done|..]).
  - done.
  - done.
  - intros s. rewrite Hs, elem_of_app, list_elem_of_singleton. set_solver.
  - apply NoDup_app. split_and!; [done| |apply NoDup_singleton]. set_solver.
  - set_solver.
  - intros s. rewrite !elem_of_app, Hs. set_solver.
Qed.

Lemma shard_list_NoDup d t n ids : NoDup (shard_list d t n ids).
Proof. pose proof (shard_list_inv d t n ids) as Hi. destruct foldl. naive_solver. Qed.

Lemma elem_of_shard_list d t n ids s :
  s ∈ shard_list d t n ids ↔ s ∈ shard_of_partition d t n <$> ids.
Proof. pose proof (shard_list_inv d t n ids) as Hi. destruct foldl. naive_solver. Qed.

(** *** Sums in a map *)

Definition map_add_all (m : gmap Z Z) (l : list (Z * Z)) : gmap Z Z :=
  foldl (λ m kv, map_add m kv.1 kv.2) m l.

Lemma lookup_map_add_all l k :
  map_add_all ∅ l !! k =
    match assoc_values k l with [] => None | vs => Some (u64 (sum_values vs)) end.
Proof.
  induction l as [|[k' v] l IH] using rev_ind; [done|].
  unfold map_add_all. rewrite foldl_app, assoc_values_app. cbn [foldl fst snd].
  change (foldl _ ∅ l) with (map_add_all ∅ l). unfold map_add at 1.
  rewrite lookup_insert, assoc_values_cons.
  change (assoc_values k []) with (@nil Z).
  destruct (decide (k' = k)) as [->|Hk]; [|by rewrite app_nil_r].
  rewrite IH. destruct (assoc_values k l) as [|w vs]; cbn [from_option id].
  { cbn. f_equal. f_equal. lia. }
  rewrite wrapu_add_l. change ((w :: vs) ++ [v]) with (w :: (vs ++ [v])). do 2 f_equal.
  change (sum_values (w :: ?l)) with (w + sum_values l). rewrite sum_values_app. cbn. lia.
Qed.

(** The same numbers in another order give the same map. *)
Lemma map_add_all_perm l1 l2 : l1 ≡ₚ l2 → map_add_all ∅ l1 = map_add_all ∅ l2.
Proof.
  intros Hp. apply map_eq. intros k. rewrite !lookup_map_add_all.
  assert (assoc_values k l1 ≡ₚ assoc_values k l2) as Hk.
  { unfold assoc_values. by rewrite Hp. }
  pose proof (sum_values_perm _ _ Hk) as E.
  destruct (assoc_values k l1), (assoc_values k l2); [done| | |by rewrite E].
  - by apply Permutation_nil_cons in Hk.
  - symmetry in Hk. by apply Permutation_nil_cons in Hk.
Qed.

(** The partitions of a table in the cache, each with its shard, in the order of
    the loops. *)
Definition table_partitions (shards : list Z) (mm : ShardMetricsManager)
    (databaseName tableName : string) : list (Z * ShardPartitionInfo) :=
  '(_, groupMetrics) ← map_range (mm_shardMetrics mm);
  '(nodeHash, nodeMetrics) ← map_range (gm_nodeShardInfo groupMetrics);
  shardId ← shards;
  pair shardId <$>
    filter (λ p, pi_DatabaseName p = databaseName ∧ pi_TableName p = tableName)
      (si_Partitions (default ShardInfo_zero
         (nodeMetrics !! GetShardHash nodeHash (u32 shardId)))).

Definition leader_sizes (l : list (Z * ShardPartitionInfo)) : list (Z * Z) :=
  prod_map id pi_Size <$> filter (λ sp, pi_Role sp.2 = "leader") l.
Definition read_kps (l : list (Z * ShardPartitionInfo)) : list (Z * Z) :=
  prod_map id pi_ReadKps <$> l.

Lemma add_partitions d t s acc ps :
  foldl (add_partition d t s) acc ps =
    let l := pair s <$> filter (λ p, pi_DatabaseName p = d ∧ pi_TableName p = t) ps in
    (map_add_all acc.1 (leader_sizes l), map_add_all acc.2 (read_kps l)).
Proof.
  revert acc. induction ps as [|p ps IH]; intros acc; [by destruct acc|].
  cbn [foldl]. rewrite IH. rewrite filter_cons. unfold add_partition.
  destruct (String.eqb_spec (pi_DatabaseName p) d), (String.eqb_spec (pi_TableName p) t);
    cbn [andb]; (destruct (decide _) as [Hd|Hd]; [|try (by destruct Hd); done]);
    [|naive_solver..].
  cbn [fmap list_fmap]. unfold leader_sizes, read_kps. rewrite filter_cons. cbn [snd].
  destruct (String.eqb_spec (pi_Role p) "leader"), (decide (pi_Role p = "leader")); try done.
Qed.

(** A loop that adds to both maps adds what all its turns add. *)
Lemma add_partitions_bind {A} (f : gmap Z Z * gmap Z Z → A → gmap Z Z * gmap Z Z)
    (g : A → list (Z * ShardPartitionInfo)) l acc :
  (∀ acc a, f acc a = (map_add_all acc.1 (leader_sizes (g a)), map_add_all acc.2 (read_kps (g a)))) →
  foldl f acc l = (map_add_all acc.1 (leader_sizes (l ≫= g)), map_add_all acc.2 (read_kps (l ≫= g))).
Proof.
  intros Hf. revert acc. induction l as [|a l IH]; intros acc; [by destruct acc|].
  cbn [foldl mbind list_bind]. rewrite IH, Hf. cbn [fst snd].
  unfold map_add_all, leader_sizes, read_kps.
  rewrite filter_app, !fmap_app, !foldl_app. done.
Qed.

Lemma GetTableShardSizeAndKps_sums db mm d t :
  let l := table_partitions (GetTableShardList db d t) mm d t in
  GetTableShardSizeAndKps db mm d t =
    (map_add_all ∅ (leader_sizes l), map_add_all ∅ (read_kps l)).
Proof.
  cbn. unfold GetTableShardSizeAndKps, table_partitions.
  rewrite (add_partitions_bind _ (λ '(_, groupMetrics),
    '(nodeHash, nodeMetrics) ← map_range (gm_nodeShardInfo groupMetrics);
    shardId ← GetTableShardList db d t;
    pair shardId <$> filter (λ p, pi_DatabaseName p = d ∧ pi_TableName p = t)
      (si_Partitions (default ShardInfo_zero
         (nodeMetrics !! GetShardHash nodeHash (u32 shardId)))))); [done|].
  intros acc1 [g gm]. apply add_partitions_bind. intros acc2 [h nm].
  apply add_partitions_bind. intros acc3 s. apply add_partitions.
Qed.

(** *** The cache after a synchronisation *)

(** Where a result is kept. *)
Definition result_key (r : ShardPullNodeMetricsResult) : string * Z :=
  (pr_groupName r, GetNodeHash (pr_groupName r) (pr_nodeId r)).

(** What the cache has under a group and a node hash. *)
Definition cached (m : gmap string GroupShardMetrics) (k : string * Z)
  : option NodeBasicInfo * option (gmap string ShardInfo) :=
  let gm := default GroupShardMetrics_zero (m !! k.1) in
  (gm_nodeInfo gm !! k.2, gm_nodeShardInfo gm !! k.2).

Lemma cached_store m r k :
  cached (store_result m r) k =
    if decide (k = result_key r) then (Some (pr_basicInfo r), Some (pr_shardMetrics r))
    else cached m k.
Proof.
  destruct k as [g h]. unfold cached, store_result, result_key. cbn.
  destruct (decide (g = pr_groupName r)) as [->|Hg].
  - rewrite lookup_insert_eq. cbn. rewrite !lookup_insert.
    repeat case_decide; naive_solver.
  - rewrite lookup_insert_ne by done. rewrite decide_False by naive_solver. done.
Qed.

Lemma cached_collect m arrivals k :
  NoDup (result_key <$> arrivals) →
  (∀ r, r ∈ arrivals → k = result_key r →
     cached (foldl store_result m arrivals) k = (Some (pr_basicInfo r), Some (pr_shardMetrics r))) ∧
  (k ∉ result_key <$> arrivals → cached (foldl store_result m arrivals) k = cached m k).
Proof.
  induction arrivals as [|r0 l IH] using rev_ind; intros Hnd.
  { split; [by intros ? ?%elem_of_nil|done]. }
  rewrite fmap_app in *. apply NoDup_app in Hnd as (Hnd & Hdisj & _).
  destruct (IH Hnd) as [IH1 IH2]. rewrite foldl_app. cbn [foldl]. rewrite cached_store. split.
  - intros r Hr ->. case_decide as E.
    + apply elem_of_app in Hr as [Hr|Hr%list_elem_of_singleton]; [|by subst].
      exfalso. apply (Hdisj (result_key r)); [by apply list_elem_of_fmap_2|].
      rewrite E. by left.
    + apply elem_of_app in Hr as [Hr|Hr%list_elem_of_singleton]; [auto|by subst].
  - intros Hk. rewrite decide_False by set_solver. apply IH2. set_solver.
Qed.

(** *** Counting *)

Lemma count_bounded (P : ShardInfo → bool) l n :
  foldl (λ num s, if P s then u32 (num + 1) else num) n l =
    if decide (List.filter P l = []) then n else u32 (n + Z.of_nat (length (List.filter P l))).
Proof.
  revert n. induction l as [|s l IH]; intros n; [done|]. cbn [foldl List.filter].
  destruct (P s); rewrite IH; [|done]. rewrite (decide_False (P:=s :: _ = [])) by done.
  case_decide as E.
  - by rewrite E.
  - rewrite wrapu_add_l. cbn [length]. f_equal. lia.
Qed.
End Lemmas.

(** ** Properties *)

Section Properties.
Context `{CityHash} `{MapOrder} `{GoSort} `{Http}
  {jsonList : Json ShardListJson} {jsonStatus : Json ServerStatus} {DB : Type} `{ControlDb DB}.

(** The shards of a table.  [GetTableShardList] lists each shard once, and
    exactly the shards to which the clients' [GetShardIdByShardNumber] sends the
    partitions [0 .. PartitionNumber - 1] of the table, with the shard number of the
    table's data centre. *)
Theorem GetTableShardList_spec db d t :
  let '(partitionNumber, dc) := GetPartitionNumAndDc db d t in
  NoDup (GetTableShardList db d t) ∧
  ∀ s, s ∈ GetTableShardList db d t ↔
    ∃ p, 0 ≤ p < partitionNumber ∧
      s = GetShardIdByShardNumber (NewPartition d t p) (GetShardNum db dc).
Proof.
  unfold GetTableShardList. destruct (GetPartitionNumAndDc db d t) as [n dc].
  split; [apply shard_list_NoDup|]. intros s. rewrite elem_of_shard_list, list_elem_of_fmap.
  split; intros (p & Hp & Hs).
  - apply elem_of_seqZ in Hs. exists p. split; [lia|done].
  - exists p. split; [done|]. apply elem_of_seqZ. lia.
Qed.

(** A synchronisation of the cache.  Where no two nodes share a group and a
    node hash, the cache afterwards has, for every node whose result arrived in
    time, just that result, whatever the order of arrival; what came too late, and
    every node the database no longer has, is as it was before. *)
Theorem syncShardMetrics_spec db mm mm' :
  NoDup (result_key <$> pulls db) →
  syncShardMetrics db mm mm' →
  ∃ late, late ⊆+ pulls db ∧
    (∀ r, r ∈ pulls db → cached (mm_shardMetrics mm') (result_key r) =
       if decide (result_key r ∈ result_key <$> late)
       then cached (mm_shardMetrics mm) (result_key r)
       else (Some (pr_basicInfo r), Some (pr_shardMetrics r))) ∧
    (∀ k, k ∉ result_key <$> pulls db →
       cached (mm_shardMetrics mm') k = cached (mm_shardMetrics mm) k).
Proof.
  intros Hnd [arrivals late Hp]. exists late.
  assert (NoDup (result_key <$> arrivals ++ late)) as Hnd' by by rewrite Hp.
  rewrite fmap_app in Hnd'. apply NoDup_app in Hnd' as (Ha & Hdisj & _).
  split_and!.
  - rewrite <- Hp. apply submseteq_inserts_l. done.
  - intros r Hr. rewrite <- Hp, elem_of_app in Hr. cbn [mm_shardMetrics collect_results].
    destruct (cached_collect (mm_shardMetrics mm) arrivals (result_key r) Ha) as [Hin Hout].
    case_decide as Hl.
    + apply Hout. intros Hk. by apply (Hdisj (result_key r)).
    + destruct Hr as [Hr|Hr]; [by apply Hin|]. destruct Hl. by apply list_elem_of_fmap_2.
  - intros k Hk. rewrite <- Hp, fmap_app in Hk. apply cached_collect; set_solver.
Qed.
End Properties.

(** *** Concrete runs *)

(** A service that is up but has no shard to report. *)
Definition bare_http : Http := {| http_Get _ := inl (inl "{}") |}.
#[local] Existing Instances toy_city stdpp_order merge_sorting bare_http rows_db.
#[local] Instance bare_list : Json ShardListJson := const_json ShardListJson_zero.
#[local] Instance bare_status : Json ServerStatus :=
  const_json (mkServerStatus AvailableString ∅).

Definition node_row (id nodeId : Z) (host : string) (master : bool) : Node :=
  mkNode id nodeId (Some NodeActive) (Some NodeStatusEnabled) host 80 (Some 1) (Some master)
    (Some false) "" 1 (mkGroupRow 1 "g" "" 0 "" 1 1 0) 0 NodeConfig_zero (Some "") (Some "")
    0 AnsibleConfig_zero.

Definition two_nodes : Rows :=
  mkRows [mkCluster 1 "c" "" 4 "" [] 0] []
    [mkGroup (mkGroupRow 1 "g" "" 0 "" 1 1 0) NodeConfig_zero
       [node_row 1 1 "h1" true; node_row 2 2 "h2" false] Dc_zero] [] [].

Lemma syncShardMetrics_spec_witness :
  ∃ late, late ⊆+ pulls two_nodes ∧
    (∀ r, r ∈ pulls two_nodes →
       cached (mm_shardMetrics (collect_results (take 1 (pulls two_nodes)) GetShardMetricsManager))
         (result_key r) =
       if decide (result_key r ∈ result_key <$> late)
       then cached (mm_shardMetrics GetShardMetricsManager) (result_key r)
       else (Some (pr_basicInfo r), Some (pr_shardMetrics r))) ∧
    (∀ k, k ∉ result_key <$> pulls two_nodes →
       cached (mm_shardMetrics (collect_results (take 1 (pulls two_nodes)) GetShardMetricsManager)) k =
       cached (mm_shardMetrics GetShardMetricsManager) k).
Proof.
  apply (syncShardMetrics_spec two_nodes GetShardMetricsManager).
  - apply (bool_decide_unpack _). vm_compute. exact I.
  - apply (sync_arrivals _ _ _ (drop 1 (pulls two_nodes))). by rewrite take_drop.
Defined.
