(* ===== verification/ShardAssigner.v ===== *)
(** * Splitting a table's shards ([control/service/table_shard_assigner.go])

    [AssignTableShardList] splits the shards of a table into a number of lists of
    about the same size, read load or length, for edge nodes to take one each. *)

From S2P Require Import Prelude RouterTypes Partition Registry GoLib ControlStatus ControlData ShardMetrics.

(** ** Data *)

Record Pair := mkPair { pair_key : Z; pair_value : Z }.

Definition PairList_Less (a b : Pair) : bool := Z.ltb (pair_value a) (pair_value b).

Record AssignedShardList := mkAssignedShardList {
  as_MetricSum : Z;
  as_ShardList : list Z
}.
Definition AssignedShardList_zero : AssignedShardList := mkAssignedShardList 0 [].

Definition AssignedShardLists_Less (a b : AssignedShardList) : bool :=
  Z.ltb (as_MetricSum a) (as_MetricSum b).

Record AssignedResultEntry := mkAssignedResultEntry {
  are_SizeSum : Z;
  are_KpsSum : Z;
  are_ShardList : list Z
}.
Definition AssignedResultEntry_zero : AssignedResultEntry := mkAssignedResultEntry 0 0 [].

Record AssignedTableShardResult := mkAssignedTableShardResult {
  atr_TotalShardListInfo : AssignedResultEntry;
  atr_AssignedShardListInfos : list AssignedResultEntry
}.
Definition AssignedTableShardResult_zero : AssignedTableShardResult :=
  mkAssignedTableShardResult AssignedResultEntry_zero [].

Definition AssignByShardSize : Z := 1.
Definition AssignByShardKps : Z := 2.
Definition AssignByShardNum : Z := 3.

Record AssignShardListParams := mkAssignShardListParams {
  asp_DatabaseName : string;
  asp_TableName : string;
  asp_Type : Z;
  asp_AssignedListNum : Z
}.

(** ** Operations *)

Section Assigner.
Context `{CityHash} `{MapOrder} `{GoSort} `{Runtime} {DB : Type} `{ControlDb DB}.

(** [m[k]] of a map of numbers: [0] where there is none. *)
Definition metric_of (m : gmap Z Z) (k : Z) : Z := default 0 (m !! k).

(** One turn of the loop: the heaviest shard that is left goes to the lightest
    list. *)
Definition assign_pair (shardLists : list AssignedShardList) (p : Pair)
  : go (list AssignedShardList) :=
  match sort_Sort AssignedShardLists_Less shardLists with
  | [] => Panic IndexOutOfRange
  | a :: rest =>
      Ret (mkAssignedShardList (u64 (as_MetricSum a + pair_value p))
             (as_ShardList a ++ [pair_key p]) :: rest)
  end.

Definition sort_list (a : AssignedShardList) : AssignedShardList :=
  mkAssignedShardList (as_MetricSum a) (sort_Sort Z.ltb (as_ShardList a)).

Definition assignShardListByMetric (listNum : Z) (shardMetric : gmap Z Z)
  : go (list AssignedShardList) :=
  let shardLists := replicate (Z.to_nat listNum) AssignedShardList_zero in
  let pairList : list Pair := (λ '(k, v), mkPair k v) <$> map_range shardMetric in
  let pairList := sort_Sort (sort_Reverse PairList_Less) pairList in
  lists ← go_fold assign_pair pairList shardLists;
  mret (sort_list <$> (lists : list AssignedShardList)).

(** [resultEntries[index]] with the shard added to it. *)
Definition entry_add (size kps shardId : Z) (e : AssignedResultEntry) : AssignedResultEntry :=
  mkAssignedResultEntry (u64 (are_SizeSum e + size)) (u64 (are_KpsSum e + kps))
    (are_ShardList e ++ [shardId]).

(** One turn of the loop: the entries, the total and the count. *)
Definition num_step (listNum : Z) (tableShardSize tableShardKps : gmap Z Z)
    (acc : list AssignedResultEntry * AssignedResultEntry * Z) (shardId : Z)
  : go (list AssignedResultEntry * AssignedResultEntry * Z) :=
  let '(resultEntries, total, count) := acc in
  index ← go_rem count listNum;
  entry ← go_index resultEntries index;
  let size := metric_of tableShardSize shardId in
  let kps := metric_of tableShardKps shardId in
  mret (<[Z.to_nat index := entry_add size kps shardId entry]> resultEntries,
        mkAssignedResultEntry (u64 (are_SizeSum total + size)) (u64 (are_KpsSum total + kps)) [],
        u32 (count + 1)).

Definition assignShardListByNum (db : DB) (mm : ShardMetricsManager)
    (param : AssignShardListParams) : go AssignedTableShardResult :=
  let listNum := asp_AssignedListNum param in
  let resultEntries := replicate (Z.to_nat listNum) AssignedResultEntry_zero in
  let totalShardList :=
    sort_Sort Z.ltb (GetTableShardList db (asp_DatabaseName param) (asp_TableName param)) in
  let '(tableShardSize, tableShardKps) :=
    GetTableShardSizeAndKps db mm (asp_DatabaseName param) (asp_TableName param) in
  '(resultEntries, total, _) ←
    go_fold (num_step listNum tableShardSize tableShardKps) totalShardList
      (resultEntries, AssignedResultEntry_zero, 0);
  mret (mkAssignedTableShardResult
          (mkAssignedResultEntry (are_SizeSum total) (are_KpsSum total) totalShardList)
          resultEntries).

(** The sum of another metric over a list, on [uint64]. *)
Definition sum_metric (m : gmap Z Z) (shards : list Z) : Z :=
  foldl (λ sum shardId, u64 (sum + metric_of m shardId)) 0 shards.

(** The loop that the two functions below share but for the entries they make. *)
Definition collect_entries (entry : AssignedShardList → AssignedResultEntry)
    (assignedShardLists : list AssignedShardList) : AssignedTableShardResult :=
  let '(infos, sizeSum, kpsSum, totalShardList) :=
    foldl (λ '(infos, sizeSum, kpsSum, totalShardList) shardList,
      let e := entry shardList in
      (infos ++ [e], u64 (sizeSum + are_SizeSum e), u64 (kpsSum + are_KpsSum e),
       totalShardList ++ as_ShardList shardList)) ([], 0, 0, []) assignedShardLists in
  mkAssignedTableShardResult
    (mkAssignedResultEntry sizeSum kpsSum (sort_Sort Z.ltb totalShardList)) infos.

Definition assignShardListBySize (db : DB) (mm : ShardMetricsManager)
    (param : AssignShardListParams) : go AssignedTableShardResult :=
  let '(tableShardSize, tableShardKps) :=
    GetTableShardSizeAndKps db mm (asp_DatabaseName param) (asp_TableName param) in
  assignedShardLists ← assignShardListByMetric (asp_AssignedListNum param) tableShardSize;
  mret (collect_entries (λ shardList,
    mkAssignedResultEntry (as_MetricSum shardList)
      (sum_metric tableShardKps (as_ShardList shardList)) (as_ShardList shardList))
    assignedShardLists).

Definition assignShardListByKps (db : DB) (mm : ShardMetricsManager)
    (param : AssignShardListParams) : go AssignedTableShardResult :=
  let '(tableShardSize, tableShardKps) :=
    GetTableShardSizeAndKps db mm (asp_DatabaseName param) (asp_TableName param) in
  assignedShardLists ← assignShardListByMetric (asp_AssignedListNum param) tableShardKps;
  mret (collect_entries (λ shardList,
    mkAssignedResultEntry (sum_metric tableShardSize (as_ShardList shardList))
      (as_MetricSum shardList) (as_ShardList shardList)) assignedShardLists).

Definition AssignTableShardList (db : DB) (mm : ShardMetricsManager)
    (param : AssignShardListParams) : go (AssignedTableShardResult * Status) :=
  let tableShardList := GetTableShardList db (asp_DatabaseName param) (asp_TableName param) in
  if Z.ltb (u32 (Z.of_nat (length tableShardList))) (asp_AssignedListNum param)
  then mret (AssignedTableShardResult_zero, StatusError AssignTableShardListNumTooLarge)
  else
    result ← (if Z.eqb (asp_Type param) AssignByShardSize then assignShardListBySize db mm param
              else if Z.eqb (asp_Type param) AssignByShardKps then assignShardListByKps db mm param
              else if Z.eqb (asp_Type param) AssignByShardNum then assignShardListByNum db mm param
              else mret AssignedTableShardResult_zero);
    mret (result, StatusOk).
End Assigner.

(** ** Lemmas *)

Section Lemmas.
Context `{CityHash} `{MapOrder} `{GoSort} {DB : Type} `{ControlDb DB}.
Implicit Types (lists : list AssignedShardList) (m : gmap Z Z).

(** *** Greedy assignment *)

(** All the shards in a list of lists, and all their weight. *)
Definition shards_of lists : list Z := lists ≫= as_ShardList.
Definition weight_of lists : Z := sum_values (as_MetricSum <$> lists).

(** No list is heavier than another by more than any one of its shards: moving a
    shard helps nobody. *)
Definition balanced m lists : Prop := ∀ a b s,
  a ∈ lists → b ∈ lists → s ∈ as_ShardList a →
  as_MetricSum a - metric_of m s ≤ as_MetricSum b.

(** A list weighs what its shards weigh. *)
Definition weighed m (a : AssignedShardList) : Prop :=
  as_MetricSum a = sum_values (metric_of m <$> as_ShardList a).

Record greedy_inv m (n : nat) (placed : list Z) lists : Prop := {
  gi_length : length lists = n;
  gi_shards : shards_of lists ≡ₚ placed;
  gi_weighed : Forall (weighed m) lists;
  gi_nonneg : Forall (λ a, 0 ≤ as_MetricSum a) lists;
  gi_balanced : balanced m lists
}.

Lemma greedy_inv_perm m n placed lists lists' :
  lists' ≡ₚ lists → greedy_inv m n placed lists → greedy_inv m n placed lists'.
Proof.
  intros Hp [Hl Hs Hw Hn Hb]. split.
  - by rewrite Hp.
  - unfold shards_of in *. by rewrite Hp.
  - by rewrite Hp.
  - by rewrite Hp.
  - intros a b s. rewrite Hp. apply Hb.
Qed.

Lemma weight_placed m n placed lists :
  greedy_inv m n placed lists → weight_of lists = sum_values (metric_of m <$> placed).
Proof.
  intros [_ Hs Hw _ _]. rewrite <- Hs. unfold weight_of, shards_of. clear Hs.
  induction Hw as [|a l Ha Hl IH]; [done|]. cbn [fmap list_fmap mbind list_bind].
  rewrite fmap_app, sum_values_app, <- IH, <- Ha. done.
Qed.

(** The lightest list takes a shard no heavier than those placed before. *)
Lemma greedy_step m n placed a rest p :
  greedy_inv m n placed (a :: rest) →
  (∀ b, b ∈ a :: rest → as_MetricSum a ≤ as_MetricSum b) →
  0 ≤ metric_of m (pair_key p) → pair_value p = metric_of m (pair_key p) →
  (∀ s, s ∈ placed → pair_value p ≤ metric_of m s) →
  as_MetricSum a + pair_value p < 2 ^ 64 →
  greedy_inv m n (placed ++ [pair_key p])
    (mkAssignedShardList (u64 (as_MetricSum a + pair_value p))
       (as_ShardList a ++ [pair_key p]) :: rest).
Proof.
  intros [Hl Hs Hw Hn Hb] Hmin Hpos Hp Hge Hlt.
  apply Forall_cons in Hw as [Hwa Hw]. apply Forall_cons in Hn as [Hna Hn].
  rewrite wrapu_small by lia.
  assert (∀ s, s ∈ as_ShardList a → pair_value p ≤ metric_of m s) as Hpa.
  { intros s Hin. apply Hge. rewrite <- Hs. cbn. apply elem_of_app. by left. }
  split; [done| | | |].
  - unfold shards_of in *. cbn [mbind list_bind as_ShardList] in *.
    rewrite <- Hs, <- !(assoc_L (++)). apply Permutation_app_head, (comm (++)).
  - constructor; [|done]. unfold weighed in *. cbn [as_MetricSum as_ShardList].
    rewrite fmap_app, sum_values_app, <- Hwa. cbn. lia.
  - constructor; [cbn; lia|done].
  - intros x y s [->|Hx]%elem_of_cons [->|Hy]%elem_of_cons Hin; cbn [as_MetricSum as_ShardList] in *.
    + apply elem_of_app in Hin as [Hin| ->%list_elem_of_singleton]; [|lia].
      specialize (Hpa s Hin). lia.
    + pose proof (Hmin y (list_elem_of_further _ _ _ Hy)).
      apply elem_of_app in Hin as [Hin| ->%list_elem_of_singleton]; [|lia].
      specialize (Hpa s Hin). lia.
    + pose proof (Hb x a s (list_elem_of_further _ _ _ Hx) (list_elem_of_here _ _) Hin). lia.
    + by apply Hb; [right|right|].
Qed.

Lemma AssignedShardLists_Less_weak : weak_order AssignedShardLists_Less.
Proof. apply (weak_order_by as_MetricSum). Qed.

Lemma assign_pair_inv m n placed lists p :
  greedy_inv m n placed lists → (0 < n)%nat →
  0 ≤ metric_of m (pair_key p) → pair_value p = metric_of m (pair_key p) →
  (∀ s, s ∈ placed → pair_value p ≤ metric_of m s) →
  sum_values (metric_of m <$> placed) + pair_value p < 2 ^ 64 →
  ∃ lists', assign_pair lists p = Ret lists' ∧ greedy_inv m n (placed ++ [pair_key p]) lists'.
Proof.
  intros Hi Hn Hpos Hp Hge Hlt. unfold assign_pair.
  pose proof (sort_Sort_perm AssignedShardLists_Less lists) as Hperm.
  pose proof (sort_Sort_sorted AssignedShardLists_Less lists AssignedShardLists_Less_weak) as Hs.
  apply (greedy_inv_perm _ _ _ _ _ Hperm) in Hi. destruct sort_Sort as [|a rest].
  { destruct Hi as [Hl _ _ _ _]. cbn in Hl. lia. }
  eexists. split; [done|]. apply greedy_step; try done.
  - intros b Hb. pose proof (sorted_head _ _ _ b Hs AssignedShardLists_Less_weak Hb) as Hle.
    unfold AssignedShardLists_Less in Hle. b2p. done.
  - pose proof (weight_placed _ _ _ _ Hi) as Hw. unfold weight_of in Hw.
    assert (as_MetricSum a ≤ sum_values (as_MetricSum <$> a :: rest)); [|lia].
    apply sum_values_elem; [|by left]. apply Forall_fmap, Hi.
Qed.

(** The pairs of the map, heaviest first. *)
Record heaviest_first m (pairs : list Pair) : Prop := {
  hf_value p : p ∈ pairs → pair_value p = metric_of m (pair_key p) ∧ 0 ≤ pair_value p;
  hf_sorted : sorted (sort_Reverse PairList_Less) pairs
}.

Lemma greedy_loop m n pairs placed lists :
  heaviest_first m pairs → (0 < n)%nat → greedy_inv m n placed lists →
  (∀ s p, s ∈ placed → p ∈ pairs → pair_value p ≤ metric_of m s) →
  sum_values (metric_of m <$> placed ++ (pair_key <$> pairs)) < 2 ^ 64 →
  ∃ lists', go_fold assign_pair pairs lists = Ret lists' ∧
    greedy_inv m n (placed ++ (pair_key <$> pairs)) lists'.
Proof.
  intros [Hv Hs] Hn. revert placed lists.
  induction pairs as [|p pairs IH]; intros placed lists Hi Hge Hlt.
  { exists lists. cbn. by rewrite app_nil_r. }
  destruct (Hv p (list_elem_of_here _ _)) as [Hp Hpos].
  apply StronglySorted_inv in Hs as [Hs Hhead].
  assert (0 ≤ sum_values (metric_of m <$> (pair_key <$> pairs))) as Hrest.
  { apply sum_values_nonneg. rewrite !Forall_fmap. apply Forall_forall. intros q Hq. cbn.
    destruct (Hv q) as [<- ?]; [by right|done]. }
  cbn [fmap list_fmap] in Hlt. rewrite fmap_app, sum_values_app in Hlt.
  cbn [fmap list_fmap sum_values foldr] in Hlt. fold (sum_values (metric_of m <$> (pair_key <$> pairs))) in Hlt.
  destruct (assign_pair_inv m n placed lists p) as (lists1 & E1 & Hi1); try done.
  - by rewrite <- Hp.
  - intros s Hin. apply Hge; [done|left].
  - lia.
  - cbn [go_fold]. rewrite E1. cbn [mbind go_bind fmap list_fmap].
    destruct (IH (λ q Hq, Hv q (list_elem_of_further _ _ _ Hq)) Hs
                (placed ++ [pair_key p]) lists1 Hi1) as (lists2 & E2 & Hi2).
    + intros s q Hin Hq. apply elem_of_app in Hin as [Hin| ->%list_elem_of_singleton].
      * apply Hge; [done|by right].
      * rewrite <- Hp. rewrite Forall_forall in Hhead. specialize (Hhead q Hq).
        unfold sort_Reverse, PairList_Less in Hhead. b2p. lia.
    + rewrite !fmap_app, !sum_values_app. cbn. lia.
    + exists lists2. split; [done|]. by rewrite <- (assoc_L (++)) in Hi2.
Qed.

Lemma map_pairs_heaviest m :
  map_Forall (λ _ v, 0 ≤ v) m →
  heaviest_first m (sort_Sort (sort_Reverse PairList_Less) ((λ '(k, v), mkPair k v) <$> map_range m)).
Proof.
  intros Hpos. split.
  - intros p. rewrite sort_Sort_perm, list_elem_of_fmap. intros ([k v] & -> & Hin).
    apply elem_of_map_range in Hin. cbn. unfold metric_of. rewrite Hin. cbn.
    split; [done|]. by apply (Hpos k).
  - apply sort_Sort_sorted, weak_order_reverse, (weak_order_by pair_value).
Qed.

Lemma greedy_inv_sort m n placed lists :
  greedy_inv m n placed lists → greedy_inv m n placed (sort_list <$> lists).
Proof.
  intros [Hl Hs Hw Hn Hb].
  split.
  - by rewrite length_fmap.
  - rewrite <- Hs. unfold shards_of. clear. induction lists as [|a l IH]; [done|]. cbn.
    by rewrite sort_Sort_perm, IH.
  - apply Forall_fmap. eapply Forall_impl; [exact Hw|]. intros a Ha.
    unfold weighed in *. cbn. rewrite Ha. by rewrite sort_Sort_perm.
  - by apply Forall_fmap.
  - intros a b s. rewrite !list_elem_of_fmap. intros (a' & -> & Ha) (b' & -> & Hb') Hin.
    cbn in *. rewrite sort_Sort_perm in Hin. by apply (Hb a' b' s).
Qed.

Lemma assignShardListByMetric_inv listNum m :
  0 < listNum → map_Forall (λ _ v, 0 ≤ v) m → sum_values (map_to_list m).*2 < 2 ^ 64 →
  ∃ lists, assignShardListByMetric listNum m = Ret lists ∧
    greedy_inv m (Z.to_nat listNum) (map_to_list m).*1 lists ∧
    Forall (λ a, StronglySorted Z.le (as_ShardList a)) lists.
Proof.
  intros Hn Hpos Hsum. unfold assignShardListByMetric.
  set (pairs := sort_Sort _ _).
  assert (pair_key <$> pairs ≡ₚ (map_to_list m).*1) as Hkeys.
  { unfold pairs. rewrite sort_Sort_perm, map_range_perm, <- list_fmap_compose.
    apply reflexive_eq, list_fmap_ext. by intros ? []. }
  assert (metric_of m <$> (map_to_list m).*1 = (map_to_list m).*2) as Hvals.
  { rewrite <- list_fmap_compose. apply list_fmap_ext. intros i [k v] Hi. cbn.
    apply list_elem_of_lookup_2, elem_of_map_to_list in Hi. unfold metric_of. by rewrite Hi. }
  destruct (greedy_loop m (Z.to_nat listNum) pairs []
              (replicate (Z.to_nat listNum) AssignedShardList_zero)) as (lists & -> & Hi).
  - by apply map_pairs_heaviest.
  - lia.
  - split.
    + apply length_replicate.
    + unfold shards_of. induction (Z.to_nat listNum); cbn; [done|auto].
    + by apply Forall_replicate.
    + by apply Forall_replicate.
    + intros a b s [-> _]%elem_of_replicate _ Hin. by apply elem_of_nil in Hin.
  - intros s p Hin. by apply elem_of_nil in Hin.
  - cbn [app]. by rewrite Hkeys, Hvals.
  - eexists. split; [done|]. cbn [app] in Hi. split.
    + apply greedy_inv_sort. destruct Hi as [Hl Hs Hw Hnn Hb]. split; try done. by rewrite Hs.
    + apply Forall_fmap, Forall_true. intros a. apply sorted_Z_le, sort_Sort_sorted, weak_order_Z.
Qed.

Lemma collect_entries_spec entry lists :
  atr_AssignedShardListInfos (collect_entries entry lists) = entry <$> lists ∧
  are_ShardList (atr_TotalShardListInfo (collect_entries entry lists)) =
    sort_Sort Z.ltb (shards_of lists).
Proof.
  unfold collect_entries. set (f := λ '(_, _, _, _) _, _).
  assert (∀ i x y t, ∃ x' y', foldl f (i, x, y, t) lists =
            (i ++ (entry <$> lists), x', y', t ++ shards_of lists)) as Hf.
  { induction lists as [|a l IH]; intros i x y t; cbn [foldl].
    - exists x, y. unfold shards_of. cbn. by rewrite !app_nil_r.
    - unfold f at 2. edestruct IH as (x' & y' & ->). exists x', y'.
      unfold shards_of. cbn. by rewrite <- !(assoc_L (++)). }
  destruct (Hf [] 0 0 []) as (x & y & ->). done.
Qed.

(** The numbers of a table are those of its shards, and none is negative. *)
Lemma GetTableShardSizeAndKps_metric db mm d t m :
  m = (GetTableShardSizeAndKps db mm d t).1 ∨ m = (GetTableShardSizeAndKps db mm d t).2 →
  map_Forall (λ _ v, 0 ≤ v) m ∧ ∀ s, is_Some (m !! s) → s ∈ GetTableShardList db d t.
Proof.
  rewrite GetTableShardSizeAndKps_sums. cbn [fst snd]. set (l := table_partitions _ _ _ _).
  assert (∀ s p, (s, p) ∈ l → s ∈ GetTableShardList db d t) as Hl.
  { unfold l, table_partitions. intros s p. rewrite list_elem_of_bind. intros ([g gm] & Hin & _).
    apply list_elem_of_bind in Hin as ([h nm] & Hin & _).
    apply list_elem_of_bind in Hin as (s' & (p' & [= -> ->] & _)%list_elem_of_fmap & Hin). done. }
  assert (∀ l' : list (Z * Z), (∀ s v, (s, v) ∈ l' → s ∈ GetTableShardList db d t) →
    map_Forall (λ _ v, 0 ≤ v) (map_add_all ∅ l') ∧
    ∀ s, is_Some (map_add_all ∅ l' !! s) → s ∈ GetTableShardList db d t) as Hall.
  { intros l' Hl'. split.
    - intros s v. rewrite lookup_map_add_all. destruct assoc_values; [done|].
      intros [= <-]. by apply wrapu_range.
    - intros s. rewrite lookup_map_add_all. destruct (assoc_values s l') as [|v vs] eqn:E; [by intros []|].
      intros _. apply (Hl' s v), elem_of_assoc_values. rewrite E. left. }
  intros [-> | ->]; apply Hall; intros s v; unfold leader_sizes, read_kps;
    rewrite list_elem_of_fmap; intros ([s' p] & [= -> ->] & Hin).
  - apply list_elem_of_filter in Hin as [_ Hin]. by apply (Hl s' p).
  - by apply (Hl s' p).
Qed.

(** *** Round robin *)

(** The elements of [l] that are dealt to hand [i] of [n]. *)
Lemma deal_snoc {A} (l : list A) (x : A) (n i q : nat) : (i < n)%nat →
  (l ++ [x]) !! (q * n + i)%nat =
    if decide (i = length l `mod` n)%nat
    then if decide (q = length l `div` n)%nat then Some x else l !! (q * n + i)%nat
    else l !! (q * n + i)%nat.
Proof.
  intros Hi. assert (q * n + i = length l ↔ i = length l `mod` n ∧ q = length l `div` n)%nat as Hq.
  { split.
    - intros <-. split; [apply (Nat.mod_unique _ _ q)|apply (Nat.div_unique _ _ _ i)]; lia.
    - intros [-> ->]. pose proof (Nat.div_mod (length l) n). lia. }
  destruct (decide (q * n + i = length l)%nat) as [E|E].
  - destruct (proj1 Hq E) as [-> ->]. rewrite !decide_True by done. rewrite E.
    by rewrite lookup_app_r, Nat.sub_diag by done.
  - assert ((l ++ [x]) !! (q * n + i)%nat = l !! (q * n + i)%nat) as ->.
    { destruct (decide (q * n + i < length l)%nat); [by rewrite lookup_app_l|].
      rewrite !lookup_ge_None_2; [done|lia|rewrite length_app; cbn; lia]. }
    repeat case_decide; naive_solver.
Qed.

(** An entry has the sums of its shards. *)
Definition entry_sums (size kps : gmap Z Z) (e : AssignedResultEntry) : Prop :=
  are_SizeSum e = u64 (sum_values (metric_of size <$> are_ShardList e)) ∧
  are_KpsSum e = u64 (sum_values (metric_of kps <$> are_ShardList e)).

(** [entries] are the hands of [l] dealt to as many. *)
Record dealt (size kps : gmap Z Z) (n : nat) (l : list Z)
    (entries : list AssignedResultEntry) : Prop := {
  dl_length : length entries = n;
  dl_hand i e q : entries !! i = Some e → are_ShardList e !! q = l !! (q * n + i)%nat;
  dl_sums : Forall (entry_sums size kps) entries
}.

Lemma entry_add_sums size kps s e :
  entry_sums size kps e →
  entry_sums size kps (entry_add (metric_of size s) (metric_of kps s) s e).
Proof.
  intros [Hs Hk]. unfold entry_sums, entry_add. cbn [are_SizeSum are_KpsSum are_ShardList].
  rewrite Hs, Hk, !fmap_app, !sum_values_app, !wrapu_add_l. cbn. by rewrite !Z.add_0_r.
Qed.

(** The next hand is as long as the rounds dealt before. *)
Lemma hand_length {A} (h l : list A) n i :
  (∀ q, h !! q = l !! (q * n + i)%nat) → (0 < n)%nat → (i = length l `mod` n)%nat →
  length h = (length l `div` n)%nat.
Proof.
  intros Hh Hn ->. pose proof (Nat.div_mod (length l) n ltac:(lia)) as Hd.
  assert (length h ≤ length l `div` n)%nat as Hle.
  { apply lookup_ge_None. rewrite Hh. apply lookup_ge_None. lia. }
  destruct (decide (length h = length l `div` n)%nat) as [|Hne]; [done|exfalso].
  assert (h !! length h = None) as Hnone by by apply lookup_ge_None.
  rewrite Hh in Hnone. apply lookup_ge_None in Hnone. nia.
Qed.

Lemma dealt_snoc size kps n l s entries e :
  dealt size kps n l entries → (0 < n)%nat → entries !! (length l `mod` n)%nat = Some e →
  dealt size kps n (l ++ [s])
    (<[(length l `mod` n)%nat := entry_add (metric_of size s) (metric_of kps s) s e]> entries).
Proof.
  intros [Hlen Hh Hs] Hn He. split.
  - by rewrite length_insert.
  - intros i e' q. rewrite list_lookup_insert_Some.
    intros [(<- & <- & Hlt)|[Hne He']].
    + rewrite deal_snoc, decide_True by (done || by apply Nat.mod_upper_bound; lia). cbn.
      pose proof (hand_length (are_ShardList e) l n (length l `mod` n)
                    (λ q, Hh _ e q He) Hn eq_refl) as Hlh.
      rewrite <- Hlh. case_decide as Hq.
      * subst q. by rewrite lookup_app_r, Nat.sub_diag by done.
      * rewrite <- (Hh _ e q He). destruct (decide (q < length (are_ShardList e))%nat).
        -- by rewrite lookup_app_l.
        -- rewrite !lookup_ge_None_2; [done|lia|rewrite length_app; cbn; lia].
    + apply lookup_lt_Some in He' as Hi. rewrite deal_snoc, decide_False by (lia || done).
      by apply Hh.
  - apply Forall_insert; [done|]. apply entry_add_sums.
    rewrite Forall_lookup in Hs. by apply (Hs _ _ He).
Qed.

Lemma num_loop listNum size kps l pre entries total :
  0 < listNum → Z.of_nat (length (pre ++ l)) < 2 ^ 32 →
  dealt size kps (Z.to_nat listNum) pre entries →
  ∃ entries' total', go_fold (num_step listNum size kps) l
      (entries, total, Z.of_nat (length pre)) =
        Ret (entries', total', Z.of_nat (length (pre ++ l))) ∧
    dealt size kps (Z.to_nat listNum) (pre ++ l) entries' ∧
    are_SizeSum total' = foldl (λ t s, u64 (t + metric_of size s)) (are_SizeSum total) l ∧
    are_KpsSum total' = foldl (λ t s, u64 (t + metric_of kps s)) (are_KpsSum total) l.
Proof.
  intros Hn. revert pre entries total. induction l as [|s l IH]; intros pre entries total Hlen Hd.
  { exists entries, total. by rewrite app_nil_r. }
  set (i := (length pre `mod` Z.to_nat listNum)%nat).
  assert (i < Z.to_nat listNum)%nat as Hi by (apply Nat.mod_upper_bound; lia).
  destruct (lookup_lt_is_Some_2 entries i) as [e He].
  { by rewrite (dl_length _ _ _ _ _ Hd). }
  assert (Z.rem (Z.of_nat (length pre)) listNum = Z.of_nat i) as Hrem.
  { unfold i. rewrite Nat2Z.inj_mod, Z2Nat.id by lia. apply Z.rem_mod_nonneg; lia. }
  cbn [go_fold num_step]. unfold go_rem.
  destruct (Z.eqb_spec listNum 0); [lia|]. cbn [mbind go_bind]. rewrite Hrem.
  rewrite (go_index_Some _ _ e), Nat2Z.id by (lia || by rewrite Nat2Z.id). cbn [mbind go_bind].
  rewrite length_app in Hlen. cbn [length] in Hlen.
  rewrite (wrapu_small 32 (Z.of_nat (length pre) + 1)) by lia. cbn [mret go_ret].
  replace (Z.of_nat (length pre) + 1) with (Z.of_nat (length (pre ++ [s])))
    by (rewrite length_app; cbn; lia).
  change (pre ++ s :: l) with (pre ++ [s] ++ l). rewrite (assoc_L (++)).
  cbv [mret go_ret mbind go_bind]. cbv beta iota.
  edestruct IH as (entries' & total' & -> & Hd' & Hsz & Hk); last first.
  - exists entries', total'. split; [done|]. split; [done|]. by rewrite Hsz, Hk.
  - apply dealt_snoc; [done|lia|done].
  - rewrite !length_app. cbn. lia.
Qed.
End Lemmas.

(** ** Properties *)

Section Properties.
Context `{CityHash} `{MapOrder} `{GoSort} `{Runtime} {DB : Type} `{ControlDb DB}.
Implicit Types (m : gmap Z Z).

(** C21: splitting by a metric.  With at least one list and a total that fits an
    [uint64], [assignShardListByMetric] returns, for every sorting algorithm and
    every order of the map, the asked number of lists, in ascending order each;
    every shard of the map is in exactly one of them, every list has the sum of
    its shards, and none is heavier than another by more than its lightest shard:
    moving one shard improves nothing. *)
Theorem assignShardListByMetric_balanced listNum m :
  0 < listNum → map_Forall (λ _ v, 0 ≤ v) m → sum_values (map_to_list m).*2 < 2 ^ 64 →
  ∃ lists, assignShardListByMetric listNum m = Ret lists ∧
    length lists = Z.to_nat listNum ∧
    (lists ≫= as_ShardList) ≡ₚ (map_to_list m).*1 ∧
    (∀ a, a ∈ lists → StronglySorted Z.le (as_ShardList a) ∧
       as_MetricSum a = sum_values (metric_of m <$> as_ShardList a)) ∧
    (∀ a b s, a ∈ lists → b ∈ lists → s ∈ as_ShardList a →
       as_MetricSum a - metric_of m s ≤ as_MetricSum b).
Proof.
  intros Hn Hpos Hsum.
  destruct (assignShardListByMetric_inv listNum m Hn Hpos Hsum)
    as (lists & E & [Hl Hs Hw _ Hb] & Hso).
  exists lists. split_and!; [done|done|exact Hs| |exact Hb].
  intros a Ha. rewrite Forall_forall in Hw, Hso. split; [auto|]. by apply Hw.
Qed.

(** Splitting by number.  [AssignTableShardList] by number deals the table's
    shards, sorted, round the lists: the [q]-th shard of list [i] is the shard at
    [q * n + i], so that every shard is in one list and the lists' lengths differ by
    one at most; every list has the sums of its shards.  With more lists than
    shards it is refused. *)
Theorem AssignTableShardList_by_number db mm param :
  let shards := GetTableShardList db (asp_DatabaseName param) (asp_TableName param) in
  let '(size, kps) := GetTableShardSizeAndKps db mm (asp_DatabaseName param) (asp_TableName param) in
  let n := asp_AssignedListNum param in
  asp_Type param = AssignByShardNum → 0 < n → Z.of_nat (length shards) < 2 ^ 32 →
  if decide (Z.of_nat (length shards) < n)
  then AssignTableShardList db mm param =
         Ret (AssignedTableShardResult_zero, StatusError AssignTableShardListNumTooLarge)
  else ∃ r, AssignTableShardList db mm param = Ret (r, StatusOk) ∧
    are_ShardList (atr_TotalShardListInfo r) = sort_Sort Z.ltb shards ∧
    length (atr_AssignedShardListInfos r) = Z.to_nat n ∧
    (∀ i e, atr_AssignedShardListInfos r !! i = Some e →
       (∀ q, are_ShardList e !! q = sort_Sort Z.ltb shards !! (q * Z.to_nat n + i)%nat) ∧
       are_SizeSum e = u64 (sum_values (metric_of size <$> are_ShardList e)) ∧
       are_KpsSum e = u64 (sum_values (metric_of kps <$> are_ShardList e))).
Proof.
  intros shards. destruct (GetTableShardSizeAndKps _ _ _ _) as [size kps] eqn:Em.
  intros n Ht Hn Hlen. unfold AssignTableShardList. fold shards. fold n.
  rewrite wrapu_small by lia. case_decide as Hd; destruct (Z.ltb_spec (Z.of_nat (length shards)) n); try lia; [done|].
  rewrite Ht. cbn [Z.eqb AssignByShardNum AssignByShardSize AssignByShardKps Pos.eqb].
  unfold assignShardListByNum. rewrite Em. fold shards. fold n.
  destruct (num_loop n size kps (sort_Sort Z.ltb shards) []
              (replicate (Z.to_nat n) AssignedResultEntry_zero) AssignedResultEntry_zero)
    as (entries & total & E & Hdealt & _); [done|by rewrite sort_Sort_perm| |].
  { split; [apply length_replicate| |by apply Forall_replicate].
    intros i e q [-> _]%lookup_replicate. by rewrite !lookup_nil. }
  change (Z.of_nat (length [])) with 0 in E. rewrite E.
  cbn [mbind go_bind mret go_ret app]. eexists. split; [done|]. cbn.
  destruct Hdealt as [Hl Hh Hs]. split; [done|]. split; [done|]. intros i e He. split.
  - intros q. by apply Hh.
  - rewrite Forall_lookup in Hs. apply (Hs i e He).
Qed.

(** Splitting by size or read load.  The split is over the shards the cache has
    numbers for, which are shards of the table; a shard of the table without any is
    in no list, although the status is [OK] and the lists balance. *)
Theorem AssignTableShardList_by_metric db mm param :
  let shards := GetTableShardList db (asp_DatabaseName param) (asp_TableName param) in
  let '(size, kps) := GetTableShardSizeAndKps db mm (asp_DatabaseName param) (asp_TableName param) in
  let n := asp_AssignedListNum param in
  let m := if Z.eqb (asp_Type param) AssignByShardSize then size else kps in
  asp_Type param = AssignByShardSize ∨ asp_Type param = AssignByShardKps →
  0 < n ≤ Z.of_nat (length shards) → Z.of_nat (length shards) < 2 ^ 32 →
  sum_values (map_to_list m).*2 < 2 ^ 64 →
  ∃ r, AssignTableShardList db mm param = Ret (r, StatusOk) ∧
    length (atr_AssignedShardListInfos r) = Z.to_nat n ∧
    (atr_AssignedShardListInfos r ≫= are_ShardList) ≡ₚ (map_to_list m).*1 ∧
    are_ShardList (atr_TotalShardListInfo r) ≡ₚ (map_to_list m).*1 ∧
    (∀ s, is_Some (m !! s) → s ∈ shards).
Proof.
  intros shards. destruct (GetTableShardSizeAndKps _ _ _ _) as [size kps] eqn:Em.
  intros n m Ht Hn Hlen Hsum.
  destruct (GetTableShardSizeAndKps_metric db mm (asp_DatabaseName param) (asp_TableName param) m)
    as [Hpos Hin].
  { rewrite Em. unfold m. case_match; auto. }
  destruct (assignShardListByMetric_inv n m ltac:(lia) Hpos Hsum) as (lists & E & Hi & _).
  set (entry := if Z.eqb (asp_Type param) AssignByShardSize
                then λ a, mkAssignedResultEntry (as_MetricSum a) (sum_metric kps (as_ShardList a)) (as_ShardList a)
                else λ a, mkAssignedResultEntry (sum_metric size (as_ShardList a)) (as_MetricSum a) (as_ShardList a)).
  exists (collect_entries entry lists). destruct (collect_entries_spec entry lists) as [He Hts].
  split_and!; [| | | |done].
  - unfold AssignTableShardList. fold shards n. rewrite wrapu_small by lia.
    destruct (Z.ltb_spec (Z.of_nat (length shards)) n); [lia|].
    unfold assignShardListBySize, assignShardListByKps. rewrite Em. fold n. revert E.
    subst m entry. destruct Ht as [-> | ->]; cbn; intros ->; done.
  - rewrite He, length_fmap. apply Hi.
  - rewrite He, <- (gi_shards _ _ _ _ Hi). unfold shards_of.
    assert (∀ a, are_ShardList (entry a) = as_ShardList a) as Hent by (unfold entry; by case_match).
    clear -Hent. induction lists as [|a l IH]; [done|]. cbn. by rewrite Hent, IH.
  - rewrite Hts, sort_Sort_perm. apply Hi.
Qed.
End Properties.

(** *** Concrete runs *)

#[local] Existing Instances toy_city stdpp_order merge_sorting main_go rows_db.

Lemma assignShardListByMetric_balanced_witness :
  ∃ lists, assignShardListByMetric 2 {[1 := 7; 2 := 3; 3 := 5]} = Ret lists ∧ length lists = 2%nat.
Proof.
  destruct (assignShardListByMetric_balanced 2 {[1 := 7; 2 := 3; 3 := 5]}) as (lists & E & Hl & _).
  - lia.
  - apply (bool_decide_unpack _). vm_compute. exact I.
  - vm_compute. reflexivity.
  - exists lists. split; [exact E|exact Hl].
Defined.

(** A table with eight partitions in a cluster of four shards. *)
Definition table_row : Table :=
  mkTable 1 "t" (Some 1) (Some 0) 8 (Some 0) "" 1 Dc_zero 1 Dc_zero 1 1
    (mkLaserDatabase 1 "db" "" 0) TableConfig_zero None [] [] 0.

Definition one_table : Rows := mkRows [mkCluster 1 "c" "" 4 "" [] 0] [] [] [] [table_row].

Lemma AssignTableShardList_by_number_witness :
  let param := mkAssignShardListParams "db" "t" AssignByShardNum 2 in
  ∃ r, AssignTableShardList one_table GetShardMetricsManager param = Ret (r, StatusOk) ∧
    length (atr_AssignedShardListInfos r) = 2%nat.
Proof.
  intros param.
  pose proof (AssignTableShardList_by_number one_table GetShardMetricsManager param) as Hp.
  cbv zeta in Hp. destruct (GetTableShardSizeAndKps _ _ _ _) as [size kps].
  specialize (Hp eq_refl ltac:(cbn; lia) ltac:(vm_compute; reflexivity)).
  rewrite decide_False in Hp by (vm_compute; discriminate).
  destruct Hp as (r & E & _ & Hl & _). exists r. split; [exact E|exact Hl].
Defined.

Lemma AssignTableShardList_by_metric_witness :
  let param := mkAssignShardListParams "db" "t" AssignByShardSize 2 in
  ∃ r, AssignTableShardList one_table GetShardMetricsManager param = Ret (r, StatusOk) ∧
    (atr_AssignedShardListInfos r ≫= are_ShardList) ≡ₚ [].
Proof.
  intros param.
  pose proof (AssignTableShardList_by_metric one_table GetShardMetricsManager param) as Hp.
  cbv zeta in Hp. change (GetTableShardSizeAndKps one_table GetShardMetricsManager _ _)
    with ((∅, ∅) : gmap Z Z * gmap Z Z) in Hp. cbn [Z.eqb] in Hp.
  destruct Hp as (r & E & _ & Hs & _).
  - by left.
  - vm_compute. split; [reflexivity|discriminate].
  - vm_compute. reflexivity.
  - vm_compute. reflexivity.
  - exists r. split; [exact E|exact Hs].
Defined.
