(* ===== verification/StatusManager.v ===== *)
(** * The status of the shards ([control/service/shard_status.go])

    [ShardStatusManager] takes the shards of its nodes from the metrics cache,
    relates the followers of a shard to its leader and says for each follower
    whether it has one and, by the rule of [no_diff], whether there is no
    difference to it. *)

From S2P Require Import Prelude RouterTypes Partition Registry GoLib Doubles ControlData ShardMetrics.

(** ** Data *)

Definition DefaultDiffRate : Z := 3.
Definition DefaultDiffSeqNumbers : Z := 1000.

(** [ShardState]. *)
Definition LeaderStatus : Z := 1.
Definition LeaderTempStatus : Z := 2.
Definition FollowerStatus : Z := 3.
Definition FollowerCreateStatus : Z := 4.
Definition FollowerDeleteStatus : Z := 5.

Record ShardStatus := mkShardStatus {
  sst_ShardId : Z;
  sst_GroupName : string;
  sst_NodeId : Z;
  sst_Role : Z;
  sst_SeqNo : Z;
  sst_BaseVersionHash : Z;
  sst_ServiceState : Z;
  sst_ShardHash : string;
  sst_NoDiff : bool;
  sst_HasLeader : bool
}.
Definition ShardStatus_zero : ShardStatus := mkShardStatus 0 "" 0 0 0 0 0 "" false false.

#[export] Instance ShardStatus_eq_dec : EqDecision ShardStatus.
Proof. solve_decision. Defined.

Definition set_NoDiff (b : bool) (s : ShardStatus) : ShardStatus :=
  mkShardStatus (sst_ShardId s) (sst_GroupName s) (sst_NodeId s) (sst_Role s) (sst_SeqNo s)
    (sst_BaseVersionHash s) (sst_ServiceState s) (sst_ShardHash s) b (sst_HasLeader s).

Definition set_HasLeader (b : bool) (s : ShardStatus) : ShardStatus :=
  mkShardStatus (sst_ShardId s) (sst_GroupName s) (sst_NodeId s) (sst_Role s) (sst_SeqNo s)
    (sst_BaseVersionHash s) (sst_ServiceState s) (sst_ShardHash s) (sst_NoDiff s) b.

Record NodeHostInfo := mkNodeHostInfo {
  nh_GroupName : string;
  nh_NodeId : Z;
  nh_Host : string;
  nh_Port : Z
}.

Record ShardRelation := mkShardRelation {
  sr_Leader : string;
  sr_Follower : list string
}.

Record ShardStatusManager := mkShardStatusManager {
  sm_shards : gmap string ShardStatus;
  sm_shardRelations : gmap Z ShardRelation;
  sm_nodes : gmap Z NodeHostInfo;
  sm_ttlMs : Z
}.

Definition NewShardStatusManager : ShardStatusManager := mkShardStatusManager ∅ ∅ ∅ 5000.

(** ** Operations *)

Section Manager.
Context `{CityHash} `{MapOrder}.
Implicit Types sm : ShardStatusManager.

Definition getNodeHash (node : NodeHostInfo) : Z := GetNodeHash (nh_GroupName node) (nh_NodeId node).

Definition set_nodes (nodes : gmap Z NodeHostInfo) sm : ShardStatusManager :=
  mkShardStatusManager (sm_shards sm) (sm_shardRelations sm) nodes (sm_ttlMs sm).

Definition SetNodes (nodes : list NodeHostInfo) sm : ShardStatusManager :=
  set_nodes (foldl (λ m node, <[getNodeHash node := node]> m) ∅ nodes) sm.

Definition AddNodes (nodes : list NodeHostInfo) sm : ShardStatusManager :=
  set_nodes (foldl (λ m node, <[getNodeHash node := node]> m) (sm_nodes sm) nodes) sm.

Definition DeleteNodes (nodes : list NodeHostInfo) sm : ShardStatusManager :=
  set_nodes (foldl (λ m node, delete (getNodeHash node) m) (sm_nodes sm) nodes) sm.

(** Both maps are copied through JSON with the lock held. *)
Definition GetShardStatus {jsonShards : Json (gmap string ShardStatus)}
    {jsonRelations : Json (gmap Z ShardRelation)} sm
  : gmap string ShardStatus * gmap Z ShardRelation :=
  (json_copy (sm_shards sm) ∅, json_copy (sm_shardRelations sm) ∅).

Definition UpdateDone sm : bool := false.

(** *** Processing the shards of the nodes *)

(** The first loop: the statuses of each shard, and all of them by hash. *)
Definition collect_shards (shards : gmap Z (gmap Z ShardStatus))
  : gmap Z (list ShardStatus) * gmap string ShardStatus :=
  foldl (λ acc nodeShards,
    foldl (λ acc entry,
      (map_append acc.1 entry.1 entry.2, <[sst_ShardHash entry.2 := entry.2]> acc.2))
      acc (map_range nodeShards.2))
    (∅, ∅) (map_range shards).

(** The second: the leader and the followers of a shard. *)
Definition relation_of (shardList : list ShardStatus) : ShardRelation :=
  foldl (λ relationInfo shard,
    if Z.eqb (sst_Role shard) Leader
    then mkShardRelation (sst_ShardHash shard) (sr_Follower relationInfo)
    else mkShardRelation (sr_Leader relationInfo) (sr_Follower relationInfo ++ [sst_ShardHash shard]))
    (mkShardRelation "" []) shardList.

Definition relations_of (shardVector : gmap Z (list ShardStatus)) : gmap Z ShardRelation :=
  foldl (λ shardRelations kv, <[kv.1 := relation_of kv.2]> shardRelations) ∅ (map_range shardVector).

(** The flag [NoDiff] of a follower that has a leader, on [uint64] and [float64]:
    set where the base versions differ, and otherwise where the difference of the
    sequence numbers, taken on [uint64] before [math.Abs], is below a rate or a
    number. *)
Definition no_diff (leaderShard shardStatus : ShardStatus) : bool :=
  if negb (Z.eqb (sst_BaseVersionHash shardStatus) (sst_BaseVersionHash leaderShard)) then true
  else
    let diffValue := SFabs (f64_of_Z (u64 (sst_SeqNo shardStatus - sst_SeqNo leaderShard))) in
    let diffRate := f64_mul (f64_div diffValue (f64_of_Z (u64 (sst_SeqNo shardStatus + 1))))
                      (f64_of_Z 100) in
    (SFleb diffRate (f64_of_Z DefaultDiffRate) ||
     SFltb diffValue (f64_of_Z DefaultDiffSeqNumbers))%bool.

(** What the third loop makes of a follower. *)
Definition mark_follower (leaderShard : option ShardStatus) (shardStatus : ShardStatus) : ShardStatus :=
  match leaderShard with
  | None => set_HasLeader false shardStatus
  | Some leader => set_HasLeader true (set_NoDiff (no_diff leader shardStatus) shardStatus)
  end.

Definition mark_relation (shardCollections : gmap string ShardStatus) (relation : ShardRelation)
  : gmap string ShardStatus :=
  let leaderShard := shardCollections !! sr_Leader relation in
  foldl (λ m shardHash,
    <[shardHash := mark_follower leaderShard (default ShardStatus_zero (m !! shardHash))]> m)
    shardCollections (sr_Follower relation).

Definition processShards (shards : gmap Z (gmap Z ShardStatus)) sm : ShardStatusManager :=
  let '(shardVector, shardCollections) := collect_shards shards in
  let shardRelations := relations_of shardVector in
  let shardCollections :=
    foldl (λ m kv, mark_relation m kv.2) shardCollections (map_range shardRelations) in
  mkShardStatusManager shardCollections shardRelations (sm_nodes sm) (sm_ttlMs sm).

(** The shards of one node in the cache. *)
Definition node_shards (nodeBasicInfo : NodeBasicInfo) (nodeMetricsInfo : gmap string ShardInfo)
  : gmap Z ShardStatus :=
  foldl (λ nodeShardInfo '(shardHash, info),
    <[si_ShardId info :=
        mkShardStatus (si_ShardId info) (nb_GroupName nodeBasicInfo) (nb_NodeId nodeBasicInfo)
          (si_Role info) (si_SeqNo info) (si_BaseVersionHash info) (si_ServiceState info)
          shardHash false false]> nodeShardInfo) ∅ (map_range nodeMetricsInfo).

Definition syncShardList {jsonNode : Json NodeBasicInfo} {jsonInfo : Json (gmap string ShardInfo)}
    (mm : ShardMetricsManager) sm : ShardStatusManager :=
  let shards := foldl (λ shards '(nodeHash, node),
    let '(nodeBasicInfo, nodeMetricsInfo) :=
      GetNodeShardInfo mm (nh_GroupName node) (nh_NodeId node) in
    <[nodeHash := node_shards nodeBasicInfo nodeMetricsInfo]> shards) ∅ (map_range (sm_nodes sm)) in
  processShards shards sm.
End Manager.

(** ** Lemmas *)

Section Lemmas.
Context `{CityHash} `{MapOrder}.

(** Every status with the shard it is filed under, in the order of the loops. *)
Definition shard_entries (shards : gmap Z (gmap Z ShardStatus)) : list (Z * ShardStatus) :=
  map_range shards ≫= λ nodeShards, map_range nodeShards.2.

Lemma collect_shards_entries shards :
  collect_shards shards =
    (map_append_all ∅ (shard_entries shards),
     foldl (λ m kv, <[sst_ShardHash kv.2 := kv.2]> m) ∅ (shard_entries shards)).
Proof.
  unfold collect_shards. rewrite foldl_bind.
  apply (foldl_pair (λ m kv, map_append m kv.1 kv.2) (λ m kv, <[sst_ShardHash kv.2 := kv.2]> m)).
Qed.

(** The followers and a leader of a shard. *)
Lemma relation_of_spec l :
  sr_Follower (relation_of l) = sst_ShardHash <$> filter (λ s, sst_Role s ≠ Leader) l ∧
  match last (filter (λ s, sst_Role s = Leader) l) with
  | Some s => sr_Leader (relation_of l) = sst_ShardHash s
  | None => sr_Leader (relation_of l) = ""
  end.
Proof.
  unfold relation_of. induction l as [|s l [IH1 IH2]] using rev_ind; [done|].
  rewrite foldl_app, !filter_app, fmap_app, last_app, <- IH1. cbn [foldl].
  destruct (Z.eqb_spec (sst_Role s) Leader) as [E|E]; cbn [sr_Follower sr_Leader].
  - rewrite !filter_cons, !filter_nil, (decide_False (P:=sst_Role s ≠ Leader)), decide_True by auto.
    cbn. by rewrite app_nil_r.
  - rewrite !filter_cons, !filter_nil, (decide_True (P:=sst_Role s ≠ Leader)), decide_False by auto.
    cbn. done.
Qed.

Lemma relations_of_fmap v : relations_of v = relation_of <$> v.
Proof. apply foldl_insert_fmap. Qed.

(** Collecting statuses with distinct hashes. *)
Lemma collected_lookup (l : list (Z * ShardStatus)) h st :
  NoDup ((λ e, sst_ShardHash e.2) <$> l) →
  (foldl (λ m kv, <[sst_ShardHash kv.2 := kv.2]> m) ∅ l : gmap string ShardStatus) !! h = Some st ↔
  sst_ShardHash st = h ∧ ∃ id, (id, st) ∈ l.
Proof.
  induction l as [|[id0 st0] l IH] using rev_ind; intros Hnd; cbn [foldl].
  { rewrite lookup_empty. split; [done|]. by intros (_ & id & Hin%elem_of_nil). }
  rewrite fmap_app in Hnd. apply NoDup_app in Hnd as (Hnd & Hdisj & _).
  rewrite foldl_app. cbn [foldl snd]. rewrite lookup_insert_Some, (IH Hnd). split.
  - intros [[<- <-]|[Hne (Hh & id & Hin)]]; [split; [done|]; exists id0|split; [done|]; exists id];
      set_solver.
  - intros (Hh & id & [Hin|Hin]%elem_of_app).
    + right. split; [|split; [done|by exists id]]. intros <-.
      apply (Hdisj (sst_ShardHash st)); [|rewrite Hh; left].
      by apply (list_elem_of_fmap_2 (λ e, sst_ShardHash e.2) l (id, st)).
    + apply list_elem_of_singleton in Hin as [= <- <-]. auto.
Qed.

(** Marking followers with distinct hashes marks each once. *)
Lemma mark_all (f : string → ShardStatus → ShardStatus) (hs : list string)
    (m : gmap string ShardStatus) h :
  NoDup hs →
  foldl (λ m h, <[h := f h (default ShardStatus_zero (m !! h))]> m) m hs !! h =
    if decide (h ∈ hs) then Some (f h (default ShardStatus_zero (m !! h))) else m !! h.
Proof.
  induction hs as [|h0 hs IH] using rev_ind; intros Hnd; [done|].
  apply NoDup_app in Hnd as (Hnd & Hdisj & _). rewrite foldl_app. cbn [foldl].
  rewrite lookup_insert. destruct (decide (h0 = h)) as [->|Hne].
  - rewrite (IH Hnd), decide_False, decide_True by set_solver. done.
  - rewrite (IH Hnd). destruct (decide (h ∈ hs)).
    + by rewrite decide_True by set_solver.
    + by rewrite decide_False by set_solver.
Qed.

(** The third loop, where no follower comes twice and no leader is a follower. *)
Lemma mark_relations (R : list ShardRelation) coll h :
  NoDup (R ≫= sr_Follower) →
  (∀ r r', r ∈ R → r' ∈ R → sr_Leader r ∉ sr_Follower r') →
  (∀ r, r ∈ R → h ∈ sr_Follower r →
     foldl mark_relation coll R !! h =
       Some (mark_follower (coll !! sr_Leader r) (default ShardStatus_zero (coll !! h)))) ∧
  (h ∉ R ≫= sr_Follower → foldl mark_relation coll R !! h = coll !! h).
Proof.
  revert h. induction R as [|r0 R IH] using rev_ind; intros h Hnd Hl.
  { split; [by intros ? ?%elem_of_nil|done]. }
  rewrite bind_app in Hnd. cbn in Hnd. rewrite app_nil_r in Hnd.
  apply NoDup_app in Hnd as (Hnd & Hdisj & Hnd0).
  assert (∀ r r', r ∈ R → r' ∈ R → sr_Leader r ∉ sr_Follower r') as Hl'.
  { intros. apply Hl; set_solver. }
  assert (foldl mark_relation coll R !! sr_Leader r0 = coll !! sr_Leader r0) as Hlead.
  { apply (IH (sr_Leader r0) Hnd Hl'). rewrite list_elem_of_bind. intros (r & Hin & Hr).
    apply (Hl r0 r); set_solver. }
  rewrite foldl_app. cbn [foldl]. unfold mark_relation at 1 3. rewrite Hlead.
  rewrite (mark_all (λ _, mark_follower (coll !! sr_Leader r0)) _ _ h Hnd0).
  destruct (IH h Hnd Hl') as [IH1 IH2]. split.
  - intros r [Hr|Hr]%elem_of_app Hh.
    + rewrite decide_False; [by apply IH1|]. intros Hh'. apply (Hdisj h); [|done].
      apply list_elem_of_bind. by exists r.
    + apply list_elem_of_singleton in Hr as ->. rewrite decide_True by done. rewrite IH2; [done|].
      intros Hh'. by apply (Hdisj h).
  - rewrite bind_app. cbn. rewrite app_nil_r, elem_of_app. intros Hh.
    rewrite decide_False by tauto. apply IH2. tauto.
Qed.
End Lemmas.

(** *** The flag [NoDiff] *)

Lemma small_diff d : 0 ≤ d < DefaultDiffSeqNumbers →
  SFltb (SFabs (f64_of_Z d)) (f64_of_Z DefaultDiffSeqNumbers) = true.
Proof.
  intros Hd.
  assert (Forall (λ d, SFltb (SFabs (f64_of_Z d)) (f64_of_Z DefaultDiffSeqNumbers) = true)
            (seqZ 0 DefaultDiffSeqNumbers)) as Hall.
  { apply (bool_decide_unpack _). vm_compute. exact I. }
  rewrite Forall_forall in Hall. apply Hall, elem_of_seqZ. unfold DefaultDiffSeqNumbers in *. lia.
Qed.

(** One on the leader's base version and less than a thousand writes ahead of it is
    not. *)
Lemma no_diff_ahead leader s :
  sst_BaseVersionHash s = sst_BaseVersionHash leader →
  0 ≤ sst_SeqNo s - sst_SeqNo leader < DefaultDiffSeqNumbers →
  no_diff leader s = true.
Proof.
  intros Hv Hd. unfold no_diff. rewrite Hv, Z.eqb_refl. cbn [negb].
  assert (sst_SeqNo s - sst_SeqNo leader < 2 ^ 64) by (unfold DefaultDiffSeqNumbers in Hd; lia).
  rewrite wrapu_small by lia. rewrite small_diff by done. apply orb_true_r.
Qed.

(** The wrapped difference is above any the rule admits. *)
Lemma wrapped_rate d n : 2 ^ 63 ≤ d → 0 < n < 2 ^ 53 →
  SFleb (f64_mul (f64_div (f64_of_Z d) (f64_of_Z n)) (f64_of_Z 100)) (f64_of_Z DefaultDiffRate) = false.
Proof.
  intros Hd Hn. destruct (f64_of_Z_exact n Hn) as (m & -> & Hm).
  pose proof (f64_of_Z_mag d ltac:(lia)) as Hx. pose proof (digits_ge 63 d ltac:(lia) Hd) as Hd64.
  pose proof (digits_le 53 n ltac:(lia) ltac:(lia)) as Hn53.
  pose proof (f64_div_mag _ _ m (Zdigits2 n - 53) Hx ltac:(lia)) as Hq.
  pose proof (f64_mul_mag _ _ 7036874417766400 (-46) Hq ltac:(cbn in *; lia)) as Hp.
  change (f64_of_Z 100) with (S754_finite false 7036874417766400 (-46)).
  set (m3 := f64_of_Z DefaultDiffRate). vm_compute in m3. subst m3. unfold SFleb.
  rewrite (mag_above _ _ _ _ Hp); [done|]. rewrite Hm. change (Zdigits2 7036874417766400) with 53. lia.
Qed.

Lemma wrapped_diff d : 2 ^ 63 ≤ d → SFltb (f64_of_Z d) (f64_of_Z DefaultDiffSeqNumbers) = false.
Proof.
  intros Hd. pose proof (f64_of_Z_mag d ltac:(lia)) as Hx. pose proof (digits_ge 63 d ltac:(lia) Hd).
  set (m3 := f64_of_Z DefaultDiffSeqNumbers). vm_compute in m3. subst m3. unfold SFltb.
  rewrite (mag_above _ _ _ _ Hx); [done|lia].
Qed.

(** A follower on the leader's base version that is behind it, by one write or by
    many, is marked as different: the difference wraps round. *)
Lemma no_diff_behind leader s :
  sst_BaseVersionHash s = sst_BaseVersionHash leader →
  0 ≤ sst_SeqNo s < sst_SeqNo leader → sst_SeqNo leader < 2 ^ 53 →
  no_diff leader s = false.
Proof.
  intros Hv Hs Hl. unfold no_diff. rewrite Hv, Z.eqb_refl. cbn [negb].
  assert (u64 (sst_SeqNo s - sst_SeqNo leader) = 2 ^ 64 + (sst_SeqNo s - sst_SeqNo leader)) as ->.
  { unfold wrapu. rewrite <- (Z.mod_add _ 1) by lia. rewrite Z.mod_small by lia. lia. }
  rewrite (wrapu_small _ (sst_SeqNo s + 1)) by lia.
  rewrite (SFabs_mag _ _ (f64_of_Z_mag (2 ^ 64 + (sst_SeqNo s - sst_SeqNo leader)) ltac:(lia))).
  rewrite wrapped_rate, wrapped_diff by lia. done.
Qed.

(** Nor is one on another base version of the data, however far apart. *)
Lemma no_diff_other_version leader s :
  sst_BaseVersionHash s ≠ sst_BaseVersionHash leader → no_diff leader s = true.
Proof. intros Hv. unfold no_diff. by destruct (Z.eqb_spec (sst_BaseVersionHash s) (sst_BaseVersionHash leader)). Qed.

(** ** Properties *)

Section Properties.
Context `{CityHash} `{MapOrder}.

(** The leader the relation of a shard names: the last one the loops meet. *)
Definition leader_of (id : Z) (entries : list (Z * ShardStatus)) : option ShardStatus :=
  last (filter (λ s, sst_Role s = Leader) (assoc_values id entries)).

Lemma leader_of_entry id entries ld :
  leader_of id entries = Some ld → (id, ld) ∈ entries ∧ sst_Role ld = Leader.
Proof.
  unfold leader_of. intros Hl. apply last_Some_elem_of, list_elem_of_filter in Hl as [Hr Hin].
  by apply elem_of_assoc_values in Hin.
Qed.

Lemma lookup_shard_relations shards id :
  relations_of (map_append_all ∅ (shard_entries shards)) !! id =
    match assoc_values id (shard_entries shards) with
    | [] => None
    | l => Some (relation_of l)
    end.
Proof.
  rewrite relations_of_fmap, lookup_fmap, lookup_map_append_all_empty.
  by destruct assoc_values.
Qed.

Section Process.
Context (shards : gmap Z (gmap Z ShardStatus)).
Context (Hhash : NoDup ((λ e, sst_ShardHash e.2) <$> shard_entries shards)).
Context (Hempty : ∀ e, e ∈ shard_entries shards → sst_ShardHash e.2 ≠ "").

Lemma entry_unique id1 id2 st1 st2 :
  (id1, st1) ∈ shard_entries shards → (id2, st2) ∈ shard_entries shards →
  sst_ShardHash st1 = sst_ShardHash st2 → st1 = st2.
Proof.
  intros H1 H2 E.
  assert (∀ id st, (id, st) ∈ shard_entries shards →
    (foldl (λ m kv, <[sst_ShardHash kv.2 := kv.2]> m) ∅ (shard_entries shards)
      : gmap string ShardStatus) !! sst_ShardHash st = Some st) as Hc.
  { intros id st Hin. apply collected_lookup; [done|]. eauto. }
  pose proof (Hc _ _ H1) as E1. pose proof (Hc _ _ H2) as E2. rewrite E in E1. congruence.
Qed.

(** A relation of the table comes from the statuses of a shard. *)
Lemma relation_entries r :
  r ∈ (map_range (relations_of (map_append_all ∅ (shard_entries shards)))).*2 →
  ∃ id, r = relation_of (assoc_values id (shard_entries shards)).
Proof.
  intros ([id r'] & -> & Hin)%list_elem_of_fmap. apply elem_of_map_range in Hin.
  rewrite lookup_shard_relations in Hin. exists id. destruct assoc_values; [done|]. by injection Hin.
Qed.

Lemma relation_followers id h :
  h ∈ sr_Follower (relation_of (assoc_values id (shard_entries shards))) ↔
  ∃ st, (id, st) ∈ shard_entries shards ∧ sst_ShardHash st = h ∧ sst_Role st ≠ Leader.
Proof.
  rewrite (proj1 (relation_of_spec _)), list_elem_of_fmap.
  setoid_rewrite list_elem_of_filter. setoid_rewrite elem_of_assoc_values. naive_solver.
Qed.

Lemma relations_disjoint :
  let R := (map_range (relations_of (map_append_all ∅ (shard_entries shards)))).*2 in
  NoDup (R ≫= sr_Follower) ∧ ∀ r r', r ∈ R → r' ∈ R → sr_Leader r ∉ sr_Follower r'.
Proof.
  intros R. split.
  - assert ((R ≫= sr_Follower) ≡ₚ
      sst_ShardHash <$> filter (λ s, sst_Role s ≠ Leader) (shard_entries shards).*2) as ->.
    { unfold R. rewrite map_range_perm, relations_of_fmap, map_to_list_fmap.
      rewrite <- (map_collect_append_all (shard_entries shards)). unfold map_collect.
      generalize (map_to_list (map_append_all ∅ (shard_entries shards))). intros l.
      induction l as [|[k v] l IH]; [done|]. cbn. rewrite filter_app, fmap_app, IH.
      fold (relation_of v). by rewrite (proj1 (relation_of_spec v)). }
    eapply (sublist_NoDup _ (sst_ShardHash <$> (shard_entries shards).*2)).
    + by rewrite <- list_fmap_compose.
    + apply fmap_sublist, sublist_filter.
  - intros r r' (id & ->)%relation_entries (id' & ->)%relation_entries Hin.
    apply relation_followers in Hin as (st & Hst & Hh & Hrole).
    destruct (relation_of_spec (assoc_values id (shard_entries shards))) as [_ Hl].
    fold (leader_of id (shard_entries shards)) in Hl.
    destruct (leader_of id (shard_entries shards)) as [ld|] eqn:E; rewrite Hl in Hh.
    + apply leader_of_entry in E as [Hin Hr]. by rewrite (entry_unique _ _ _ _ Hst Hin Hh) in Hrole.
    + by apply (Hempty _ Hst).
Qed.
End Process.

(** The status of a shard after a round. *)
Lemma processShards_status shards sm id st :
  let entries := shard_entries shards in
  NoDup ((λ e, sst_ShardHash e.2) <$> entries) →
  (∀ e, e ∈ entries → sst_ShardHash e.2 ≠ "") → (id, st) ∈ entries →
  sm_shards (processShards shards sm) !! sst_ShardHash st =
    Some (if decide (sst_Role st = Leader) then st
          else match leader_of id entries with
               | None => set_HasLeader false st
               | Some leader => set_HasLeader true (set_NoDiff (no_diff leader st) st)
               end).
Proof.
  intros entries Hnd Hne Hin. unfold processShards. rewrite collect_shards_entries.
  fold entries. cbn [sm_shardRelations sm_shards].
  rewrite <- (foldl_fmap mark_relation _ _ snd).
  destruct (relations_disjoint shards Hnd Hne) as [HR1 HR2].
  fold entries in HR1, HR2. set (R := (map_range _).*2) in *.
  set (coll := foldl (λ m kv, <[sst_ShardHash kv.2 := kv.2]> m) ∅ entries).
  assert (∀ id' st', (id', st') ∈ entries → coll !! sst_ShardHash st' = Some st') as Hc.
  { intros id' st' Hin'. apply collected_lookup; [done|]. eauto. }
  destruct (mark_relations R coll (sst_ShardHash st) HR1 HR2) as [Hm1 Hm2].
  case_decide as Hr.
  + rewrite Hm2; [eauto|]. rewrite list_elem_of_bind.
    intros (r & Hh & (id' & ->)%relation_entries). fold entries in Hh.
    apply (relation_followers shards) in Hh as (st' & Hin' & Hh & Hr').
    by rewrite (entry_unique shards Hnd _ _ _ _ Hin' Hin Hh) in Hr'.
  + rewrite (Hm1 (relation_of (assoc_values id entries))), (Hc id st Hin); cbn [from_option].
    * f_equal. destruct (relation_of_spec (assoc_values id entries)) as [_ Hl].
      fold (leader_of id entries) in Hl. destruct (leader_of id entries) as [ld|] eqn:E; rewrite Hl.
      -- apply leader_of_entry in E as [Hld _]. by rewrite (Hc _ _ Hld).
      -- destruct (coll !! "") as [x|] eqn:Ex; [|done].
         apply collected_lookup in Ex as (Hx & id' & Hx'); [|done]. by destruct (Hne _ Hx').
    * unfold R. apply list_elem_of_fmap. exists (id, relation_of (assoc_values id entries)).
      split; [done|]. apply elem_of_map_range. unfold entries. rewrite lookup_shard_relations.
      fold entries. apply elem_of_assoc_values in Hin. destruct assoc_values; [by apply elem_of_nil in Hin|done].
    * apply relation_followers. by exists st.
Qed.

(** C22: what a round of [processShards] leaves.  Where the statuses have distinct,
    non-empty hashes: the relation of a shard has the hash of every non-leader of
    it, once, as follower, and of a leader of it, if there is one, as leader; a
    leader's status is kept as it came; a follower's says that it has a leader
    exactly when the relation has one.  The flag [NoDiff] of a follower that has one
    is what the code's rule makes it, which is not whether the follower keeps up:
    it is set where the two are on different base versions, and where on the same
    version the follower is less than a thousand writes ahead; and it is cleared
    where on the same version the follower is behind at all, by a single write or by
    any number (sequence numbers below 2^53), since the [uint64] difference wraps
    round before its absolute value is taken.  A follower a thousand writes or more
    ahead is judged by [no_diff] on the rate, about which nothing more is said. *)
Theorem processShards_spec shards sm :
  let entries := shard_entries shards in
  let sm' := processShards shards sm in
  NoDup ((λ e, sst_ShardHash e.2) <$> entries) →
  (∀ e, e ∈ entries → sst_ShardHash e.2 ≠ "") →
  (∀ id, sm_shardRelations sm' !! id =
     match assoc_values id entries with
     | [] => None
     | l => Some (mkShardRelation (from_option sst_ShardHash "" (leader_of id entries))
                    (sst_ShardHash <$> filter (λ s, sst_Role s ≠ Leader) l))
     end) ∧
  (∀ id st, (id, st) ∈ entries → sm_shards sm' !! sst_ShardHash st =
     Some (if decide (sst_Role st = Leader) then st
           else match leader_of id entries with
                | None => set_HasLeader false st
                | Some leader => set_HasLeader true (set_NoDiff (no_diff leader st) st)
                end)) ∧
  (∀ id st leader, (id, st) ∈ entries → sst_Role st ≠ Leader → leader_of id entries = Some leader →
     let flag := sst_NoDiff <$> sm_shards sm' !! sst_ShardHash st in
     (sst_BaseVersionHash st ≠ sst_BaseVersionHash leader → flag = Some true) ∧
     (sst_BaseVersionHash st = sst_BaseVersionHash leader →
      0 ≤ sst_SeqNo st - sst_SeqNo leader < DefaultDiffSeqNumbers → flag = Some true) ∧
     (sst_BaseVersionHash st = sst_BaseVersionHash leader →
      0 ≤ sst_SeqNo st < sst_SeqNo leader → sst_SeqNo leader < 2 ^ 53 → flag = Some false)).
Proof.
  intros entries sm' Hnd Hne. unfold sm'. split; [|split].
  - intros id. unfold processShards. rewrite collect_shards_entries. cbn [sm_shardRelations].
    rewrite lookup_shard_relations. fold entries.
    unfold leader_of. destruct (assoc_values id entries) as [|s0 l0] eqn:El; [done|]. f_equal.
    rewrite <- El. destruct (relation_of_spec (assoc_values id entries)) as [<- Hl].
    destruct last; cbn [from_option]; rewrite <- Hl; by destruct relation_of.
  - intros id st Hin. by apply processShards_status.
  - intros id st leader Hin Hr Hl. cbv zeta.
    rewrite (processShards_status _ _ _ _ Hnd Hne Hin), decide_False by done. fold entries. rewrite Hl.
    cbn [fmap option_fmap option_map set_HasLeader set_NoDiff sst_NoDiff].
    split; [|split]; intros; f_equal; eauto using no_diff_other_version, no_diff_ahead, no_diff_behind.
Qed.
End Properties.

(** *** Concrete runs *)

Definition status_at (seqNo version : Z) (role : Z) (hash : string) : ShardStatus :=
  mkShardStatus 0 "g" 1 role seqNo version ServiceAvailable hash false false.

Definition two_replicas : gmap Z (gmap Z ShardStatus) :=
  {[ 1 := {[ 0 := status_at 1001 7 Leader "a" ]}; 2 := {[ 0 := status_at 1000 7 Follower "b" ]} ]}.

Lemma processShards_spec_witness :
  sm_shards (processShards (H0:=stdpp_order) two_replicas NewShardStatusManager) !! "b" =
    Some (set_HasLeader true (status_at 1000 7 Follower "b")) ∧
  sst_NoDiff <$> sm_shards (processShards (H0:=stdpp_order) two_replicas NewShardStatusManager) !! "b" = Some false.
Proof.
  destruct (processShards_spec (H0:=stdpp_order) two_replicas NewShardStatusManager) as (_ & Hs & Hf).
  - apply (bool_decide_unpack _). vm_compute. exact I.
  - apply (proj1 (Forall_forall _ _)). apply (bool_decide_unpack _). vm_compute. exact I.
  - split.
    + specialize (Hs 0 (status_at 1000 7 Follower "b")). etransitivity; [apply Hs|].
      * apply (bool_decide_unpack _). vm_compute. exact I.
      * vm_compute. reflexivity.
    + apply (Hf 0 (status_at 1000 7 Follower "b") (status_at 1001 7 Leader "a")); try (cbn; lia); try done.
      apply (bool_decide_unpack _). vm_compute. exact I.
Defined.
