(* ===== verification/ShardManager.v ===== *)
(** * The shard manager ([control/service/shard_manager.go])

    [ShardManager] keeps the nodes of every group with the shards assigned to
    them, assigns shards by the nodes' weights, and writes the assignment as a
    version that can be loaded again.  The nodes are pointers the groups own, one
    for each group and node id: the manager's state has the values they point to. *)

From S2P Require Import Prelude RouterTypes Partition Registry GoLib ControlStatus ControlData ShardMetrics StatusManager.

(** ** Data *)

(** [ControlStatus] and [ShardVersionStatus]. *)
Definition Common : Z := 1.
Definition FollowerDynamicAssign : Z := 2.
Definition LeaderDynamicAssign : Z := 3.
Definition LeaderBackup : Z := 4.
Definition LeaderRecover : Z := 5.
Definition FollowerReplace : Z := 6.
Definition VersionActive : Z := 1.
Definition VersionDefault : Z := 2.

Record ShardStore := mkShardStore {
  sto_Id : Z;
  sto_ServiceName : string;
  sto_Version : string;
  sto_Data : string;
  sto_Status : Z;
  sto_CreatedAt : Z
}.

Record NodeVersionData := mkNodeVersionData {
  nv_LeaderShardList : list Z;
  nv_FollowerShardList : list Z;
  nv_NodeId : Z;
  nv_IsEdgeNode : bool
}.

Record GroupVersionData := mkGroupVersionData {
  gv_GroupName : string;
  gv_Dc : string;
  gv_Nodes : list NodeVersionData
}.

Record DataCenterData := mkDataCenterData {
  dd_Name : string;
  dd_ShardNumber : Z
}.

Record ShardVersionData := mkShardVersionData {
  sv_ClusterName : string;
  sv_ShardNumber : Z;
  sv_Dcs : list DataCenterData;
  sv_Groups : list GroupVersionData
}.
#[export] Instance NodeVersionData_eq_dec : EqDecision NodeVersionData.
Proof. solve_decision. Defined.
#[export] Instance GroupVersionData_eq_dec : EqDecision GroupVersionData.
Proof. solve_decision. Defined.
#[export] Instance DataCenterData_eq_dec : EqDecision DataCenterData.
Proof. solve_decision. Defined.
#[export] Instance ShardVersionData_eq_dec : EqDecision ShardVersionData.
Proof. solve_decision. Defined.

Definition ShardVersionData_zero : ShardVersionData := mkShardVersionData "" 0 [] [].

Record Shard := mkShard {
  sh_GroupName : string;
  sh_NodeId : Z;
  sh_ShardId : Z;
  sh_Role : Z;
  sh_State : Z
}.

Abbreviation GroupShardDto := (gmap Z (list string)).

Record ShardList := mkShardList {
  shl_Relations : gmap Z ShardRelation;
  shl_Shards : gmap string ShardStatus;
  shl_Groups : gmap string GroupShardDto
}.

Record NodeInfo := mkNodeInfo {
  ni_GroupName : string;
  ni_NodeId : Z;
  ni_Host : string;
  ni_Port : Z;
  ni_Weight : Z;
  ni_Master : bool;
  ni_Active : Z;
  ni_Shards : list Shard;
  ni_IsEdgeNode : bool
}.

#[export] Instance Shard_eq_dec : EqDecision Shard.
Proof. solve_decision. Defined.
#[export] Instance NodeInfo_eq_dec : EqDecision NodeInfo.
Proof. solve_decision. Defined.

Definition set_Shards (shards : list Shard) (n : NodeInfo) : NodeInfo :=
  mkNodeInfo (ni_GroupName n) (ni_NodeId n) (ni_Host n) (ni_Port n) (ni_Weight n) (ni_Master n)
    (ni_Active n) shards (ni_IsEdgeNode n).

(** The snapshot of the database that [node_manager.go] takes for the manager. *)
Record GroupInfo := mkGroupInfo {
  gi_Id : Z;
  gi_Name : string;
  gi_DcName : string;
  gi_Alias : string;
  gi_Nodes : list NodeInfo
}.

Record ControlClusterInfo := mkControlClusterInfo {
  ci_Name : string;
  ci_ShardTotal : Z;
  ci_Dcs : list Dc;
  ci_Groups : list GroupInfo
}.

Record ShardManager := mkShardManager {
  sg_serviceName : string;
  sg_clusterName : string;
  sg_shardTotal : Z;
  sg_groups : gmap string (gmap Z NodeInfo);
  sg_dcs : list Dc;
  sg_groupToDc : gmap string string;
  sg_activeVersion : string;
  sg_statusManager : ShardStatusManager
}.

Definition set_groups (groups : gmap string (gmap Z NodeInfo)) (sg : ShardManager) : ShardManager :=
  mkShardManager (sg_serviceName sg) (sg_clusterName sg) (sg_shardTotal sg) groups (sg_dcs sg)
    (sg_groupToDc sg) (sg_activeVersion sg) (sg_statusManager sg).

Definition set_activeVersion (v : string) (sg : ShardManager) : ShardManager :=
  mkShardManager (sg_serviceName sg) (sg_clusterName sg) (sg_shardTotal sg) (sg_groups sg)
    (sg_dcs sg) (sg_groupToDc sg) v (sg_statusManager sg).

(** ** Taking over a snapshot *)

Section Update.
Context `{CityHash}.

(** The manager's node: the snapshot's, but for host and port. *)
Definition node_of (groupName : string) (node : NodeInfo) : NodeInfo :=
  mkNodeInfo groupName (ni_NodeId node) "" 0 (ni_Weight node) (ni_Master node) (ni_Active node)
    (ni_Shards node) (ni_IsEdgeNode node).

Definition group_nodes (group : GroupInfo) : gmap Z NodeInfo :=
  foldl (λ groupInfo node,
    let nodeInfo := node_of (gi_Name group) node in
    <[ni_NodeId nodeInfo := nodeInfo]> groupInfo) ∅ (gi_Nodes group).

Definition group_hosts (group : GroupInfo) : list NodeHostInfo :=
  (λ node, mkNodeHostInfo (gi_Name group) (ni_NodeId node) (ni_Host node) (ni_Port node)) <$>
    gi_Nodes group.

Definition UpdateClusterInfo (info : ControlClusterInfo) (sg : ShardManager) : ShardManager :=
  let groupToDc := foldl (λ m group, <[gi_Name group := gi_DcName group]> m) ∅ (ci_Groups info) in
  let groups := foldl (λ m group, <[gi_Name group := group_nodes group]> m) ∅ (ci_Groups info) in
  let nodes := ci_Groups info ≫= group_hosts in
  mkShardManager (sg_serviceName sg) (ci_Name info) (ci_ShardTotal info) groups (ci_Dcs info)
    groupToDc (sg_activeVersion sg) (SetNodes nodes (sg_statusManager sg)).

Definition GetShardModel (serviceName : string) (info : ControlClusterInfo) : ShardManager :=
  UpdateClusterInfo info
    (mkShardManager serviceName (ci_Name info) (ci_ShardTotal info) ∅ (ci_Dcs info) ∅ ""
       NewShardStatusManager).
End Update.

(** ** Assigning shards *)

Section Assign.
Context `{FloatToUint} `{MapOrder}.

Definition node_weights (nodes : list NodeInfo) : double :=
  foldl (λ totalWeight nodeInfo, f64_add totalWeight (f64_of_Z (ni_Weight nodeInfo))) f64_zero nodes.

(** [uint32(math.Ceil(float64(shardTotal) * rate))]. *)
Definition shard_quota (shardTotal : Z) (totalWeight : double) (nodeInfo : NodeInfo) : Z :=
  let rate := f64_div (f64_of_Z (ni_Weight nodeInfo)) totalWeight in
  f64_to_uint 32 (math_Ceil (f64_mul (f64_of_Z shardTotal) rate)).

Definition shardNumber_step (shardTotal : Z) (totalWeight : double)
    (acc : gmap Z Z * Z * Z) (nodeInfo : NodeInfo) : gmap Z Z * Z * Z :=
  let '(numbers, remainNumber, _) := acc in
  let number := shard_quota shardTotal totalWeight nodeInfo in
  (<[i32 (ni_NodeId nodeInfo) := number]> numbers, i32 (remainNumber - i32 number),
   i32 (ni_NodeId nodeInfo)).

Definition shardNumber (shardTotal : Z) (nodes : list NodeInfo) : gmap Z Z :=
  let totalWeight := node_weights nodes in
  let '(numbers, remainNumber, lastNodeId) :=
    foldl (shardNumber_step shardTotal totalWeight) (∅, i32 shardTotal, -1) nodes in
  if (Z.ltb 0 remainNumber && Z.leb 0 lastNodeId)%bool
  then <[lastNodeId := u32 (default 0 (numbers !! lastNodeId) + u32 remainNumber)]> numbers
  else numbers.

(** The number of shards a node is to have. *)
Definition number_of (shardNumbers : gmap Z Z) (nodeInfo : NodeInfo) : Z :=
  default 0 (shardNumbers !! i32 (ni_NodeId nodeInfo)).

(** First loop: a node with too many shards keeps its first ones, which are also
    put with the shards to assign. *)
Definition shrink_step (shardNumbers : gmap Z Z)
    (acc : list NodeInfo * (list Z * gset Z)) (nodeInfo : NodeInfo)
  : list NodeInfo * (list Z * gset Z) :=
  let '(done, (remainShards, assignShards)) := acc in
  let shards := ni_Shards nodeInfo in
  let moveNumber := Z.of_nat (length shards) - number_of shardNumbers nodeInfo in
  if Z.leb moveNumber 0 then (done ++ [nodeInfo], (remainShards, assignShards))
  else
    let kept := take (Z.to_nat (Z.of_nat (length shards) - moveNumber)) shards in
    (done ++ [set_Shards kept nodeInfo],
     (remainShards ++ (sh_ShardId <$> kept), assignShards ∪ list_to_set (sh_ShardId <$> kept))).

(** Second loop: a node with too few takes from the front of what remains. *)
Definition grow_step (shardNumbers : gmap Z Z) (acc : list NodeInfo * list Z) (nodeInfo : NodeInfo)
  : list NodeInfo * list Z :=
  let '(done, remainShards) := acc in
  let moveNumber := Z.of_nat (length (ni_Shards nodeInfo)) - number_of shardNumbers nodeInfo in
  if (Z.leb 0 moveNumber || Z.eqb (Z.of_nat (length remainShards)) 0)%bool
  then (done ++ [nodeInfo], remainShards)
  else
    let moveNumber := if Z.ltb (Z.of_nat (length remainShards)) (- moveNumber)
                      then - Z.of_nat (length remainShards) else moveNumber in
    let role := if ni_Master nodeInfo then Leader else Follower in
    let added := (λ shardId, mkShard (ni_GroupName nodeInfo) (ni_NodeId nodeInfo) shardId role 0) <$>
                   take (Z.to_nat (- moveNumber)) remainShards in
    (done ++ [set_Shards (ni_Shards nodeInfo ++ added) nodeInfo],
     drop (Z.to_nat (- moveNumber)) remainShards).

(** [assignShards] is used only for its keys. *)
Definition assignShardByRole (shardTotal : Z) (nodes : list NodeInfo) : list NodeInfo :=
  let shardNumbers := shardNumber shardTotal nodes in
  let '(nodes, (remainShards, assignShards)) :=
    foldl (shrink_step shardNumbers) ([], ([], ∅)) nodes in
  let remainShards :=
    remainShards ++ filter (λ shardId, shardId ∉ assignShards) (seqZ 0 shardTotal) in
  (foldl (grow_step shardNumbers) ([], remainShards) nodes).1.

(** The nodes of a role with their keys, in the order of the loop. *)
Definition role_nodes (master : bool) (nodes : gmap Z NodeInfo) : list (Z * NodeInfo) :=
  filter (λ kv, ni_Master kv.2 = master) (map_range nodes).

(** [assignShardByRole] on the nodes of a role, through their pointers. *)
Definition assign_role (shardTotal : Z) (master : bool) (nodes : gmap Z NodeInfo)
    (m : gmap Z NodeInfo) : gmap Z NodeInfo :=
  let l := role_nodes master nodes in
  foldl (λ m kv, <[kv.1 := kv.2]> m) m (zip l.*1 (assignShardByRole shardTotal l.*2)).

Definition assign_group (shardTotal : Z) (nodes : gmap Z NodeInfo) : gmap Z NodeInfo :=
  assign_role shardTotal false nodes (assign_role shardTotal true nodes nodes).

Definition AssignShards (sg : ShardManager) : ShardManager * Status :=
  (set_groups (foldl (λ groups kv, <[kv.1 := assign_group (sg_shardTotal sg) kv.2]> groups)
                 (sg_groups sg) (map_range (sg_groups sg))) sg, StatusOk).
End Assign.

(** ** Versions *)

Section Version.
Context `{MapOrder} `{GoSort} `{Runtime} {jsonVersion : Json ShardVersionData}.

Definition append_shards (nodeInfo : NodeInfo) (groupName : string) (node : NodeVersionData) : NodeInfo :=
  set_Shards (ni_Shards nodeInfo ++
    ((λ id, mkShard groupName (nv_NodeId node) id Leader 0) <$> nv_LeaderShardList node) ++
    ((λ id, mkShard groupName (nv_NodeId node) id Follower 0) <$> nv_FollowerShardList node)) nodeInfo.

(** A node of the version that the group does not have is skipped, and so is a
    group that the manager does not have. *)
Definition load_node (groupName : string) : gmap Z NodeInfo → NodeVersionData → gmap Z NodeInfo :=
  map_update nv_NodeId (λ node nodeInfo, append_shards nodeInfo groupName node).

Definition load_group
  : gmap string (gmap Z NodeInfo) → GroupVersionData → gmap string (gmap Z NodeInfo) :=
  map_update gv_GroupName (λ group groupInfo,
    foldl (load_node (gv_GroupName group)) groupInfo (gv_Nodes group)).

Definition convertVersionToNodeShards (version : ShardStore) (sg : ShardManager)
  : ShardManager * Status :=
  match json_Unmarshal (sto_Data version) ShardVersionData_zero with
  | (_, Some err) => (sg, StatusWithError (Some err))
  | (data, None) =>
      if negb (String.eqb (sv_ClusterName data) (sg_clusterName sg))
      then (sg, StatusWithMessage ERROR "目前分片信息不是当前集群的配置")
      else if negb (Z.eqb (sv_ShardNumber data) (sg_shardTotal sg))
      then (sg, StatusWithMessage ERROR "分片总数不一致，需要重新分配")
      else
        let cleared := fmap (M:=gmap string) (fmap (set_Shards [])) (sg_groups sg) in
        (set_groups (foldl load_group cleared (sv_Groups data)) sg, StatusOk)
  end.

(** The clock: the parts of the local time and nanoseconds. *)
Record Now := mkNow {
  now_Year : Z; now_Month : Z; now_Day : Z; now_Hour : Z; now_Minute : Z; now_Second : Z;
  now_nanos : Z
}.

Definition getVersion (now : Now) : string :=
  strings_Join "_" (Itoa <$> [now_Year now; now_Month now; now_Day now; now_Hour now;
                              now_Minute now; now_Second now]).

Definition node_version (node : NodeInfo) : NodeVersionData :=
  mkNodeVersionData
    (sh_ShardId <$> filter (λ s, sh_Role s = Leader) (ni_Shards node))
    (sh_ShardId <$> filter (λ s, sh_Role s ≠ Leader) (ni_Shards node))
    (ni_NodeId node) (ni_IsEdgeNode node).

(** The nodes of a group that a version has, by ascending id. *)
Definition version_nodes (groupName : string) (groupNodes : gmap Z NodeInfo) : list NodeVersionData :=
  let nodeIds := sort_Sort Z.ltb (map_range groupNodes).*1 in
  omap (λ nodeId,
    node ← groupNodes !! u32 nodeId;
    if (negb (String.eqb (ni_GroupName node) groupName) || Z.eqb (ni_Active node) NodeInactive)%bool
    then None else Some (node_version node)) nodeIds.

Definition convertNodeShardsToVersionData (sg : ShardManager) : ShardVersionData * Status :=
  let groupNames := sort_Sort String.ltb (map_range (sg_groups sg)).*1 in
  let groups := (λ groupName,
    mkGroupVersionData groupName (default "default" (sg_groupToDc sg !! groupName))
      (version_nodes groupName (default ∅ (sg_groups sg !! groupName)))) <$> groupNames in
  let dcs := (λ dc, mkDataCenterData (dc_Name dc) (u32 (dc_ShardNumber dc))) <$> sg_dcs sg in
  (mkShardVersionData (sg_clusterName sg) (sg_shardTotal sg) dcs groups, StatusOk).

Definition convertNodeShardsToShardStore (now : Now) (sg : ShardManager) : ShardStore * Status :=
  let versionData :=
    mkShardStore 0 (sg_serviceName sg) (getVersion now) "" VersionActive (now_nanos now) in
  let '(shardVersionData, status) := convertNodeShardsToVersionData sg in
  if negb (Status_Ok status) then (versionData, status)
  else match json_Marshal shardVersionData with
       | inr err => (versionData, StatusWithError (Some err))
       | inl data =>
           (mkShardStore 0 (sg_serviceName sg) (getVersion now) data VersionActive (now_nanos now),
            StatusOk)
       end.

Definition GetCurrentVersionData (now : Now) (sg : ShardManager) : string * Status :=
  let '(shardStore, status) := convertNodeShardsToShardStore now sg in
  (sto_Data shardStore, status).
End Version.

(** ** The stored versions *)

(** gorm on the table of versions.  A transaction works on a copy of the database
    that a rollback drops; [None] of [First] is its record-not-found error. *)
Class ShardStoreDb (DB : Type) := {
  sdb_First : string → Z → DB → option ShardStore + error;
  sdb_UpdateStatus : string → string → Z → DB → DB * option error;
  sdb_Create : ShardStore → DB → DB * option error
}.

Section Store.
Context `{FloatToUint} `{MapOrder} `{GoSort} `{Runtime} {jsonVersion : Json ShardVersionData}
  {DB : Type} `{ShardStoreDb DB}.

Definition loadActiveShards (db : DB) (sg : ShardManager) : ShardManager * Status :=
  match sdb_First (sg_serviceName sg) VersionActive db with
  | inl None => (sg, StatusError ShardVersionNotFound)
  | inr err => (sg, StatusWithError (Some err))
  | inl (Some version) => convertVersionToNodeShards version sg
  end.

Definition storeShards (now : Now) (db : DB) (sg : ShardManager) : DB * ShardManager * Status :=
  let '(shardStore, status) := convertNodeShardsToShardStore now sg in
  if negb (Status_Ok status) then (db, sg, status)
  else
    let '(tx, err) := if String.eqb (sg_activeVersion sg) "" then (db, None)
                      else sdb_UpdateStatus (sg_serviceName sg) (sg_activeVersion sg) VersionDefault db in
    match err with
    | Some _ => (db, sg, StatusWithError err)
    | None =>
        let '(tx, createErr) := sdb_Create shardStore tx in
        match createErr with
        | Some _ => (db, sg, StatusWithError createErr)
        | None => (tx, set_activeVersion (sto_Version shardStore) sg, StatusOk)
        end
    end.

Definition exchangeShards (version : string) (shardStore : ShardStore) (db : DB) (sg : ShardManager)
  : DB * ShardManager * Status :=
  let '(tx, err) := sdb_UpdateStatus (sg_serviceName sg) (sg_activeVersion sg) VersionDefault db in
  match err with
  | Some _ => (db, sg, StatusWithError err)
  | None =>
      let '(tx, err) := sdb_UpdateStatus (sg_serviceName sg) version VersionActive tx in
      match err with
      | Some _ => (db, sg, StatusWithError err)
      | None =>
          let sg := set_activeVersion (sto_Version shardStore) sg in
          let '(sg, status) := loadActiveShards tx sg in
          (tx, sg, status)
      end
  end.

Definition ShardManager_init (now : Now) (db : DB) (sg : ShardManager) : DB * ShardManager * Status :=
  let '(sg, status) := loadActiveShards db sg in
  if Z.eqb (Status_Code status) ShardVersionNotFound
  then
    let '(sg, _) := AssignShards sg in
    let '(db, sg, _) := storeShards now db sg in
    (db, sg, status)
  else (db, sg, status).
End Store.

(** ** What the manager shows *)

Section Show.
Context `{CityHash} `{MapOrder}.

Definition convertToDto (sg : ShardManager) : gmap string GroupShardDto :=
  foldl (λ groups kv,
    let '(groupName, groupNodes) := kv in
    let group := foldl (λ group kv,
      let node := kv.2 in
      if negb (String.eqb (ni_GroupName node) groupName) then group
      else <[ni_NodeId node :=
               (λ shard, GetShardHash (GetNodeHash groupName (ni_NodeId node)) (sh_ShardId shard)) <$>
                 ni_Shards node]> group) ∅ (map_range groupNodes) in
    <[groupName := group]> groups) ∅ (map_range (sg_groups sg)).

Definition GetShards {jsonShards : Json (gmap string ShardStatus)}
    {jsonRelations : Json (gmap Z ShardRelation)} (sg : ShardManager) : ShardList :=
  let '(shards, relations) := GetShardStatus (sg_statusManager sg) in
  mkShardList relations shards (convertToDto sg).
End Show.

(** ** Lemmas: the nodes *)

(** [n'] is [n] with other shards. *)
Definition same_node (n n' : NodeInfo) : Prop := n' = set_Shards (ni_Shards n') n.

Lemma same_node_refl n : same_node n n.
Proof. by destruct n. Qed.

Lemma same_node_set n shards : same_node n (set_Shards shards n).
Proof. done. Qed.

Lemma same_node_trans n1 n2 n3 : same_node n1 n2 → same_node n2 n3 → same_node n1 n3.
Proof. unfold same_node. intros -> ->. done. Qed.

Lemma same_node_fields n n' : same_node n n' →
  ni_NodeId n' = ni_NodeId n ∧ ni_GroupName n' = ni_GroupName n ∧ ni_Master n' = ni_Master n.
Proof. intros ->. done. Qed.

#[export] Hint Resolve same_node_refl same_node_set : laser.

(** Every node is filed under its group and its id. *)
Definition groups_wf (groups : gmap string (gmap Z NodeInfo)) : Prop :=
  map_Forall (λ name, map_Forall (λ id n, ni_NodeId n = id ∧ ni_GroupName n = name)) groups.

(** [nodes'] has the nodes of [nodes], with other shards. *)
Definition same_nodes (nodes nodes' : gmap Z NodeInfo) : Prop :=
  ∀ id, option_Forall2 same_node (nodes !! id) (nodes' !! id).

Definition same_groups (groups groups' : gmap string (gmap Z NodeInfo)) : Prop :=
  ∀ name, option_Forall2 same_nodes (groups !! name) (groups' !! name).

Lemma same_groups_wf groups groups' :
  same_groups groups groups' → groups_wf groups → groups_wf groups'.
Proof.
  intros Hs Hwf name nodes' Hn id n' Hid. specialize (Hs name). rewrite Hn in Hs.
  inversion Hs as [nodes ? Hnodes E|]; subst. specialize (Hnodes id). rewrite Hid in Hnodes.
  inversion Hnodes as [n ? Hnode En|]; subst. apply same_node_fields in Hnode as (-> & -> & _).
  by apply (Hwf name nodes (eq_sym E) id n).
Qed.

Lemma same_nodes_refl nodes : same_nodes nodes nodes.
Proof. intros id. destruct (nodes !! id); constructor. apply same_node_refl. Qed.

Lemma same_nodes_trans n1 n2 n3 : same_nodes n1 n2 → same_nodes n2 n3 → same_nodes n1 n3.
Proof.
  intros H1 H2 id. specialize (H1 id). specialize (H2 id).
  destruct H1; inversion H2; constructor. by eapply same_node_trans.
Qed.

Lemma same_nodes_insert nodes m id n n' :
  same_nodes nodes m → nodes !! id = Some n → same_node n n' → same_nodes nodes (<[id := n']> m).
Proof.
  intros Hm Hn Hs id'. destruct (decide (id = id')) as [<-|Hne].
  - rewrite lookup_insert_eq, Hn. by constructor.
  - rewrite lookup_insert_ne by done. apply Hm.
Qed.

Lemma same_groups_refl groups : same_groups groups groups.
Proof. intros name. destruct (groups !! name); constructor. apply same_nodes_refl. Qed.

Lemma same_groups_trans g1 g2 g3 : same_groups g1 g2 → same_groups g2 g3 → same_groups g1 g3.
Proof.
  intros H1 H2 name. specialize (H1 name). specialize (H2 name).
  destruct H1; inversion H2; constructor. by eapply same_nodes_trans.
Qed.

Section Nodes.
Context `{CityHash} `{FloatToUint} `{MapOrder}.

Lemma group_nodes_wf group :
  map_Forall (λ id n, ni_NodeId n = id ∧ ni_GroupName n = gi_Name group) (group_nodes group).
Proof.
  unfold group_nodes. induction (gi_Nodes group) as [|n l IH] using rev_ind; [done|].
  rewrite foldl_app. cbn [foldl]. apply map_Forall_insert_2; [done|exact IH].
Qed.

Lemma UpdateClusterInfo_wf info sg : groups_wf (sg_groups (UpdateClusterInfo info sg)).
Proof.
  unfold UpdateClusterInfo. cbn. induction (ci_Groups info) as [|g l IH] using rev_ind; [done|].
  rewrite foldl_app. cbn [foldl]. apply map_Forall_insert_2; [apply group_nodes_wf|exact IH].
Qed.

(** Both loops give back the nodes they were given, with other shards. *)
Lemma fold_same {S} (f : list NodeInfo * S → NodeInfo → list NodeInfo * S) nodes s :
  (∀ acc n, ∃ n' s', f acc n = (acc.1 ++ [n'], s') ∧ same_node n n') →
  ∃ nodes' s', foldl f ([], s) nodes = (nodes', s') ∧ Forall2 same_node nodes nodes'.
Proof.
  intros Hf. induction nodes as [|n nodes (nodes' & s' & IH & Hs)] using rev_ind.
  { by exists [], s. }
  rewrite foldl_app, IH. cbn [foldl]. destruct (Hf (nodes', s') n) as (n' & s'' & -> & Hn).
  exists (nodes' ++ [n']), s''. split; [done|]. apply Forall2_app; [done|]. by constructor.
Qed.

Lemma grow_same numbers nodes remain :
  ∃ nodes' r, foldl (grow_step numbers) ([], remain) nodes = (nodes', r) ∧
    Forall2 same_node nodes nodes'.
Proof.
  apply fold_same. intros [done' r] n. unfold grow_step. cbn [fst].
  destruct (_ || _)%bool; eexists _, _; (split; [done|]); auto with laser.
Qed.

Lemma UpdateClusterInfo_dom info sg :
  dom (sg_groupToDc (UpdateClusterInfo info sg)) = dom (sg_groups (UpdateClusterInfo info sg)).
Proof.
  unfold UpdateClusterInfo. cbn. induction (ci_Groups info) as [|g l IH] using rev_ind; [set_solver|].
  rewrite !foldl_app. cbn [foldl]. rewrite !dom_insert_L. by f_equal.
Qed.

Lemma same_groups_dom groups groups' : same_groups groups groups' → dom groups = dom groups'.
Proof.
  intros Hs. apply set_eq. intros name. rewrite !elem_of_dom. specialize (Hs name).
  inversion Hs; split; intros []; done || by eexists.
Qed.

Lemma shrink_same numbers nodes remain :
  ∃ nodes' r, foldl (shrink_step numbers) ([], remain) nodes = (nodes', r) ∧
    Forall2 same_node nodes nodes'.
Proof.
  apply fold_same. intros [done' [r a]] n. unfold shrink_step. cbn [fst].
  destruct (_ <=? 0); eexists _, _; (split; [done|]); auto with laser.
Qed.

Lemma assignShardByRole_same T nodes : Forall2 same_node nodes (assignShardByRole T nodes).
Proof.
  unfold assignShardByRole. destruct (shrink_same (shardNumber T nodes) nodes ([], ∅))
    as (nodes1 & [r a] & -> & Hs1).
  destruct (grow_same (shardNumber T nodes) nodes1
              (r ++ filter (λ s, s ∉ a) (seqZ 0 T))) as (nodes2 & r2 & -> & Hs2).
  cbn [fst]. eapply Forall2_trans; [|exact Hs1|exact Hs2]. exact same_node_trans.
Qed.

Lemma assign_role_same T master nodes m :
  same_nodes nodes m → same_nodes nodes (assign_role T master nodes m).
Proof.
  unfold assign_role. set (l := role_nodes master nodes).
  pose proof (assignShardByRole_same T l.*2) as Hs.
  assert (∀ kv, kv ∈ l → nodes !! kv.1 = Some kv.2) as Hl.
  { intros [k v] [_ Hin]%list_elem_of_filter. by apply elem_of_map_range in Hin. }
  revert m Hs Hl. generalize (assignShardByRole T l.*2). generalize l. clear l.
  intros l. induction l as [|[k n] l IH]; intros l' m Hs Hl Hm; [done|].
  cbn [fmap list_fmap snd] in Hs. inversion Hs as [|? n' ? l'' Hn Hs']; subst.
  cbn [fmap list_fmap fst zip_with foldl]. apply IH; [done|intros; apply Hl; by right|].
  eapply same_nodes_insert; [done| |exact Hn]. apply (Hl (k, n)). left.
Qed.

Lemma assign_group_same T nodes : same_nodes nodes (assign_group T nodes).
Proof. apply assign_role_same, assign_role_same, same_nodes_refl. Qed.

Lemma lookup_AssignShards sg name :
  sg_groups (AssignShards sg).1 !! name = assign_group (sg_shardTotal sg) <$> (sg_groups sg !! name).
Proof.
  cbn. rewrite <- lookup_fmap.
  assert (∀ l (m : gmap string (gmap Z NodeInfo)), NoDup l.*1 →
    foldl (λ groups kv, <[kv.1 := assign_group (sg_shardTotal sg) kv.2]> groups) m l =
    list_to_map (prod_map id (assign_group (sg_shardTotal sg)) <$> l) ∪ m) as Hf.
  { intros l m Hnd. rewrite <- foldl_insert_union.
    - by rewrite foldl_fmap.
    - rewrite <- list_fmap_compose. exact Hnd. }
  rewrite Hf by apply NoDup_fst_map_range. clear Hf.
  rewrite list_to_map_fmap. f_equal.
  rewrite list_to_map_range. apply map_eq. intros k. rewrite lookup_union, lookup_fmap. by destruct (sg_groups sg !! k).
Qed.

Lemma AssignShards_same sg : same_groups (sg_groups sg) (sg_groups (AssignShards sg).1).
Proof.
  intros name. rewrite lookup_AssignShards. destruct (sg_groups sg !! name); constructor.
  apply assign_group_same.
Qed.
End Nodes.

(** ** Lemmas: versions *)

(** What loading a version makes of a node: nothing is left of the shards of a
    node the version skips; the others have the shards they had, leaders first,
    as shards of their group without a state. *)
Definition reload_node (groupName : string) (n : NodeInfo) : NodeInfo :=
  if decide (ni_GroupName n ≠ groupName ∨ ni_Active n = NodeInactive) then set_Shards [] n
  else
    let reload role s := mkShard groupName (ni_NodeId n) (sh_ShardId s) role 0 in
    set_Shards ((reload Leader <$> filter (λ s, sh_Role s = Leader) (ni_Shards n)) ++
                (reload Follower <$> filter (λ s, sh_Role s ≠ Leader) (ni_Shards n))) n.

Section Versions.
Context `{MapOrder} `{GoSort} `{Runtime} {jsonVersion : Json ShardVersionData}.

Lemma load_nodes_same name nds gi : same_nodes gi (foldl (load_node name) gi nds).
Proof.
  induction nds as [|nd nds IH] using rev_ind; [apply same_nodes_refl|].
  rewrite foldl_app. cbn [foldl]. eapply same_nodes_trans; [exact IH|]. intros id.
  unfold load_node at 2. rewrite lookup_map_update. case_decide.
  - destruct (foldl _ gi nds !! id); constructor. apply same_node_set.
  - destruct (foldl _ gi nds !! id); constructor. apply same_node_refl.
Qed.

Lemma load_groups_same gs groups : same_groups groups (foldl load_group groups gs).
Proof.
  induction gs as [|g gs IH] using rev_ind; [apply same_groups_refl|].
  rewrite foldl_app. cbn [foldl]. eapply same_groups_trans; [exact IH|]. intros name.
  unfold load_group at 2. rewrite lookup_map_update. case_decide.
  - destruct (foldl _ groups gs !! name); constructor. apply load_nodes_same.
  - destruct (foldl _ groups gs !! name); constructor. apply same_nodes_refl.
Qed.

Lemma convertVersionToNodeShards_same version sg :
  same_groups (sg_groups sg) (sg_groups (convertVersionToNodeShards version sg).1).
Proof.
  unfold convertVersionToNodeShards. destruct json_Unmarshal as [data [err|]]; [apply same_groups_refl|].
  repeat case_match; try apply same_groups_refl. cbn [fst sg_groups set_groups].
  eapply same_groups_trans; [|apply load_groups_same]. intros name. rewrite lookup_fmap.
  destruct (sg_groups sg !! name) as [nodes|]; constructor. intros id. rewrite lookup_fmap.
  destruct (nodes !! id); constructor. apply same_node_set.
Qed.

(** The nodes in a version of a group. *)
Lemma version_nodes_ids name nodes :
  map_Forall (λ id n, ni_NodeId n = id ∧ 0 ≤ id < 2 ^ 32) nodes →
  NoDup (nv_NodeId <$> version_nodes name nodes).
Proof.
  intros Hwf. unfold version_nodes. set (ids := sort_Sort _ _).
  assert (NoDup ids) as Hnd. { unfold ids. rewrite sort_Sort_perm. apply NoDup_fst_map_range. }
  assert (∀ id, id ∈ ids → 0 ≤ id < 2 ^ 32) as Hr.
  { intros id. unfold ids. rewrite sort_Sort_perm, list_elem_of_fmap. intros ([k n] & -> & Hin).
    apply elem_of_map_range in Hin. by apply (Hwf k n). }
  eapply sublist_NoDup; [exact Hnd|]. clear Hnd. clearbody ids.
  induction ids as [|id ids IH]; [done|]. cbn [omap list_omap].
  specialize (IH ltac:(intros; apply Hr; by right)).
  rewrite wrapu_small by (apply Hr; left).
  destruct (nodes !! id) as [n|] eqn:E; cbn [mbind option_bind]; [|by constructor].
  destruct (_ || _)%bool; cbn; [by constructor|]. rewrite (proj1 (Hwf id n E)). by constructor.
Qed.

Lemma elem_of_version_nodes name nodes nd :
  map_Forall (λ id n, ni_NodeId n = id ∧ 0 ≤ id < 2 ^ 32) nodes →
  nd ∈ version_nodes name nodes ↔
  ∃ id n, nodes !! id = Some n ∧ ni_GroupName n = name ∧ ni_Active n ≠ NodeInactive ∧
    nd = node_version n.
Proof.
  intros Hwf. unfold version_nodes. rewrite list_elem_of_omap. split.
  - intros (id & Hin & Hf). rewrite sort_Sort_perm, list_elem_of_fmap in Hin.
    destruct Hin as ([k n] & -> & Hin%elem_of_map_range). cbn in Hf.
    rewrite wrapu_small in Hf by (by apply (Hwf k n)). rewrite Hin in Hf. cbn in Hf.
    exists k, n. destruct (String.eqb_spec (ni_GroupName n) name); [|done].
    destruct (Z.eqb_spec (ni_Active n) NodeInactive); [done|]. cbn in Hf. naive_solver.
  - intros (id & n & Hn & Hg & Ha & ->). exists id. split.
    + rewrite sort_Sort_perm, list_elem_of_fmap. exists (id, n). by rewrite elem_of_map_range.
    + rewrite wrapu_small by (by apply (Hwf id n)). rewrite Hn. cbn.
      destruct (String.eqb_spec (ni_GroupName n) name); [|done].
      by destruct (Z.eqb_spec (ni_Active n) NodeInactive).
Qed.

Lemma reload_nodes name nodes :
  map_Forall (λ id n, ni_NodeId n = id ∧ 0 ≤ id < 2 ^ 32) nodes →
  foldl (load_node name) (set_Shards [] <$> nodes) (version_nodes name nodes) =
    reload_node name <$> nodes.
Proof.
  intros Hwf. apply map_eq. intros id. rewrite lookup_fmap. unfold load_node.
  destruct (foldl_map_update nv_NodeId (λ node nodeInfo, append_shards nodeInfo name node)
    (version_nodes name nodes) (set_Shards [] <$> nodes) id) as [Hin Hout];
    [by apply version_nodes_ids|].
  rewrite lookup_fmap in Hin, Hout. destruct (nodes !! id) as [n|] eqn:E; cbn [fmap option_fmap option_map] in *.
  - destruct (Hwf id n E) as [Hid _]. unfold reload_node. case_decide as Hd.
    + rewrite Hout; [done|]. rewrite list_elem_of_fmap. intros (nd & -> & Hnd).
      apply elem_of_version_nodes in Hnd as (id' & n' & E' & Hg & Ha & ->); [|done].
      cbn in E. destruct (Hwf id' n' E') as [<- _]. rewrite E in E'. injection E' as ->.
      by destruct Hd.
    + rewrite (Hin (node_version n)); [|apply elem_of_version_nodes; [done|]|done]; last first.
      { exists id, n. split_and!; [done| | |done].
        - destruct (decide (ni_GroupName n = name)); [done|]. destruct Hd. by left.
        - intros Ha. destruct Hd. by right. }
      unfold append_shards, node_version. cbn. by rewrite <- !list_fmap_compose.
  - destruct (decide (id ∈ nv_NodeId <$> version_nodes name nodes)) as [Hi|Hi]; [|by apply Hout].
    apply list_elem_of_fmap in Hi as (nd & Hid & Hnd). by rewrite (Hin nd Hnd (eq_sym Hid)).
Qed.
End Versions.

(** ** Properties *)

Section Properties.
Context `{CityHash} `{FloatToUint} `{MapOrder} `{GoSort} `{Runtime}
  {jsonVersion : Json ShardVersionData} {jsonLaws : JsonLaws ShardVersionData ShardVersionData_zero}.

(** C24: a stored version can be loaded again.  What
    [convertNodeShardsToShardStore] wrote, [convertVersionToNodeShards] accepts, and
    afterwards every active node of its own group has the shards it had: its leader
    shards, then the others, in their order, without their states; inactive nodes
    have none.  Nothing else of the manager changes. *)
Theorem version_roundtrip now sg store status :
  groups_wf (sg_groups sg) →
  map_Forall (λ _, map_Forall (λ id _, 0 ≤ id < 2 ^ 32)) (sg_groups sg) →
  convertNodeShardsToShardStore now sg = (store, status) → Status_Ok status = true →
  convertVersionToNodeShards store sg =
    (set_groups (map_imap (λ name nodes, Some (reload_node name <$> nodes)) (sg_groups sg)) sg,
     StatusOk).
Proof.
  intros Hwf Hids. unfold convertNodeShardsToShardStore.
  destruct (convertNodeShardsToVersionData sg) as [data st] eqn:Ed.
  unfold convertNodeShardsToVersionData in Ed. injection Ed as Hdata <-. cbn [negb Status_Ok].
  destruct (json_Marshal data) as [str|err] eqn:Ej; [|by intros [= <- <-]].
  intros [= <- <-] _. unfold convertVersionToNodeShards. cbn [sto_Data].
  rewrite (json_roundtrip data str Ej), <- Hdata. cbn [sv_ClusterName sv_ShardNumber sv_Groups].
  rewrite String.eqb_refl, Z.eqb_refl. cbn [negb]. do 2 f_equal.
  set (gs := _ <$> sort_Sort String.ltb _).
  assert (gv_GroupName <$> gs = sort_Sort String.ltb (map_range (sg_groups sg)).*1) as Hnames.
  { unfold gs. rewrite <- list_fmap_compose. apply list_fmap_id. }
  apply map_eq. intros name. rewrite map_lookup_imap. unfold load_group.
  destruct (foldl_map_update gv_GroupName (λ group groupInfo,
    foldl (load_node (gv_GroupName group)) groupInfo (gv_Nodes group)) gs
    (fmap (M:=gmap string) (fmap (set_Shards [])) (sg_groups sg)) name) as [Hin Hout].
  { rewrite Hnames, sort_Sort_perm. apply NoDup_fst_map_range. }
  destruct (sg_groups sg !! name) as [nodes|] eqn:E.
  - rewrite (Hin (mkGroupVersionData name (default "default" (sg_groupToDc sg !! name))
                    (version_nodes name nodes))); [|..|done].
    + rewrite lookup_fmap, E. cbn. rewrite reload_nodes; [done|].
      intros id n Hn. split; [by apply (Hwf name nodes E id n)|by apply (Hids name nodes E id n)].
    + unfold gs. apply list_elem_of_fmap. exists name. rewrite E. split; [done|].
      rewrite sort_Sort_perm, list_elem_of_fmap. exists (name, nodes). by rewrite elem_of_map_range.
  - rewrite Hout; [by rewrite lookup_fmap, E|]. rewrite Hnames, sort_Sort_perm, list_elem_of_fmap.
    intros ([k v] & -> & Hk%elem_of_map_range). cbn in E. by rewrite E in Hk.
Qed.

(** The operations on a manager. *)
Inductive manager_step : ShardManager → ShardManager → Prop :=
  | manager_update info sg : manager_step sg (UpdateClusterInfo info sg)
  | manager_assign sg : manager_step sg (AssignShards sg).1
  | manager_load version sg : manager_step sg (convertVersionToNodeShards version sg).1.

(** C25: the manager's type invariant.  In every manager that updates, assignments
    and loads lead to from a new one, a node is filed under its own group and id,
    and exactly the groups have a data centre; an assignment or a load changes no
    node but for its shards. *)
Theorem manager_wf serviceName info sg :
  rtc manager_step (GetShardModel serviceName info) sg →
  groups_wf (sg_groups sg) ∧ dom (sg_groupToDc sg) = dom (sg_groups sg) ∧
  same_groups (sg_groups sg) (sg_groups (AssignShards sg).1) ∧
  ∀ version, same_groups (sg_groups sg) (sg_groups (convertVersionToNodeShards version sg).1).
Proof.
  intros Hr. assert (groups_wf (sg_groups sg) ∧ dom (sg_groupToDc sg) = dom (sg_groups sg)) as [Hw Hd].
  { revert sg Hr. apply (rtc_ind_r (λ sg, groups_wf (sg_groups sg) ∧
      dom (sg_groupToDc sg) = dom (sg_groups sg)));
      [split; [apply UpdateClusterInfo_wf|apply UpdateClusterInfo_dom]|].
    intros sg1 sg2 _ Hs [IHw IHd]. destruct Hs as [info' sg1|sg1|version sg1].
    - split; [apply UpdateClusterInfo_wf|apply UpdateClusterInfo_dom].
    - pose proof (AssignShards_same sg1) as Hsame. split; [by eapply same_groups_wf|].
      rewrite <- (same_groups_dom _ _ Hsame). exact IHd.
    - pose proof (convertVersionToNodeShards_same version sg1) as Hsame.
      split; [by eapply same_groups_wf|]. rewrite <- (same_groups_dom _ _ Hsame).
      unfold convertVersionToNodeShards. destruct json_Unmarshal as [data [err|]]; [exact IHd|].
      by repeat case_match. }
  split_and!; [done|done|apply AssignShards_same|].
  intros version. apply convertVersionToNodeShards_same.
Qed.
End Properties.

(** *** Concrete runs *)

#[local] Existing Instances toy_city amd64_uint stdpp_order merge_sorting main_go.

Definition one_group : ShardManager :=
  GetShardModel "s" (mkControlClusterInfo "c" 2 []
    [mkGroupInfo 1 "g" "dc" ""
       [mkNodeInfo "g" 1 "h" 80 1 true NodeActive
          [mkShard "g" 1 1 Follower FollowerStatus; mkShard "g" 1 0 Leader LeaderStatus] false]]).

#[local] Instance one_json : Json ShardVersionData :=
  table_json [(convertNodeShardsToVersionData one_group).1].
#[local] Instance one_json_laws : JsonLaws ShardVersionData ShardVersionData_zero :=
  table_json_laws _ _.

Definition midnight : Now := mkNow 2020 1 1 0 0 0 0.

Lemma version_roundtrip_witness :
  ∃ sg, convertVersionToNodeShards (convertNodeShardsToShardStore midnight one_group).1 one_group =
          (sg, StatusOk) ∧
    (ni_Shards <$> (default ∅ (sg_groups sg !! "g") !! 1)) =
      Some [mkShard "g" 1 0 Leader 0; mkShard "g" 1 1 Follower 0].
Proof.
  eexists. split.
  - apply (version_roundtrip midnight one_group _ (convertNodeShardsToShardStore midnight one_group).2).
    + apply UpdateClusterInfo_wf.
    + apply (bool_decide_unpack _). vm_compute. exact I.
    + destruct (convertNodeShardsToShardStore midnight one_group). reflexivity.
    + vm_compute. reflexivity.
  - vm_compute. reflexivity.
Defined.

Lemma manager_wf_witness : groups_wf (sg_groups (AssignShards one_group).1).
Proof.
  apply (manager_wf "s" (mkControlClusterInfo "c" 2 []
    [mkGroupInfo 1 "g" "dc" ""
       [mkNodeInfo "g" 1 "h" 80 1 true NodeActive
          [mkShard "g" 1 1 Follower FollowerStatus; mkShard "g" 1 0 Leader LeaderStatus] false]])).
  apply rtc_once. apply (manager_assign one_group).
Defined.
