(* ===== verification/ShardAssignment.v ===== *)
(** * Assigning shards by weight: theorems about [assignShardByRole]

    [ShardManager.v] has the definitions.  Here: the numbers of shards by weight
    add up, an assignment to nodes without shards gives every shard to one node,
    and an assignment after a node was added does not. *)

From S2P Require Import Prelude RouterTypes Partition Registry GoLib ControlStatus ControlData ShardMetrics StatusManager ShardManager.

Section Numbers.
Context `{FloatToUint}.
Implicit Types (nodes : list NodeInfo) (n : NodeInfo).

Lemma f64_to_uint_range w x : 0 ≤ w → 0 ≤ f64_to_uint w x < 2 ^ w.
Proof.
  intros Hw. unfold f64_to_uint. pose proof (f64_to_uint_other_range w x Hw).
  destruct f64_trunc; [|done]. destruct (_ && _)%bool eqn:E; [|done]. b2p. lia.
Qed.

Lemma shard_quota_range T w n : 0 ≤ shard_quota T w n < 2 ^ 32.
Proof. apply f64_to_uint_range. lia. Qed.

(** The quotas of a list of nodes, before what remains goes to the last. *)
Definition quotas (T : Z) nodes : list Z := shard_quota T (node_weights nodes) <$> nodes.

(** What [shardNumber] needs so that its [int32] does not overflow and no two
    nodes share an entry. *)
Record numbers_fit (T : Z) nodes : Prop := {
  nf_total : 0 ≤ T < 2 ^ 31;
  nf_quotas : sum_values (quotas T nodes) < 2 ^ 31;
  nf_ids : Forall (λ n, 0 ≤ ni_NodeId n < 2 ^ 31) nodes;
  nf_nodup : NoDup (ni_NodeId <$> nodes)
}.

Lemma number_steps T w nodes :
  0 ≤ T < 2 ^ 31 → sum_values (shard_quota T w <$> nodes) < 2 ^ 31 →
  Forall (λ n, 0 ≤ ni_NodeId n < 2 ^ 31) nodes →
  foldl (shardNumber_step T w) (∅, i32 T, -1) nodes =
    (foldl (λ m n, <[ni_NodeId n := shard_quota T w n]> m) ∅ nodes,
     T - sum_values (shard_quota T w <$> nodes),
     from_option ni_NodeId (-1) (last nodes)).
Proof.
  intros HT. induction nodes as [|n nodes IH] using rev_ind; intros Hs Hids.
  { cbn. rewrite wraps_small by lia. by rewrite Z.sub_0_r. }
  rewrite fmap_app, sum_values_app in *.
  change (sum_values (shard_quota T w <$> [n])) with (shard_quota T w n + 0) in *.
  apply Forall_app in Hids as [Hids Hn]. apply Forall_cons in Hn as [Hn _].
  pose proof (shard_quota_range T w n) as Hq.
  assert (0 ≤ sum_values (shard_quota T w <$> nodes)) as Hpos.
  { apply sum_values_nonneg, Forall_fmap, Forall_true. intros. apply shard_quota_range. }
  rewrite !foldl_app. rewrite IH; [|lia|done]. cbn [foldl shardNumber_step].
  rewrite last_snoc. cbn [from_option].
  rewrite (wraps_small 32 (shard_quota T w n)), !wraps_small by lia. do 2 f_equal. lia.
Qed.

Lemma lookup_insert_all {A} (key : A → Z) (f : A → Z) l a :
  NoDup (key <$> l) → a ∈ l →
  (foldl (λ m a, <[key a := f a]> m) ∅ l : gmap Z Z) !! key a = Some (f a).
Proof.
  induction l as [|b l IH] using rev_ind; intros Hnd Ha; [by apply elem_of_nil in Ha|].
  rewrite fmap_app in Hnd. apply NoDup_app in Hnd as (Hnd & Hdisj & _).
  rewrite foldl_app. cbn [foldl]. apply elem_of_app in Ha as [Ha|Ha%list_elem_of_singleton].
  - rewrite lookup_insert_ne; [by apply IH|]. intros E.
    apply (Hdisj (key a)); [by apply list_elem_of_fmap_2|]. rewrite <- E. left.
  - subst. by rewrite lookup_insert_eq.
Qed.

(** The number of a node: its quota, and for the last node what the quotas leave. *)
Lemma number_of_spec T nodes n :
  numbers_fit T nodes → n ∈ nodes →
  number_of (shardNumber T nodes) n =
    shard_quota T (node_weights nodes) n +
    if decide (last nodes = Some n) then Z.max 0 (T - sum_values (quotas T nodes)) else 0.
Proof.
  intros [HT Hq Hids Hnd] Hn. unfold number_of, shardNumber. fold (quotas T nodes).
  rewrite number_steps by done. fold (quotas T nodes).
  assert (∀ n, n ∈ nodes → i32 (ni_NodeId n) = ni_NodeId n) as Hi.
  { intros m Hm. rewrite Forall_forall in Hids. specialize (Hids m Hm). apply wraps_small; lia. }
  rewrite (Hi n Hn). set (m := foldl _ ∅ nodes).
  assert (∀ n, n ∈ nodes → m !! ni_NodeId n = Some (shard_quota T (node_weights nodes) n)) as Hm.
  { intros n' Hn'. by apply (lookup_insert_all ni_NodeId). }
  destruct (last nodes) as [n0|] eqn:El; cbn [from_option].
  2: { apply last_None in El. subst. by apply elem_of_nil in Hn. }
  apply last_Some_elem_of in El as Hn0.
  pose proof (proj1 (Forall_forall _ _) Hids n0 Hn0) as Hid0. cbn in Hid0.
  assert (shard_quota T (node_weights nodes) n0 ≤ sum_values (quotas T nodes)) as Hle.
  { apply sum_values_elem; [|by apply list_elem_of_fmap_2].
    apply Forall_fmap, Forall_true. intros. apply shard_quota_range. }
  pose proof (shard_quota_range T (node_weights nodes) n0).
  destruct (Z.ltb_spec 0 (T - sum_values (quotas T nodes))); cbn [andb].
  - destruct (Z.leb_spec 0 (ni_NodeId n0)); [|lia]. rewrite (Hm n0 Hn0). cbn [from_option id].
    rewrite (wrapu_small 32 (T - _)), wrapu_small by lia.
    destruct (decide (Some n0 = Some n)) as [[= ->]|Hne].
    + rewrite lookup_insert_eq. cbn. lia.
    + rewrite lookup_insert_ne, (Hm n Hn); [cbn; lia|]. intros E. apply Hne. f_equal.
      by apply (NoDup_fmap_inj ni_NodeId nodes).
  - rewrite (Hm n Hn). cbn. case_decide; lia.
Qed.
End Numbers.

(** The number of a node does not depend on the shards it has. *)
Lemma number_of_set m shards n : number_of m (set_Shards shards n) = number_of m n.
Proof. done. Qed.

Section Fresh.
Context `{FloatToUint}.
Implicit Types (nodes : list NodeInfo) (n : NodeInfo).

Lemma number_of_nonneg T nodes n : numbers_fit T nodes → n ∈ nodes →
  0 ≤ number_of (shardNumber T nodes) n.
Proof.
  intros Hf Hn. rewrite number_of_spec by done.
  pose proof (shard_quota_range T (node_weights nodes) n). case_decide; lia.
Qed.

(** The numbers of the nodes are enough for every shard. *)
Lemma numbers_sum T nodes :
  numbers_fit T nodes → nodes ≠ [] →
  sum_values (number_of (shardNumber T nodes) <$> nodes) = Z.max T (sum_values (quotas T nodes)).
Proof.
  intros Hf Hne. destruct nodes as [|n0 l _] using rev_ind; [done|].
  assert (number_of (shardNumber T (l ++ [n0])) <$> l =
          shard_quota T (node_weights (l ++ [n0])) <$> l) as Hl.
  { apply list_fmap_ext. intros i n Hi%list_elem_of_lookup_2.
    rewrite number_of_spec by (done || apply elem_of_app; by left).
    rewrite last_snoc, decide_False; [lia|]. intros [= ->].
    pose proof (nf_nodup _ _ Hf) as Hnd. rewrite fmap_app in Hnd.
    apply NoDup_app in Hnd as (_ & Hdisj & _). apply (Hdisj (ni_NodeId n)); [|left].
    by apply list_elem_of_fmap_2. }
  unfold quotas. rewrite !fmap_app, !sum_values_app, Hl. cbn [fmap list_fmap].
  rewrite number_of_spec by (done || (apply elem_of_app; right; left)).
  rewrite last_snoc, decide_True by done. unfold quotas. rewrite fmap_app, sum_values_app. cbn. lia.
Qed.

(** The shard a node is given. *)
Definition own_shard n (shardId : Z) : Shard :=
  mkShard (ni_GroupName n) (ni_NodeId n) shardId (if ni_Master n then Leader else Follower) 0.

(** Dealing shards to nodes without any. *)
Fixpoint deal (numbers : gmap Z Z) (remain : list Z) nodes : list NodeInfo :=
  match nodes with
  | [] => []
  | n :: nodes =>
      let k := Z.to_nat (number_of numbers n) in
      set_Shards (own_shard n <$> take k remain) n :: deal numbers (drop k remain) nodes
  end.

Abbreviation fresh n := (ni_Shards n = []).

Lemma grow_step_fresh numbers d remain n :
  fresh n → 0 ≤ number_of numbers n →
  let k := Z.to_nat (number_of numbers n) in
  grow_step numbers (d, remain) n =
    (d ++ [set_Shards (own_shard n <$> take k remain) n], drop k remain).
Proof.
  intros Hn Hk k. unfold grow_step. rewrite Hn. cbn [length].
  destruct (_ || _)%bool eqn:E.
  - assert (take k remain = [] ∧ drop k remain = remain) as [-> ->].
    { apply orb_true_iff in E as [E|E]; b2p.
      - assert (k = 0%nat) as -> by lia. done.
      - destruct remain; [by rewrite take_nil, drop_nil|cbn in E; lia]. }
    do 2 f_equal. destruct n. cbn in *. by subst.
  - b2p. destruct (Z.ltb_spec (Z.of_nat (length remain)) (- (Z.of_nat 0 - number_of numbers n))).
    + rewrite !(take_ge remain), !(drop_ge remain) by lia. done.
    + assert (Z.to_nat (- (Z.of_nat 0 - number_of numbers n)) = k) as -> by lia. done.
Qed.

Lemma grow_fresh numbers d remain nodes :
  Forall (λ n, fresh n ∧ 0 ≤ number_of numbers n) nodes →
  (foldl (grow_step numbers) (d, remain) nodes).1 = d ++ deal numbers remain nodes.
Proof.
  intros Hn. revert d remain. induction Hn as [|n nodes [Hf Hk] _ IH]; intros d remain.
  { by rewrite app_nil_r. }
  cbn [foldl deal]. rewrite grow_step_fresh by done. rewrite IH, <- (assoc_L (++)). done.
Qed.

Lemma shrink_fresh numbers nodes :
  Forall (λ n, fresh n ∧ 0 ≤ number_of numbers n) nodes →
  foldl (shrink_step numbers) ([], ([], ∅)) nodes = (nodes, ([], ∅)).
Proof.
  induction nodes as [|n nodes IH] using rev_ind; [done|].
  intros [Hl [[Hf Hk] _]%Forall_cons]%Forall_app. rewrite foldl_app, IH by done.
  cbn [foldl]. unfold shrink_step. rewrite Hf. cbn [length].
  destruct (Z.leb_spec (Z.of_nat 0 - number_of numbers n) 0); [done|lia].
Qed.

Definition shard_ids (nodes : list NodeInfo) : list Z :=
  nodes ≫= λ n, sh_ShardId <$> ni_Shards n.

Lemma deal_ids numbers remain nodes :
  Forall (λ n, 0 ≤ number_of numbers n) nodes →
  shard_ids (deal numbers remain nodes) =
    take (Z.to_nat (sum_values (number_of numbers <$> nodes))) remain.
Proof.
  intros Hn. revert remain. induction Hn as [|n nodes Hk Hl IH]; intros remain; [done|].
  cbn [deal fmap list_fmap]. change (sum_values (?x :: ?l)) with (x + sum_values l).
  assert (0 ≤ sum_values (number_of numbers <$> nodes)) by by apply sum_values_nonneg, Forall_fmap.
  rewrite Z2Nat.inj_add, <- take_take_drop by lia. unfold shard_ids in *. cbn. rewrite IH. f_equal.
  rewrite <- list_fmap_compose. apply list_fmap_id.
Qed.

(** A node keeps its identity and has shards of its own group, id and role, no
    more than its number. *)
Definition dealt_to (numbers : gmap Z Z) n n' : Prop :=
  same_node n n' ∧ Forall (λ s, s = own_shard n (sh_ShardId s)) (ni_Shards n') ∧
  Z.of_nat (length (ni_Shards n')) ≤ number_of numbers n.

Lemma deal_own numbers remain nodes :
  Forall (λ n, 0 ≤ number_of numbers n) nodes →
  Forall2 (dealt_to numbers) nodes (deal numbers remain nodes).
Proof.
  intros Hn. revert remain. induction Hn as [|n nodes Hk Hl IH]; intros remain; [constructor|].
  cbn [deal]. constructor; [|apply IH]. split; [done|]. cbn. split.
  - apply Forall_fmap, Forall_true. done.
  - rewrite length_fmap. pose proof (length_take_le remain (Z.to_nat (number_of numbers n))).
    rewrite length_take. lia.
Qed.

Lemma filter_unassigned `{∀ s : Z, Decision (s ∉ (∅ : gset Z))} (l : list Z) :
  filter (λ s, s ∉ (∅ : gset Z)) l = l.
Proof. induction l as [|s l IH]; [done|]. rewrite filter_cons, decide_True, IH by set_solver. done. Qed.

Lemma assignShardByRole_deals T nodes :
  numbers_fit T nodes → nodes ≠ [] → Forall (λ n, fresh n) nodes →
  assignShardByRole T nodes = deal (shardNumber T nodes) (seqZ 0 T) nodes ∧
  shard_ids (assignShardByRole T nodes) = seqZ 0 T ∧
  Forall2 (dealt_to (shardNumber T nodes)) nodes (assignShardByRole T nodes).
Proof.
  intros Hf Hne Hfresh.
  assert (Forall (λ n, 0 ≤ number_of (shardNumber T nodes) n) nodes) as Hnn.
  { apply Forall_forall. intros n Hn. by apply number_of_nonneg. }
  assert (assignShardByRole T nodes = deal (shardNumber T nodes) (seqZ 0 T) nodes) as E.
  { unfold assignShardByRole. rewrite shrink_fresh by by apply Forall_and.
    rewrite grow_fresh by by apply Forall_and. cbn [app].
    by rewrite filter_unassigned. }
  rewrite E. split_and!; [done| |by apply deal_own].
  rewrite deal_ids, numbers_sum by done. apply take_ge. rewrite length_seqZ.
  destruct Hf. lia.
Qed.
End Fresh.

Section Group.
Context `{FloatToUint} `{MapOrder}.
Implicit Types (nodes : gmap Z NodeInfo).

(** The nodes of a role with what [assignShardByRole] makes of them. *)
Definition assigned (T : Z) (r : bool) nodes : list (Z * NodeInfo) :=
  zip (role_nodes r nodes).*1 (assignShardByRole T (role_nodes r nodes).*2).

Lemma assigned_length T r nodes :
  length (role_nodes r nodes).*1 = length (assignShardByRole T (role_nodes r nodes).*2).
Proof.
  rewrite <- (Forall2_length _ _ _ (assignShardByRole_same T (role_nodes r nodes).*2)).
  by rewrite !length_fmap.
Qed.

Lemma assigned_keys T r nodes : (assigned T r nodes).*1 = (role_nodes r nodes).*1.
Proof. apply fst_zip. by rewrite assigned_length with (T := T). Qed.

Lemma assigned_values T r nodes :
  (assigned T r nodes).*2 = assignShardByRole T (role_nodes r nodes).*2.
Proof. apply snd_zip. by rewrite assigned_length with (T := T). Qed.

Lemma assigned_master T r nodes kv : kv ∈ assigned T r nodes → ni_Master kv.2 = r.
Proof.
  intros Hin. apply (list_elem_of_fmap_2 snd) in Hin. rewrite assigned_values in Hin.
  apply list_elem_of_lookup in Hin as [i Hi].
  destruct (Forall2_lookup_r _ _ _ _ _ (assignShardByRole_same T (role_nodes r nodes).*2) Hi)
    as (n & Hn & Hs). apply same_node_fields in Hs as (_ & _ & ->).
  apply list_elem_of_lookup_2, list_elem_of_fmap in Hn as (kv' & -> & Hkv).
  by apply list_elem_of_filter in Hkv as [? _].
Qed.

Lemma role_nodes_split nodes : role_nodes false nodes ++ role_nodes true nodes ≡ₚ map_range nodes.
Proof.
  unfold role_nodes. induction (map_range nodes) as [|kv l IH]; [done|].
  rewrite !filter_cons. destruct (ni_Master kv.2); repeat case_decide; try done.
  - by rewrite <- Permutation_middle, IH.
  - cbn. by rewrite IH.
Qed.

(** An assignment in a group is the two assignments by role. *)
Lemma assign_group_range T nodes :
  map_range (assign_group T nodes) ≡ₚ assigned T false nodes ++ assigned T true nodes.
Proof.
  set (l := assigned T false nodes ++ assigned T true nodes).
  assert (l.*1 ≡ₚ (map_range nodes).*1) as Hk.
  { unfold l. rewrite fmap_app, !assigned_keys, <- fmap_app. by rewrite role_nodes_split. }
  assert (NoDup l.*1) as Hnd by (rewrite Hk; apply NoDup_fst_map_range).
  rewrite map_range_perm. rewrite <- (map_to_list_to_map l) by done. apply reflexive_eq. f_equal.
  unfold assign_group, assign_role. fold (assigned T false nodes) (assigned T true nodes).
  unfold l in Hnd. rewrite fmap_app in Hnd. apply NoDup_app in Hnd as (Hf & _ & Ht).
  rewrite !foldl_insert_union by done. unfold l. rewrite list_to_map_app, assoc_L by apply _.
  apply map_eq. intros k. rewrite <- list_to_map_app. fold l. rewrite lookup_union.
  destruct (list_to_map l !! k) as [n|] eqn:E; [by destruct (nodes !! k)|].
  apply not_elem_of_list_to_map in E. rewrite Hk in E.
  destruct (nodes !! k) as [n|] eqn:En; [|done]. destruct E.
  apply list_elem_of_fmap. exists (k, n). by rewrite elem_of_map_range.
Qed.

Lemma role_nodes_assign T r nodes :
  role_nodes r (assign_group T nodes) ≡ₚ assigned T r nodes.
Proof.
  unfold role_nodes at 1. rewrite assign_group_range, filter_app.
  assert (∀ r', filter (λ kv, ni_Master kv.2 = r) (assigned T r' nodes) =
            if decide (r' = r) then assigned T r' nodes else []) as Hfil.
  { intros r'. pose proof (assigned_master T r' nodes) as Hm.
    induction (assigned T r' nodes) as [|kv l IH]; [by case_decide|].
    rewrite filter_cons, (Hm kv) by left. specialize (IH ltac:(intros; apply Hm; by right)).
    rewrite IH. by repeat case_decide. }
  rewrite !Hfil. destruct r; cbn; [done|by rewrite app_nil_r].
Qed.
End Group.

(** ** Properties *)

Section Properties.
Context `{FloatToUint} `{MapOrder}.

(** C18: a first assignment.  Where the nodes of a role in a group have no shards,
    ids below [2^31] and quotas that fit an [int32], [AssignShards] gives every
    shard [0 .. shardTotal - 1] to exactly one of them, whatever the weights, the
    rounding of the quotas and the order of the map; each shard is recorded with
    its node, its group and the role. *)
Theorem AssignShards_fresh sg name nodes r :
  let l := (role_nodes r nodes).*2 in
  groups_wf (sg_groups sg) → sg_groups sg !! name = Some nodes →
  0 ≤ sg_shardTotal sg < 2 ^ 31 → sum_values (quotas (sg_shardTotal sg) l) < 2 ^ 31 →
  l ≠ [] → Forall (λ n, ni_Shards n = [] ∧ 0 ≤ ni_NodeId n < 2 ^ 31) l →
  ∃ nodes', sg_groups (AssignShards sg).1 !! name = Some nodes' ∧
    ((role_nodes r nodes').*2 ≫= λ n, sh_ShardId <$> ni_Shards n) ≡ₚ seqZ 0 (sg_shardTotal sg) ∧
    ∀ n s, n ∈ (role_nodes r nodes').*2 → s ∈ ni_Shards n →
      s = mkShard name (ni_NodeId n) (sh_ShardId s) (if r then Leader else Follower) 0.
Proof.
  intros l Hwf Hname HT Hq Hne Hl. apply Forall_and in Hl as [Hfresh Hids].
  exists (assign_group (sg_shardTotal sg) nodes). split; [by rewrite lookup_AssignShards, Hname|].
  assert (∀ kv, kv ∈ role_nodes r nodes →
            ni_NodeId kv.2 = kv.1 ∧ ni_GroupName kv.2 = name ∧ ni_Master kv.2 = r) as Hrole.
  { intros [k n] [Hm Hin%elem_of_map_range]%list_elem_of_filter.
    destruct (Hwf name nodes Hname k n Hin). done. }
  assert (NoDup (fmap (M:=list) ni_NodeId l)) as Hnd.
  { assert (fmap (M:=list) ni_NodeId l = (role_nodes r nodes).*1) as ->.
    { unfold l. rewrite <- list_fmap_compose. apply list_fmap_ext.
      intros i kv Hkv%list_elem_of_lookup_2. by apply Hrole. }
    apply (sublist_NoDup _ (map_range nodes).*1); [apply NoDup_fst_map_range|].
    apply fmap_sublist, sublist_filter. }
  destruct (assignShardByRole_deals (sg_shardTotal sg) l) as (_ & Hall & Hown); [done..|].
  split; [rewrite role_nodes_assign, assigned_values; fold l; by rewrite <- Hall|].
  intros n s Hn Hs. rewrite role_nodes_assign, assigned_values in Hn. fold l in Hn. apply list_elem_of_lookup in Hn as [i Hi].
  destruct (Forall2_lookup_r _ _ _ _ _ Hown Hi) as (n0 & Hn0 & Hsame & Hsh & _).
  rewrite Forall_forall in Hsh. rewrite (Hsh s Hs). unfold own_shard. cbn.
  apply same_node_fields in Hsame as (-> & _ & _).
  apply list_elem_of_lookup_2, list_elem_of_fmap in Hn0 as (kv & -> & Hkv).
  by destruct (Hrole kv Hkv) as (_ & -> & ->).
Qed.

(** An assignment after a node was added is wrong.  When the node [a] has more
    shards than its number and [b] was just added, [b] is given the first shards
    that [a] keeps: every shard of [b] is on [a] as well, and the shards [a] was to
    give up are on neither. *)
Theorem assignShardByRole_rebalance T a b :
  let na := number_of (shardNumber T [a; b]) a in
  let nb := number_of (shardNumber T [a; b]) b in
  ni_Shards b = [] → 0 < nb ≤ na → na < Z.of_nat (length (ni_Shards a)) →
  assignShardByRole T [a; b] =
    [set_Shards (take (Z.to_nat na) (ni_Shards a)) a;
     set_Shards (own_shard b <$> take (Z.to_nat nb) (sh_ShardId <$> ni_Shards a)) b].
Proof.
  intros na nb Hb Hn Ha. set (kept := take (Z.to_nat na) (ni_Shards a)).
  assert (length kept = Z.to_nat na) as Hkept by (unfold kept; rewrite length_take; lia).
  assert (∀ d r u, shrink_step (shardNumber T [a; b]) (d, (r, u)) a =
    (d ++ [set_Shards kept a], (r ++ (sh_ShardId <$> kept), u ∪ list_to_set (sh_ShardId <$> kept)))) as Hsa.
  { intros. unfold shrink_step. fold na.
    destruct (Z.leb_spec (Z.of_nat (length (ni_Shards a)) - na) 0); [lia|].
    replace (Z.of_nat (length (ni_Shards a)) - (Z.of_nat (length (ni_Shards a)) - na)) with na by lia.
    done. }
  assert (∀ d r, shrink_step (shardNumber T [a; b]) (d, r) b = (d ++ [b], r)) as Hsb.
  { intros d [r u]. unfold shrink_step. fold nb. rewrite Hb.
    by destruct (Z.leb_spec (Z.of_nat (length (@nil Shard)) - nb) 0); [|cbn in *; lia]. }
  assert (∀ d r, grow_step (shardNumber T [a; b]) (d, r) (set_Shards kept a) =
            (d ++ [set_Shards kept a], r)) as Hga.
  { intros. unfold grow_step. rewrite number_of_set. fold na.
    cbn [ni_Shards set_Shards]. rewrite Hkept.
    by destruct (Z.leb_spec 0 (Z.of_nat (Z.to_nat na) - na)); [|lia]. }
  unfold assignShardByRole. cbn [foldl]. rewrite Hsa, Hsb. set (rest := filter _ (seqZ 0 T)).
  cbn [app foldl]. rewrite Hga.
  rewrite (grow_step_fresh _ _ _ b) by (done || (fold nb; lia)). fold nb. cbn [app fst].
  do 3 f_equal. f_equal. rewrite take_app_le by (rewrite length_fmap; lia).
  unfold kept. rewrite fmap_take, take_take. f_equal. lia.
Qed.
End Properties.

(** *** Concrete runs *)

#[local] Existing Instances toy_city amd64_uint stdpp_order.

Definition plain_node (id : Z) (master : bool) (shards : list Shard) : NodeInfo :=
  mkNodeInfo "g" id "" 0 1 master NodeActive shards false.

Definition three_nodes : ShardManager :=
  GetShardModel "s" (mkControlClusterInfo "c" 7 []
    [mkGroupInfo 1 "g" "dc" "" [plain_node 1 true []; plain_node 2 true []; plain_node 3 false []]]).

Lemma AssignShards_fresh_witness :
  ∃ nodes', sg_groups (AssignShards three_nodes).1 !! "g" = Some nodes' ∧
    ((role_nodes true nodes').*2 ≫= λ n, sh_ShardId <$> ni_Shards n) ≡ₚ seqZ 0 7.
Proof.
  destruct (AssignShards_fresh three_nodes "g"
    (default ∅ (sg_groups three_nodes !! "g")) true) as (nodes' & E & Hs & _).
  - apply UpdateClusterInfo_wf.
  - vm_compute. reflexivity.
  - vm_compute. split; [discriminate|reflexivity].
  - vm_compute. reflexivity.
  - vm_compute. discriminate.
  - apply (bool_decide_unpack _). vm_compute. exact I.
  - exists nodes'. split; [exact E|exact Hs].
Defined.

(** Four shards on one node, and a second node of the same weight. *)
Lemma assignShardByRole_rebalance_witness :
  shard_ids (assignShardByRole 4
    [plain_node 1 false (own_shard (plain_node 1 false []) <$> [0; 1; 2; 3]); plain_node 2 false []]) =
    [0; 1; 0; 1].
Proof.
  rewrite (assignShardByRole_rebalance 4).
  - vm_compute. reflexivity.
  - reflexivity.
  - vm_compute. split; [reflexivity|discriminate].
  - vm_compute. reflexivity.
Defined.
