(* ===== verification/ReduceMetrics.v ===== *)
(** * Shedding load ([control/service/reduce_metrics.go])

    [ReduceMetrics] lowers the load of a group's follower nodes: host by host it
    chooses shards to make unavailable until the host is down to its share, and
    tells the hosts.  The answers of the hosts are only logged. *)

From S2P Require Import Prelude RouterTypes Partition Registry GoLib ControlStatus ControlData ShardMetrics.

(** ** Data *)

Record ShardReduction := mkShardReduction {
  rd_ShardId : Z;
  rd_ReduceNum : double
}.

Record ReduceMetricsInfo := mkReduceMetricsInfo {
  rm_Address : string;
  rm_Metrics : list ShardReduction
}.

Record GroupReduceMerticsParams := mkGroupReduceMerticsParams {
  grp_GroupId : Z;
  grp_ReduceRate : Z;
  grp_ReduceMode : string
}.

(** What a POST comes to: an error of the request or of reading the body, or a
    status code with its text. *)
Class HttpPost := { http_Post : string → string → (Z * string) + error }.

Abbreviation HostShards := (gmap string ShardInfo).

(** ** Operations *)

Section Reduce.
Context `{CityHash} `{MapOrder} `{GoSort} {DB : Type} `{ControlDb DB}
  {jsonNode : Json NodeBasicInfo} {jsonShards : Json HostShards}.

(** [shardInfo.Metrics[mode]]. *)
Definition metric_value (mode : string) (info : ShardInfo) : double :=
  default f64_zero (si_Metrics info !! mode).

Definition sum_host (mode : string) (value : double) (shards : HostShards) : double :=
  foldl (λ value kv, f64_add value (metric_value mode kv.2)) value (map_range shards).

Definition getTotalMetricsValue (data : gmap Z HostShards) (reduceMode : string) : double :=
  foldl (λ value kv, sum_host reduceMode value kv.2) f64_zero (map_range data).

Definition sortByMode (nodeHash : Z) (shardList : HostShards) (mode : string) : HostShards :=
  let shardMetricsValue :=
    sort_SliceStable (λ a b, SFltb (metric_value mode a) (metric_value mode b))
      (map_range shardList).*2 in
  foldl (λ retValue metrics, <[GetShardHash nodeHash (si_ShardId metrics) := metrics]> retValue)
    ∅ shardMetricsValue.

Definition ReduceModel_GetSpecShardNum (id : Z) (reduceShard : HostShards) : Z :=
  foldl (λ num kv, if Z.eqb (si_ShardId kv.2) id then u32 (num + 1) else num) 0
    (map_range reduceShard).

Definition checkShardCanDisable (mm : ShardMetricsManager) (info : ShardInfo)
    (reduceShard : HostShards) (currentValue shouldDisableValue : double) : bool :=
  if Z.eqb (si_Role info) Leader then false
  else if (SFltb f64_zero currentValue && SFltb currentValue shouldDisableValue)%bool then
    let shardNumInCache := ShardMetricsManager_GetSpecShardNum mm (si_ShardId info) Follower in
    let shardNumInDisable := ReduceModel_GetSpecShardNum (si_ShardId info) reduceShard in
    Z.ltb 1 (u32 (shardNumInCache - shardNumInDisable))
  else false.

(** The loop over the shards of a host, with its [break]. *)
Fixpoint reduce_loop (mm : ShardMetricsManager) (mode : string) (shards : list (string * ShardInfo))
    (reduceShardList : HostShards) (left : double) : HostShards :=
  match shards with
  | [] => reduceShardList
  | (shardHash, shardInfo) :: shards =>
      if checkShardCanDisable mm shardInfo reduceShardList (metric_value mode shardInfo) left then
        let reduceShardList := <[shardHash := shardInfo]> reduceShardList in
        let left := f64_sub left (metric_value mode shardInfo) in
        if SFleb left f64_zero then reduceShardList
        else reduce_loop mm mode shards reduceShardList left
      else reduce_loop mm mode shards reduceShardList left
  end.

(** What is decided for a host: [None] where its load is low enough. *)
Definition reduce_host (mm : ShardMetricsManager) (mode : string) (leftValuePerHost : double)
    (hostInfoHash : Z) (shards : HostShards) : option HostShards :=
  let currentHostMetricsValue := sum_host mode f64_zero shards in
  let _ := sortByMode hostInfoHash shards mode in (* the result is dropped *)
  let left := f64_sub currentHostMetricsValue leftValuePerHost in
  if SFltb left f64_zero then None
  else Some (reduce_loop mm mode (map_range shards) ∅ left).

(** One node of the group: master nodes and leader shards are left out. *)
Definition host_step (mm : ShardMetricsManager)
    (acc : gmap Z NodeBasicInfo * gmap Z HostShards) (nodeInfo : Node)
  : go (gmap Z NodeBasicInfo * gmap Z HostShards) :=
  let groupName := g_Name (n_GroupInfo nodeInfo) in
  let nodeHash := GetNodeHash groupName (n_NodeId nodeInfo) in
  let '(nodeInfoBasic, nodeMetricsInfo) := GetNodeShardInfo mm groupName (n_NodeId nodeInfo) in
  master ← go_deref (nb_Master nodeInfoBasic);
  if (master : bool) then mret acc
  else
    let shardMetricsList :=
      foldl (λ l kv, if Z.eqb (si_Role kv.2) Leader then l else <[kv.1 := kv.2]> l) ∅
        (map_range nodeMetricsInfo) in
    mret (<[nodeHash := nodeInfoBasic]> acc.1, <[nodeHash := shardMetricsList]> acc.2).

Definition getAllHostShardInfo (db : DB) (mm : ShardMetricsManager) (groupId : Z)
  : go (gmap Z NodeBasicInfo * gmap Z HostShards) :=
  go_fold (host_step mm) (Node_list db (mkNodeListParams 0 0 groupId None) false).1 (∅, ∅).

Definition host_address (hostValue : NodeBasicInfo) : string :=
  nb_Host hostValue +:+ ":" +:+ Itoa (nb_Port hostValue).

Definition reduceMetricsHandle (db : DB) (mm : ShardMetricsManager) (groupId : Z)
    (leftRate : double) (reduceMode : string) : go (gmap string HostShards) :=
  '(hostInfo, hostMetrics) ← getAllHostShardInfo db mm groupId;
  let totalMetricsValue := getTotalMetricsValue hostMetrics reduceMode in
  let leftValuePerHost := f64_div (f64_mul totalMetricsValue leftRate)
                            (f64_of_Z (Z.of_nat (size hostInfo))) in
  mret (foldl (λ result kv,
    match reduce_host mm reduceMode leftValuePerHost kv.1 (default ∅ (hostMetrics !! kv.1)) with
    | None => result
    | Some reduceShardList => <[host_address kv.2 := reduceShardList]> result
    end) ∅ (map_range hostInfo)).

(** *** Telling the hosts *)

Context `{Runtime} `{HttpPost} {jsonIds : Json (list Z)}.

Definition disableShardList (host info : string) : Status :=
  let url := "http://" +:+ host +:+ "/shard/unavailable" in
  match http_Post url info with
  | inr err => StatusWithError (Some err)
  | inl (code, status) =>
      if negb (Z.eqb code 200) then StatusWithMessage ShardDupFailed status else StatusOk
  end.

(** [json, _ := json.Marshal(x)]. *)
Definition marshal_ids (l : list Z) : string :=
  match json_Marshal l with inl s => s | inr _ => "" end.

(** The requests to the hosts in their order, with the status of each: the list
    of unavailable shards is emptied, then set. *)
Definition disableShardMetricsHandle (result : gmap string HostShards)
  : list (string * list Z * Status) :=
  '(address, hostMetrics) ← map_range result;
  let shardIdList : list Z := (λ kv, si_ShardId kv.2) <$> map_range hostMetrics in
  [(address, [], disableShardList address (marshal_ids []));
   (address, shardIdList, disableShardList address (marshal_ids shardIdList))].

(** The result with the requests that were sent. *)
Definition reduceAction (db : DB) (mm : ShardMetricsManager) (params : GroupReduceMerticsParams)
  : go (gmap string HostShards * list (string * list Z * Status)) :=
  let leftRate := f64_div (f64_of_Z (grp_ReduceRate params)) (f64_of_Z 100) in
  result ← (if Z.eqb (grp_ReduceRate params) 100 then mret ∅
            else reduceMetricsHandle db mm (grp_GroupId params) leftRate (grp_ReduceMode params));
  mret (result, disableShardMetricsHandle result).

Definition ReduceMetrics (db : DB) (mm : ShardMetricsManager) (params : GroupReduceMerticsParams)
  : go (list ReduceMetricsInfo * list (string * list Z * Status)) :=
  '(result, requests) ← reduceAction db mm params;
  mret ((λ kv, mkReduceMetricsInfo kv.1
           ((λ sm, mkShardReduction (si_ShardId sm.2) (metric_value (grp_ReduceMode params) sm.2)) <$>
              map_range (kv.2 : HostShards))) <$> map_range result, requests).
End Reduce.

(** ** Lemmas *)

Section Lemmas.
Context `{CityHash} `{MapOrder} `{GoSort} {DB : Type} `{ControlDb DB}
  {jsonNode : Json NodeBasicInfo} {jsonShards : Json HostShards}.

Lemma GetSpecShardNum_range mm id role :
  0 ≤ ShardMetricsManager_GetSpecShardNum mm id role < 2 ^ 32.
Proof.
  unfold ShardMetricsManager_GetSpecShardNum.
  rewrite (count_bounded (λ s, Z.eqb (si_ShardId s) id && Z.eqb (si_Role s) role)%bool).
  case_decide; [lia|]. by apply wrapu_range.
Qed.

(** Nothing of a shard was disabled on the host yet. *)
Lemma GetSpecShardNum_none id (red : HostShards) :
  (∀ h i, red !! h = Some i → si_ShardId i ≠ id) → ReduceModel_GetSpecShardNum id red = 0.
Proof.
  intros Hid. unfold ReduceModel_GetSpecShardNum.
  assert (∀ kv, kv ∈ map_range red → si_ShardId kv.2 ≠ id) as Hl.
  { intros [h i] Hin%elem_of_map_range. by apply (Hid h i). }
  induction (map_range red) as [|kv l IH]; [done|]. cbn.
  destruct (Z.eqb_spec (si_ShardId kv.2) id) as [E|E].
  - destruct (Hl kv); [left|done].
  - apply IH. intros. apply Hl. by right.
Qed.

(** What may be disabled: no leader, under load, and not the only follower. *)
Definition may_disable (mm : ShardMetricsManager) (mode : string) (info : ShardInfo) : Prop :=
  si_Role info ≠ Leader ∧ SFltb f64_zero (metric_value mode info) = true ∧
  1 < ShardMetricsManager_GetSpecShardNum mm (si_ShardId info) Follower.

Lemma check_may_disable mm mode info red left :
  checkShardCanDisable mm info red (metric_value mode info) left = true →
  (∀ h i, red !! h = Some i → si_ShardId i ≠ si_ShardId info) →
  may_disable mm mode info.
Proof.
  unfold checkShardCanDisable. destruct (Z.eqb_spec (si_Role info) Leader); [done|].
  destruct (SFltb f64_zero _) eqn:E; [|done]. destruct (SFltb _ left); [|done]. cbn [andb].
  intros Hc Hred. rewrite GetSpecShardNum_none in Hc by done. b2p.
  rewrite Z.sub_0_r, wrapu_small in Hc by apply GetSpecShardNum_range. done.
Qed.

Lemma reduce_loop_sound mm mode shards red left h info :
  NoDup ((λ kv, si_ShardId kv.2) <$> shards) →
  (∀ h' i, red !! h' = Some i → si_ShardId i ∉ (λ kv, si_ShardId kv.2) <$> shards) →
  reduce_loop mm mode shards red left !! h = Some info →
  red !! h = Some info ∨ ((h, info) ∈ shards ∧ may_disable mm mode info).
Proof.
  revert red left. induction shards as [|[h0 i0] shards IH]; intros red left Hnd Hred.
  { by left. }
  cbn [fmap list_fmap snd] in *. apply NoDup_cons in Hnd as [Hi0 Hnd].
  assert (∀ h' i, red !! h' = Some i →
    si_ShardId i ≠ si_ShardId i0 ∧ si_ShardId i ∉ (λ kv, si_ShardId kv.2) <$> shards) as Hr.
  { intros h' i Hi. by apply not_elem_of_cons, (Hred h'). }
  cbn [reduce_loop]. destruct (checkShardCanDisable _ _ _ _ _) eqn:Ec.
  - assert (may_disable mm mode i0) as Hm by (eapply check_may_disable; [done|]; intros; by eapply Hr).
    assert (∀ h' i, <[h0 := i0]> red !! h' = Some i →
      si_ShardId i ∉ (λ kv, si_ShardId kv.2) <$> shards) as Hr'.
    { intros h' i [[<- <-]|[_ Hi]]%lookup_insert_Some; [done|by eapply Hr]. }
    intros Hres. assert (<[h0 := i0]> red !! h = Some info ∨
      ((h, info) ∈ shards ∧ may_disable mm mode info)) as [[[<- <-]|[_ Hi]]%lookup_insert_Some|[Hin Hm']].
    { destruct (SFleb _ _); [by left|]. by eapply IH. }
    + right. split; [left|done].
    + by left.
    + right. split; [by right|done].
  - intros Hres. destruct (IH red left Hnd (λ h' i Hi, proj2 (Hr h' i Hi)) Hres) as [?|[? ?]]; [by left|].
    right. split; [by right|done].
Qed.

(** The shards of a host that are considered: those that are not leaders. *)
Lemma non_leaders (infos : HostShards) h i :
  foldl (λ l kv, if Z.eqb (si_Role kv.2) Leader then l else <[kv.1 := kv.2]> l) (∅ : HostShards)
    (map_range infos) !! h = Some i → infos !! h = Some i ∧ si_Role i ≠ Leader.
Proof.
  rewrite <- (elem_of_map_range infos). induction (map_range infos) as [|kv l IH] using rev_ind; [done|].
  rewrite foldl_app. cbn [foldl]. rewrite elem_of_app.
  destruct (Z.eqb_spec (si_Role kv.2) Leader); [intros Hi%IH; naive_solver|].
  rewrite lookup_insert_Some. destruct kv as [k v]. cbn in *.
  intros [[<- <-]|[_ Hi%IH]]; [|naive_solver]. split; [right; left|done].
Qed.

Lemma host_step_cases mm acc node :
  (∃ acc', host_step mm acc node = Ret acc') ∨ host_step mm acc node = Panic NilPointerDereference.
Proof.
  unfold host_step. destruct (GetNodeShardInfo mm _ _) as [b infos]. unfold go_deref.
  destruct (nb_Master b) as [[]|]; cbn; eauto.
Qed.

(** A host of the result of [getAllHostShardInfo]. *)
Definition host_of (mm : ShardMetricsManager) (nodes : list Node)
    (acc : gmap Z NodeBasicInfo * gmap Z HostShards) : Prop :=
  ∀ k basic, acc.1 !! k = Some basic → ∃ node shards, node ∈ nodes ∧
    let '(b, infos) := GetNodeShardInfo mm (g_Name (n_GroupInfo node)) (n_NodeId node) in
    b = basic ∧ nb_Master b = Some false ∧ acc.2 !! k = Some shards ∧
    ∀ h i, shards !! h = Some i → infos !! h = Some i ∧ si_Role i ≠ Leader.

Lemma getAllHostShardInfo_hosts db mm groupId hosts :
  getAllHostShardInfo db mm groupId = Ret hosts →
  host_of mm (Node_list db (mkNodeListParams 0 0 groupId None) false).1 hosts.
Proof.
  unfold getAllHostShardInfo. set (nodes := (Node_list _ _ _).1).
  apply (go_fold_inv (host_of mm nodes)); [|by intros k b].
  intros acc node acc' Hin Hacc. unfold host_step.
  destruct (GetNodeShardInfo mm _ _) as [b infos] eqn:Eg. unfold go_deref.
  destruct (nb_Master b) as [[]|] eqn:Em; cbn [mbind go_bind mret go_ret]; [by intros [= <-]| |done].
  intros [= <-] k basic. cbn [fst snd]. intros [[<- <-]|[Hne Hb]]%lookup_insert_Some.
  - eexists node, _. rewrite Eg. split_and!; [done|done|done|by rewrite lookup_insert_eq|].
    intros h i. apply non_leaders.
  - destruct (Hacc k basic Hb) as (node' & shards & Hn & Hs). exists node', shards.
    split; [done|]. destruct (GetNodeShardInfo mm _ (n_NodeId node')). by rewrite lookup_insert_ne.
Qed.
End Lemmas.

(** ** Properties *)

Section Properties.
Context `{CityHash} `{MapOrder} `{GoSort} {DB : Type} `{ControlDb DB}
  {jsonNode : Json NodeBasicInfo} {jsonShards : Json HostShards}.

(** C26: what is made unavailable.  Where a host reports a shard once, every shard
    that [reduceMetricsHandle] chooses for an address is a cached shard of a node of
    the group at that address which is no master; it is no leader, its load is
    positive and the cache has another follower of the same shard. *)
Theorem reduceMetricsHandle_safe db mm groupId leftRate mode result addr shards h info :
  let nodes := (Node_list db (mkNodeListParams 0 0 groupId None) false).1 in
  let cached node := GetNodeShardInfo mm (g_Name (n_GroupInfo node)) (n_NodeId node) in
  (∀ node h1 h2 i1 i2, node ∈ nodes → (cached node).2 !! h1 = Some i1 →
     (cached node).2 !! h2 = Some i2 → si_ShardId i1 = si_ShardId i2 → h1 = h2) →
  reduceMetricsHandle db mm groupId leftRate mode = Ret result →
  result !! addr = Some shards → shards !! h = Some info →
  ∃ node, node ∈ nodes ∧ addr = host_address (cached node).1 ∧
    nb_Master (cached node).1 = Some false ∧ (cached node).2 !! h = Some info ∧
    si_Role info ≠ Leader ∧ SFltb f64_zero (metric_value mode info) = true ∧
    1 < ShardMetricsManager_GetSpecShardNum mm (si_ShardId info) Follower.
Proof.
  intros nodes cached Hids. unfold reduceMetricsHandle.
  destruct (getAllHostShardInfo db mm groupId) as [[hostInfo hostMetrics]| |] eqn:Eh; [|done..].
  apply getAllHostShardInfo_hosts in Eh. cbn [mbind go_bind mret go_ret]. intros [= <-].
  set (left := f64_div _ _).
  assert (∀ kv, kv ∈ map_range hostInfo → hostInfo !! kv.1 = Some kv.2) as Hin.
  { intros [] Hkv. by apply elem_of_map_range in Hkv. }
  revert Hin. induction (map_range hostInfo) as [|[k basic] l IH] using rev_ind; [done|].
  intros Hin. rewrite foldl_app. cbn [foldl fst snd]. intros Hres Hsh.
  assert (foldl _ ∅ l !! addr = Some shards → _) as IH' by
    (intros Hl; refine (IH _ Hl Hsh); intros; apply Hin, elem_of_app; by left).
  destruct (reduce_host _ _ _ _ _) as [red|] eqn:Er; [|by apply IH'].
  apply lookup_insert_Some in Hres as [[<- <-]|[_ Hl]]; [|by apply IH'].
  destruct (Eh k basic) as (node & hs & Hn & Hg);
    [apply (Hin (k, basic)), elem_of_app; right; left|].
  exists node. unfold cached in *. split; [done|]. specialize (Hids node).
  destruct (GetNodeShardInfo mm _ _) as [b infos]. destruct Hg as (-> & Hm & Hk & Hnl).
  cbn [fst snd] in *. split; [done|]. split; [done|].
  unfold reduce_host in Er. cbn [snd] in Hk. rewrite Hk in Er. cbn [from_option id] in Er.
  destruct (SFltb (f64_sub _ _) f64_zero); [done|]. injection Er as <-.
  apply reduce_loop_sound in Hsh as [?|[Hh Hmay]]; [done| | |].
  - apply elem_of_map_range, Hnl in Hh as [Hh _]. destruct Hmay as (? & ? & ?). done.
  - apply NoDup_fmap_2_strong; [|apply (NoDup_fmap_1 fst), NoDup_fst_map_range].
    intros [h1 i1] [h2 i2] [Hi1 _]%elem_of_map_range%Hnl [Hi2 _]%elem_of_map_range%Hnl E. cbn in E.
    pose proof (Hids h1 h2 i1 i2 Hn Hi1 Hi2 E) as ->. congruence.
  - done.
Qed.

(** A node that was never polled.  If the cache has nothing of some node of the
    group, its [Master] is a nil pointer and [reduceMetricsHandle] panics. *)
Theorem reduceMetricsHandle_panics db mm groupId leftRate mode node :
  JsonLaws NodeBasicInfo NodeBasicInfo_zero →
  node ∈ (Node_list db (mkNodeListParams 0 0 groupId None) false).1 →
  (cached (mm_shardMetrics mm)
     (g_Name (n_GroupInfo node), GetNodeHash (g_Name (n_GroupInfo node)) (n_NodeId node))).1 = None →
  reduceMetricsHandle db mm groupId leftRate mode = Panic NilPointerDereference.
Proof.
  intros Hj Hn Hc. unfold reduceMetricsHandle, getAllHostShardInfo.
  assert (∀ acc, host_step mm acc node = Panic NilPointerDereference) as Hp.
  { intros acc. unfold host_step, GetNodeShardInfo. cbn in Hc. rewrite Hc. cbn [from_option].
    assert (json_copy NodeBasicInfo_zero NodeBasicInfo_zero = NodeBasicInfo_zero) as ->; [|done].
    by apply json_copy_zero. }
  assert (∀ acc, go_fold (host_step mm) (Node_list db (mkNodeListParams 0 0 groupId None) false).1 acc =
    Panic NilPointerDereference) as ->; [|done].
  apply list_elem_of_split in Hn as (l1 & l2 & ->). induction l1 as [|n l1 IH]; intros acc; cbn [app go_fold].
  - by rewrite Hp.
  - destruct (host_step_cases mm acc n) as [[acc' ->]| ->]; [apply IH|done].
Qed.
End Properties.

(** *** Concrete runs: two hosts with the same two followers *)

#[local] Existing Instances toy_city stdpp_order merge_sorting rows_db.

Definition loaded_shard (id kps : Z) : ShardInfo :=
  mkShardInfo id "" Follower ServiceAvailable 0 0 {[ ReadKpsMin1 := f64_of_Z kps ]} [].

Definition two_followers (nodeId : Z) : HostShards :=
  let shard id kps := (GetShardHash (GetNodeHash "g" nodeId) id, loaded_shard id kps) in
  list_to_map [shard 5 10; shard 6 100].

Definition host_basic (nodeId : Z) : NodeBasicInfo :=
  mkNodeBasicInfo "g" nodeId ("h" +:+ Itoa nodeId) 80 (Some false) true.

Definition two_hosts : ShardMetricsManager :=
  let at_node {A} (f : Z → A) : gmap Z A :=
    list_to_map ((λ nodeId, (GetNodeHash "g" nodeId, f nodeId)) <$> [1; 2]) in
  mkShardMetricsManager {[ "g" := mkGroupShardMetrics (at_node host_basic) (at_node two_followers) ]} 5000.

Definition two_host_rows : Rows :=
  mkRows [] [] [] [node_row 1 1 "h1" false; node_row 2 2 "h2" false] [].

#[local] Instance hosts_json : Json NodeBasicInfo := table_json (host_basic <$> [1; 2]).
#[local] Instance followers_json : Json HostShards := table_json (two_followers <$> [1; 2]).

Definition tenth : double := f64_div (f64_of_Z 10) (f64_of_Z 100).

(** The shards chosen for an address. *)
Definition chosen (r : go (gmap string HostShards)) (addr : string) : list Z :=
  match r with Ret m => (λ kv, si_ShardId kv.2) <$> map_to_list (default ∅ (m !! addr)) | _ => [] end.

(** The last follower.  The choice is made host by host: with two hosts that
    hold the only two followers of a shard, both are chosen, and no follower of the
    shard stays available, although each choice was allowed because the cache had
    the other one. *)
Theorem reduce_every_follower :
  let r := reduceMetricsHandle two_host_rows two_hosts 1 tenth ReadKpsMin1 in
  ShardMetricsManager_GetSpecShardNum two_hosts 5 Follower = 2 ∧
  chosen r "h1:80" = [5] ∧ chosen r "h2:80" = [5].
Proof. vm_compute. split_and!; reflexivity. Qed.

Lemma reduceMetricsHandle_safe_witness :
  ∃ result shards,
    reduceMetricsHandle two_host_rows two_hosts 1 tenth ReadKpsMin1 = Ret result ∧
    result !! "h1:80" = Some shards ∧
    ∀ h info, shards !! h = Some info →
      1 < ShardMetricsManager_GetSpecShardNum two_hosts (si_ShardId info) Follower.
Proof.
  destruct (returns_Ret (reduceMetricsHandle two_host_rows two_hosts 1 tenth ReadKpsMin1))
    as [result E]; [vm_compute; reflexivity|].
  assert (bool_decide (is_Some (match reduceMetricsHandle two_host_rows two_hosts 1 tenth ReadKpsMin1
    with Ret m => m !! "h1:80" | _ => None end)) = true) as Hs by (vm_compute; reflexivity).
  rewrite E in Hs. apply bool_decide_eq_true_1 in Hs as [shards Hs].
  exists result, shards. split; [exact E|]. split; [exact Hs|]. intros h info Hi.
  destruct (reduceMetricsHandle_safe two_host_rows two_hosts 1 tenth ReadKpsMin1 result "h1:80"
    shards h info) as (node & Hnode); [|exact E|exact Hs|exact Hi|].
  - intros node h1 h2 i1 i2 Hn H1 H2 Eq.
    assert (Forall (λ node, map_Forall (λ h1 i1, map_Forall (λ h2 i2,
      si_ShardId i1 = si_ShardId i2 → h1 = h2)
      (GetNodeShardInfo two_hosts (g_Name (n_GroupInfo node)) (n_NodeId node)).2)
      (GetNodeShardInfo two_hosts (g_Name (n_GroupInfo node)) (n_NodeId node)).2)
      (Node_list two_host_rows (mkNodeListParams 0 0 1 None) false).1) as Hall.
    { apply (bool_decide_unpack _). vm_compute. exact I. }
    rewrite Forall_forall in Hall. by apply (Hall node Hn h1 i1 H1 h2 i2 H2).
  - apply Hnode.
Defined.

Lemma reduceMetricsHandle_panics_witness :
  reduceMetricsHandle two_host_rows GetShardMetricsManager 1 tenth ReadKpsMin1 =
    Panic NilPointerDereference.
Proof.
  apply (reduceMetricsHandle_panics two_host_rows GetShardMetricsManager 1 tenth ReadKpsMin1
    (node_row 1 1 "h1" false)).
  - apply table_json_laws.
  - vm_compute. left.
  - vm_compute. reflexivity.
Defined.
