(* ===== verification/NodeManager.v ===== *)
(** * The nodes of the cluster ([control/service/node_manager.go])

    [NodeManager] stores the nodes in the database and hands the shard manager a
    snapshot of the cluster after every change.  A node's shards are stored as
    text: a list of numbers, or JSON with a list for each table.  gorm's writes are
    the class [NodeStore], what its documentation promises [NodeStoreLaws]. *)

From S2P Require Import Prelude RouterTypes Partition Registry GoLib ControlStatus ControlData ShardMetrics StatusManager ShardManager.

(** ** Parameters *)

Record NodeParams := mkNodeParams {
  np_Id : Z;
  np_NodeId : Z;
  np_Active : option Z;
  np_Status : option Z;
  np_Host : string;
  np_Port : Z;
  np_Weight : option Z;
  np_Master : option bool;
  np_IsEdgeNode : option bool;
  np_Desc : string;
  np_GroupId : Z;
  np_GroupName : string;
  np_ConfigId : Z;
  np_ConfigName : string;
  np_AnsibleConfigId : Z;
  np_AnsibleConfigName : string;
  np_LeaderShardList : option string;
  np_FollowerShardList : option string
}.

Record NodeChangeRoleParams := mkNodeChangeRoleParams {
  ncr_Id : Z;
  ncr_GroupId : Z;
  ncr_Master : option bool
}.

Record NodeInfoAttr := mkNodeInfoAttr { nia_Name : string; nia_Value : string }.

(** [params.NodeInfo] and [params.NodeGroup]: what the list of nodes shows. *)
Record NodeInfoDto := mkNodeInfoDto {
  nid_Id : Z;
  nid_NodeId : Z;
  nid_Active : option Z;
  nid_Status : option Z;
  nid_Host : string;
  nid_Port : Z;
  nid_Weight : option Z;
  nid_ShardNumber : Z;
  nid_AvailableShardNumber : Z;
  nid_Master : bool;
  nid_IsEdgeNode : bool;
  nid_Attrs : list NodeInfoAttr;
  nid_Desc : string;
  nid_GroupId : Z;
  nid_GroupName : string;
  nid_Dc : string;
  nid_ConfigId : Z;
  nid_ConfigName : string;
  nid_AnsibleConfigId : Z;
  nid_AnsibleConfigName : string;
  nid_LeaderShardList : option string;
  nid_FollowerShardList : option string;
  nid_IsAvailable : bool;
  nid_ReadKps : Z;
  nid_WriteKps : Z
}.

Record NodeGroup := mkNodeGroup {
  ng_Id : Z;
  ng_GroupName : string;
  ng_Dc : string;
  ng_DescName : string;
  ng_Nodes : list NodeInfoDto
}.

(** ** Shards as text *)

Record ShardsListStruct := mkShardsListStruct { ssl_Table : string; ssl_Shards : string }.
Record ShardsStruct := mkShardsStruct { ss_ShardsList : list ShardsListStruct }.
Definition ShardsStruct_zero : ShardsStruct := mkShardsStruct [].

Section Text.
Context {jsonShards : Json ShardsStruct}.

(** The pieces of the lists of all tables, each once, in their order. *)
Definition unique_shards (l : list ShardsListStruct) : list string :=
  (foldl (λ acc shardList,
    if String.eqb (ssl_Shards shardList) "" then acc
    else foldl (λ '(uniqueShards, shardsMap) shardId,
           if decide (shardId ∈ shardsMap) then (uniqueShards, shardsMap)
           else (uniqueShards ++ [shardId], {[shardId]} ∪ shardsMap))
           acc (strings_Split "," (ssl_Shards shardList))) ([], (∅ : gset string)) l).1.

Definition extractUniqueShards (shardsStructString : string) : list string :=
  match json_Unmarshal shardsStructString ShardsStruct_zero with
  | (_, Some _) =>
      if String.eqb shardsStructString "" then []
      else strings_Split "," shardsStructString
  | (shardsStruct, None) => unique_shards (ss_ShardsList shardsStruct)
  end.

(** The numbers in a list of pieces; what is no number is skipped. *)
Definition parse_shards (pieces : list string) : list Z :=
  omap (λ piece, ParseUint32 (strings_TrimSpace piece)) pieces.

Definition shardStrListToSlice (nodeInfo : Node) : go (list Shard) :=
  let shard role state id :=
    mkShard (g_Name (n_GroupInfo nodeInfo)) (n_NodeId nodeInfo) (u32 id) role state in
  leaderList ← go_deref (n_LeaderShardList nodeInfo);
  let leaderShards := parse_shards (extractUniqueShards leaderList) in
  followerList ← go_deref (n_FollowerShardList nodeInfo);
  let followerShards := parse_shards (extractUniqueShards followerList) in
  mret ((shard Leader LeaderStatus <$> leaderShards) ++ (shard Follower FollowerStatus <$> followerShards)).

Definition shardSliceToStrList (shards : list Shard) : string * string :=
  let leaderShards : list string :=
    (λ s, Itoa (sh_ShardId s)) <$> filter (λ s, sh_Role s = Leader) shards in
  let followerShards : list string :=
    (λ s, Itoa (sh_ShardId s)) <$> filter (λ s, sh_Role s = Follower) shards in
  (strings_Join "," leaderShards, strings_Join "," followerShards).
End Text.

(** ** gorm's writes *)

(** [tx.Model(&Node{}).Where(cond)] with [Count] and [Find], [tx.Create],
    [tx.Model(&Node{Id: id}).UpdateColumns(values)], the same with
    [Association("BindTables").Clear()], [tx.Unscoped().Delete(&Node{Id: id})] and
    [tx.Exec]. *)
Class NodeStore (DB : Type) := {
  ns_Count : Node → DB → Z + error;
  ns_Find : Node → DB → list Node + error;
  ns_Create : Node → DB → DB * option error;
  ns_UpdateColumns : Z → Node → DB → DB * option error;
  ns_ClearBindTables : Z → DB → DB * option error;
  ns_Delete : Z → DB → DB * option error;
  ns_Exec : string → DB → DB * option error
}.

(** A node with columns only, as the code writes them. *)
Definition node_columns (id nodeId : Z) (active status : option Z) (host : string) (port : Z)
    (weight : option Z) (master isEdgeNode : option bool) (desc : string)
    (groupId configId ansibleConfigId : Z) (leaderShardList followerShardList : option string) : Node :=
  mkNode id nodeId active status host port weight master isEdgeNode desc groupId GroupRow_zero
    configId NodeConfig_zero leaderShardList followerShardList ansibleConfigId AnsibleConfig_zero.

Definition where_id (id groupId : Z) : Node :=
  node_columns id 0 None None "" 0 None None None "" groupId 0 0 None None.
Definition where_nodeId (nodeId groupId : Z) : Node :=
  node_columns 0 nodeId None None "" 0 None None None "" groupId 0 0 None None.
Definition where_address (host : string) (port : Z) : Node :=
  node_columns 0 0 None None host port None None None "" 0 0 0 None None.

Definition params_node (p : NodeParams) : Node :=
  node_columns 0 (np_NodeId p) (np_Active p) (np_Status p) (np_Host p) (np_Port p) (np_Weight p)
    (np_Master p) (np_IsEdgeNode p) (np_Desc p) (np_GroupId p) (np_ConfigId p)
    (np_AnsibleConfigId p) (np_LeaderShardList p) (np_FollowerShardList p).

Section Store.
Context {DB : Type} `{NodeStore DB} `{Runtime}.

(** A count that must be [0]: [None] if it is. *)
Definition check_count (cond : Node) (code : Z) (tx : DB) : option Status :=
  match ns_Count cond tx with
  | inr err => Some (StatusWithError (Some err))
  | inl count => if Z.eqb count 0 then None else Some (StatusError code)
  end.

Definition checkDupNode (tx : DB) (groupId id : Z) (host : string) (port nodeId : Z) : Status :=
  match (if Z.eqb id 0 then None else check_count (where_id id 0) NodeDup tx) with
  | Some status => status
  | None =>
      match check_count (where_nodeId nodeId groupId) NodeIdDup tx with
      | Some status => status
      | None =>
          match check_count (where_address host port) NodeAddressDup tx with
          | Some status => status
          | None => StatusOk
          end
      end
  end.

(** A step of a transaction: an error rolls back to [db]. *)
Definition tx_step (db : DB) (r : DB * option error) (k : DB → go (DB * Status)) : go (DB * Status) :=
  match r with
  | (_, Some err) => mret (db, StatusWithError (Some err))
  | (tx, None) => k tx
  end.

Definition store (p : NodeParams) (db : DB) : go (DB * Status) :=
  let status := checkDupNode db (np_GroupId p) (np_Id p) (np_Host p) (np_Port p) (np_NodeId p) in
  if negb (Status_Ok status) then mret (db, status)
  else tx_step db (ns_Create (params_node p) db) (λ tx, mret (tx, StatusOk)).

Definition format_bool (b : bool) : string := if b then "true" else "false".

(** The values of a node in the statement: [fmt.Sprintf], the strings between
    quotes as they are. *)
Definition node_values (p : NodeParams) : go string :=
  active ← go_deref (np_Active p);
  status ← go_deref (np_Status p);
  weight ← go_deref (np_Weight p);
  master ← go_deref (np_Master p);
  isEdgeNode ← go_deref (np_IsEdgeNode p);
  leaderShardList ← go_deref (np_LeaderShardList p);
  followerShardList ← go_deref (np_FollowerShardList p);
  mret ("(" +:+ strings_Join ", " [Itoa (np_NodeId p); Itoa active; Itoa status;
    "'" +:+ np_Host p +:+ "'"; Itoa (np_Port p); Itoa weight; format_bool master;
    format_bool isEdgeNode; "'" +:+ np_Desc p +:+ "'"; Itoa (np_GroupId p); Itoa (np_ConfigId p);
    Itoa (np_AnsibleConfigId p); "'" +:+ leaderShardList +:+ "'";
    "'" +:+ followerShardList +:+ "'"] +:+ ")").

Definition batch_sql : string :=
  "INSERT INTO `nodes` (`node_id`, `active`, `status`, `host`, `port`, `weight`, `master`, `is_edge_node`, `desc`, `group_id`, `config_id`, `ansible_config_id`, `leader_shard_list`, `follower_shard_list`) VALUES ".

(** The loop; [inr status] is the early return. *)
Fixpoint batch_loop (db : DB) (nodes : list NodeParams) (sql : string) : go (string + Status) :=
  match nodes with
  | [] => mret (inl sql)
  | p :: nodes =>
      let status := checkDupNode db (np_GroupId p) (np_Id p) (np_Host p) (np_Port p) (np_NodeId p) in
      if negb (Status_Ok status) then mret (inr status)
      else
        values ← node_values p;
        batch_loop db nodes (sql +:+ values +:+ match nodes with [] => ";" | _ => "," end)
  end.

Definition batchStore (nodes : list NodeParams) (db : DB) : go (DB * Status) :=
  r ← batch_loop db nodes batch_sql;
  match r with
  | inr status => mret (db, status)
  | inl sql => tx_step db (ns_Exec sql db) (λ tx, mret (tx, StatusOk))
  end.

Definition update (p : NodeParams) (db : DB) : go (DB * Status) :=
  let status := checkDupNode db (np_GroupId p) (np_Id p) (np_Host p) (np_Port p) (np_NodeId p) in
  if negb (Z.eqb (Status_Code status) NodeDup) then mret (db, StatusError NodeNotExist)
  else
    isEdgeNode ← go_deref (np_IsEdgeNode p);
    tx_step db (if (isEdgeNode : bool) then (db, None) else ns_ClearBindTables (np_Id p) db) (λ tx,
    tx_step db (ns_UpdateColumns (np_Id p) (params_node p) tx) (λ tx, mret (tx, StatusOk))).

(** The columns that a change of role writes. *)
Definition role_columns (master : option bool) (n : Node) : Node :=
  node_columns 0 0 None None "" 0 None master None "" 0 0 0
    (n_FollowerShardList n) (n_LeaderShardList n).

Fixpoint changeRole_loop (db : DB) (p : NodeChangeRoleParams) (nodes : list Node) (tx : DB)
  : go (DB * Status) :=
  match nodes with
  | [] => mret (tx, StatusOk)
  | nodeInfo :: nodes =>
      nodeMaster ← go_deref (n_Master nodeInfo);
      master ← go_deref (ncr_Master p);
      if eqb nodeMaster master then changeRole_loop db p nodes tx
      else
        isEdgeNode ← go_deref (n_IsEdgeNode nodeInfo);
        if (isEdgeNode && master)%bool then mret (db, StatusError NodeSetEdgeNodeAsMasterFail)
        else tx_step db (ns_UpdateColumns (n_Id nodeInfo) (role_columns (ncr_Master p) nodeInfo) tx)
               (changeRole_loop db p nodes)
  end.

Definition changeRole (p : NodeChangeRoleParams) (db : DB) : go (DB * Status) :=
  match ns_Find (where_id (ncr_Id p) (ncr_GroupId p)) db with
  | inr err => mret (db, StatusWithError (Some err))
  | inl nodes => changeRole_loop db p nodes db
  end.

Definition delete_node (db : DB) (id : Z) (tx : DB) (k : DB → go (DB * Status)) : go (DB * Status) :=
  tx_step db (ns_ClearBindTables id tx) (λ tx, tx_step db (ns_Delete id tx) k).

Definition NodeManager_delete (id : Z) (db : DB) : go (DB * Status) :=
  delete_node db id db (λ tx, mret (tx, StatusOk)).

Fixpoint batchDelete_loop (db : DB) (ids : list Z) (tx : DB) : go (DB * Status) :=
  match ids with
  | [] => mret (tx, StatusOk)
  | id :: ids => delete_node db id tx (batchDelete_loop db ids)
  end.

Definition batchDelete (ids : list Z) (db : DB) : go (DB * Status) := batchDelete_loop db ids db.
End Store.

(** ** The snapshot *)

(** The node manager and the shard manager it keeps up to date. *)
Record NodeManager := mkNodeManager {
  nm_cluster : option ControlClusterInfo;
  nm_shards : ShardManager
}.

Section Snapshot.
Context {DB : Type} `{ControlDb DB} `{Runtime} {jsonShards : Json ShardsStruct} `{CityHash}.

Definition node_info (group : Group) (node : Node) : go NodeInfo :=
  weight ← go_deref (n_Weight node);
  master ← go_deref (n_Master node);
  isEdgeNode ← go_deref (n_IsEdgeNode node);
  active ← go_deref (n_Active node);
  shards ← shardStrListToSlice node;
  mret (mkNodeInfo (g_Name (g_row group)) (n_NodeId node) (n_Host node) (n_Port node) weight master
          (u16 active) shards isEdgeNode).

Definition cluster_group (db : DB) (group : Group) : go GroupInfo :=
  nodeInfos ← go_fold (λ nodeInfos node,
      info ← node_info group node; mret (nodeInfos ++ [info]))
    (Node_list db (mkNodeListParams 0 0 (g_Id (g_row group)) None) false).1 [];
  mret (mkGroupInfo (g_Id (g_row group)) (g_Name (g_row group)) (dc_Name (g_Dc group))
          (g_Alias (g_row group)) nodeInfos).

Definition GetClusterInfo (db : DB) : go (Status * ControlClusterInfo) :=
  match (Cluster_List db (mkClusterListParams 0 0) false).1 with
  | [] => mret (StatusError ClusterNotExist, mkControlClusterInfo "" 0 [] [])
  | cluster :: _ =>
      let dcs := (Dc_List db (mkDcListParams 0 0) false).1 in
      groupInfos ← go_fold (λ groupInfos group,
          info ← cluster_group db group; mret (groupInfos ++ [info]))
        (Group_List db (mkGroupListParams 0 0 0 0 "" false) false).1 [];
      mret (StatusOk, mkControlClusterInfo (cl_Name cluster) (cl_ShardTotal cluster) dcs groupInfos)
  end.

Definition NodeManager_UpdateClusterInfo (db : DB) (nm : NodeManager) : go (NodeManager * Status) :=
  '(status, cluster) ← GetClusterInfo db;
  mret (mkNodeManager (Some cluster) (UpdateClusterInfo cluster (nm_shards nm)), status).

Definition GetShardTotal (nm : NodeManager) : Z * Status :=
  match nm_cluster nm with
  | None => (0, StatusError ClusterParserError)
  | Some cluster => (ci_ShardTotal cluster, StatusOk)
  end.

(** [GetNodeModel] and [GetShardModel], once each at start-up. *)
Definition InitShard (serviceName : string) (db : DB) : go NodeManager :=
  '(_, cluster) ← GetClusterInfo db;
  mret (mkNodeManager (Some cluster) (GetShardModel serviceName cluster)).

Context `{MapOrder} `{FloatToUint}.

Definition node_attrs : list NodeInfoAttr :=
  [mkNodeInfoAttr "内存" "80GB"; mkNodeInfoAttr "线程数" "200"; mkNodeInfoAttr "服务分片" "200/400"].

Definition node_dto (mm : ShardMetricsManager) (group : Group) (node : Node) : go NodeInfoDto :=
  let groupName := g_Name (g_row group) in
  let kps metric := f64_to_uint 64 (GetNodeMetricValue mm groupName (n_NodeId node) metric) in
  master ← go_deref (n_Master node);
  isEdgeNode ← go_deref (n_IsEdgeNode node);
  mret (mkNodeInfoDto (n_Id node) (n_NodeId node) (n_Active node) (n_Status node) (n_Host node)
          (n_Port node) (n_Weight node) 0 0 master isEdgeNode node_attrs (n_Desc node)
          (n_GroupId node) (g_Name (n_GroupInfo node)) (dc_Name (g_Dc group)) (n_ConfigId node)
          (nc_Name (n_Config node)) (n_AnsibleConfigId node) (ac_Name (n_AnsibleConfig node))
          (n_LeaderShardList node) (n_FollowerShardList node)
          (IsNodeAvailable mm groupName (n_NodeId node)) (kps ReadKpsMin1) (kps WriteKpsMin1)).

Definition ListNode (db : DB) (mm : ShardMetricsManager) : go (Status * list NodeGroup) :=
  nodeGroups ← go_fold (λ nodeGroups group,
      nodeInfos ← go_fold (λ nodeInfos node,
          info ← node_dto mm group node; mret (nodeInfos ++ [info]))
        (Node_list db (mkNodeListParams 0 0 (g_Id (g_row group)) None) false).1 [];
      mret (nodeGroups ++ [mkNodeGroup (g_Id (g_row group)) (g_Name (g_row group))
                             (dc_Name (g_Dc group)) (g_Alias (g_row group)) nodeInfos]))
    (Group_List db (mkGroupListParams 0 0 0 0 "" false) false).1 [];
  mret (StatusOk, nodeGroups).

Context `{NodeStore DB}.

(** Every change ends the same way: where it went well, a new snapshot. *)
Definition and_update (change : DB → go (DB * Status)) (db : DB) (nm : NodeManager)
  : go (DB * NodeManager * Status) :=
  '(db, status) ← change db;
  if negb (Status_Ok status) then mret (db, nm, status)
  else
    '(nm, status) ← NodeManager_UpdateClusterInfo db nm;
    mret (db, nm, status).

Definition NodeManager_Store (p : NodeParams) := and_update (store p).
Definition BatchStore (nodes : list NodeParams) := and_update (batchStore nodes).
Definition UpdateNode (p : NodeParams) := and_update (update p).
Definition ChangeRole (p : NodeChangeRoleParams) := and_update (changeRole p).
Definition DeleteNode (id : Z) := and_update (NodeManager_delete id).
Definition BatchDeleteNode (ids : list Z) := and_update (batchDelete ids).
End Snapshot.

(** ** What gorm promises *)

(** A struct condition looks at the fields that are not zero, an update with a
    struct writes those. *)
Definition nil_or {A} `{EqDecision A} (a b : option A) : bool :=
  match a with None => true | Some _ => bool_decide (a = b) end.

Definition node_matches (c r : Node) : bool :=
  (zero_or (n_Id c) (n_Id r) && zero_or (n_NodeId c) (n_NodeId r) && nil_or (n_Active c) (n_Active r) &&
   nil_or (n_Status c) (n_Status r) && empty_or (n_Host c) (n_Host r) && zero_or (n_Port c) (n_Port r) &&
   nil_or (n_Weight c) (n_Weight r) && nil_or (n_Master c) (n_Master r) &&
   nil_or (n_IsEdgeNode c) (n_IsEdgeNode r) && empty_or (n_Desc c) (n_Desc r) &&
   zero_or (n_GroupId c) (n_GroupId r) && zero_or (n_ConfigId c) (n_ConfigId r) &&
   nil_or (n_LeaderShardList c) (n_LeaderShardList r) &&
   nil_or (n_FollowerShardList c) (n_FollowerShardList r) &&
   zero_or (n_AnsibleConfigId c) (n_AnsibleConfigId r))%bool.

Definition over_Z (a b : Z) : Z := if Z.eqb a 0 then b else a.
Definition over_string (a b : string) : string := if String.eqb a "" then b else a.
Definition over_ptr {A} (a b : option A) : option A := match a with None => b | Some _ => a end.

Definition node_overwrite (v r : Node) : Node :=
  mkNode (n_Id r) (over_Z (n_NodeId v) (n_NodeId r)) (over_ptr (n_Active v) (n_Active r))
    (over_ptr (n_Status v) (n_Status r)) (over_string (n_Host v) (n_Host r))
    (over_Z (n_Port v) (n_Port r)) (over_ptr (n_Weight v) (n_Weight r))
    (over_ptr (n_Master v) (n_Master r)) (over_ptr (n_IsEdgeNode v) (n_IsEdgeNode r))
    (over_string (n_Desc v) (n_Desc r)) (over_Z (n_GroupId v) (n_GroupId r)) (n_GroupInfo r)
    (over_Z (n_ConfigId v) (n_ConfigId r)) (n_Config r)
    (over_ptr (n_LeaderShardList v) (n_LeaderShardList r))
    (over_ptr (n_FollowerShardList v) (n_FollowerShardList r))
    (over_Z (n_AnsibleConfigId v) (n_AnsibleConfigId r)) (n_AnsibleConfig r).

(** What identifies a node to the code: its id in its group, and its address. *)
Definition node_key (n : Node) : Z * Z := (n_GroupId n, n_NodeId n).
Definition node_address (n : Node) : string * Z := (n_Host n, n_Port n).

Class NodeStoreLaws (DB : Type) `{NodeStore DB} := {
  ns_rows : DB → list Node;
  ns_Count_ok c db k : ns_Count c db = inl k →
    k = Z.of_nat (length (filter (λ r, node_matches c r = true) (ns_rows db)));
  ns_Find_ok c db l : ns_Find c db = inl l →
    l = filter (λ r, node_matches c r = true) (ns_rows db);
  ns_Create_ok n db db' : ns_Create n db = (db', None) →
    ∃ r, ns_rows db' = ns_rows db ++ [r] ∧ n_Id r ≠ 0 ∧ (n_Id r ∉ (n_Id <$> ns_rows db)) ∧
      node_key r = node_key n ∧ node_address r = node_address n;
  ns_UpdateColumns_ok id v db db' : ns_UpdateColumns id v db = (db', None) → id ≠ 0 →
    ns_rows db' = (λ r, if decide (n_Id r = id) then node_overwrite v r else r) <$> ns_rows db;
  ns_ClearBindTables_ok id db db' : ns_ClearBindTables id db = (db', None) →
    ns_rows db' = ns_rows db;
  ns_Delete_ok id db db' : ns_Delete id db = (db', None) → id ≠ 0 →
    ns_rows db' = filter (λ r, n_Id r ≠ id) (ns_rows db);
  ns_Delete_all db db' : ns_Delete 0 db = (db', None) → ns_rows db' = []
}.

(** ** Lemmas *)

Section Lemmas.
Context {DB : Type} {ns : NodeStore DB} {laws : NodeStoreLaws DB} `{Runtime}.
Implicit Types (db : DB) (r n : Node).

(** No two nodes share an id in their group or an address. *)
Definition nodes_unique (rows : list Node) : Prop :=
  NoDup (node_key <$> rows) ∧ NoDup (node_address <$> rows).

Lemma check_count_None c code db r :
  check_count c code db = None → r ∈ ns_rows db → node_matches c r = false.
Proof.
  unfold check_count. destruct (ns_Count c db) as [k|] eqn:E; [|done].
  apply ns_Count_ok in E. destruct (Z.eqb_spec k 0) as [E0|]; [|done]. intros _ Hin.
  destruct (node_matches c r) eqn:Em; [|done]. exfalso.
  assert (r ∈ filter (λ r, node_matches c r = true) (ns_rows db)) as Hf.
  { by apply list_elem_of_filter. }
  destruct (filter _ _); [by apply elem_of_nil in Hf|cbn in E; lia].
Qed.

Lemma where_nodeId_matches nodeId groupId r :
  node_key r = (groupId, nodeId) → node_matches (where_nodeId nodeId groupId) r = true.
Proof.
  intros [= <- <-]. unfold node_matches. cbn. unfold zero_or.
  by rewrite !Z.eqb_refl, !orb_true_r.
Qed.

Lemma where_address_matches host port r :
  node_address r = (host, port) → node_matches (where_address host port) r = true.
Proof.
  intros [= <- <-]. unfold node_matches. cbn. unfold zero_or, empty_or.
  by rewrite Z.eqb_refl, String.eqb_refl, !orb_true_r.
Qed.

Lemma check_count_not_ok c code db st :
  check_count c code db = Some st → code ≠ OK → Status_Ok st = false.
Proof.
  unfold check_count. destruct ns_Count as [k|]; [|by intros [= <-]].
  case_match; [done|]. intros [= <-] Hc. unfold Status_Ok. cbn. by apply Z.eqb_neq.
Qed.

(** Where no duplicate was found, neither the key nor the address is taken. *)
Lemma checkDupNode_ok db groupId id host port nodeId :
  Status_Ok (checkDupNode db groupId id host port nodeId) = true →
  ((groupId, nodeId) ∉ (node_key <$> ns_rows db)) ∧ ((host, port) ∉ (node_address <$> ns_rows db)).
Proof.
  unfold checkDupNode. destruct (if Z.eqb id 0 then _ else _) as [st|] eqn:E0.
  { case_match; [done|]. by rewrite (check_count_not_ok _ _ _ _ E0). }
  destruct (check_count (where_nodeId _ _) _ _) as [st|] eqn:E1.
  { by rewrite (check_count_not_ok _ _ _ _ E1). }
  destruct (check_count (where_address _ _) _ _) as [st|] eqn:E2.
  { by rewrite (check_count_not_ok _ _ _ _ E2). }
  intros _. split; intros (r & Hk & Hr)%list_elem_of_fmap.
  - pose proof (check_count_None _ _ _ _ E1 Hr) as Hm. by rewrite where_nodeId_matches in Hm.
  - pose proof (check_count_None _ _ _ _ E2 Hr) as Hm. by rewrite where_address_matches in Hm.
Qed.

(** A change of role: the roles change and the lists change places, as far as
    they are not NULL. *)
Definition role_swap (m : bool) n : Node := node_overwrite (role_columns (Some m) n) n.

Lemma changeRole_loop_rows p m db nodes tx tx' st :
  ncr_Master p = Some m →
  changeRole_loop db p nodes tx = Ret (tx', st) → Status_Ok st = true →
  Forall (λ n, n_Id n ≠ 0) nodes → NoDup (n_Id <$> nodes) →
  (∀ r n, r ∈ ns_rows tx → n ∈ nodes → n_Id r = n_Id n → r = n) →
  ns_rows tx' = (λ r, if decide (n_Id r ∈ n_Id <$> nodes ∧ n_Master r ≠ Some m)
                      then role_swap m r else r) <$> ns_rows tx.
Proof.
  intros Hp. revert tx. induction nodes as [|n nodes IH]; intros tx.
  { cbn. intros [= <- <-] _ _ _ _. symmetry. rewrite <- (list_fmap_id (ns_rows tx)) at 2.
    apply list_fmap_ext. intros i r _. rewrite decide_False; [done|]. intros [?%elem_of_nil _]. done. }
  cbn [changeRole_loop]. rewrite Hp. intros Hl Hok Hids Hnd Hr.
  apply Forall_cons in Hids as [Hid Hids]. cbn [fmap list_fmap] in Hnd |- *.
  apply NoDup_cons in Hnd as [Hn Hnd].
  destruct (n_Master n) as [nm|] eqn:Em; [|done]. cbn [mbind go_bind go_deref] in Hl.
  destruct (eqb nm m) eqn:Eb.
  - apply eqb_prop in Eb as ->. rewrite (IH tx); [|done..|intros; apply Hr; [done|by right|done]].
    apply list_fmap_ext. intros i r Hi%list_elem_of_lookup_2. apply decide_ext.
    rewrite elem_of_cons. split; [naive_solver|]. intros [[E|?] Hm]; [|done].
    rewrite (Hr r n Hi (list_elem_of_here _ _) E) in Hm. done.
  - assert (nm ≠ m) as Hnm by (intros ->; by rewrite eqb_reflx in Eb).
    destruct (n_IsEdgeNode n) as [edge|]; [|done]. cbn [mbind go_bind go_deref] in Hl.
    destruct (edge && m)%bool; [by injection Hl as <- <-|]. unfold tx_step in Hl.
    destruct (ns_UpdateColumns _ _ _) as [tx1 [err|]] eqn:Eu; [by injection Hl as <- <-|].
    apply ns_UpdateColumns_ok in Eu; [|done].
    rewrite (IH tx1); [|done..|].
    + rewrite Eu, <- list_fmap_compose. apply list_fmap_ext.
      intros i r Hi%list_elem_of_lookup_2. cbn. destruct (decide (n_Id r = n_Id n)) as [E|E].
      * rewrite (Hr r n Hi (list_elem_of_here _ _) E). cbn. rewrite decide_False by tauto.
        rewrite decide_True; [done|]. split; [left|]. rewrite Em. congruence.
      * apply decide_ext. rewrite elem_of_cons. tauto.
    + intros r n' Hrin Hn' E. rewrite Eu in Hrin. apply list_elem_of_fmap in Hrin as (r0 & -> & Hr0).
      destruct (decide (n_Id r0 = n_Id n)) as [E0|E0].
      * destruct Hn. cbn in E. rewrite <- E0, E. by apply list_elem_of_fmap_2.
      * apply Hr; [done|by right|done].
Qed.

Lemma changeRole_loop_fails p db nodes tx db' st :
  changeRole_loop db p nodes tx = Ret (db', st) → Status_Ok st = false → db' = db.
Proof.
  revert tx. induction nodes as [|n nodes IH]; intros tx Hl Hst; cbn [changeRole_loop] in Hl.
  { by injection Hl as <- <-. }
  destruct (n_Master n) as [nm|]; [|done]. cbn [mbind go_bind go_deref] in Hl.
  destruct (ncr_Master p) as [m|]; [|done]. cbn [mbind go_bind go_deref] in Hl.
  destruct (eqb nm m); [by eapply IH|]. destruct (n_IsEdgeNode n) as [edge|]; [|done].
  cbn [mbind go_bind go_deref] in Hl. destruct (edge && m)%bool; [by injection Hl as <- <-|].
  unfold tx_step in Hl. destruct (ns_UpdateColumns _ _ _) as [tx1 [err|]]; [by injection Hl as <- <-|].
  by eapply IH.
Qed.

(** *** The rows stay in order *)

(** Primary keys are set and distinct, and nodes are unique. *)
Definition rows_ok (rows : list Node) : Prop :=
  nodes_unique rows ∧ NoDup (n_Id <$> rows) ∧ Forall (λ r, n_Id r ≠ 0) rows.

Lemma rows_ok_sublist rows rows' : rows' `sublist_of` rows → rows_ok rows → rows_ok rows'.
Proof.
  intros Hs ([Hk Ha] & Hi & Hz).
  split; [split|split]; [by eapply sublist_NoDup, fmap_sublist..|].
  rewrite Forall_forall in *. intros r Hr. by eapply Hz, elem_of_sublist.
Qed.

(** An update that leaves ids, keys and addresses alone. *)
Lemma rows_ok_fmap rows (f : Node → Node) :
  (∀ r, n_Id (f r) = n_Id r ∧ node_key (f r) = node_key r ∧ node_address (f r) = node_address r) →
  rows_ok rows → rows_ok (f <$> rows).
Proof.
  intros Hf ([Hk Ha] & Hi & Hz). unfold rows_ok, nodes_unique. rewrite <- !list_fmap_compose.
  split; [split|split].
  - erewrite list_fmap_ext; [exact Hk|]. intros. apply Hf.
  - erewrite list_fmap_ext; [exact Ha|]. intros. apply Hf.
  - erewrite list_fmap_ext; [exact Hi|]. intros. apply Hf.
  - apply Forall_fmap. eapply Forall_impl; [exact Hz|]. intros r Hr. cbn. by rewrite (proj1 (Hf r)).
Qed.

Lemma store_rows_ok p db db' st :
  store p db = Ret (db', st) → rows_ok (ns_rows db) → rows_ok (ns_rows db').
Proof.
  unfold store. destruct (Status_Ok _) eqn:Ec; cbn [negb]; [|by intros [= <- <-]].
  apply checkDupNode_ok in Ec as [Hkey Haddr]. unfold tx_step.
  destruct (ns_Create _ _) as [tx [err|]] eqn:E; [by intros [= <- <-]|]. intros [= <- <-].
  apply ns_Create_ok in E as (r & -> & Hid & Hnew & Hk & Ha). intros ([Hks Has] & Hi & Hz).
  unfold rows_ok, nodes_unique. rewrite !fmap_app. cbn [fmap list_fmap].
  assert (∀ {A} (x : A) l, x ∉ l → NoDup l → NoDup (l ++ [x])) as Hsnoc.
  { intros A x l Hx Hl. apply NoDup_app. split_and!; [done| |apply NoDup_singleton]. set_solver. }
  split; [split|split].
  - apply Hsnoc; [|done]. by rewrite Hk.
  - apply Hsnoc; [|done]. by rewrite Ha.
  - by apply Hsnoc.
  - apply Forall_app. split; [done|]. by constructor.
Qed.

Lemma changeRole_loop_rows_ok p db nodes tx db' st :
  changeRole_loop db p nodes tx = Ret (db', st) → Forall (λ n, n_Id n ≠ 0) nodes →
  rows_ok (ns_rows db) → rows_ok (ns_rows tx) → rows_ok (ns_rows db').
Proof.
  intros Hl Hids Hdb. revert tx Hl. induction Hids as [|n nodes Hid _ IH]; intros tx Hl Htx.
  { by injection Hl as <- <-. }
  cbn [changeRole_loop] in Hl. destruct (n_Master n) as [nm|]; [|done]. cbn [mbind go_bind go_deref] in Hl.
  destruct (ncr_Master p) as [m|]; [|done]. cbn [mbind go_bind go_deref] in Hl.
  destruct (eqb nm m); [by eapply IH|]. destruct (n_IsEdgeNode n) as [edge|]; [|done].
  cbn [mbind go_bind go_deref] in Hl. destruct (edge && m)%bool; [by injection Hl as <- <-|].
  unfold tx_step in Hl. destruct (ns_UpdateColumns _ _ _) as [tx1 [err|]] eqn:Eu; [by injection Hl as <- <-|].
  eapply IH; [exact Hl|]. rewrite (ns_UpdateColumns_ok _ _ _ _ Eu Hid).
  apply rows_ok_fmap; [|done]. intros r. by case_decide.
Qed.

Lemma changeRole_rows_ok p db db' st :
  changeRole p db = Ret (db', st) → rows_ok (ns_rows db) → rows_ok (ns_rows db').
Proof.
  unfold changeRole. destruct (ns_Find _ _) as [nodes|err] eqn:E; [|by intros [= <- <-]].
  apply ns_Find_ok in E as ->. intros Hl Hok. eapply changeRole_loop_rows_ok; [exact Hl| |done|done].
  apply Forall_forall. intros n [_ Hn]%list_elem_of_filter. destruct Hok as (_ & _ & Hz).
  rewrite Forall_forall in Hz. by apply Hz.
Qed.

Lemma delete_rows id db tx :
  ns_Delete id db = (tx, None) → ns_rows tx `sublist_of` ns_rows db.
Proof.
  intros E. destruct (decide (id = 0)) as [->|Hid].
  - rewrite (ns_Delete_all _ _ E). apply sublist_nil_l.
  - rewrite (ns_Delete_ok _ _ _ E Hid). apply sublist_filter.
Qed.

Lemma batchDelete_loop_rows db ids tx db' st :
  batchDelete_loop db ids tx = Ret (db', st) →
  db' = db ∧ Status_Ok st = false ∨
  st = StatusOk ∧ ns_rows db' `sublist_of` ns_rows tx ∧ (0 ∈ ids → ns_rows db' = []) ∧
  (∀ id r, id ∈ ids → r ∈ ns_rows db' → n_Id r ≠ id).
Proof.
  revert tx. induction ids as [|id ids IH]; intros tx; cbn [batchDelete_loop].
  { intros [= <- <-]. right. split_and!; [done|done|by intros ?%elem_of_nil|].
    by intros id r ?%elem_of_nil. }
  unfold delete_node, tx_step. destruct (ns_ClearBindTables id tx) as [tx1 [err|]] eqn:E1;
    [intros [= <- <-]; by left|].
  destruct (ns_Delete id tx1) as [tx2 [err|]] eqn:E2; [intros [= <- <-]; by left|].
  intros [?|(-> & Hs & H0 & Hd)]%IH; [by left|right]. pose proof (delete_rows _ _ _ E2) as Hs2.
  apply ns_ClearBindTables_ok in E1. rewrite E1 in Hs2.
  split_and!; [done|by etrans| |].
  - intros [<-|Hin]%elem_of_cons; [|auto]. rewrite (ns_Delete_all _ _ E2) in Hs.
    by apply sublist_nil_r.
  - intros i r [->|Hin]%elem_of_cons Hr; [|by apply (Hd i r)].
    destruct (decide (id = 0)) as [->|Hid].
    + rewrite (ns_Delete_all _ _ E2) in Hs. apply sublist_nil_r in Hs. rewrite Hs in Hr.
      by apply elem_of_nil in Hr.
    + rewrite (ns_Delete_ok _ _ _ E2 Hid) in Hs.
      apply (elem_of_sublist _ _ _ Hr), list_elem_of_filter in Hs. by destruct Hs.
Qed.
End Lemmas.

(** *** Numbers in a list *)

Lemma parse_joined {jsonShards : Json ShardsStruct} (ids : list Z) :
  (∀ l : list Z, json_Unmarshal (strings_Join "," (Itoa <$> l)) ShardsStruct_zero ≠
     ((json_Unmarshal (strings_Join "," (Itoa <$> l)) ShardsStruct_zero).1, None)) →
  Forall (λ id, 0 ≤ id < 2 ^ 32) ids →
  parse_shards (extractUniqueShards (strings_Join "," (Itoa <$> ids))) = ids.
Proof.
  intros Hjson Hids. unfold extractUniqueShards. specialize (Hjson ids).
  destruct (json_Unmarshal _ _) as [data [err|]]; [|done]. destruct ids as [|id0 ids0]; [done|].
  set (ids := id0 :: ids0) in *. assert (strings_Join "," (Itoa <$> ids) ≠ "") as Hne.
  { apply Forall_cons in Hids as [Hid _]. destruct (Itoa_digits id0) as (_ & _ & Hd); [lia|].
    unfold ids. cbn [fmap list_fmap strings_Join]. destruct (Itoa id0); [done|].
    by destruct (Itoa <$> ids0). }
  destruct (String.eqb_spec (strings_Join "," (Itoa <$> ids)) ""); [done|].
  rewrite (strings_Split_Join ","); [|done|].
  - clear -Hids. unfold parse_shards. induction Hids as [|id l Hid _ IH]; [done|].
    cbn [fmap list_fmap omap list_omap]. rewrite IH. cbn in Hid.
    rewrite strings_TrimSpace_digits by (apply Itoa_digits; lia). by rewrite ParseUint32_Itoa.
  - apply Forall_fmap. eapply Forall_impl; [exact Hids|]. intros id Hid. cbn.
    apply all_digits_no_sep; [done|]. cbn in Hid. apply Itoa_digits. lia.
Qed.

(** ** Properties *)

Section Properties.
Context {DB : Type} {ns : NodeStore DB} {laws : NodeStoreLaws DB} `{Runtime}.

(** The changes that check what they write. *)
Inductive node_change :=
  | NodeStored (p : NodeParams)
  | RoleChanged (p : NodeChangeRoleParams)
  | NodeDeleted (id : Z)
  | NodesDeleted (ids : list Z).

Definition run_change (c : node_change) (db : DB) : go (DB * Status) :=
  match c with
  | NodeStored p => store p db
  | RoleChanged p => changeRole p db
  | NodeDeleted id => NodeManager_delete id db
  | NodesDeleted ids => batchDelete ids db
  end.

Definition change_step (db db' : DB) : Prop := ∃ c st, run_change c db = Ret (db', st).

(** C23: nodes stay unique.  Through any sequence of stores, changes of role and
    deletions, whether they succeed or are rolled back, no two nodes have the same
    id in their group or the same address, and primary keys stay set and distinct. *)
Theorem nodes_stay_unique db db' :
  rtc change_step db db' → rows_ok (ns_rows db) → rows_ok (ns_rows db').
Proof.
  induction 1 as [|db1 db2 db3 (c & st & Hc) _ IH]; [done|]. intros Hok. apply IH.
  destruct c as [p|p|id|ids]; cbn [run_change] in Hc.
  - by eapply store_rows_ok.
  - by eapply changeRole_rows_ok.
  - unfold NodeManager_delete in Hc.
    change (delete_node db1 id db1 _) with (batchDelete_loop db1 [id] db1) in Hc.
    apply batchDelete_loop_rows in Hc as [[-> _]|(_ & Hs & _)]; [done|]. by eapply rows_ok_sublist.
  - apply batchDelete_loop_rows in Hc as [[-> _]|(_ & Hs & _)]; [done|]. by eapply rows_ok_sublist.
Qed.

(** A change of role.  When it succeeds, exactly the nodes asked for that had
    the other role have the new one, with the lists of leader and follower shards
    exchanged; a list that is NULL is not exchanged, so that the other one ends up
    in both places.  When it fails, for an edge node that was to become a master
    too, nothing is changed. *)
Theorem changeRole_spec p m db db' st :
  ncr_Master p = Some m → rows_ok (ns_rows db) →
  changeRole p db = Ret (db', st) →
  if Status_Ok st
  then ns_rows db' = (λ r,
    if decide (node_matches (where_id (ncr_Id p) (ncr_GroupId p)) r = true ∧ n_Master r ≠ Some m)
    then mkNode (n_Id r) (n_NodeId r) (n_Active r) (n_Status r) (n_Host r) (n_Port r) (n_Weight r)
           (Some m) (n_IsEdgeNode r) (n_Desc r) (n_GroupId r) (n_GroupInfo r) (n_ConfigId r)
           (n_Config r)
           (match n_FollowerShardList r with None => n_LeaderShardList r | l => l end)
           (match n_LeaderShardList r with None => n_FollowerShardList r | l => l end)
           (n_AnsibleConfigId r) (n_AnsibleConfig r)
    else r) <$> ns_rows db
  else db' = db.
Proof.
  intros Hm (_ & Hi & Hz). unfold changeRole.
  destruct (ns_Find _ _) as [nodes|err] eqn:E; [|by intros [= <- <-]].
  apply ns_Find_ok in E. set (c := where_id _ _) in *. intros Hl.
  destruct (Status_Ok st) eqn:Hok; [|by eapply changeRole_loop_fails].
  assert (∀ n, n ∈ nodes ↔ node_matches c n = true ∧ n ∈ ns_rows db) as Hn.
  { intros n. by rewrite E, list_elem_of_filter. }
  rewrite (changeRole_loop_rows p m db nodes db db' st); [|done..| | |].
  - apply list_fmap_ext. intros i r Hr%list_elem_of_lookup_2.
    assert (n_Id r ∈ n_Id <$> nodes ↔ node_matches c r = true) as Hiff.
    { rewrite list_elem_of_fmap. split; [|naive_solver]. intros (n & Hid & Hnn).
      by rewrite (NoDup_fmap_inj n_Id (ns_rows db) r n Hi Hr (proj2 (proj1 (Hn n) Hnn)) Hid), (proj1 (proj1 (Hn n) Hnn)). }
    destruct (decide (n_Id r ∈ n_Id <$> nodes ∧ _)), (decide (node_matches c r = true ∧ _));
      [unfold role_swap, node_overwrite; cbn; by destruct (n_FollowerShardList r), (n_LeaderShardList r)
      |exfalso; tauto..|done].
  - rewrite Forall_forall in *. intros n Hnn. by apply Hz, Hn.
  - rewrite E. eapply sublist_NoDup; [exact Hi|]. apply fmap_sublist, sublist_filter.
  - intros r n Hr Hnn Hid. eapply (NoDup_fmap_inj n_Id); [done..| |done]. by apply Hn.
Qed.

(** Deleting a list with a zero in it.  gorm deletes every row where the
    primary key is zero, so that a batch with [0] among its ids empties the table;
    one without deletes exactly the nodes it names or, on an error, none. *)
Theorem batchDelete_spec ids db db' st :
  batchDelete ids db = Ret (db', st) →
  if Status_Ok st
  then (0 ∈ ids → ns_rows db' = []) ∧ (∀ r, r ∈ ns_rows db' → r ∈ ns_rows db ∧ n_Id r ∉ ids)
  else db' = db.
Proof.
  intros Hl. apply batchDelete_loop_rows in Hl as [[-> ->]|(-> & Hs & H0 & Hd)]; [done|].
  cbn. split; [done|]. intros r Hr. split; [by eapply elem_of_sublist|].
  intros Hin. by apply (Hd _ r Hin Hr).
Qed.
End Properties.

Section TextProperties.
Context {jsonShards : Json ShardsStruct}.

(** Shards as text.  Shards of valid ids written by [shardSliceToStrList] are
    read back by [shardStrListToSlice]: the leaders, then the followers, in their
    order, as shards of the node; a shard of any other role is lost.  The decoder is
    taken to reject lists of numbers, which are no JSON objects. *)
Theorem shard_text_roundtrip node shards :
  (∀ l : list Z, json_Unmarshal (strings_Join "," (Itoa <$> l)) ShardsStruct_zero ≠
     ((json_Unmarshal (strings_Join "," (Itoa <$> l)) ShardsStruct_zero).1, None)) →
  Forall (λ s, 0 ≤ sh_ShardId s < 2 ^ 32) shards →
  n_LeaderShardList node = Some (shardSliceToStrList shards).1 →
  n_FollowerShardList node = Some (shardSliceToStrList shards).2 →
  shardStrListToSlice node = Ret (
    ((λ s, mkShard (g_Name (n_GroupInfo node)) (n_NodeId node) (sh_ShardId s) Leader LeaderStatus) <$>
       filter (λ s, sh_Role s = Leader) shards) ++
    ((λ s, mkShard (g_Name (n_GroupInfo node)) (n_NodeId node) (sh_ShardId s) Follower FollowerStatus) <$>
       filter (λ s, sh_Role s = Follower) shards)).
Proof.
  intros Hjson Hids Hl Hf. unfold shardStrListToSlice. rewrite Hl, Hf.
  cbn [go_deref mbind go_bind mret go_ret]. unfold shardSliceToStrList. cbn [fst snd].
  assert (∀ role, parse_shards (extractUniqueShards (strings_Join ","
      ((λ s, Itoa (sh_ShardId s)) <$> filter (λ s, sh_Role s = role) shards))) =
    sh_ShardId <$> filter (λ s, sh_Role s = role) shards) as Hp.
  { intros role. rewrite (list_fmap_compose sh_ShardId Itoa). apply parse_joined; [done|].
    apply Forall_forall. intros id (s & -> & [_ Hs]%list_elem_of_filter)%list_elem_of_fmap.
    rewrite Forall_forall in Hids. by apply Hids. }
  rewrite !Hp, <- !list_fmap_compose. f_equal. f_equal; apply list_fmap_ext;
    intros i s [_ Hs]%list_elem_of_lookup_2%list_elem_of_filter; cbn; rewrite wrapu_small; try done;
    rewrite Forall_forall in Hids; by apply Hids.
Qed.
End TextProperties.

(** *** Concrete runs: the rows in memory *)


Definition with_id (id : Z) (n : Node) : Node :=
  mkNode id (n_NodeId n) (n_Active n) (n_Status n) (n_Host n) (n_Port n) (n_Weight n) (n_Master n)
    (n_IsEdgeNode n) (n_Desc n) (n_GroupId n) (n_GroupInfo n) (n_ConfigId n) (n_Config n)
    (n_LeaderShardList n) (n_FollowerShardList n) (n_AnsibleConfigId n) (n_AnsibleConfig n).

Definition mem_nodes : NodeStore (list Node) :=
  {| ns_Count c db := inl (Z.of_nat (length (filter (λ r, node_matches c r = true) db)));
     ns_Find c db := inl (filter (λ r, node_matches c r = true) db);
     ns_Create n db := (db ++ [with_id (fresh_Z (n_Id <$> db)) n], None);
     ns_UpdateColumns id v db :=
       ((λ r, if decide (n_Id r = id) then node_overwrite v r else r) <$> db, None);
     ns_ClearBindTables id db := (db, None);
     ns_Delete id db := (if Z.eqb id 0 then [] else filter (λ r, n_Id r ≠ id) db, None);
     ns_Exec sql db := (db, Some (mkError "no SQL" false)) |}.

Definition mem_nodes_laws : NodeStoreLaws (H:=mem_nodes) (list Node).
Proof.
  refine {| ns_rows db := db |}; cbn.
  - by intros c db k [= <-].
  - by intros c db l [= <-].
  - intros n db db' [= <-]. destruct (fresh_Z_spec (n_Id <$> db)). by exists (with_id (fresh_Z (n_Id <$> db)) n).
  - by intros id v db db' [= <-].
  - by intros id db db' [= <-].
  - intros id db db' [= <-] Hid. by destruct (Z.eqb_spec id 0).
  - by intros db db' [= <-].
Defined.

#[local] Existing Instances mem_nodes mem_nodes_laws main_go.

Definition master_row : Node :=
  node_columns 1 1 (Some 1) (Some 1) "h1" 80 (Some 1) (Some true) (Some false) "" 1 1 1
    (Some "0,1") (Some "").
Definition null_row : Node :=
  node_columns 2 2 (Some 1) (Some 1) "h2" 80 (Some 1) (Some true) (Some false) "" 1 1 1
    (Some "2,3") None.

Definition new_node (nodeId : Z) (host : string) : NodeParams :=
  mkNodeParams 0 nodeId (Some 1) (Some 1) host 80 (Some 1) (Some false) (Some false) "" 1 "" 1 "" 1 ""
    (Some "") (Some "").

Lemma rows_ok_example : rows_ok [master_row; null_row].
Proof. unfold rows_ok, nodes_unique. split_and!; apply (bool_decide_unpack _); vm_compute; exact I. Qed.

Lemma nodes_stay_unique_witness :
  rows_ok [master_row; null_row; with_id 3 (params_node (new_node 3 "h3"))].
Proof.
  refine (nodes_stay_unique (laws:=mem_nodes_laws) [master_row; null_row]
    [master_row; null_row; with_id 3 (params_node (new_node 3 "h3"))] _ rows_ok_example).
  apply rtc_once. exists (NodeStored (new_node 3 "h3")), StatusOk. vm_compute. reflexivity.
Defined.

(** The node whose list of followers is NULL keeps its leaders and has them as
    followers too. *)
Lemma changeRole_spec_witness :
  ∃ db', changeRole (mkNodeChangeRoleParams 0 1 (Some false)) [master_row; null_row] = Ret (db', StatusOk) ∧
    (λ r, (n_LeaderShardList r, n_FollowerShardList r)) <$> db' =
      [(Some "", Some "0,1"); (Some "2,3", Some "2,3")].
Proof.
  destruct (returns_Ret (changeRole (mkNodeChangeRoleParams 0 1 (Some false)) [master_row; null_row]))
    as [[db' st] E]; [vm_compute; reflexivity|].
  pose proof (changeRole_spec (mkNodeChangeRoleParams 0 1 (Some false)) false _ _ _ eq_refl rows_ok_example E) as Hs.
  assert (st = StatusOk) as -> by (vm_compute in E; by injection E as _ <-).
  exists db'. split; [exact E|]. change (db' = ns_rows db') in Hs || cbn in Hs.
  rewrite Hs. vm_compute. reflexivity.
Defined.

Lemma batchDelete_spec_witness :
  ∃ db', batchDelete [1; 0] [master_row; null_row] = Ret (db', StatusOk) ∧ db' = [].
Proof.
  exists []. split; [vm_compute; reflexivity|].
  refine (proj1 (batchDelete_spec (laws:=mem_nodes_laws) [1; 0] [master_row; null_row] [] StatusOk _) _).
  - vm_compute. reflexivity.
  - right. left.
Defined.

(** An update of an existing node checks neither its new id nor its new address. *)
Lemma update_duplicates :
  ∃ db', update (mkNodeParams 2 1 (Some 1) (Some 1) "h1" 80 (Some 1) (Some true) (Some false) "" 1 "" 1 "" 1 ""
                   (Some "") (Some "")) [master_row; null_row] = Ret (db', StatusOk) ∧
    node_key <$> db' = [(1, 1); (1, 1)] ∧ node_address <$> db' = [("h1", 80); ("h1", 80)].
Proof. eexists. split; [vm_compute; reflexivity|]. split; vm_compute; reflexivity. Qed.

(** A decoder that rejects everything. *)
Definition no_json : Json ShardsStruct :=
  {| json_Marshal _ := inr (mkError "" false); json_Unmarshal _ y := (y, Some (mkError "" false)) |}.

Lemma shard_text_roundtrip_witness :
  shardStrListToSlice (jsonShards:=no_json) master_row =
    Ret [mkShard "" 1 0 Leader LeaderStatus; mkShard "" 1 1 Leader LeaderStatus].
Proof.
  apply (shard_text_roundtrip (jsonShards:=no_json) master_row
    [mkShard "g" 1 0 Leader 0; mkShard "g" 1 1 Leader 0]).
  - intros l. discriminate.
  - apply (bool_decide_unpack _). vm_compute. exact I.
  - vm_compute. reflexivity.
  - vm_compute. reflexivity.
Defined.
