(* ===== verification/ConsulModel.v ===== *)
(** * Publishing the configuration ([control/service/consul.go])

    The control plane generates the configuration of clients and servers from its
    database, as JSON, and puts it into consul under the keys that the service
    router pulls.  Consul and the clock are the class [ConsulHttp]. *)

From S2P Require Import Prelude RouterTypes Partition Registry GoLib ControlStatus ControlData ShardMetrics StatusManager ShardManager NodeManager.

(** ** Data *)

Record ConsulApiReturnData := mkConsulApiReturnData {
  ca_LockIndex : Z;
  ca_Flags : Z;
  ca_Value : string;
  ca_CreateIndex : Z;
  ca_ModifyIndex : Z
}.

Definition ConsulDatabaseTableSchemaKey : string := "database_table_schema_data".
Definition ConsulTableConfigListKey : string := "table_config_list_data".
Definition ConsulTrafficRestrictionKey : string := "traffic_restriction_data".
Definition ConsulProxyTableConfigSchemaKey : string := "table_config".
Definition ConsulNodeConfigListKey : string := "node_config_list_data".
Definition ConsulClusterInfoKey : string := "cluster_info_data".
Definition ConsulRocksdbNodeConfigsKey : string := "rocksdb_node_configs_data".

Definition ClusterInfoData : Z := 1.
Definition TableInfoData : Z := 2.

Definition LaserConfigKeyToType : gmap string Z := list_to_map [
  (ConsulDatabaseTableSchemaKey, TableInfoData);
  (ConsulTableConfigListKey, TableInfoData);
  (ConsulTrafficRestrictionKey, TableInfoData);
  (ConsulClusterInfoKey, ClusterInfoData);
  (ConsulNodeConfigListKey, ClusterInfoData);
  (ConsulRocksdbNodeConfigsKey, ClusterInfoData)].

Record TableInfo := mkTableInfo {
  tin_Engine : string;
  tin_TableName : string;
  tin_PartitionNumber : Z;
  tin_Ttl : Z;
  tin_Loaders : list string;
  tin_ConfigName : string;
  tin_BindEdgeNodes : list string;
  tin_EdgeFlowRatio : Z;
  tin_Dc : string;
  tin_DistDc : string
}.

Record DatabaseInfo := mkDatabaseInfo { din_DatabaseName : string; din_Tables : list TableInfo }.

Record TableConfigInfo := mkTableConfigInfo {
  tci_DbOptions : gmap string string;
  tci_TableOptions : gmap string string;
  tci_CfOptions : gmap string string;
  tci_Version : Z
}.

Record TableConfigListInfo := mkTableConfigListInfo { tcl_TableConfigList : gmap string TableConfigInfo }.

Record TrafficRestrictionLimitItem := mkTrafficRestrictionLimitItem { tri_Type : Z; tri_Limit : Z }.

Record TableTrafficRestrictionInfo := mkTableTrafficRestrictionInfo {
  ttr_TableName : string;
  ttr_DenyAll : bool;
  ttr_SingleOperationLimits : gmap string Z;
  ttr_MultipleOperationLimits : gmap string TrafficRestrictionLimitItem
}.

Record DatabaseTrafficRestrictionInfo := mkDatabaseTrafficRestrictionInfo {
  dtr_DatabaseName : string;
  dtr_Tables : list TableTrafficRestrictionInfo
}.

Record ProxyTableInfo := mkProxyTableInfo {
  pti_ReadTimeout : Z;
  pti_WriteTimeout : Z;
  pti_AllowedFlow : Z
}.

Record ProxyConfigInfo := mkProxyConfigInfo { pci_ProxyDbTableConfig : gmap string ProxyTableInfo }.

Record ProxyDatabaseTableConfigList := mkProxyDatabaseTableConfigList {
  pdl_ProxyDbTableConfigList : gmap string ProxyConfigInfo
}.

Record ProxyConfig := mkProxyConfig {
  px_DefaultReadTimeout : Z;
  px_DefaultWriteTimeout : Z;
  px_DefaultAllowedFlow : Z;
  px_ProxyTableConfig : ProxyDatabaseTableConfigList
}.

Record NodeRateLimitInfo := mkNodeRateLimitInfo {
  nrl_BeginHour : Z;
  nrl_EndHour : Z;
  nrl_RateBytesPerSec : Z
}.

Record NodeConfigInfo := mkNodeConfigInfo {
  nci_BlockCacheSizeGb : Z;
  nci_WriteBufferSizeGb : Z;
  nci_NumShardBits : Z;
  nci_HighPriPoolRatio : string; (* a [json.Number] *)
  nci_StrictCapacityLimit : bool;
  nci_RateLimitStrategy : list NodeRateLimitInfo
}.

Record NodeConfigListInfo := mkNodeConfigListInfo { ncl_NodeConfigList : gmap string NodeConfigInfo }.

Record RocksdbNodeConfigsInfo := mkRocksdbNodeConfigsInfo { rnc_RocksdbNodeConfigs : gmap string string }.

(** What the code asks of the configuration file. *)
Record ControlConfig := mkControlConfig {
  cfg_ServiceName : string;
  cfg_ProxyServiceName : string;
  cfg_ConsulAddress : string;
  cfg_ConsulToken : string
}.

(** The world outside: consul's HTTP interface and the clock, in nanoseconds.  A PUT
    comes to a status code with its text, or to an error of the request or of
    reading the answer; a GET to what could be read of the body. *)
Class ConsulHttp (K : Type) := {
  ck_Put : string → string → K → K * ((Z * string) + error);
  ck_Get : string → K → string + error;
  ck_Now : K → Z
}.

(** [base64.StdEncoding.DecodeString] without its error, [fmt.Sprint] of a
    [float64], and the conversion of a [float64] to [int64], which is fixed only
    where the value is in range. *)
Class Base64 := { base64_Decode : string → string }.
Class FloatText := { fmt_Sprint : double → string; f64_to_int64 : double → Z }.

(** Every type that is written as JSON here. *)
Class ConfigJson := {
  json_schema :: Json (list DatabaseInfo);
  json_tableConfigs :: Json TableConfigListInfo;
  json_traffic :: Json (list DatabaseTrafficRestrictionInfo);
  json_proxy :: Json ProxyConfig;
  json_nodeConfigs :: Json NodeConfigListInfo;
  json_version :: Json ShardVersionData;
  json_rocksdb :: Json RocksdbNodeConfigsInfo;
  json_consul :: Json (list ConsulApiReturnData);
  json_text :: Json ShardsStruct
}.

(** ** Generators *)

Section Generate.
Context `{CityHash} `{MapOrder} `{GoSort} `{Runtime} `{FloatToUint} `{FloatText} `{ConfigJson}
  {DB : Type} `{ControlDb DB} `{ConfigDb DB}.

(** [json.Marshal] as every generator ends. *)
Definition marshal {A} `{Json A} (a : A) : string * Status :=
  match json_Marshal a with
  | inl data => (data, StatusOk)
  | inr err => ("", StatusWithError (Some err))
  end.

(** The edge nodes of a table: those whose group is found. *)
Definition edge_node_ids (db : DB) (nodes : list Node) : go (list string) :=
  go_fold (λ bindEdgeNodes node,
    let '(groupInfo, totalSize) := Group_List db (mkGroupListParams 0 0 0 (n_GroupId node) "" false) true in
    if negb (Z.eqb totalSize 1) then mret bindEdgeNodes
    else
      group ← go_index groupInfo 0;
      mret (bindEdgeNodes ++ [g_Name (g_row group) +:+ "#" +:+ Itoa (n_NodeId node)])) nodes [].

(** The entry of a table, [None] where it is disabled. *)
Definition table_info (db : DB) (tableItem : Table) : go (option TableInfo) :=
  status ← go_deref (t_Status tableItem);
  if Z.eqb status TableDisabled then mret None
  else
    let configName := if String.eqb (tc_Name (t_Config tableItem)) "" then DefaultConfigName
                      else tc_Name (t_Config tableItem) in
    bindEdgeNodes ← edge_node_ids db (t_BindEdgeNodes tableItem);
    ttl ← go_deref (t_Ttl tableItem);
    edgeFlowRatio ← go_deref (t_EdgeFlowRatio tableItem);
    mret (Some (mkTableInfo "rocksdb" (t_Name tableItem) (t_PartitionNumber tableItem) ttl []
                  configName bindEdgeNodes edgeFlowRatio (dc_Name (t_Dc tableItem))
                  (dc_Name (t_DistDc tableItem)))).

Definition database_info (db : DB) (dbItem : LaserDatabase) : go DatabaseInfo :=
  let tableList := (Table_ListDetail db (mkTableListParams 0 0 (ld_Id dbItem) 0 "" "") false).1 in
  tables ← go_fold (λ tables tableItem,
      info ← table_info db tableItem;
      mret (tables ++ match info with Some t => [t] | None => [] end)) tableList [];
  mret (mkDatabaseInfo (ld_Name dbItem) tables).

Definition schema_data (db : DB) : go (list DatabaseInfo) :=
  go_fold (λ dbInfos dbItem, dbInfo ← database_info db dbItem; mret (dbInfos ++ [dbInfo]))
    (LaserDatabase_List db (mkDatabaseListParams 0 0) false).1 [].

Definition generateDatabaseTableSchemaJson (db : DB) : go (string * Status) :=
  dbInfos ← schema_data db; mret (marshal (dbInfos : list DatabaseInfo)).

(** The options of a configuration, by their type. *)
Definition table_config_info (tableConfig : TableConfig) : TableConfigInfo :=
  foldl (λ info item,
    let '(mkTableConfigInfo db table cf v) := info in
    if Z.eqb (ti_Type item) TypeDbOptions
    then mkTableConfigInfo (<[ti_Name item := ti_Value item]> db) table cf v
    else if Z.eqb (ti_Type item) TypeTableOptions
    then mkTableConfigInfo db (<[ti_Name item := ti_Value item]> table) cf v
    else mkTableConfigInfo db table (<[ti_Name item := ti_Value item]> cf) v)
    (mkTableConfigInfo ∅ ∅ ∅ (tc_Version tableConfig)) (tc_ConfigItems tableConfig).

Definition generateTableConfigListJson (db : DB) : string * Status :=
  let configList := (ListWithDetailItems db (mkTableConfigListParams 0 0 "" None) false).1 in
  marshal (mkTableConfigListInfo
    (foldl (λ m tableConfig, <[tc_Name tableConfig := table_config_info tableConfig]> m) ∅ configList)).

Definition proxy_table_info (configItem : ProxyTableConfig) : ProxyTableInfo :=
  mkProxyTableInfo (pc_ReadTimeout configItem) (pc_WriteTimeout configItem) (pc_AllowedFlow configItem).

(** The last of the defaults, or the ones built in. *)
Definition proxy_defaults (defaultConfig : list ProxyTableConfig) : ProxyTableInfo :=
  match defaultConfig with
  | [] => mkProxyTableInfo 10 10 100
  | _ => foldl (λ _ value, proxy_table_info value) (mkProxyTableInfo 0 0 0) defaultConfig
  end.

(** Listing stores a default configuration where there is none. *)
Definition generateProxyTableConfigSchemaJson (now : Z) (db : DB) : DB * (string * Status) :=
  let '(db, (defaultConfig, _)) :=
    ProxyTableConfig_List now (mkProxyTableConfigListParams 0 0 defaultDbName) true db in
  let defaults := proxy_defaults defaultConfig in
  let dbList := (LaserDatabase_List db (mkDatabaseListParams 0 0) false).1 in
  let '(db, configs) :=
    foldl (λ '(db, configs) dbItem,
      let '(db, (tableListConfig, _)) :=
        ProxyTableConfig_List now (mkProxyTableConfigListParams 0 0 (ld_Name dbItem)) true db in
      match tableListConfig with
      | [] => (db, configs)
      | _ => (db, <[ld_Name dbItem := mkProxyConfigInfo
                      (foldl (λ m configItem, <[pc_TableName configItem := proxy_table_info configItem]> m)
                         ∅ tableListConfig)]> configs)
      end) (db, ∅) dbList in
  (db, marshal (mkProxyConfig (pti_ReadTimeout defaults) (pti_WriteTimeout defaults)
                  (pti_AllowedFlow defaults) (mkProxyDatabaseTableConfigList configs))).

(** [%.1f] of a [float64] that is an integer, else [%v]. *)
Definition toNumber (f : double) : string :=
  let i := f64_to_int64 f in
  if SFeqb f (f64_of_Z i)
  then match f with S754_zero true => "-0.0" | _ => Itoa i +:+ ".0" end
  else fmt_Sprint f.

Definition node_config_info (configItem : NodeConfig) : go NodeConfigInfo :=
  let capacityLimit := negb (Z.eqb (nc_StrictCapacityLimit configItem) 0) in
  limits ← go_fold (λ limits rateLimit,
      beginHour ← go_deref (nr_BeginHour rateLimit);
      mret (limits ++ [mkNodeRateLimitInfo beginHour (nr_EndHour rateLimit)
                         (nr_RateBytesPerSec rateLimit)])) (nc_RateLimitStrategy configItem) [];
  ratio ← go_deref (nc_HighPriPoolRatio configItem);
  mret (mkNodeConfigInfo (nc_BlockCacheSizeGb configItem) (nc_WriteBufferSizeGb configItem)
          (nc_NumShardBits configItem) (toNumber ratio) capacityLimit limits).

Definition generateNodeConfigListJson (db : DB) : go (string * Status) :=
  configs ← go_fold (λ configs configItem,
      info ← node_config_info configItem; mret (<[nc_Name configItem := info]> configs))
    (NodeConfig_List db (mkNodeConfigListParams 0 0 "") true).1 ∅;
  mret (marshal (mkNodeConfigListInfo configs)).

(** One limit of a table, filed under its kind; of neither kind, it is dropped. *)
Definition add_limit (info : TableTrafficRestrictionInfo) (limit : TrafficRestrictionLimit)
  : go TableTrafficRestrictionInfo :=
  let '(mkTableTrafficRestrictionInfo name deny single multiple) := info in
  if Z.eqb (tl_OperationType limit) SingleOperation
  then mret (mkTableTrafficRestrictionInfo name deny (<[tl_Name limit := tl_LimitValue limit]> single) multiple)
  else if Z.eqb (tl_OperationType limit) MultipleOperation then
    limitType ← go_deref (tl_LimitType limit);
    mret (mkTableTrafficRestrictionInfo name deny single
            (<[tl_Name limit := mkTrafficRestrictionLimitItem limitType (tl_LimitValue limit)]> multiple))
  else mret info.

Definition table_traffic (tableInfo : Table) : go (option TableTrafficRestrictionInfo) :=
  denyAll ← go_deref (t_DenyAll tableInfo);
  match Z.eqb denyAll 0, t_TrafficLimits tableInfo with
  | true, [] => mret None
  | _, limits =>
      info ← go_fold add_limit limits
        (mkTableTrafficRestrictionInfo (t_Name tableInfo) (negb (Z.eqb denyAll 0)) ∅ ∅);
      mret (Some info)
  end.

Definition database_traffic (db : DB) (dbInfo : LaserDatabase) : go DatabaseTrafficRestrictionInfo :=
  tables ← go_fold (λ tables tableInfo,
      info ← table_traffic tableInfo;
      mret (tables ++ match info with Some t => [t] | None => [] end))
    (Table_ListDetail db (mkTableListParams 0 0 (ld_Id dbInfo) 0 "" "") false).1 [];
  mret (mkDatabaseTrafficRestrictionInfo (ld_Name dbInfo) tables).

Definition generateTrafficRestrictionJson (db : DB) : go (string * Status) :=
  infos ← go_fold (λ infos dbInfo, info ← database_traffic db dbInfo; mret (infos ++ [info]))
    (LaserDatabase_List db (mkDatabaseListParams 0 0) false).1 [];
  mret (marshal (infos : list DatabaseTrafficRestrictionInfo)).

(** The snapshot read from the database is only for a manager that does not exist
    yet: the data is that of the manager. *)
Definition generateClusterInfo (now : Now) (db : DB) (nm : NodeManager) : go (string * Status) :=
  _ ← GetClusterInfo db;
  mret (GetCurrentVersionData now (nm_shards nm)).

Definition generateRocksdbNodeConfigsJson (db : DB) (mm : ShardMetricsManager) : go (string * Status) :=
  '(status, nodeGroups) ← ListNode db mm;
  if negb (Status_Ok status) then mret ("", status)
  else
    let configs := foldl (λ configs group,
      foldl (λ configs node,
        let nodeFlag := ng_GroupName group +:+ "#" +:+ Itoa (nid_NodeId node) in
        let configName := if String.eqb (nid_ConfigName node) "" then DefaultConfigName
                          else nid_ConfigName node in
        <[nodeFlag := configName]> configs) configs (ng_Nodes group)) ∅ nodeGroups in
    match json_Marshal (mkRocksdbNodeConfigsInfo configs) with
    | inr err => mret ("", StatusWithError (Some err))
    | inl data => mret (data, status)
    end.
End Generate.

(** ** Consul *)

Section Consul.
Context `{CityHash} `{MapOrder} `{GoSort} `{Runtime} `{FloatToUint} `{FloatText} `{Base64} `{ConfigJson}
  {DB : Type} `{ControlDb DB} `{ConfigDb DB} {K : Type} `{ConsulHttp K}.
Implicit Types (cfg : ControlConfig) (k : K).

(** The address of a service's keys in consul. *)
Definition service_url cfg (serviceName path : string) : string :=
  "http://" +:+ cfg_ConsulAddress cfg +:+ "/v1/kv/ads-core/services/laser_" +:+ serviceName +:+
  path +:+ "?token=" +:+ cfg_ConsulToken cfg.

Definition version_url cfg (serviceName : string) : string :=
  service_url cfg serviceName "/config/version".

Definition getConsulUrl cfg (serviceName key : string) : string :=
  service_url cfg serviceName ("/config/configs/" +:+ key).

(** A PUT as both writers do it. *)
Definition consul_put (url value : string) k : K * Status :=
  match ck_Put url value k with
  | (k, inr err) => (k, StatusWithError (Some err))
  | (k, inl (code, text)) =>
      if negb (Z.eqb code 200) then (k, StatusWithMessage ConsulPutKVFailed text) else (k, StatusOk)
  end.

Definition consulUpdateConfigVersion cfg (serviceName : string) k : K * Status :=
  let now := Z.quot (ck_Now k) 1000000 in
  consul_put (version_url cfg serviceName) (Itoa now) k.

Definition consulSetLaserConfigsKV cfg (serviceName key value : string) k : K * Status :=
  let '(k, status) := consul_put (getConsulUrl cfg serviceName key) value k in
  if negb (Status_Ok status) then (k, status) else consulUpdateConfigVersion cfg serviceName k.

Definition consulGetLaserConfigsKV cfg (key : string) k : string * Status :=
  match ck_Get (getConsulUrl cfg (cfg_ServiceName cfg) key) k with
  | inr err => ("", StatusWithError (Some err))
  | inl data =>
      match json_Unmarshal data ([] : list ConsulApiReturnData) with
      | (_, Some err) => ("", StatusWithError (Some err))
      | ([], None) => ("", StatusError ConsulGetKVFailed)
      | (r :: _, None) => (base64_Decode (ca_Value r), StatusOk)
      end
  end.

(** Writing one key after the other; the first failure ends it. *)
Fixpoint set_all cfg (serviceName : string) (kvs : list (string * string)) k : K * Status :=
  match kvs with
  | [] => (k, StatusOk)
  | (key, value) :: kvs =>
      let '(k, status) := consulSetLaserConfigsKV cfg serviceName key value k in
      if negb (Status_Ok status) then (k, status) else set_all cfg serviceName kvs k
  end.

(** A generator of the ones before a write; a failure writes nothing. *)
Definition generated (g : go (string * Status)) k (next : string → go (K * Status)) : go (K * Status) :=
  '(data, status) ← g;
  if negb (Status_Ok status) then mret (k, status) else next data.

Definition SynchronizeDatabaseTableSchemaToConsul cfg (db : DB) k : go (K * Status) :=
  generated (generateDatabaseTableSchemaJson db) k (λ schemaData,
  generated (mret (generateTableConfigListJson db)) k (λ tableConfigListData,
  generated (generateTrafficRestrictionJson db) k (λ trafficRestrictionData,
  mret (set_all cfg (cfg_ServiceName cfg)
          [(ConsulTableConfigListKey, tableConfigListData);
           (ConsulTrafficRestrictionKey, trafficRestrictionData);
           (ConsulDatabaseTableSchemaKey, schemaData)] k)))).

Definition SynchronizeClusterInfoToConsul cfg (now : Now) (db : DB) (mm : ShardMetricsManager)
    (nm : NodeManager) k : go (K * Status) :=
  generated (generateNodeConfigListJson db) k (λ schemaData,
  generated (generateRocksdbNodeConfigsJson db mm) k (λ rocksdbNodeConfigData,
  generated (generateClusterInfo now db nm) k (λ clusterInfo,
  mret (set_all cfg (cfg_ServiceName cfg)
          [(ConsulNodeConfigListKey, schemaData);
           (ConsulRocksdbNodeConfigsKey, rocksdbNodeConfigData);
           (ConsulClusterInfoKey, clusterInfo)] k)))).

Definition SynchronizeProxyTableConfigSchemaToConsul cfg (now : Z) (db : DB) k : DB * (K * Status) :=
  let '(db, (schemaData, status)) := generateProxyTableConfigSchemaJson now db in
  if negb (Status_Ok status) then (db, (k, status))
  else (db, consulSetLaserConfigsKV cfg (cfg_ProxyServiceName cfg) ConsulProxyTableConfigSchemaKey
              schemaData k).

(** [NewConsulModel]'s table of generators. *)
Definition consulKeyToGeneratorFunc (now : Now) (db : DB) (mm : ShardMetricsManager) (nm : NodeManager)
  : gmap string (go (string * Status)) := list_to_map [
  (ConsulDatabaseTableSchemaKey, generateDatabaseTableSchemaJson db);
  (ConsulTableConfigListKey, mret (generateTableConfigListJson db));
  (ConsulTrafficRestrictionKey, generateTrafficRestrictionJson db);
  (ConsulNodeConfigListKey, generateNodeConfigListJson db);
  (ConsulClusterInfoKey, generateClusterInfo now db nm);
  (ConsulRocksdbNodeConfigsKey, generateRocksdbNodeConfigsJson db mm)].
End Consul.

(** ** What consul promises *)

(** A key has the value last put there, a PUT touches no other key, and a GET that
    can be read tells the value in base64. *)
Class ConsulLaws (K : Type) `{ConsulHttp K} `{Base64} {jsonConsul : Json (list ConsulApiReturnData)} := {
  consul_value : string → K → option string;
  ck_Put_ok url v k k' text : ck_Put url v k = (k', inl (200, text)) → consul_value url k' = Some v;
  ck_Put_other url v k u : u ≠ url → consul_value u (ck_Put url v k).1 = consul_value u k;
  ck_Get_ok url v k data : consul_value url k = Some v → ck_Get url k = inl data →
    ∃ r rest, json_Unmarshal data [] = (r :: rest, None) ∧ base64_Decode (ca_Value r) = v
}.

(** ** Lemmas *)

Section Lemmas.
Context `{Runtime} {b64 : Base64} {cj : ConfigJson}
  {K : Type} {http : ConsulHttp K} {laws : ConsulLaws K}.
Implicit Types (cfg : ControlConfig) (k : K).

Lemma service_url_inj cfg s : Inj (=) (=) (service_url cfg s).
Proof.
  intros p q Heq. unfold service_url in Heq. do 4 apply (inj (String.append _)) in Heq.
  by apply append_inj_r in Heq.
Qed.

Lemma getConsulUrl_inj cfg s : Inj (=) (=) (getConsulUrl cfg s).
Proof. intros p q Heq%service_url_inj. by apply (inj (String.append _)) in Heq. Qed.

Lemma version_url_ne cfg s key : getConsulUrl cfg s key ≠ version_url cfg s.
Proof. intros Heq%service_url_inj. discriminate. Qed.

Lemma consul_put_value url v k k' st :
  consul_put url v k = (k', st) →
  (Status_Ok st = true → consul_value url k' = Some v) ∧
  (∀ u, u ≠ url → consul_value u k' = consul_value u k).
Proof.
  unfold consul_put. destruct (ck_Put url v k) as [k1 [[code text]|err]] eqn:E.
  - assert (∀ u, u ≠ url → consul_value u k1 = consul_value u k) as Ho.
    { intros u Hu. rewrite <- (ck_Put_other url v k u Hu). by rewrite E. }
    destruct (Z.eqb_spec code 200) as [->|]; intros [= <- <-]; (split; [|done]); [|done].
    intros _. by eapply ck_Put_ok.
  - intros [= <- <-]. split; [done|]. intros u Hu.
    rewrite <- (ck_Put_other url v k u Hu). by rewrite E.
Qed.

(** The value of a configuration. *)
Definition config_value cfg (s key : string) k : option string :=
  consul_value (getConsulUrl cfg s key) k.

Lemma set_value cfg s key v k k' st :
  consulSetLaserConfigsKV cfg s key v k = (k', st) →
  (Status_Ok st = true → config_value cfg s key k' = Some v) ∧
  (∀ key', key' ≠ key → config_value cfg s key' k' = config_value cfg s key' k).
Proof.
  unfold consulSetLaserConfigsKV. destruct (consul_put _ v k) as [k1 st1] eqn:E1.
  apply consul_put_value in E1 as [Hv Ho].
  destruct (Status_Ok st1) eqn:Hst; cbn [negb].
  - intros [_ Hver]%consul_put_value. unfold config_value. split.
    + intros _. rewrite Hver by apply version_url_ne. auto.
    + intros key' Hk. rewrite Hver by apply version_url_ne. apply Ho.
      by intros ?%getConsulUrl_inj.
  - intros [= <- <-]. rewrite Hst. split; [done|]. intros key' Hk. apply Ho.
    by intros ?%getConsulUrl_inj.
Qed.

Lemma set_all_other cfg s kvs k k' st key :
  set_all cfg s kvs k = (k', st) → key ∉ kvs.*1 → config_value cfg s key k' = config_value cfg s key k.
Proof.
  revert k. induction kvs as [|[key1 v1] kvs IH]; intros k; cbn [set_all]; [by intros [= <- _]|].
  destruct (consulSetLaserConfigsKV _ _ key1 v1 k) as [k1 st1] eqn:E. apply set_value in E as [_ Ho].
  intros Hs [Hne Hnin]%not_elem_of_cons. destruct (Status_Ok st1); cbn [negb] in Hs.
  - rewrite (IH _ Hs Hnin). by apply Ho.
  - injection Hs as <- _. by apply Ho.
Qed.

(** When all went well every key has its value. *)
Lemma set_all_ok cfg s kvs k k' st :
  NoDup kvs.*1 → set_all cfg s kvs k = (k', st) → Status_Ok st = true →
  Forall (λ kv, config_value cfg s kv.1 k' = Some kv.2) kvs.
Proof.
  revert k. induction kvs as [|[key v] kvs IH]; intros k Hnd; cbn [set_all]; [by constructor|].
  apply NoDup_cons in Hnd as [Hnin Hnd].
  destruct (consulSetLaserConfigsKV _ _ key v k) as [k1 st1] eqn:E. apply set_value in E as [Hv _].
  intros Hs Hok. destruct (Status_Ok st1) eqn:Hst; cbn [negb] in Hs.
  - constructor; [|by eapply IH]. cbn [fst snd]. rewrite (set_all_other _ _ _ _ _ _ key Hs Hnin). auto.
  - injection Hs as <- <-. by rewrite Hst in Hok.
Qed.

(** A key is written only after the ones before it were. *)
Lemma set_all_order cfg s kvs key v k k' st :
  NoDup (kvs.*1 ++ [key]) → set_all cfg s (kvs ++ [(key, v)]) k = (k', st) →
  config_value cfg s key k' ≠ config_value cfg s key k →
  Forall (λ kv, config_value cfg s kv.1 k' = Some kv.2) kvs.
Proof.
  revert k. induction kvs as [|[key1 v1] kvs IH]; intros k Hnd; [by constructor|].
  cbn [app set_all]. cbn in Hnd. apply NoDup_cons in Hnd as [Hnin Hnd].
  destruct (consulSetLaserConfigsKV _ _ key1 v1 k) as [k1 st1] eqn:E. apply set_value in E as [Hv Ho].
  assert (key ≠ key1) as Hne by (intros ->; apply Hnin; set_solver).
  intros Hs Hch. destruct (Status_Ok st1) eqn:Hst; cbn [negb] in Hs.
  - constructor; [|apply (IH k1 Hnd Hs); by rewrite (Ho key Hne)]. cbn [fst snd].
    rewrite (set_all_other _ _ _ _ _ _ key1 Hs); [auto|]. by rewrite fmap_app.
  - injection Hs as <- <-. by rewrite (Ho key Hne) in Hch.
Qed.

(** Reading back. *)
Lemma get_value cfg key k v :
  config_value cfg (cfg_ServiceName cfg) key k = Some v →
  (∃ data, ck_Get (getConsulUrl cfg (cfg_ServiceName cfg) key) k = inl data) →
  consulGetLaserConfigsKV cfg key k = (v, StatusOk).
Proof.
  intros Hv [data E]. unfold consulGetLaserConfigsKV. rewrite E.
  destruct (ck_Get_ok _ _ _ _ Hv E) as (r & rest & -> & <-). done.
Qed.
End Lemmas.

(** ** Properties *)

Section Properties.
Context `{CityHash} `{MapOrder} `{GoSort} `{Runtime} `{FloatToUint} `{FloatText} {b64 : Base64}
  {cj : ConfigJson} {DB : Type} `{ControlDb DB} `{ConfigDb DB}
  {K : Type} {http : ConsulHttp K} {laws : ConsulLaws K}.

(** What a synchronisation that succeeded has written. *)
Lemma synchronized_tables cfg db (k k' : K) st :
  SynchronizeDatabaseTableSchemaToConsul cfg db k = Ret (k', st) → Status_Ok st = true →
  ∃ schema traffic,
    generateDatabaseTableSchemaJson db = Ret schema ∧ generateTrafficRestrictionJson db = Ret traffic ∧
    Forall (λ kv, config_value cfg (cfg_ServiceName cfg) kv.1 k' = Some kv.2)
      [(ConsulTableConfigListKey, (generateTableConfigListJson db).1);
       (ConsulTrafficRestrictionKey, traffic.1); (ConsulDatabaseTableSchemaKey, schema.1)].
Proof.
  unfold SynchronizeDatabaseTableSchemaToConsul, generated.
  destruct (generateDatabaseTableSchemaJson db) as [[schema sst]| |]; cbn [mbind go_bind]; [|done..].
  destruct (Status_Ok sst) eqn:Hs; cbn [negb]; [|intros [= <- <-] ?; congruence].
  destruct (generateTableConfigListJson db) as [config cst]. cbn [mbind go_bind mret go_ret].
  destruct (Status_Ok cst) eqn:Hc; cbn [negb]; [|intros [= <- <-] ?; congruence].
  destruct (generateTrafficRestrictionJson db) as [[traffic tst]| |]; cbn [mbind go_bind]; [|done..].
  destruct (Status_Ok tst) eqn:Ht; cbn [negb]; [|intros [= <- <-] ?; congruence].
  intros Hret Hok. assert (set_all cfg (cfg_ServiceName cfg) [(ConsulTableConfigListKey, config);
    (ConsulTrafficRestrictionKey, traffic); (ConsulDatabaseTableSchemaKey, schema)] k = (k', st)) as Hl
    by (cbv beta in Hret; unfold mret, go_ret in Hret; congruence).
  exists (schema, sst), (traffic, tst). split_and!; [done..|].
  eapply set_all_ok; [|exact Hl|done]. apply (bool_decide_unpack _). vm_compute. exact I.
Qed.

(** C19: publishing the tables.  When [SynchronizeDatabaseTableSchemaToConsul]
    succeeds, the three configurations it generated can be read back.  Whether it
    succeeds or not, the tables are changed in consul only once the configurations
    and limits they refer to were written, and a generator that fails leaves consul
    as it was. *)
Theorem publish_tables cfg db (k k' : K) st :
  SynchronizeDatabaseTableSchemaToConsul cfg db k = Ret (k', st) →
  ∃ schema traffic,
    generateDatabaseTableSchemaJson db = Ret schema ∧
    let config := generateTableConfigListJson db in
    (Status_Ok schema.2 = true → Status_Ok config.2 = true → generateTrafficRestrictionJson db = Ret traffic) ∧
    let value key k := consul_value (getConsulUrl cfg (cfg_ServiceName cfg) key) k in
    if (Status_Ok schema.2 && Status_Ok config.2 && Status_Ok traffic.2)%bool then
      (Status_Ok st = true → Forall (λ kv,
         (∃ data, ck_Get (getConsulUrl cfg (cfg_ServiceName cfg) kv.1) k' = inl data) →
         consulGetLaserConfigsKV cfg kv.1 k' = (kv.2, StatusOk))
         [(ConsulTableConfigListKey, config.1); (ConsulTrafficRestrictionKey, traffic.1);
          (ConsulDatabaseTableSchemaKey, schema.1)]) ∧
      (value ConsulDatabaseTableSchemaKey k' ≠ value ConsulDatabaseTableSchemaKey k →
       value ConsulTableConfigListKey k' = Some config.1 ∧
       value ConsulTrafficRestrictionKey k' = Some traffic.1)
    else k' = k ∧ Status_Ok st = false.
Proof.
  unfold SynchronizeDatabaseTableSchemaToConsul, generated.
  destruct (generateDatabaseTableSchemaJson db) as [[schema sst]| |]; cbn [mbind go_bind]; [|done..].
  destruct (Status_Ok sst) eqn:Hs; cbn [negb].
  2: { intros [= <- <-]. exists (schema, sst), ("", StatusOk). cbn [fst snd]. by rewrite Hs. }
  destruct (generateTableConfigListJson db) as [config cst]. cbn [mbind go_bind mret go_ret].
  destruct (Status_Ok cst) eqn:Hc; cbn [negb].
  2: { intros [= <- <-]. exists (schema, sst), ("", StatusOk). cbn [fst snd]. by rewrite Hs, Hc. }
  destruct (generateTrafficRestrictionJson db) as [[traffic tst]| |]; cbn [mbind go_bind]; [|done..].
  destruct (Status_Ok tst) eqn:Ht; cbn [negb].
  2: { intros [= <- <-]. exists (schema, sst), (traffic, tst). cbn [fst snd]. by rewrite Hs, Hc, Ht. }
  intros Hret. assert (set_all cfg (cfg_ServiceName cfg) [(ConsulTableConfigListKey, config);
    (ConsulTrafficRestrictionKey, traffic); (ConsulDatabaseTableSchemaKey, schema)] k = (k', st)) as Hl
    by (cbv beta in Hret; unfold mret, go_ret in Hret; congruence). exists (schema, sst), (traffic, tst). cbn [fst snd]. rewrite Hs, Hc, Ht. cbn [andb].
  split_and!; [done|done| |].
  - intros Hok. eapply set_all_ok in Hl; [|apply (bool_decide_unpack _); vm_compute; exact I|done].
    eapply Forall_impl; [exact Hl|]. intros [key v] Hv Hget. by apply get_value.
  - intros Hch. eapply (set_all_order cfg _ [_; _]) in Hl; [|apply (bool_decide_unpack _); vm_compute; exact I|done].
    apply Forall_cons in Hl as [Hc1 [Ht1 _]%Forall_cons]. by split.
Qed.
End Properties.

(** *** Concrete runs: a consul in memory *)

Definition kv_find (url : string) (k : list (string * string)) : option string :=
  snd <$> List.find (λ kv, String.eqb kv.1 url) k.

Definition mem_consul : ConsulHttp (list (string * string)) :=
  {| ck_Put url v k := ((url, v) :: k, inl (200, "200 OK"));
     ck_Get url k := match kv_find url k with Some v => inl v | None => inr (mkError "404" false) end;
     ck_Now _ := 0 |}.

Definition plain_base64 : Base64 := {| base64_Decode s := s |}.

(** A JSON that writes a type as its name. *)
Definition named_json {A} (name : string) : Json A :=
  {| json_Marshal _ := inl name; json_Unmarshal _ y := (y, Some (mkError "no value" false)) |}.

Definition named_configs (version : Json ShardVersionData) : ConfigJson :=
  {| json_schema := named_json "schema"; json_tableConfigs := named_json "table configs";
     json_traffic := named_json "traffic"; json_proxy := named_json "proxy";
     json_nodeConfigs := named_json "node configs"; json_version := version;
     json_rocksdb := named_json "rocksdb";
     json_consul := {| json_Marshal _ := inl "";
                       json_Unmarshal s _ := ([mkConsulApiReturnData 0 0 s 0 0], None) |};
     json_text := no_json |}.

Definition mem_consul_laws version :
  ConsulLaws (H:=mem_consul) (H0:=plain_base64) (jsonConsul:=json_consul (ConfigJson:=named_configs version))
    (list (string * string)).
Proof.
  refine {| consul_value := kv_find |}; cbn.
  - intros url v k k' text [= <-]. unfold kv_find. cbn. by rewrite String.eqb_refl.
  - intros url v k u Hu. unfold kv_find. cbn. by destruct (String.eqb_spec url u).
  - intros url v k data Hv. rewrite Hv. intros [= <-]. eauto.
Defined.

(** The configurations of a database of rows: those its tables and nodes have. *)
Definition rows_configs : ConfigDb Rows :=
  {| db_databases := rows_gorm (λ _ _, true) (λ db, t_Database <$> rows_tables db);
     db_tableConfigs := rows_gorm (λ s r, empty_or (tc_Name s) (tc_Name r)) (λ db, t_Config <$> rows_tables db);
     db_proxyConfigs := rows_gorm (λ _ _, true) (λ db, []);
     db_nodeConfigs := rows_gorm (λ s r, empty_or (nc_Name s) (nc_Name r)) (λ db, n_Config <$> rows_nodes db);
     proxy_Count _ _ _ := inl 0;
     proxy_Create _ db := (db, Some (mkError "read only" false)) |}.

Definition published_table : Table :=
  mkTable 1 "t" (Some TableEnabled) (Some 0) 4 (Some 0) "" 0 Dc_zero 0 Dc_zero 1 0
    (mkLaserDatabase 1 "d" "" 0) TableConfig_zero (Some 0) [] [] 0.

Definition unversioned : ConfigJson := named_configs (named_json "version").

#[local] Existing Instances mem_consul plain_base64 mem_consul_laws rows_db rows_configs main_go unversioned.

Definition consul_config : ControlConfig := mkControlConfig "s" "p" "c:8500" "x".
Definition published_rows : Rows := mkRows [] [] [] [] [published_table].

(** What is in consul after a synchronisation. *)
Definition published : list (string * string) :=
  match SynchronizeDatabaseTableSchemaToConsul consul_config published_rows [] with
  | Ret (k, _) => k
  | _ => []
  end.

Lemma publish_tables_witness :
  SynchronizeDatabaseTableSchemaToConsul consul_config published_rows [] = Ret (published, StatusOk) ∧
  consulGetLaserConfigsKV consul_config ConsulDatabaseTableSchemaKey published = ("schema", StatusOk).
Proof.
  assert (SynchronizeDatabaseTableSchemaToConsul consul_config published_rows [] = Ret (published, StatusOk))
    as E by (vm_compute; reflexivity).
  split; [exact E|].
  pose proof (publish_tables _ _ _ _ _ E) as (schema & traffic & Hs & Ht & Hif).
  assert (schema = ("schema", StatusOk)) as -> by (clear -Hs; vm_compute in Hs; vm_compute; congruence).
  assert (traffic = ("traffic", StatusOk)) as ->
    by (clear -Ht; vm_compute in Ht; specialize (Ht eq_refl eq_refl); vm_compute; congruence).
  assert (Status_Ok (generateTableConfigListJson published_rows).2 = true) as Hok
    by (vm_compute; reflexivity).
  cbn [snd] in Hif. rewrite Hok in Hif. destruct Hif as [Hread _]. specialize (Hread eq_refl).
  apply Forall_cons in Hread as [_ [_ [Hread _]%Forall_cons]%Forall_cons].
  apply Hread. eexists. vm_compute. reflexivity.
Defined.
