(* ===== verification/ConfigValidator.v ===== *)
(** * Validating the configuration ([control/service/config_validator.go])

    Whether a group may become the master: it has every shard once, all available,
    and its nodes report the shards that the database gives them.  And which
    configurations in consul are not what the database would generate. *)

From S2P Require Import Prelude RouterTypes Partition Registry GoLib ControlStatus ControlData ShardMetrics StatusManager ShardManager NodeManager ConsulModel.

(** ** Data *)

Record CheckGroupReadyToBeMasterResult := mkCheckGroupResult {
  cgr_Ready : bool;
  cgr_MssingShards : list Z;
  cgr_ReduplicativeShards : list Z;
  cgr_UnavailableShards : gmap Z (list Z);
  cgr_InconsistentNodes : list Z
}.

(** ** A group as a master *)

Section Group.
Context `{CityHash} `{MapOrder} `{Runtime} {DB : Type} `{ControlDb DB}
  {jsonNode : Json NodeBasicInfo} {jsonInfo : Json (gmap string ShardInfo)}
  {jsonShards : Json (gmap string ShardStatus)} {jsonRelations : Json (gmap Z ShardRelation)}
  {jsonText : Json ShardsStruct}.

(** The shards in a list of pieces, which are not trimmed here. *)
Definition local_shards (pieces : list string) : gset Z :=
  foldl (λ m piece, match ParseUint32 piece with Some id => {[u32 id]} ∪ m | None => m end) ∅ pieces.

(** The loop over the shards a node reports, with its [break]: what is left of the
    local shards, and whether a shard was reported that is not among them. *)
Fixpoint match_shards (shardInfos : list ShardInfo) (localShardMap : gset Z) : gset Z * bool :=
  match shardInfos with
  | [] => (localShardMap, false)
  | shardInfo :: shardInfos =>
      if decide (si_ShardId shardInfo ∈ localShardMap)
      then match_shards shardInfos (localShardMap ∖ {[si_ShardId shardInfo]})
      else (localShardMap, true)
  end.

Definition node_inconsistent (mm : ShardMetricsManager) (groupName : string) (node : Node) : go bool :=
  leaderList ← go_deref (n_LeaderShardList node);
  let leaderShardList := extractUniqueShards leaderList in
  followerList ← go_deref (n_FollowerShardList node);
  let followerShardList := extractUniqueShards followerList in
  match leaderShardList, followerShardList with
  | _ :: _, _ :: _ => mret true
  | _, _ =>
      let localShardList := match leaderShardList with [] => followerShardList | _ => leaderShardList end in
      let '(_, shardInfos) := GetNodeShardInfo mm groupName (n_NodeId node) in
      let '(unmatched, inconsistent) := match_shards (map_range shardInfos).*2 (local_shards localShardList) in
      mret (negb (bool_decide (unmatched = ∅)) || inconsistent)%bool
  end.

(** The ids of the nodes of a group that fail a check. *)
Definition failing_nodes (check : Node → go bool) (nodes : list Node) : go (list Z) :=
  go_fold (λ inconsistentNodes node,
    bad ← check node;
    mret (if (bad : bool) then inconsistentNodes ++ [n_NodeId node] else inconsistentNodes)) nodes [].

Definition CheckGroupShardDifferenceBetweenLocalAndConsul (db : DB) (mm : ShardMetricsManager)
    (groupName : string) : go (list Z * Status) :=
  let '(groups, total) := Group_List db (mkGroupListParams 0 0 0 0 groupName true) true in
  if negb (Z.eqb total 1) then mret ([], StatusError GroupNotExist)
  else
    group ← go_index groups 0;
    inconsistentNodes ← failing_nodes (node_inconsistent mm groupName) (g_Nodes group);
    mret (inconsistentNodes, StatusOk).

(** The strict check matches leaders and followers each with their own list; a
    shard of neither role is skipped. *)
Fixpoint match_roles (shardInfos : list ShardInfo) (leaders followers : gset Z)
  : gset Z * gset Z * bool :=
  match shardInfos with
  | [] => (leaders, followers, false)
  | shardInfo :: shardInfos =>
      let id := si_ShardId shardInfo in
      if Z.eqb (si_Role shardInfo) Leader then
        if decide (id ∈ leaders) then match_roles shardInfos (leaders ∖ {[id]}) followers
        else (leaders, followers, true)
      else if Z.eqb (si_Role shardInfo) Follower then
        if decide (id ∈ followers) then match_roles shardInfos leaders (followers ∖ {[id]})
        else (leaders, followers, true)
      else match_roles shardInfos leaders followers
  end.

Definition node_strictly_inconsistent (mm : ShardMetricsManager) (groupName : string) (node : Node)
  : go bool :=
  leaderList ← go_deref (n_LeaderShardList node);
  let localLeaderShardMap := local_shards (strings_Split "," leaderList) in
  followerList ← go_deref (n_FollowerShardList node);
  let localFollowerShardMap := local_shards (strings_Split "," followerList) in
  let '(_, shardInfos) := GetNodeShardInfo mm groupName (n_NodeId node) in
  let '(leaders, followers, inconsistent) :=
    match_roles (map_range shardInfos).*2 localLeaderShardMap localFollowerShardMap in
  mret (negb (bool_decide (leaders = ∅)) || negb (bool_decide (followers = ∅)) || inconsistent)%bool.

Definition StrictCheckGroupShardDifferenceBetweenLocalAndConsul (db : DB) (mm : ShardMetricsManager)
    (groupName : string) : go (list Z) :=
  let '(groups, total) := Group_List db (mkGroupListParams 0 0 0 0 groupName true) true in
  if negb (Z.eqb total 1) then mret []
  else
    group ← go_index groups 0;
    failing_nodes (node_strictly_inconsistent mm groupName) (g_Nodes group).

(** One shard of the group: the shards not seen yet, those seen too often and the
    unavailable ones by node. *)
Definition check_shard (acc : gmap Z bool * list Z * gmap Z (list Z)) (shardInfo : ShardStatus)
  : gmap Z bool * list Z * gmap Z (list Z) :=
  let '(totalShards, reduplicative, unavailable) := acc in
  let id := sst_ShardId shardInfo in
  let '(totalShards, reduplicative) :=
    match totalShards !! id with
    | None => (totalShards, reduplicative ++ [id])
    | Some _ => (delete id totalShards, reduplicative)
    end in
  (totalShards, reduplicative,
   if Z.eqb (sst_ServiceState shardInfo) ServiceUnavailable
   then map_append unavailable (sst_NodeId shardInfo) id else unavailable).

(** The statuses of the group's shards, in the order of the loop. *)
Definition group_statuses (sg : ShardManager) (groupName : string) : list ShardStatus :=
  filter (λ s, sst_GroupName s = groupName) (map_range (shl_Shards (GetShards sg))).*2.

Definition CheckGroupReadyToBeMaster (db : DB) (mm : ShardMetricsManager) (sg : option ShardManager)
    (groupName : string) : go (option CheckGroupReadyToBeMasterResult * Status) :=
  let '(clusters, total) := Cluster_List db (mkClusterListParams 0 0) true in
  if Z.ltb total 1 then mret (None, StatusError ClusterNotExist)
  else
    cluster ← go_index clusters 0;
    let totalShards : gmap Z bool :=
      foldl (λ m shardId, <[shardId := true]> m) ∅ (seqZ 0 (cl_ShardTotal cluster)) in
    sg ← go_deref sg;
    let '(totalShards, reduplicative, unavailable) :=
      foldl check_shard (totalShards, [], ∅) (group_statuses sg groupName) in
    let missing := (map_range totalShards).*1 in
    '(inconsistentNodes, status) ←
      CheckGroupShardDifferenceBetweenLocalAndConsul db mm groupName;
    if negb (Status_Ok status) then mret (None, status)
    else
      let ready := (bool_decide (missing = []) && bool_decide (reduplicative = []) &&
                    bool_decide (unavailable = ∅) && bool_decide (inconsistentNodes = []))%bool in
      mret (Some (mkCheckGroupResult ready missing reduplicative unavailable inconsistentNodes), StatusOk).
End Group.

(** ** Configurations that are not synchronised *)

(** [json.Unmarshal] into an [interface{}]: a value that [reflect.DeepEqual]
    compares. *)
Class JsonAny (V : Type) := { json_any : string → V + error }.

Section Configs.
Context {V : Type} `{EqDecision V} `{JsonAny V}.

Definition jsonBytesEqual (a b : string) : bool + error :=
  match json_any a with
  | inr err => inr err
  | inl j =>
      match json_any b with
      | inr err => inr err
      | inl j2 => inl (bool_decide (j2 = j))
      end
  end.

Context `{CityHash} `{MapOrder} `{GoSort} `{Runtime} `{FloatToUint} `{FloatText} `{Base64} `{ConfigJson}
  {DB : Type} `{ControlDb DB} `{ConfigDb DB} {K : Type} `{ConsulHttp K}.

(** One configuration; a GET or a generator that fails reports nothing. *)
Definition check_config (cfg : ControlConfig) (k : K) (types : gset Z)
    (kv : string * go (string * Status)) : go (gset Z) :=
  let '(consulValue, status) := consulGetLaserConfigsKV cfg kv.1 k in
  if negb (Status_Ok status) then mret types
  else
    '(genValue, status) ← kv.2;
    if negb (Status_Ok status) then mret types
    else match jsonBytesEqual consulValue genValue with
         | inl false => mret match LaserConfigKeyToType !! kv.1 with
                             | Some configType => {[configType]} ∪ types
                             | None => types
                             end
         | _ => mret types
         end.

Definition CheckUnsynchronizedConfig (cfg : ControlConfig) (now : Now) (db : DB)
    (mm : ShardMetricsManager) (nm : NodeManager) (k : K) : go (gset Z) :=
  go_fold (check_config cfg k) (map_range (consulKeyToGeneratorFunc now db mm nm)) ∅.
End Configs.

(** ** Lemmas *)

Section Lemmas.
Context `{CityHash} `{MapOrder} `{Runtime} {DB : Type} `{ControlDb DB}
  {jsonNode : Json NodeBasicInfo} {jsonInfo : Json (gmap string ShardInfo)}
  {jsonShards : Json (gmap string ShardStatus)} {jsonRelations : Json (gmap Z ShardRelation)}
  {jsonText : Json ShardsStruct}.

(** Nothing is left and nothing unknown was reported exactly when the reported
    shards are the local ones, each once. *)
Lemma match_shards_ok infos (locals : gset Z) :
  match_shards infos locals = (∅, false) ↔
    NoDup (si_ShardId <$> infos) ∧ locals = list_to_set (si_ShardId <$> infos).
Proof.
  revert locals. induction infos as [|i infos IH]; intros locals; cbn [match_shards fmap list_fmap].
  { split; [intros [= ->]; by split; [constructor|]|]. by intros [_ ->]. }
  case_decide as Hin; rewrite ?IH, NoDup_cons; cbn [list_to_set].
  - split; intros [Hnd Hl].
    + split; [split; [|done]|].
      * intros Hi%(elem_of_list_to_set (C:=gset Z)). rewrite <- Hl in Hi. set_solver.
      * rewrite <- Hl. apply set_eq. intros x. destruct (decide (x = si_ShardId i)); set_solver.
    + destruct Hnd as [Hni Hnd]. split; [done|]. subst locals.
      assert (si_ShardId i ∉ (list_to_set (si_ShardId <$> infos) : gset Z)).
      { by rewrite elem_of_list_to_set. }
      set_solver.
  - split; [done|]. intros [_ ->]. set_solver.
Qed.

(** A loop that collects the nodes which fail collects none exactly when none does. *)
Lemma failing_nodes_ok check nodes l :
  failing_nodes check nodes = Ret l →
  (l = [] ↔ Forall (λ node, check node = Ret false) nodes).
Proof.
  unfold failing_nodes. revert l. induction nodes as [|node nodes IH] using rev_ind; intros l.
  { intros [= <-]. by split; [constructor|]. }
  rewrite go_fold_app. destruct (go_fold _ nodes []) as [l0| |]; cbn [mbind go_bind]; [|done..].
  cbn [go_fold]. specialize (IH l0 eq_refl).
  destruct (check node) as [bad| |] eqn:E; cbn [mbind go_bind]; [|done..].
  intros [= <-]. rewrite Forall_app, Forall_singleton, <- IH, E.
  destruct bad; [|naive_solver]. split; [by destruct l0|naive_solver].
Qed.

(** *** The shards of the group *)

Lemma all_true_lookup (l : list Z) id :
  is_Some (foldl (λ m shardId, <[shardId := true]> m) (∅ : gmap Z bool) l !! id) ↔ id ∈ l.
Proof.
  induction l as [|x l IH] using rev_ind; cbn [foldl].
  { rewrite lookup_empty, elem_of_nil. by split; [intros [? ?]|]. }
  rewrite foldl_app, elem_of_app, list_elem_of_singleton, <- IH. cbn [foldl].
  destruct (decide (id = x)) as [->|Hne].
  - rewrite lookup_insert_eq. naive_solver.
  - rewrite lookup_insert_ne by done. naive_solver.
Qed.

(** What the loop leaves: the shards of [T] that were not seen, and something
    reduplicated unless each was seen once and is of [T]. *)
Lemma check_shard_fold (T : gmap Z bool) statuses total red un :
  foldl check_shard (T, [], ∅) statuses = (total, red, un) →
  (un = ∅ ↔ Forall (λ s, sst_ServiceState s ≠ ServiceUnavailable) statuses) ∧
  (∀ id, is_Some (total !! id) ↔ is_Some (T !! id) ∧ id ∉ sst_ShardId <$> statuses) ∧
  (red = [] ↔ NoDup (sst_ShardId <$> statuses) ∧ ∀ id, id ∈ sst_ShardId <$> statuses → is_Some (T !! id)).
Proof.
  revert total red un. induction statuses as [|s statuses IH] using rev_ind; intros total red un.
  { cbn [foldl]. intros [= <- <- <-]. split_and!; [by split; [constructor|]| |].
    - intros id. cbn. rewrite elem_of_nil. naive_solver.
    - split; [|done]. intros _. split; [constructor|]. by intros id ?%elem_of_nil. }
  rewrite foldl_app. destruct (foldl check_shard _ statuses) as [[t1 r1] u1] eqn:E. cbn [foldl].
  destruct (IH t1 r1 u1 eq_refl) as (Hu & Ht & Hr). clear IH E.
  set (ids := sst_ShardId <$> statuses) in *. set (id := sst_ShardId s).
  assert (sst_ShardId <$> statuses ++ [s] = ids ++ [id]) as -> by (unfold ids; by rewrite fmap_app).
  unfold check_shard. fold id. intros Heq. split.
  { assert (un = if Z.eqb (sst_ServiceState s) ServiceUnavailable
                 then map_append u1 (sst_NodeId s) id else u1) as -> by (destruct (t1 !! id); congruence).
    rewrite Forall_app, Forall_singleton, <- Hu. destruct (Z.eqb_spec (sst_ServiceState s) ServiceUnavailable).
    - split; [|naive_solver]. unfold map_append. intros He%insert_non_empty. done.
    - naive_solver. }
  clear Hu. setoid_rewrite elem_of_app. setoid_rewrite list_elem_of_singleton.
  rewrite NoDup_app. specialize (Ht id) as Hid.
  destruct (t1 !! id) as [b|] eqn:Eid; injection Heq as <- <- _.
  - destruct (proj1 Hid) as [HT Hnin]; [by eexists|]. split.
    + intros i. destruct (decide (i = id)) as [->|Hne].
      * rewrite lookup_delete_eq. split; [by intros []|naive_solver].
      * rewrite lookup_delete_ne, Ht by done. naive_solver.
    + rewrite Hr. split; [|naive_solver]. intros [Hnd HTi]. split_and!; [done| |apply NoDup_singleton|].
      * intros i Hi ->%list_elem_of_singleton. done.
      * by intros i [Hi| ->]; [apply HTi|].
  - split.
    + intros i. rewrite Ht. split; [|naive_solver]. intros [HTi Hi]. split; [done|].
      intros [?| ->]; [done|]. by destruct (proj2 Hid).
    + split; [by destruct r1|]. intros [(_ & Hnid & _) HTi].
      destruct (proj2 Hid) as [? ?]; [|done]. split; [apply HTi; by right|].
      intros Hin. apply (Hnid id Hin). by apply list_elem_of_singleton.
Qed.
End Lemmas.

(** ** Properties *)

Section Ready.
Context `{CityHash} `{MapOrder} `{Runtime} {DB : Type} `{ControlDb DB}
  {jsonNode : Json NodeBasicInfo} {jsonInfo : Json (gmap string ShardInfo)}
  {jsonShards : Json (gmap string ShardStatus)} {jsonRelations : Json (gmap Z ShardRelation)}
  {jsonText : Json ShardsStruct}.

(** A node reports each of the shards the database gives it once, and no other; it
    has no leaders or no followers. *)
Definition node_consistent (mm : ShardMetricsManager) (groupName : string) (node : Node) : Prop :=
  ∃ leaderList followerList,
    n_LeaderShardList node = Some leaderList ∧ n_FollowerShardList node = Some followerList ∧
    let leaders := extractUniqueShards leaderList in
    let followers := extractUniqueShards followerList in
    let reported := si_ShardId <$> (map_range (GetNodeShardInfo mm groupName (n_NodeId node)).2).*2 in
    (leaders = [] ∨ followers = []) ∧ NoDup reported ∧
    local_shards (leaders ++ followers) = list_to_set reported.

Lemma node_inconsistent_false mm groupName node :
  node_inconsistent mm groupName node = Ret false ↔ node_consistent mm groupName node.
Proof.
  unfold node_inconsistent, node_consistent.
  destruct (n_LeaderShardList node) as [ll|]; cbn [go_deref mbind go_bind];
    [|split; [done|by intros (? & ? & ? & _)]].
  destruct (n_FollowerShardList node) as [fl|]; cbn [go_deref mbind go_bind];
    [|split; [done|by intros (? & ? & _ & ? & _)]].
  assert (∀ pieces, (let '(_, shardInfos) := GetNodeShardInfo mm groupName (n_NodeId node) in
      let '(unmatched, inconsistent) := match_shards (map_range shardInfos).*2 (local_shards pieces) in
      mret (negb (bool_decide (unmatched = ∅)) || inconsistent)%bool : go bool) = Ret false ↔
    let reported := si_ShardId <$> (map_range (GetNodeShardInfo mm groupName (n_NodeId node)).2).*2 in
    NoDup reported ∧ local_shards pieces = list_to_set reported) as Hm.
  { intros pieces. destruct (GetNodeShardInfo mm groupName (n_NodeId node)) as [nb infos]. cbn [snd].
    rewrite <- match_shards_ok. destruct (match_shards _ _) as [un [|]].
    - rewrite orb_true_r. split; intros Hx; discriminate Hx.
    - rewrite orb_false_r. case_bool_decide as Hun; [by rewrite Hun|]. split; intros Hx; [discriminate Hx|].
      injection Hx as Hx. done. }
  destruct (extractUniqueShards ll) as [|l1 ls] eqn:El, (extractUniqueShards fl) as [|f1 fs] eqn:Ef;
    [rewrite (Hm [])|rewrite (Hm (f1 :: fs))|rewrite (Hm (l1 :: ls))|].
  4: split; [done|]; intros (l & f & [= <-] & [= <-] & [?|?] & _); congruence.
  all: split; [intros [Hnd Hl]; exists ll, fl; rewrite El, Ef, ?app_nil_r; by auto
              |intros (l & f & [= <-] & [= <-] & _ & Hnd & Hl); by rewrite El, Ef, ?app_nil_r in Hl].
Qed.

(** C20: ready to be the master.  A [CheckGroupReadyToBeMaster] that returns a result
    finds the group ready exactly when the shards its nodes have are those of the
    cluster, each once, none of them is unavailable, and every node of the group has no
    leaders or no followers in the database and reports, each once, precisely the
    shards it has there.  A node with leaders and followers makes the group not ready,
    whatever it reports; a check that finds no cluster or not exactly one group of the name has
    no result, and one that meets a node without its lists panics. *)
Theorem CheckGroupReadyToBeMaster_spec db mm sg groupName r st :
  CheckGroupReadyToBeMaster db mm sg groupName = Ret (Some r, st) →
  ∃ cluster group sg',
    (Cluster_List db (mkClusterListParams 0 0) true).1 !! 0%nat = Some cluster ∧
    (Group_List db (mkGroupListParams 0 0 0 0 groupName true) true).1 !! 0%nat = Some group ∧
    sg = Some sg' ∧
    (cgr_Ready r = true ↔
      sst_ShardId <$> group_statuses sg' groupName ≡ₚ seqZ 0 (cl_ShardTotal cluster) ∧
      Forall (λ s, sst_ServiceState s ≠ ServiceUnavailable) (group_statuses sg' groupName) ∧
      Forall (node_consistent mm groupName) (g_Nodes group)).
Proof.
  unfold CheckGroupReadyToBeMaster, CheckGroupShardDifferenceBetweenLocalAndConsul.
  destruct (Cluster_List db _ true) as [clusters total]. destruct (Z.ltb total 1); [done|].
  destruct (go_index clusters 0) as [cluster| |] eqn:Ec; cbn [mbind go_bind]; [|done..].
  apply go_index_Ret in Ec as [_ Ec]. destruct sg as [sg|]; cbn [go_deref mbind go_bind]; [|done].
  destruct (foldl check_shard _ _) as [[t red] un] eqn:E. apply check_shard_fold in E as (Hu & Ht & Hr).
  destruct (Group_List db _ true) as [groups gt]. destruct (Z.eqb gt 1); [|done].
  cbn [negb]. destruct (go_index groups 0) as [group| |] eqn:Eg; cbn [mbind go_bind]; [|done..].
  apply go_index_Ret in Eg as [_ Eg].
  destruct (failing_nodes _ _) as [bad| |] eqn:Eb; cbn [mbind go_bind mret go_ret]; [|done..].
  apply failing_nodes_ok in Eb. intros [= <- <-]. exists cluster, group, sg.
  split_and!; [done..|]. cbn [cgr_Ready].
  rewrite !andb_true_iff, !bool_decide_eq_true, Hr, Hu, Eb.
  assert ((map_range t).*1 = [] ↔ ∀ id, id ∈ seqZ 0 (cl_ShardTotal cluster) →
    id ∈ sst_ShardId <$> group_statuses sg groupName) as ->.
  { setoid_rewrite <- (all_true_lookup (seqZ 0 (cl_ShardTotal cluster))). split.
    - intros Hnil id Hid. destruct (decide (id ∈ sst_ShardId <$> group_statuses sg groupName)) as [|Hn]; [done|].
      destruct (proj2 (Ht id) (conj Hid Hn)) as [b Hb]. apply elem_of_map_range in Hb.
      apply (list_elem_of_fmap_2 fst) in Hb. rewrite Hnil in Hb. by apply elem_of_nil in Hb.
    - intros Hall. destruct (map_range t) as [|[id b] l] eqn:El; [done|].
      assert (t !! id = Some b) as Hb by (apply elem_of_map_range; rewrite El; left).
      destruct (proj1 (Ht id)) as [HT Hn]; [by eexists|]. by destruct Hn; apply Hall. }
  setoid_rewrite all_true_lookup. setoid_rewrite node_inconsistent_false. split.
  - intros (((Hall & Hnd & Hin) & Hav) & Hn). split_and!; [|done..].
    apply NoDup_Permutation; [done|apply NoDup_seqZ|]. intros id. by split; [apply Hin|apply Hall].
  - intros (Hp & Hav & Hn). split_and!; [|by rewrite Hp; apply NoDup_seqZ| |done..];
      intros id; by rewrite Hp.
Qed.
End Ready.

Section Synchronized.
Context {V : Type} `{EqDecision V} `{JsonAny V}
  `{CityHash} `{MapOrder} `{GoSort} `{Runtime} `{FloatToUint} `{FloatText} {b64 : Base64}
  {cj : ConfigJson} {DB : Type} `{ControlDb DB} `{ConfigDb DB} {K : Type} {http : ConsulHttp K}.

(** A configuration is reported: consul has a value, the database generates one,
    and as JSON they differ. *)
Definition outdated (cfg : ControlConfig) (k : K) (key : string) (gen : go (string * Status)) : Prop :=
  ∃ data, Status_Ok (consulGetLaserConfigsKV cfg key k).2 = true ∧ gen = Ret data ∧
    Status_Ok data.2 = true ∧ jsonBytesEqual (consulGetLaserConfigsKV cfg key k).1 data.1 = inl false.

Lemma check_config_types cfg k l types types' :
  go_fold (check_config cfg k) l types = Ret types' →
  ∀ t, t ∈ types' ↔ t ∈ types ∨ ∃ key gen, (key, gen) ∈ l ∧ outdated cfg k key gen ∧
    LaserConfigKeyToType !! key = Some t.
Proof.
  revert types. induction l as [|[key gen] l IH]; intros types; cbn [go_fold].
  { intros [= <-] t. split; [by left|]. by intros [?|(? & ? & ?%elem_of_nil & _)]. }
  assert (∀ types1, check_config cfg k types (key, gen) = Ret types1 →
    ∀ t, t ∈ types1 ↔ t ∈ types ∨ outdated cfg k key gen ∧ LaserConfigKeyToType !! key = Some t) as Hstep.
  { unfold check_config, outdated. cbn [fst snd]. intros types1.
    destruct (consulGetLaserConfigsKV cfg key k) as [v st]. cbn [fst snd].
    destruct (Status_Ok st); cbn [negb]; [|intros [= <-] t; naive_solver].
    destruct gen as [[data st']| |]; cbn [mbind go_bind]; [|done..].
    destruct (Status_Ok st') eqn:Hst; cbn [negb]; [|intros [= <-] t; (split; [by left|intros [?|[(? & ? & [= <-] & ? & ?) _]]; [done|cbn in *; congruence]])].
    destruct (jsonBytesEqual v data) as [[|]|] eqn:Hj; try (intros [= <-] t; (split; [by left|intros [?|[(? & ? & [= <-] & ? & ?) _]]; [done|cbn in *; congruence]])).
    destruct (LaserConfigKeyToType !! key) as [t0|]; intros [= <-] t; [|naive_solver].
    rewrite elem_of_union, elem_of_singleton. split; [|set_solver].
    intros [->|?]; [right|by left]. split; [|done]. by exists (data, st'). }
  destruct (check_config cfg k types (key, gen)) as [types1| |]; cbn [mbind go_bind]; [|done..].
  intros Hl t. rewrite (IH _ Hl), (Hstep types1 eq_refl). setoid_rewrite elem_of_cons. naive_solver.
Qed.

Context {laws : ConsulLaws K}.

(** After publishing.  Right after the tables were published, a check of the
    same database does not report table information as unsynchronised, whatever
    consul held before; and in general it reports exactly the kinds of
    configuration of which consul has one that differs, as JSON, from what the
    database generates now. *)
Theorem published_synchronized cfg now db mm nm (k k' : K) st types :
  SynchronizeDatabaseTableSchemaToConsul cfg db k = Ret (k', st) → Status_Ok st = true →
  CheckUnsynchronizedConfig cfg now db mm nm k' = Ret types →
  (TableInfoData ∉ types) ∧
  ∀ t, t ∈ types ↔ ∃ key gen, consulKeyToGeneratorFunc now db mm nm !! key = Some gen ∧
    outdated cfg k' key gen ∧ LaserConfigKeyToType !! key = Some t.
Proof.
  intros Hs Hok Hc. pose proof (check_config_types _ _ _ _ _ Hc) as Ht. setoid_rewrite elem_of_map_range in Ht.
  split; [|intros t; rewrite Ht; set_solver]. rewrite Ht.
  intros [?%elem_of_empty|(key & gen & Hgen & (data & Hget & Hdata & _ & Hj) & Hkey)]; [done|].
  destruct (synchronized_tables _ _ _ _ _ Hs Hok) as (schema & traffic & Hschema & Htraffic & Hv).
  assert (config_value cfg (cfg_ServiceName cfg) key k' = Some data.1) as Hval.
  { apply Forall_cons in Hv as [Hv1 [Hv2 [Hv3 _]%Forall_cons]%Forall_cons]. cbn [fst snd] in Hv1, Hv2, Hv3.
    apply elem_of_list_to_map_2 in Hgen, Hkey. rewrite !elem_of_cons in Hkey.
    destruct Hkey as [[= ->]|[[= ->]|[[= ->]|[[=]|[[=]|[[=]|?%elem_of_nil]]]]]]; [..|done];
      rewrite !elem_of_cons in Hgen;
      destruct Hgen as [[= Hg]|[[= Hg]|[[= Hg]|[[= Hg]|[[= Hg]|[[= Hg]|?%elem_of_nil]]]]]];
      try done; rewrite Hg in Hdata; unfold mret, go_ret in Hdata; congruence. }
  rewrite (get_value cfg key k' data.1 Hval) in Hj.
  - cbn [fst] in Hj. unfold jsonBytesEqual in Hj. destruct (json_any data.1) as [j|]; [|done].
    by rewrite bool_decide_true in Hj.
  - unfold consulGetLaserConfigsKV in Hget. destruct (ck_Get _ k') as [text|]; [by eexists|done].
Qed.
End Synchronized.

(** *** Concrete runs: a group of one node with the two shards of its cluster *)

#[local] Existing Instances toy_city stdpp_order merge_sorting rows_db main_go no_json.

Definition master_node : Node :=
  mkNode 1 1 (Some NodeActive) (Some NodeStatusEnabled) "h" 80 (Some 1) (Some true) (Some false) "" 1
    GroupRow_zero 0 NodeConfig_zero (Some "0,1") (Some "") 0 AnsibleConfig_zero.

Definition master_rows : Rows :=
  mkRows [mkCluster 1 "c" "" 2 "" [] 0] []
    [mkGroup (mkGroupRow 1 "g" "" 0 "" 1 1 0) NodeConfig_zero [master_node] Dc_zero] [] [].

Definition leader_info (id : Z) : ShardInfo :=
  mkShardInfo id "" Leader ServiceAvailable 0 0 ∅ [].
Definition leader_infos : gmap string ShardInfo :=
  list_to_map ((λ id, (GetShardHash (GetNodeHash "g" 1) id, leader_info id)) <$> [0; 1]).
Definition leader_basic : NodeBasicInfo := mkNodeBasicInfo "g" 1 "h" 80 (Some true) true.

Definition master_metrics : ShardMetricsManager :=
  mkShardMetricsManager {[ "g" := mkGroupShardMetrics {[ GetNodeHash "g" 1 := leader_basic ]}
                                    {[ GetNodeHash "g" 1 := leader_infos ]} ]} 5000.

Definition leader_status (id : Z) : ShardStatus :=
  mkShardStatus id "g" 1 Leader 0 0 ServiceAvailable (Itoa id) false false.
Definition leader_statuses : gmap string ShardStatus :=
  list_to_map ((λ id, (Itoa id, leader_status id)) <$> [0; 1]).

Definition master_shards : ShardManager :=
  mkShardManager "s" "c" 2 ∅ [] ∅ "" (mkShardStatusManager leader_statuses ∅ ∅ 5000).

#[local] Instance leader_basic_json : Json NodeBasicInfo := table_json [leader_basic].
#[local] Instance leader_infos_json : Json (gmap string ShardInfo) := table_json [leader_infos].
#[local] Instance leader_statuses_json : Json (gmap string ShardStatus) := table_json [leader_statuses].
#[local] Instance ShardRelation_eq_dec : EqDecision ShardRelation.
Proof. solve_decision. Defined.
#[local] Instance relations_json : Json (gmap Z ShardRelation) := table_json [∅].

Lemma CheckGroupReadyToBeMaster_spec_witness :
  ∃ r, CheckGroupReadyToBeMaster master_rows master_metrics (Some master_shards) "g" = Ret (Some r, StatusOk) ∧
    sst_ShardId <$> group_statuses master_shards "g" ≡ₚ [0; 1].
Proof.
  exists (mkCheckGroupResult true [] [] ∅ []).
  assert (CheckGroupReadyToBeMaster master_rows master_metrics (Some master_shards) "g" =
    Ret (Some (mkCheckGroupResult true [] [] ∅ []), StatusOk)) as E by (vm_compute; reflexivity).
  split; [exact E|].
  destruct (CheckGroupReadyToBeMaster_spec _ _ _ _ _ _ E) as (cluster & group & sg & Hc & Hg & Hsg & Hr).
  destruct (proj1 Hr eq_refl) as [Hp _].
  assert (cl_ShardTotal cluster = 2) as Ht by (clear -Hc; vm_compute in Hc; by injection Hc as <-).
  rewrite Ht in Hp. injection Hsg as <-. exact Hp.
Defined.

(** JSON compared as text. *)
Definition text_json : JsonAny string := {| json_any s := inl s |}.
Definition some_float : FloatText := {| fmt_Sprint _ := "0.5"; f64_to_int64 _ := 0 |}.

#[local] Existing Instances text_json some_float amd64_uint mem_consul plain_base64 mem_consul_laws
  rows_configs unversioned.

Lemma published_synchronized_witness :
  ∃ types, CheckUnsynchronizedConfig consul_config midnight published_rows GetShardMetricsManager
      (mkNodeManager None one_group) published = Ret types ∧ TableInfoData ∉ types.
Proof.
  destruct (returns_Ret (CheckUnsynchronizedConfig consul_config midnight published_rows
    GetShardMetricsManager (mkNodeManager None one_group) published)) as [types E];
    [vm_compute; reflexivity|].
  exists types. split; [exact E|].
  refine (proj1 (published_synchronized consul_config midnight published_rows GetShardMetricsManager
    (mkNodeManager None one_group) [] published StatusOk types _ _ E)); vm_compute; reflexivity.
Defined.
