(* ===== verification/Inventory.v ===== *)
(** * Storing, changing and deleting rows ([control/service/*.go])

    Databases, tables and their configurations, clusters, data centres, groups, node
    and ansible configurations, proxies and machines.  Each service checks names
    with a count, then creates, updates or deletes through gorm, which is the class
    [RowStore] for the rows of one table; what its documentation promises is
    [RowLaws] of [Catalog].  A statement that fails changes nothing; a transaction
    works on the state it leaves, and a rollback drops that.  Where the last
    deletion is issued beside the transaction, it is of rows that the transaction
    does not change, so that it is modelled as part of it. *)

From S2P Require Import Prelude RouterTypes Partition Registry GoLib ControlStatus ControlData ShardMetrics StatusManager ShardManager NodeManager.

(** ** gorm *)

(** [Model(&Row{}).Where(&cond).Count], [Where(&cond).First], where not finding a
    record is no error, [Find(&row, &cond)] into a struct, [Create], the primary key
    it set,
    [Model(&Row{Id: id}).UpdateColumns(values)], the same with [Updates], and
    [Delete(&Row{Id: id})]. *)
Class RowStore (DB Row : Type) := {
  rw_Count : Row → DB → Z + error;
  rw_First : Row → DB → option Row + error;
  rw_FindOne : Row → DB → Row;
  rw_Create : Row → DB → DB * option error;
  rw_LastId : DB → Z;
  rw_UpdateColumns : Z → Row → DB → DB * option error;
  rw_Updates : Z → Row → DB → DB * option error;
  rw_Delete : Z → DB → DB * option error
}.

(** The rows an association named so has at a row: [Clear], [Replace] and [Append],
    and the deletion of the rows left without an owner. *)
Class AssocStore (DB Item : Type) := {
  as_Clear : string → Z → DB → DB * option error;
  as_Replace : string → Z → list Item → DB → DB * option error;
  as_Append : string → Z → list Item → DB → DB * option error;
  as_DeleteOrphans : string → DB → DB * option error
}.

(** [tx.Table(t).Where("t.id = ?", id).Joins(join).Count], [0] after an error. *)
Class UseCount (DB : Type) := { db_used : string → string → Z → DB → Z }.

(** ** The shapes the services share *)

Section Shapes.
Context {DB Row : Type} `{RowStore DB Row} `{Runtime}.
Implicit Types (db tx : DB) (row cond values : Row).

(** [CheckDupName]: [code] where a row satisfies the condition. *)
Definition check_dup cond (code : Z) db : Status :=
  match rw_Count cond db with
  | inr err => StatusWithError (Some err)
  | inl count => if negb (Z.eqb count 0) then StatusError code else StatusOk
  end.

(** The last statement of an operation. *)
Definition last_statement db (r : DB * option error) : DB * Status :=
  match r with
  | (_, Some err) => (db, StatusWithError (Some err))
  | (db, None) => (db, StatusOk)
  end.

(** [Store]: where the check passes, a new row. *)
Definition store_row (status : Status) row db : DB * Status :=
  if negb (Status_Ok status) then (db, status) else last_statement db (rw_Create row db).

(** [Update]: where the check finds the name, the columns of the row with the id. *)
Definition update_row (status : Status) (dup missing id : Z) values db : DB * Status :=
  if negb (Z.eqb (Status_Code status) dup) then (db, StatusError missing)
  else last_statement db (rw_UpdateColumns id values db).

(** [Delete]: where nothing uses the row. *)
Definition delete_unused `{UseCount DB} (table join : string) (inUse id : Z) db : DB * Status :=
  if Z.ltb 0 (db_used table join id db) then (db, StatusError inUse)
  else last_statement db (rw_Delete id db).
End Shapes.

(** Statements of a transaction that began at [db]: an error rolls back. *)
Definition row_step {DB} `{Runtime} (db : DB) (r : DB * option error) (k : DB → DB * Status) : DB * Status :=
  match r with
  | (_, Some err) => (db, StatusWithError (Some err))
  | (tx, None) => k tx
  end.

(** ** Databases *)

Section Databases.
Context {DB : Type} `{RowStore DB LaserDatabase} `{UseCount DB} `{Runtime}.

Definition LaserDatabase_where (name : string) : LaserDatabase := mkLaserDatabase 0 name "" 0.

Definition LaserDatabase_CheckDupName (name : string) (db : DB) : Status :=
  check_dup (LaserDatabase_where name) DatabaseNameDup db.

Definition LaserDatabase_Store (now : Z) (name desc : string) (db : DB) : DB * Status :=
  store_row (LaserDatabase_CheckDupName name db) (mkLaserDatabase 0 name desc now) db.

Definition LaserDatabase_Update (id : Z) (name desc : string) (db : DB) : DB * Status :=
  update_row (LaserDatabase_CheckDupName name db) DatabaseNameDup DatabaseNotExists id
    (mkLaserDatabase 0 "" desc 0) db.

Definition LaserDatabase_Delete (id : Z) (db : DB) : DB * Status :=
  delete_unused "laser_databases" "Join tables on tables.database_id = laser_databases.id"
    DatabaseInUse id db.

Definition GetIdByName (name : string) (db : DB) : Z := ld_Id (rw_FindOne (LaserDatabase_where name) db).
End Databases.

(** ** Clusters *)

Record ClusterParams := mkClusterParams {
  clpa_Id : Z; clpa_Name : string; clpa_Alias : string; clpa_ShardTotal : Z; clpa_Desc : string
}.

Section Clusters.
Context {DB : Type} `{RowStore DB Cluster} `{Runtime}.

Definition Cluster_checkDupName (name : string) (db : DB) : Status :=
  check_dup (mkCluster 0 name "" 0 "" [] 0) ClusterNameDup db.

Definition Cluster_Store (p : ClusterParams) (db : DB) : DB * Status :=
  store_row (Cluster_checkDupName (clpa_Name p) db)
    (mkCluster 0 (clpa_Name p) (clpa_Alias p) (clpa_ShardTotal p) (clpa_Desc p) [] 0) db.

Definition Cluster_Update (p : ClusterParams) (db : DB) : DB * Status :=
  update_row (Cluster_checkDupName (clpa_Name p) db) ClusterNameDup ClusterNotExist (clpa_Id p)
    (mkCluster 0 "" (clpa_Alias p) 0 (clpa_Desc p) [] 0) db.
End Clusters.

(** ** Data centres *)

Record DcParams := mkDcParams {
  dcp_Id : Z; dcp_ClusterId : Z; dcp_ClusterName : string; dcp_Name : string;
  dcp_ShardNumber : Z; dcp_Desc : string
}.

Section Dcs.
Context {DB : Type} `{RowStore DB Dc} `{ControlDb DB} `{Runtime} {jsonText : Json ShardsStruct} `{CityHash}.

Definition Dc_CheckDupName (name : string) (db : DB) : Status :=
  check_dup (mkDc 0 0 name 0 "" 0) DcNameDup db.

(** Both end with a new snapshot of the cluster. *)
Definition dc_and_update (r : DB * Status) (nm : NodeManager) : go (DB * NodeManager * Status) :=
  let '(db, status) := r in
  if negb (Status_Ok status) then mret (db, nm, status)
  else
    '(nm, status) ← NodeManager_UpdateClusterInfo db nm;
    mret (db, nm, status).

Definition Dc_Store (p : DcParams) (db : DB) (nm : NodeManager) : go (DB * NodeManager * Status) :=
  dc_and_update
    (store_row (Dc_CheckDupName (dcp_Name p) db)
       (mkDc 0 (dcp_ClusterId p) (dcp_Name p) (dcp_ShardNumber p) (dcp_Desc p) 0) db) nm.

Definition Dc_Update (p : DcParams) (db : DB) (nm : NodeManager) : go (DB * NodeManager * Status) :=
  dc_and_update
    (update_row (Dc_CheckDupName (dcp_Name p) db) DcNameDup DcNotExist (dcp_Id p)
       (mkDc 0 0 (dcp_Name p) 0 (dcp_Desc p) 0) db) nm.
End Dcs.

(** ** Groups *)

Record GroupParams := mkGroupParams {
  gp_Id : Z; gp_Name : string; gp_Alias : string; gp_NodeConfigId : Z; gp_Desc : string;
  gp_DcId : Z; gp_DcName : string; gp_ClusterId : Z; gp_ClusterName : string
}.

(** [groupChangeCb]: what a change of a group calls, if anything. *)
Record GroupModel (DB : Type) := mkGroupModel {
  gm_groupChangeCb : option (DB → NodeManager → go (NodeManager * Status))
}.
Arguments mkGroupModel {DB}. Arguments gm_groupChangeCb {DB}.

Definition NewGroupModel {DB} : GroupModel DB := mkGroupModel None.

Definition SubscribeGroupChange {DB} (cb : DB → NodeManager → go (NodeManager * Status))
    (model : GroupModel DB) : GroupModel DB := mkGroupModel (Some cb).

Section Groups.
Context {DB : Type} `{RowStore DB Group} `{UseCount DB} `{Runtime}.
Implicit Types (model : GroupModel DB) (db : DB) (nm : NodeManager).

Definition Group_checkDupName (name : string) db : Status :=
  check_dup (Group_where 0 name 0) GroupNameDup db.

Definition group_changed model (r : DB * Status) nm : go (DB * NodeManager * Status) :=
  let '(db, status) := r in
  if negb (Status_Ok status) then mret (db, nm, status)
  else match gm_groupChangeCb model with
       | None => mret (db, nm, StatusOk)
       | Some cb => '(nm, _) ← cb db nm; mret (db, nm, StatusOk)
       end.

Definition group_of (name alias : string) (nodeConfigId : Z) (desc : string) (clusterId dcId now : Z) : Group :=
  mkGroup (mkGroupRow 0 name alias nodeConfigId desc clusterId dcId now) NodeConfig_zero [] Dc_zero.

Definition Group_Store model (now : Z) (p : GroupParams) db nm : go (DB * NodeManager * Status) :=
  group_changed model
    (store_row (Group_checkDupName (gp_Name p) db)
       (group_of (gp_Name p) (gp_Alias p) (gp_NodeConfigId p) (gp_Desc p) (gp_ClusterId p) (gp_DcId p) now)
       db) nm.

Definition Group_Update model (p : GroupParams) db nm : go (DB * NodeManager * Status) :=
  group_changed model
    (update_row (Group_checkDupName (gp_Name p) db) GroupNameDup GroupNotExist (gp_Id p)
       (group_of "" (gp_Alias p) (gp_NodeConfigId p) (gp_Desc p) 0 0 0) db) nm.

Definition Group_Delete (id : Z) db : DB * Status :=
  delete_unused "groups" "Join nodes on nodes.group_id = groups.id" GroupInUse id db.
End Groups.

(** ** Node configurations *)

Record NodeRateLimitEntryParams := mkNodeRateLimitEntryParams {
  nrp_Id : Z; nrp_BeginHour : option Z; nrp_EndHour : Z; nrp_RateBytesPerSec : Z
}.

Record NodeConfigParams := mkNodeConfigParams {
  ncp_Id : Z;
  ncp_Name : string;
  ncp_Desc : string;
  ncp_BlockCacheSizeGb : Z;
  ncp_WriteBufferSizeGb : Z;
  ncp_NumShardBits : Z;
  ncp_HighPriPoolRatio : option double;
  ncp_StrictCapacityLimit : Z;
  ncp_RateLimitStrategy : list NodeRateLimitEntryParams
}.

Section NodeConfigs.
Context {DB : Type} `{RowStore DB NodeConfig} `{AssocStore DB NodeRateLimitEntry} `{UseCount DB} `{Runtime}.

Definition NodeConfig_checkDupName (name : string) (db : DB) : Status :=
  check_dup (NodeConfig_where name) TableNameDup db.

Definition rate_limit_rows (p : NodeConfigParams) : list NodeRateLimitEntry :=
  (λ entry, mkNodeRateLimitEntry 0 (nrp_BeginHour entry) (nrp_EndHour entry) (nrp_RateBytesPerSec entry) 0)
    <$> ncp_RateLimitStrategy p.

Definition NodeConfig_Store (now : Z) (p : NodeConfigParams) (db : DB) : DB * Status :=
  store_row (NodeConfig_checkDupName (ncp_Name p) db)
    (mkNodeConfig 0 (ncp_Name p) (ncp_Desc p) (ncp_BlockCacheSizeGb p) (ncp_WriteBufferSizeGb p)
       (ncp_NumShardBits p) (ncp_HighPriPoolRatio p) (ncp_StrictCapacityLimit p) (rate_limit_rows p) now) db.

(** A name that is not there is refused with the code of one that is. *)
Definition NodeConfig_Update (p : NodeConfigParams) (db : DB) : DB * Status :=
  if negb (Z.eqb (Status_Code (NodeConfig_checkDupName (ncp_Name p) db)) TableNameDup)
  then (db, StatusError TableNameDup)
  else
    row_step db (as_Clear "RateLimitStrategy" (ncp_Id p) db) (λ tx,
    row_step db (as_Replace "RateLimitStrategy" (ncp_Id p) (rate_limit_rows p) tx) (λ tx,
    row_step db (as_DeleteOrphans "node_config_id = 0" tx) (λ tx,
    row_step db (rw_UpdateColumns (ncp_Id p)
                   (mkNodeConfig 0 "" "" (ncp_BlockCacheSizeGb p) (ncp_WriteBufferSizeGb p)
                      (ncp_NumShardBits p) (ncp_HighPriPoolRatio p) (ncp_StrictCapacityLimit p) [] 0) tx)
      (λ tx, (tx, StatusOk))))).

Definition NodeConfig_Delete (id : Z) (db : DB) : DB * Status :=
  if Z.ltb 0 (db_used "node_configs" "Join nodes on nodes.config_id = node_configs.id" id db)
  then (db, StatusError NodeConfigInUse)
  else
    row_step db (as_Clear "RateLimitStrategy" id db) (λ tx,
    row_step db (as_DeleteOrphans "node_config_id = 0" tx) (λ tx,
    row_step db (rw_Delete id tx) (λ tx, (tx, StatusOk)))).
End NodeConfigs.

(** ** Ansible configurations *)

Record AnsibleConfigParams := mkAnsibleConfigParams {
  acp_Id : Z; acp_Name : string; acp_Vars : string; acp_Roles : string; acp_Desc : string
}.
Record AnsibleConfigListParams := mkAnsibleConfigListParams { aclp_Page : Z; aclp_Limit : Z; aclp_Id : Z }.

Section AnsibleConfigs.
Context {DB : Type} `{RowStore DB AnsibleConfig} `{Gorm DB AnsibleConfig} `{UseCount DB} `{Runtime}.

Definition AnsibleConfig_where (id : Z) (name : string) : AnsibleConfig := mkAnsibleConfig id name "" "" "" 0.

Definition AnsibleConfig_CheckDupName (name : string) (db : DB) : Status :=
  check_dup (AnsibleConfig_where 0 name) AnsibleConfigDup db.

Definition AnsibleConfig_Store (now : Z) (p : AnsibleConfigParams) (db : DB) : DB * Status :=
  store_row (AnsibleConfig_CheckDupName (acp_Name p) db)
    (mkAnsibleConfig 0 (acp_Name p) (acp_Vars p) (acp_Roles p) (acp_Desc p) now) db.

Definition AnsibleConfig_List (db : DB) (params : AnsibleConfigListParams) (isTotal : bool)
  : list AnsibleConfig * Z :=
  list_rows db (where_ (WhereStruct (AnsibleConfig_where (aclp_Id params) "")) gorm_Model)
    (aclp_Page params) (aclp_Limit params) [] isTotal.

(** The id must exist, and the new name must not be another row's. *)
Definition AnsibleConfig_Update (p : AnsibleConfigParams) (db : DB) : DB * Status :=
  match rw_Count (AnsibleConfig_where (acp_Id p) "") db with
  | inr err => (db, StatusWithError (Some err))
  | inl count =>
      if Z.eqb count 0 then (db, StatusError AnsibleConfigNotExists)
      else
        let update := last_statement db (rw_UpdateColumns (acp_Id p)
          (mkAnsibleConfig 0 (acp_Name p) (acp_Vars p) (acp_Roles p) (acp_Desc p) 0) db) in
        match rw_First (AnsibleConfig_where 0 (acp_Name p)) db with
        | inr err => (db, StatusWithError (Some err))
        | inl None => update
        | inl (Some dupItem) =>
            if negb (Z.eqb (ac_Id dupItem) (acp_Id p)) then (db, StatusError AnsibleConfigDup) else update
        end
  end.

Definition AnsibleConfig_Delete (id : Z) (db : DB) : DB * Status :=
  delete_unused "ansible_configs" "Join nodes on nodes.ansible_config_id = ansible_configs.id"
    AnsibleConfigInUse id db.
End AnsibleConfigs.

(** ** Table configurations *)

Record TableConfigItemParams := mkTableConfigItemParams {
  tip_Id : Z; tip_Name : string; tip_Value : string; tip_Type : Z
}.
Record TableConfigParams := mkTableConfigParams {
  tcp_Id : Z;
  tcp_Name : string;
  tcp_Version : Z;
  tcp_IsDefault : option Z;
  tcp_Desc : string;
  tcp_ConfigItems : list TableConfigItemParams
}.

Section TableConfigs.
Context {DB : Type} `{RowStore DB TableConfig} `{AssocStore DB TableConfigItem} `{UseCount DB} `{Runtime}.

Definition TableConfig_checkDupName (name : string) (db : DB) : Status :=
  check_dup (mkTableConfig 0 name 0 None "" []) TableConfigNameDup db.

Definition config_item_rows (p : TableConfigParams) : list TableConfigItem :=
  (λ item, mkTableConfigItem 0 (tip_Name item) (tip_Value item) (tip_Type item) 0) <$> tcp_ConfigItems p.

Definition TableConfig_Store (p : TableConfigParams) (db : DB) : DB * Status :=
  store_row (TableConfig_checkDupName (tcp_Name p) db)
    (mkTableConfig 0 (tcp_Name p) (tcp_Version p) (tcp_IsDefault p) (tcp_Desc p) (config_item_rows p)) db.

Definition TableConfig_Update (p : TableConfigParams) (db : DB) : DB * Status :=
  if negb (Z.eqb (Status_Code (TableConfig_checkDupName (tcp_Name p) db)) TableConfigNameDup)
  then (db, StatusError TableConfigNotExists)
  else
    row_step db (as_Clear "ConfigItems" (tcp_Id p) db) (λ tx,
    row_step db (as_Replace "ConfigItems" (tcp_Id p) (config_item_rows p) tx) (λ tx,
    row_step db (as_DeleteOrphans "config_id = 0 or config_id is NULL" tx) (λ tx,
    row_step db (rw_Updates (tcp_Id p) (mkTableConfig 0 (tcp_Name p) (tcp_Version p) None (tcp_Desc p) []) tx)
      (λ tx, (tx, StatusOk))))).

Definition TableConfig_Delete (id : Z) (db : DB) : DB * Status :=
  if Z.ltb 0 (db_used "table_configs" "Join tables on tables.config_id = table_configs.id" id db)
  then (db, StatusError TableConfigInUse)
  else
    row_step db (as_Clear "ConfigItems" id db) (λ tx,
    row_step db (as_DeleteOrphans "config_id = 0 or config_id is NULL" tx) (λ tx,
    row_step db (rw_Delete id tx) (λ tx, (tx, StatusOk)))).
End TableConfigs.

(** ** Tables *)

Record TrafficRestrictionLimitParams := mkTrafficRestrictionLimitParams {
  tlp'_Id : Z; tlp'_Name : string; tlp'_OperationType : Z; tlp'_LimitType : option Z; tlp'_LimitValue : Z
}.
Record TableAddParams := mkTableAddParams {
  tap_Name : string;
  tap_Status : option Z;
  tap_DenyAll : option Z;
  tap_PartitionNumber : Z;
  tap_Ttl : option Z;
  tap_Desc : string;
  tap_DcId : Z;
  tap_DistDcId : Z;
  tap_DatabaseId : Z;
  tap_ConfigId : Z;
  tap_EdgeFlowRatio : option Z;
  tap_TrafficLimits : list TrafficRestrictionLimitParams;
  tap_BindEdgeNodeIds : list Z
}.
Record TableUpdateParams := mkTableUpdateParams {
  tup_Id : Z;
  tup_Name : string;
  tup_Status : option Z;
  tup_DenyAll : option Z;
  tup_Ttl : option Z;
  tup_Desc : string;
  tup_DcId : Z;
  tup_DistDcId : Z;
  tup_DatabaseId : Z;
  tup_ConfigId : Z;
  tup_BindEdgeNodes : option string;
  tup_EdgeFlowRatio : option Z;
  tup_TrafficLimits : list TrafficRestrictionLimitParams;
  tup_BindEdgeNodeIds : list Z
}.

Section Tables.
Context {DB : Type} `{RowStore DB Table} `{AssocStore DB TrafficRestrictionLimit} `{AssocStore DB Node}
  `{Runtime}.

(** [Table{Name: name, DatabaseId: databaseId}]. *)
Definition Table_named (databaseId : Z) (name : string) : Table :=
  mkTable 0 name None None 0 None "" 0 Dc_zero 0 Dc_zero databaseId 0 LaserDatabase_zero
    TableConfig_zero None [] [] 0.

Definition Table_checkDupName (databaseId : Z) (name : string) (db : DB) : Status :=
  check_dup (Table_named databaseId name) TableNameDup db.

Definition limit_rows (l : list TrafficRestrictionLimitParams) : list TrafficRestrictionLimit :=
  (λ item, mkTrafficRestrictionLimit 0 (tlp'_Name item) (tlp'_OperationType item) (tlp'_LimitType item)
             (tlp'_LimitValue item) 0) <$> l.

(** [Node{Id: id}] for each id. *)
Definition edge_node_rows (ids : list Z) : list Node := (λ id, where_id id 0) <$> ids.

(** [Append] is at the row that [Create] gave its primary key. *)
Definition Table_Store (now : Z) (p : TableAddParams) (db : DB) : DB * Status :=
  let status := Table_checkDupName (tap_DatabaseId p) (tap_Name p) db in
  if negb (Status_Ok status) then (db, status)
  else
    let tableAdd := mkTable 0 (tap_Name p) (tap_Status p) (tap_DenyAll p) (tap_PartitionNumber p)
      (tap_Ttl p) (tap_Desc p) (tap_DcId p) Dc_zero (tap_DistDcId p) Dc_zero (tap_DatabaseId p)
      (tap_ConfigId p) LaserDatabase_zero TableConfig_zero (tap_EdgeFlowRatio p)
      (limit_rows (tap_TrafficLimits p)) [] now in
    row_step db (rw_Create tableAdd db) (λ tx,
    row_step db (as_Append "BindEdgeNodes" (rw_LastId (Row:=Table) tx) (edge_node_rows (tap_BindEdgeNodeIds p)) tx)
      (λ tx, (tx, StatusOk))).

Definition Table_Update (p : TableUpdateParams) (db : DB) : DB * Status :=
  if negb (Z.eqb (Status_Code (Table_checkDupName (tup_DatabaseId p) (tup_Name p) db)) TableNameDup)
  then (db, StatusError TableNotExists)
  else
    row_step db (as_Clear (Item:=TrafficRestrictionLimit) "TrafficLimits" (tup_Id p) db) (λ tx,
    row_step db (as_Replace "TrafficLimits" (tup_Id p) (limit_rows (tup_TrafficLimits p)) tx) (λ tx,
    row_step db (as_DeleteOrphans (Item:=TrafficRestrictionLimit) "table_id = 0 or table_id is NULL" tx) (λ tx,
    row_step db (as_Replace "BindEdgeNodes" (tup_Id p) (edge_node_rows (tup_BindEdgeNodeIds p)) tx) (λ tx,
    row_step db (rw_UpdateColumns (tup_Id p)
                   (mkTable 0 "" (tup_Status p) (tup_DenyAll p) 0 (tup_Ttl p) (tup_Desc p) (tup_DcId p)
                      Dc_zero (tup_DistDcId p) Dc_zero 0 (tup_ConfigId p) LaserDatabase_zero
                      TableConfig_zero (tup_EdgeFlowRatio p) [] [] 0) tx)
      (λ tx, (tx, StatusOk)))))).

Definition Table_Delete (id : Z) (db : DB) : DB * Status :=
  row_step db (as_Clear (Item:=TrafficRestrictionLimit) "TrafficLimits" id db) (λ tx,
  row_step db (as_DeleteOrphans (Item:=TrafficRestrictionLimit) "table_id = 0 or table_id is NULL" tx) (λ tx,
  row_step db (as_Clear (Item:=Node) "BindEdgeNodes" id tx) (λ tx,
  row_step db (rw_Delete id tx) (λ tx, (tx, StatusOk))))).

Definition Table_FindOne (databaseId : Z) (name : string) (db : DB) : Table :=
  rw_FindOne (Table_named databaseId name) db.
End Tables.

(** ** Proxy configurations *)

Section Proxies.
Context {DB : Type} `{ConfigDb DB} `{RowStore DB ProxyTableConfig} `{Runtime}.

(** A name that is not there is refused with the code of one that is. *)
Definition ProxyTableConfig_Update (p : ProxyTableConfigParams) (db : DB) : DB * Status :=
  update_row (ProxyTableConfig_checkDupName db (pcp_DatabaseName p) (pcp_TableName p)) TableNameDup
    TableNameDup (pcp_Id p)
    (mkProxyTableConfig 0 "" "" (pcp_ReadTimeout p) (pcp_WriteTimeout p) (pcp_AllowedFlow p) 0) db.
End Proxies.

(** ** Machines *)

Record MachineCategoryRow := mkMachineCategoryRow {
  mc_Id : Z; mc_Name : string; mc_Desc : string; mc_CreatedAt : Z
}.
Definition MachineCategoryRow_zero : MachineCategoryRow := mkMachineCategoryRow 0 "" "" 0.

Record Machine := mkMachine {
  ma_Id : Z;
  ma_CategoryId : Z;
  ma_Ip : string;
  ma_CpuCoreNumber : string;
  ma_MemorySizeGb : string;
  ma_Desc : string;
  ma_CreatedAt : Z;
  ma_MachineCategory : MachineCategoryRow
}.

Record MachineCategory := mkMachineCategory { mc_row : MachineCategoryRow; mc_Machines : list Machine }.

Record MachineCategoryParams := mkMachineCategoryParams { mcp_Id : Z; mcp_Name : string; mcp_Desc : string }.
Record MachineCategoryListParams := mkMachineCategoryListParams { mclp_Page : Z; mclp_Limit : Z }.
Record MachineParams := mkMachineParams {
  mp_Id : Z; mp_CategoryId : Z; mp_Ip : string; mp_CpuCoreNumber : string; mp_MemorySizeGb : string;
  mp_Desc : string
}.
Record MachineUpdateParams := mkMachineUpdateParams {
  mup_Id : Z; mup_CategoryId : Z; mup_Ip : string; mup_CpuCoreNumber : string; mup_MemorySizeGb : string;
  mup_Desc : string
}.
Record MachineListParams := mkMachineListParams {
  mlp_CategoryName : string; mlp_MachineIp : string; mlp_Page : Z; mlp_Limit : Z
}.

Section Categories.
Context {DB : Type} `{RowStore DB MachineCategory} `{Gorm DB MachineCategory} `{UseCount DB} `{Runtime}.

Definition category_of (id : Z) (name desc : string) (now : Z) : MachineCategory :=
  mkMachineCategory (mkMachineCategoryRow id name desc now) [].

Definition MachineCategory_CheckDupName (name : string) (db : DB) : Status :=
  check_dup (category_of 0 name "" 0) MachineCategoryDup db.

Definition MachineCategory_Store (now : Z) (p : MachineCategoryParams) (db : DB) : DB * Status :=
  store_row (MachineCategory_CheckDupName (mcp_Name p) db) (category_of 0 (mcp_Name p) (mcp_Desc p) now) db.

Definition MachineCategory_List (db : DB) (params : MachineCategoryListParams) (isTotal : bool)
  : list MachineCategory * Z :=
  list_rows db gorm_Model (mclp_Page params) (mclp_Limit params) ["Machines"] isTotal.

Definition MachineCategory_Update (p : MachineCategoryParams) (db : DB) : DB * Status :=
  update_row (MachineCategory_CheckDupName (mcp_Name p) db) MachineCategoryDup MachineCategoryNotExists
    (mcp_Id p) (category_of 0 "" (mcp_Desc p) 0) db.

Definition MachineCategory_Delete (id : Z) (db : DB) : DB * Status :=
  match rw_Count (category_of id "" "" 0) db with
  | inr err => (db, StatusWithError (Some err))
  | inl categoryIdCount =>
      if Z.eqb categoryIdCount 0 then (db, StatusError MachineCategoryNotExists)
      else delete_unused "machine_categories" "Join machines on machines.category_id = machine_categories.id"
             MachineCategoryDeleteWhenMachineExists id db
  end.
End Categories.

(** [net.ParseIP(s) != nil]. *)
Class NetIP := { net_ParseIP : string → bool }.

Section Machines.
Context {DB : Type} {rs : RowStore DB Machine} `{Gorm DB Machine} `{UseCount DB} {rt : Runtime} {np : NetIP}.

Definition Machine_where (ip : string) : Machine := mkMachine 0 0 ip "" "" "" 0 MachineCategoryRow_zero.

Definition CheckDupIp (ip : string) (db : DB) : Status := check_dup (Machine_where ip) MachineDup db.

(** The slice of addresses: the array below it, which the loop ranges over, and its
    length. *)
Record slice := mkSlice { sl_array : list string; sl_len : nat }.

(** [append(s[:i], s[i+1:]...)] for [i < len(s)]: the elements behind [i] are moved
    down within the array, whose last one in use stays where it is too. *)
Definition slice_remove (i : nat) (s : slice) : slice :=
  mkSlice (take i (sl_array s) ++ drop (S i) (take (sl_len s) (sl_array s)) ++
           drop (sl_len s - 1) (sl_array s)) (sl_len s - 1).

(** One turn of the loop at [i]: [inr status] is the early return. *)
Definition check_ip (db : DB) (i : nat) (s : slice) : go (slice + Status) :=
  ip ← go_index (sl_array s) (Z.of_nat i);
  if Nat.leb (sl_len s) i then Panic IndexOutOfRange
  else
    let trimmed := strings_TrimSpace ip in
    let s := mkSlice (<[i := trimmed]> (sl_array s)) (sl_len s) in
    let s := if net_ParseIP trimmed then s else slice_remove i s in
    let status := CheckDupIp ip db in
    if negb (Status_Ok status) then mret (inr status) else mret (inl s).

Fixpoint check_ips (db : DB) (idxs : list nat) (s : slice) : go (slice + Status) :=
  match idxs with
  | [] => mret (inl s)
  | i :: idxs =>
      r ← check_ip db i s;
      match r with
      | inr status => mret (inr status)
      | inl s => check_ips db idxs s
      end
  end.

(** The rows are created one by one; those before an error stay. *)
Fixpoint create_machines (now : Z) (p : MachineParams) (ips : list string) (db : DB) : DB * Status :=
  match ips with
  | [] => (db, StatusOk)
  | ip :: ips =>
      match rw_Create (mkMachine 0 (mp_CategoryId p) ip (mp_CpuCoreNumber p) (mp_MemorySizeGb p) (mp_Desc p)
                         now MachineCategoryRow_zero) db with
      | (_, Some err) => (db, StatusWithError (Some err))
      | (db, None) => create_machines now p ips db
      end
  end.

Definition Machine_Store (now : Z) (p : MachineParams) (db : DB) : go (DB * Status) :=
  let lines := strings_Split "010" (mp_Ip p) in
  r ← check_ips db (seq 0 (length lines)) (mkSlice lines (length lines));
  match r with
  | inr status => mret (db, status)
  | inl s => mret (create_machines now p (take (sl_len s) (sl_array s)) db)
  end.

Definition Machine_List (db : DB) (params : MachineListParams) (isTotal : bool) : list Machine * Z :=
  let q : Query Machine := where_ (WhereSql "ip like ?" ["%" +:+ mlp_MachineIp params +:+ "%"]) gorm_Model in
  let q := where_ (JoinsSql "Join machine_categories on machine_categories.id = machines.category_id AND machine_categories.name like ?"
             ["%" +:+ mlp_CategoryName params +:+ "%"]) q in
  list_rows db (preload ["MachineCategory"] q) (mlp_Page params) (mlp_Limit params) [] isTotal.

Definition Machine_Update (p : MachineUpdateParams) (db : DB) : DB * Status :=
  let ip := strings_TrimSpace (mup_Ip p) in
  update_row (CheckDupIp ip db) MachineDup MachineNotExists (mup_Id p)
    (mkMachine 0 (mup_CategoryId p) ip (mup_CpuCoreNumber p) (mup_MemorySizeGb p) (mup_Desc p) 0
       MachineCategoryRow_zero) db.

Definition Machine_Delete (id : Z) (db : DB) : DB * Status :=
  delete_unused "machines" "Join nodes on nodes.host = machines.ip" MachineInUse id db.
End Machines.
