(* ===== verification/Catalog.v ===== *)
(** * What the rows' services promise

    The laws of gorm for the rows of one table, the service of databases as a
    refinement of a catalogue of names and descriptions, and the addition of
    machines, with a table in memory that satisfies the laws. *)

From S2P Require Import Prelude RouterTypes Registry GoLib ControlStatus ControlData NodeManager Inventory.

(** ** What gorm promises *)

(** The rows of a kind: the primary key, which rows a struct condition selects,
    which columns an update with a struct writes. *)
Class RowKind (Row : Type) := {
  row_id : Row → Z;
  with_row_id : Z → Row → Row;
  row_matches : Row → Row → bool;
  row_overwrite : Row → Row → Row
}.

Class RowLaws (DB Row : Type) `{RowStore DB Row} `{RowKind Row} := {
  rw_rows : DB → list Row;
  rw_Count_ok c db k : rw_Count c db = inl k →
    k = Z.of_nat (length (filter (λ r, row_matches c r = true) (rw_rows db)));
  rw_FindOne_ok c db : row_id (rw_FindOne c db) ≠ 0 →
    rw_FindOne c db ∈ rw_rows db ∧ row_matches c (rw_FindOne c db) = true;
  rw_Create_ok r db db' : rw_Create r db = (db', None) →
    ∃ id, id ≠ 0 ∧ (id ∉ (row_id <$> rw_rows db)) ∧ rw_rows db' = rw_rows db ++ [with_row_id id r];
  rw_UpdateColumns_ok id v db db' : rw_UpdateColumns id v db = (db', None) → id ≠ 0 →
    rw_rows db' = (λ r, if decide (row_id r = id) then row_overwrite v r else r) <$> rw_rows db;
  rw_UpdateColumns_all v db db' : rw_UpdateColumns 0 v db = (db', None) →
    rw_rows db' = row_overwrite v <$> rw_rows db;
  rw_Delete_ok id db db' : rw_Delete id db = (db', None) → id ≠ 0 →
    rw_rows db' = filter (λ r, row_id r ≠ id) (rw_rows db);
  rw_Delete_all db db' : rw_Delete 0 db = (db', None) → rw_rows db' = []
}.

#[export] Instance LaserDatabase_kind : RowKind LaserDatabase :=
  {| row_id := ld_Id;
     with_row_id id r := mkLaserDatabase id (ld_Name r) (ld_Desc r) (ld_CreatedAt r);
     row_matches c r := (zero_or (ld_Id c) (ld_Id r) && empty_or (ld_Name c) (ld_Name r) &&
                         empty_or (ld_Desc c) (ld_Desc r) && zero_or (ld_CreatedAt c) (ld_CreatedAt r))%bool;
     row_overwrite v r := mkLaserDatabase (over_Z (ld_Id v) (ld_Id r)) (over_string (ld_Name v) (ld_Name r))
                            (over_string (ld_Desc v) (ld_Desc r)) (over_Z (ld_CreatedAt v) (ld_CreatedAt r)) |}.

#[export] Instance Machine_kind : RowKind Machine :=
  {| row_id := ma_Id;
     with_row_id id r := mkMachine id (ma_CategoryId r) (ma_Ip r) (ma_CpuCoreNumber r) (ma_MemorySizeGb r)
                           (ma_Desc r) (ma_CreatedAt r) (ma_MachineCategory r);
     row_matches c r := (zero_or (ma_Id c) (ma_Id r) && zero_or (ma_CategoryId c) (ma_CategoryId r) &&
                         empty_or (ma_Ip c) (ma_Ip r) && empty_or (ma_CpuCoreNumber c) (ma_CpuCoreNumber r) &&
                         empty_or (ma_MemorySizeGb c) (ma_MemorySizeGb r) && empty_or (ma_Desc c) (ma_Desc r) &&
                         zero_or (ma_CreatedAt c) (ma_CreatedAt r))%bool;
     row_overwrite v r := mkMachine (over_Z (ma_Id v) (ma_Id r)) (over_Z (ma_CategoryId v) (ma_CategoryId r))
                            (over_string (ma_Ip v) (ma_Ip r))
                            (over_string (ma_CpuCoreNumber v) (ma_CpuCoreNumber r))
                            (over_string (ma_MemorySizeGb v) (ma_MemorySizeGb r))
                            (over_string (ma_Desc v) (ma_Desc r)) (over_Z (ma_CreatedAt v) (ma_CreatedAt r))
                            (ma_MachineCategory r) |}.

(** ** Lemmas *)

Definition is_inr {A B} (x : A + B) : Prop := ∃ b, x = inr b.

Section Lemmas.
Context {DB Row : Type} {rs : RowStore DB Row} {rk : RowKind Row} {laws : RowLaws DB Row}
  `{Runtime} {uses : UseCount DB}.
Implicit Types (db : DB) (c r v : Row).

(** What a check says about the rows. *)
Lemma check_dup_spec c code db :
  code ≠ OK → code ≠ ERROR →
  (Status_Code (check_dup c code db) = code ∧ Exists (λ r, row_matches c r = true) (rw_rows db)) ∨
  (check_dup c code db = StatusOk ∧ Forall (λ r, row_matches c r = false) (rw_rows db)) ∨
  (Status_Code (check_dup c code db) = ERROR ∧ is_inr (rw_Count c db)).
Proof.
  intros Hok Herr. unfold check_dup. destruct (rw_Count c db) as [k|err] eqn:E; [|by right; right; split; [|exists err]].
  apply rw_Count_ok in E. destruct (Z.eqb_spec k 0) as [->|Hk]; cbn [negb].
  - right. left. split; [done|]. apply Forall_forall. intros r Hr.
    destruct (row_matches c r) eqn:Em; [|done]. exfalso.
    assert (r ∈ filter (λ r, row_matches c r = true) (rw_rows db)) as Hin by (by apply list_elem_of_filter).
    destruct (filter _ _); [by apply elem_of_nil in Hin|]. cbn in E. lia.
  - left. split; [done|]. apply Exists_exists.
    destruct (filter (λ r, row_matches c r = true) (rw_rows db)) as [|r l] eqn:Ef; [cbn in E; lia|].
    exists r. assert (r ∈ filter (λ r, row_matches c r = true) (rw_rows db)) as Hin by (rewrite Ef; left).
    by apply list_elem_of_filter in Hin as [??].
Qed.

Lemma not_ok_code (st : Status) code : Status_Code st = code → code ≠ OK → Status_Ok st = false.
Proof. intros <- Hne. by apply Z.eqb_neq. Qed.

(** The last statement either worked or changed nothing. *)
Lemma last_statement_cases db (r : DB * option error) db' st :
  last_statement db r = (db', st) →
  (db' = db ∧ Status_Code st = ERROR ∧ is_Some r.2) ∨ (r = (db', None) ∧ st = StatusOk).
Proof. destruct r as [d [err|]]; intros [= <- <-]; eauto 6. Qed.

Lemma delete_unused_cases table join inUse id db db' st :
  delete_unused table join inUse id db = (db', st) →
  (db' = db ∧ Status_Code st = inUse ∧ 0 < db_used table join id db) ∨
  (db' = db ∧ Status_Code st = ERROR ∧ is_Some (rw_Delete (Row:=Row) id db).2) ∨
  (rw_Delete (Row:=Row) id db = (db', None) ∧ st = StatusOk ∧ db_used table join id db ≤ 0).
Proof.
  unfold delete_unused. destruct (Z.ltb_spec 0 (db_used table join id db)).
  - intros [= <- <-]. auto.
  - intros [?|[??]]%last_statement_cases; auto.
Qed.
End Lemmas.

(** ** The service of databases and its specification *)

Inductive database_op :=
  | DatabaseAdd (now : Z) (name desc : string)
  | DatabaseChange (id : Z) (name desc : string)
  | DatabaseRemove (id : Z).

(** An operation that names the rows it is about. *)
Definition op_valid (op : database_op) : Prop :=
  match op with
  | DatabaseAdd _ name _ => name ≠ ""
  | DatabaseChange id name _ => id ≠ 0 ∧ name ≠ ""
  | DatabaseRemove id => id ≠ 0
  end.

(** The specification: databases with their names and descriptions by id.  A name
    is taken once; a description can be replaced, but not by nothing; a database
    that is in use stays.  Where a statement of the database fails, nothing changes:
    the error is reported, except that a change whose check failed reports a name
    that does not exist. *)
Abbreviation catalog := (gmap Z (string * string)).

Definition taken (m : catalog) (name : string) : Prop := ∃ id desc, m !! id = Some (name, desc).

Definition describe (desc : string) (e : string * string) : string * string := (e.1, over_string desc e.2).

Inductive catalog_step (used : Z → Prop) (fails : Prop) (m : catalog) : database_op → catalog → Z → Prop :=
  | step_add now name desc id :
      ¬ taken m name → id ≠ 0 → m !! id = None →
      catalog_step used fails m (DatabaseAdd now name desc) (<[id := (name, desc)]> m) OK
  | step_add_dup now name desc :
      taken m name → catalog_step used fails m (DatabaseAdd now name desc) m DatabaseNameDup
  | step_change id name desc :
      taken m name →
      catalog_step used fails m (DatabaseChange id name desc) (alter (describe desc) id m) OK
  | step_change_missing id name desc :
      ¬ taken m name → catalog_step used fails m (DatabaseChange id name desc) m DatabaseNotExists
  | step_remove id : ¬ used id → catalog_step used fails m (DatabaseRemove id) (delete id m) OK
  | step_remove_used id : used id → catalog_step used fails m (DatabaseRemove id) m DatabaseInUse
  | step_error op : fails → catalog_step used fails m op m ERROR
  | step_change_unchecked id name desc :
      fails → catalog_step used fails m (DatabaseChange id name desc) m DatabaseNotExists.

Section Databases.
Context {DB : Type} {rs : RowStore DB LaserDatabase} {laws : RowLaws DB LaserDatabase} {uses : UseCount DB} {rt : Runtime}.
Implicit Types (db : DB).

Definition run_database (op : database_op) db : DB * Status :=
  match op with
  | DatabaseAdd now name desc => LaserDatabase_Store now name desc db
  | DatabaseChange id name desc => LaserDatabase_Update id name desc db
  | DatabaseRemove id => LaserDatabase_Delete id db
  end.

Definition catalog_of (rows : list LaserDatabase) : catalog :=
  list_to_map ((λ r, (ld_Id r, (ld_Name r, ld_Desc r))) <$> rows).

Definition databases_ok (rows : list LaserDatabase) : Prop :=
  NoDup (ld_Id <$> rows) ∧ NoDup (ld_Name <$> rows) ∧ Forall (λ r, ld_Id r ≠ 0 ∧ ld_Name r ≠ "") rows.

Lemma catalog_of_lookup rows id name desc :
  NoDup (ld_Id <$> rows) →
  catalog_of rows !! id = Some (name, desc) ↔
    ∃ r, r ∈ rows ∧ ld_Id r = id ∧ ld_Name r = name ∧ ld_Desc r = desc.
Proof.
  intros Hnd. unfold catalog_of.
  rewrite <- (elem_of_list_to_map (M:=gmap Z)) by (by rewrite <- list_fmap_compose).
  rewrite list_elem_of_fmap. naive_solver.
Qed.

Lemma taken_catalog rows name :
  NoDup (ld_Id <$> rows) → taken (catalog_of rows) name ↔ name ∈ ld_Name <$> rows.
Proof.
  intros Hnd. unfold taken. setoid_rewrite (catalog_of_lookup rows _ _ _ Hnd). rewrite list_elem_of_fmap.
  naive_solver.
Qed.

(** The check for a name. *)
Lemma database_matches name r :
  name ≠ "" → row_matches (LaserDatabase_where name) r = true ↔ ld_Name r = name.
Proof.
  intros Hn. cbn. unfold empty_or. destruct (String.eqb_spec name ""); [done|]. cbn.
  rewrite !andb_true_r. destruct (String.eqb_spec name (ld_Name r)); naive_solver.
Qed.

Lemma database_check name db :
  name ≠ "" →
  (Status_Code (LaserDatabase_CheckDupName name db) = DatabaseNameDup ∧ name ∈ ld_Name <$> rw_rows db) ∨
  (LaserDatabase_CheckDupName name db = StatusOk ∧ name ∉ ld_Name <$> rw_rows db) ∨
  (Status_Code (LaserDatabase_CheckDupName name db) = ERROR ∧ is_inr (rw_Count (LaserDatabase_where name) db)).
Proof.
  intros Hn. destruct (check_dup_spec (LaserDatabase_where name) DatabaseNameDup db) as [[Hc Hex]|[[Hc Hall]|Hc]];
    [done|done| | |by auto].
  - left. split; [done|]. apply Exists_exists in Hex as (r & Hr & <-%database_matches); [|done].
    by apply list_elem_of_fmap_2.
  - right. left. split; [done|]. intros (r & -> & Hr)%list_elem_of_fmap. rewrite Forall_forall in Hall.
    specialize (Hall r Hr). by rewrite (proj2 (database_matches (ld_Name r) r Hn)) in Hall.
Qed.

Lemma catalog_of_fresh rows id :
  id ∉ ld_Id <$> rows → catalog_of rows !! id = None.
Proof.
  intros Hid. unfold catalog_of. apply not_elem_of_list_to_map_1. by rewrite <- list_fmap_compose.
Qed.

Lemma catalog_of_ext rows (m : catalog) :
  NoDup (ld_Id <$> rows) →
  (∀ id name desc, (∃ r, r ∈ rows ∧ ld_Id r = id ∧ ld_Name r = name ∧ ld_Desc r = desc) ↔
                   m !! id = Some (name, desc)) →
  catalog_of rows = m.
Proof.
  intros Hnd Hm. apply map_eq. intros id. apply option_eq. intros [name desc].
  by rewrite catalog_of_lookup.
Qed.

(** What the three statements do to the catalogue. *)
Lemma create_catalog rows id r :
  databases_ok rows → id ≠ 0 → id ∉ ld_Id <$> rows → ld_Name r ≠ "" → ld_Name r ∉ ld_Name <$> rows →
  databases_ok (rows ++ [with_row_id id r]) ∧
  catalog_of (rows ++ [with_row_id id r]) = <[id := (ld_Name r, ld_Desc r)]> (catalog_of rows).
Proof.
  intros (Hids & Hnames & Hall) Hid Hfresh Hname Hn.
  assert (databases_ok (rows ++ [with_row_id id r])) as Hok.
  { unfold databases_ok. rewrite !fmap_app. cbn. rewrite !NoDup_app, Forall_app, Forall_singleton.
    repeat split; try done; try apply NoDup_singleton; intros x Hx ->%list_elem_of_singleton; done. }
  split; [done|]. apply catalog_of_ext; [apply Hok|]. intros id' name desc.
  rewrite lookup_insert_Some, catalog_of_lookup by done. setoid_rewrite elem_of_app.
  setoid_rewrite list_elem_of_singleton. split.
  - intros (r' & [Hr'| ->] & <- & <- & <-); [right|by left].
    split; [|by exists r']. intros ->. apply Hfresh. by apply list_elem_of_fmap_2.
  - intros [[<- [= <- <-]]|[_ (r' & Hr' & ?)]]; [|by exists r'; auto].
    eexists. split; [by right|done].
Qed.

Definition described (id : Z) (desc : string) (r : LaserDatabase) : LaserDatabase :=
  if decide (row_id r = id) then row_overwrite (mkLaserDatabase 0 "" desc 0) r else r.

Lemma described_spec id desc r :
  ld_Id (described id desc r) = ld_Id r ∧ ld_Name (described id desc r) = ld_Name r ∧
  ld_Desc (described id desc r) = (if decide (ld_Id r = id) then over_string desc (ld_Desc r) else ld_Desc r).
Proof. unfold described. cbn [row_id LaserDatabase_kind]. by case_decide. Qed.

Lemma update_catalog rows id desc :
  databases_ok rows →
  databases_ok (described id desc <$> rows) ∧
  catalog_of (described id desc <$> rows) = alter (describe desc) id (catalog_of rows).
Proof.
  intros (Hids & Hnames & Hall).
  assert (databases_ok (described id desc <$> rows)) as Hok.
  { unfold databases_ok. rewrite <- !list_fmap_compose, Forall_fmap.
    rewrite (list_fmap_ext (ld_Id ∘ described id desc) ld_Id rows)
      by (intros; apply described_spec).
    rewrite (list_fmap_ext (ld_Name ∘ described id desc) ld_Name rows)
      by (intros; apply described_spec).
    split; [done|]. split; [done|]. eapply Forall_impl; [done|]. intros r Hr. cbn.
    by rewrite (proj1 (described_spec id desc r)), (proj1 (proj2 (described_spec id desc r))). }
  split; [done|]. apply catalog_of_ext; [apply Hok|]. intros id' name desc'.
  setoid_rewrite list_elem_of_fmap. rewrite lookup_alter_Some. split.
  - intros (? & (r & -> & Hr) & <- & <- & <-). destruct (described_spec id desc r) as (-> & -> & ->).
    case_decide as Hid; [left|right].
    + split; [done|]. exists (ld_Name r, ld_Desc r). split; [|done].
      apply catalog_of_lookup; [done|]. by exists r.
    + split; [done|]. apply catalog_of_lookup; [done|]. by exists r.
  - intros [(<- & [n d] & Hl & Heq)|[Hne Hl]]; apply catalog_of_lookup in Hl as (r & Hr & Hrid & Hn & Hd); try done;
      exists (described id desc r); (split; [by exists r|]);
      destruct (described_spec id desc r) as (-> & -> & ->).
    + rewrite decide_True by done. unfold describe in Heq. cbn in Heq. simplify_eq. done.
    + by rewrite decide_False by congruence.
Qed.

Lemma delete_catalog rows id :
  databases_ok rows →
  databases_ok (filter (λ r, row_id r ≠ id) rows) ∧
  catalog_of (filter (λ r, row_id r ≠ id) rows) = delete id (catalog_of rows).
Proof.
  intros (Hids & Hnames & Hall). pose proof (sublist_filter (λ r, row_id r ≠ id) rows) as Hsub.
  assert (databases_ok (filter (λ r, row_id r ≠ id) rows)) as Hok.
  { split; [|split]; [by eapply sublist_NoDup, fmap_sublist..|].
    apply Forall_forall. intros r [_ Hr]%list_elem_of_filter. rewrite Forall_forall in Hall. by apply Hall. }
  split; [done|]. apply catalog_of_ext; [apply Hok|]. intros id' name desc.
  rewrite lookup_delete_Some, catalog_of_lookup by done. setoid_rewrite list_elem_of_filter.
  cbn [row_id LaserDatabase_kind]. naive_solver.
Qed.

Definition database_used db (id : Z) : Prop :=
  0 < db_used "laser_databases" "Join tables on tables.database_id = laser_databases.id" id db.

(** A statement the operation would execute fails. *)
Definition statement_fails (op : database_op) db : Prop :=
  match op with
  | DatabaseAdd now name desc =>
      is_inr (rw_Count (LaserDatabase_where name) db) ∨
      is_Some (rw_Create (mkLaserDatabase 0 name desc now) db).2
  | DatabaseChange id name desc =>
      is_inr (rw_Count (LaserDatabase_where name) db) ∨
      is_Some (rw_UpdateColumns id (mkLaserDatabase 0 "" desc 0) db).2
  | DatabaseRemove id => is_Some (rw_Delete (Row:=LaserDatabase) id db).2
  end.

Definition database_simulated (op : database_op) db db' (st : Status) : Prop :=
  databases_ok (rw_rows db') ∧
  catalog_step (database_used db) (statement_fails op db) (catalog_of (rw_rows db)) op
    (catalog_of (rw_rows db')) (Status_Code st).

Lemma Store_simulated now name desc db db' st :
  databases_ok (rw_rows db) → name ≠ "" →
  LaserDatabase_Store now name desc db = (db', st) →
  database_simulated (DatabaseAdd now name desc) db db' st.
Proof.
  intros Hok Hname Hrun. unfold LaserDatabase_Store, store_row in Hrun.
  assert (Hids := proj1 Hok). unfold database_simulated.
  destruct (database_check name db Hname) as [[Hc Hin]|[[Hc Hnin]|[Hc Hf]]].
  - rewrite (not_ok_code _ _ Hc) in Hrun by done. injection Hrun as <- <-.
    split; [done|]. rewrite Hc. apply step_add_dup. by apply taken_catalog.
  - rewrite Hc in Hrun. cbn [Status_Ok StatusOk negb] in Hrun.
    apply last_statement_cases in Hrun as [(-> & -> & Hf)|[Hcr ->]].
    + split; [done|]. apply step_error. by right.
    + apply rw_Create_ok in Hcr as (id & Hid & Hfresh & ->).
      destruct (create_catalog (rw_rows db) id (mkLaserDatabase 0 name desc now)) as [Hok' ->]; try done.
      split; [done|]. apply step_add; [by rewrite taken_catalog|done|by apply catalog_of_fresh].
  - rewrite (not_ok_code _ _ Hc) in Hrun by done. injection Hrun as <- <-.
    split; [done|]. rewrite Hc. apply step_error. by left.
Qed.

Lemma Update_simulated id name desc db db' st :
  databases_ok (rw_rows db) → id ≠ 0 → name ≠ "" →
  LaserDatabase_Update id name desc db = (db', st) →
  database_simulated (DatabaseChange id name desc) db db' st.
Proof.
  intros Hok Hid Hname Hrun. unfold LaserDatabase_Update, update_row in Hrun.
  assert (Hids := proj1 Hok). unfold database_simulated.
  destruct (database_check name db Hname) as [[Hc Hin]|[[Hc Hnin]|[Hc Hf]]]; rewrite Hc in Hrun.
  - rewrite Z.eqb_refl in Hrun. cbn [negb] in Hrun.
    apply last_statement_cases in Hrun as [(-> & -> & Hf)|[Hup ->]].
    + split; [done|]. apply step_error. by right.
    + apply rw_UpdateColumns_ok in Hup as ->; [|done].
      destruct (update_catalog (rw_rows db) id desc Hok) as [Hok' Heq].
      split; [done|]. unfold described in Heq. rewrite Heq. apply step_change. by apply taken_catalog.
  - injection Hrun as <- <-. split; [done|]. apply step_change_missing. by rewrite taken_catalog.
  - injection Hrun as <- <-. split; [done|]. apply step_change_unchecked. by left.
Qed.

Lemma Delete_simulated id db db' st :
  databases_ok (rw_rows db) → id ≠ 0 →
  LaserDatabase_Delete id db = (db', st) → database_simulated (DatabaseRemove id) db db' st.
Proof.
  intros Hok Hid Hrun. unfold database_simulated.
  apply delete_unused_cases in Hrun as [(-> & -> & Hu)|[(-> & -> & Hf)|(Hdel & -> & Hu)]].
  - split; [done|]. by apply step_remove_used.
  - split; [done|]. by apply step_error.
  - apply rw_Delete_ok in Hdel as ->; [|done].
    destruct (delete_catalog (rw_rows db) id Hok) as [Hok' ->]. split; [done|].
    apply step_remove. unfold database_used. lia.
Qed.

(** The service of databases refines the catalogue: every operation keeps the rows
    well formed, with one row per id and per name, and is a step of the
    specification from the catalogue of the rows before to that of the rows after,
    with the code of its status. *)
Theorem databases_refine op db db' st :
  databases_ok (rw_rows db) → op_valid op → run_database op db = (db', st) →
  databases_ok (rw_rows db') ∧
  catalog_step (database_used db) (statement_fails op db) (catalog_of (rw_rows db)) op
    (catalog_of (rw_rows db')) (Status_Code st).
Proof.
  destruct op as [now name desc|id name desc|id]; cbn [op_valid run_database]; intros Hok.
  - by apply Store_simulated.
  - intros [??]. by apply Update_simulated.
  - by apply Delete_simulated.
Qed.
End Databases.

(** ** Adding machines *)

Section MachineStore.
Context {DB : Type} {rs : RowStore DB Machine} {rt : Runtime} {np : NetIP}.
Implicit Types (db : DB) (s : slice) (i j k n : nat).

(** No machine has the address. *)
Definition unknown db (ip : string) : Prop := Status_Ok (CheckDupIp ip db) = true.

Definition valid_ip (line : string) : bool := net_ParseIP (strings_TrimSpace line).

(** What the loop keeps: the array has its [n] lines, and the ones not yet visited
    are of unknown machines. *)
Definition loop_inv db n i s : Prop :=
  length (sl_array s) = n ∧ (sl_len s ≤ n)%nat ∧ Forall (unknown db) (drop i (sl_array s)).

(** The slice after a turn that neither panics nor returns. *)
Definition turn i (line : string) s : slice :=
  let s := mkSlice (<[i := strings_TrimSpace line]> (sl_array s)) (sl_len s) in
  if valid_ip line then s else slice_remove i s.

Lemma check_ip_turn db n i s line :
  loop_inv db n i s → sl_array s !! i = Some line → (i < sl_len s)%nat →
  check_ip db i s = Ret (inl (turn i line s)).
Proof.
  intros (Hlen & Hle & Hall) Hline Hi. unfold check_ip, turn.
  rewrite (go_index_Some _ _ line) by (lia || by rewrite Nat2Z.id). cbn [mbind go_bind].
  rewrite (proj2 (Nat.leb_gt _ _)) by lia.
  rewrite (drop_S _ _ _ Hline), Forall_cons in Hall. destruct Hall as [Hu _].
  unfold unknown in Hu. by rewrite Hu.
Qed.

Lemma check_ip_short db i s : (sl_len s ≤ i)%nat → check_ip db i s = Panic IndexOutOfRange.
Proof.
  intros Hi. unfold check_ip, go_index. rewrite Nat2Z.id. destruct (Z.ltb_spec (Z.of_nat i) 0); [done|].
  destruct (sl_array s !! i); [|done]. cbn [mbind go_bind]. by rewrite (proj2 (Nat.leb_le _ _)).
Qed.

Lemma slice_remove_behind i j s :
  (i < sl_len s ≤ length (sl_array s))%nat → (i < j)%nat →
  sl_array (slice_remove i s) !! j =
    if decide (S j < sl_len s)%nat then sl_array s !! S j else sl_array s !! j.
Proof.
  intros Hi Hj. unfold slice_remove. cbn [sl_array].
  rewrite lookup_app_r by (rewrite length_take; lia). rewrite length_take_le by lia.
  case_decide.
  - rewrite lookup_app_l by (rewrite length_drop, length_take; lia).
    rewrite lookup_drop, lookup_take_lt by lia. f_equal. lia.
  - rewrite lookup_app_r by (rewrite length_drop, length_take; lia).
    rewrite lookup_drop, length_drop, length_take. f_equal. lia.
Qed.

Lemma turn_inv db n i s line :
  loop_inv db n i s → (i < sl_len s)%nat → loop_inv db n (S i) (turn i line s).
Proof.
  intros (Hlen & Hle & Hall) Hi. unfold turn.
  assert (Forall (unknown db) (drop (S i) (<[i := strings_TrimSpace line]> (sl_array s)))) as Hins.
  { apply Forall_lookup_2. intros j x Hx. rewrite lookup_drop, list_lookup_insert_ne in Hx by lia.
    rewrite Forall_lookup in Hall. apply (Hall (S j)). rewrite lookup_drop, <- Hx. f_equal. lia. }
  destruct (valid_ip line).
  - split; [cbn [sl_array]; by rewrite length_insert|]. done.
  - set (s' := mkSlice _ _). assert (length (sl_array s') = n) as Hn by (cbn; by rewrite length_insert).
    split; [|split].
    + cbn [slice_remove sl_array]. rewrite !length_app, length_drop, !length_take, length_drop.
      change (sl_len s') with (sl_len s). lia.
    + cbn. lia.
    + apply Forall_lookup_2. intros j x Hx. rewrite lookup_drop in Hx.
      rewrite slice_remove_behind in Hx by (change (sl_len s') with (sl_len s); lia).
      rewrite Forall_lookup in Hins. case_decide.
      * apply (Hins (S j)). rewrite lookup_drop, <- Hx. cbn [s' sl_array]. f_equal. lia.
      * apply (Hins j). rewrite lookup_drop. done.
Qed.

Lemma turn_len i line s :
  sl_len (turn i line s) = (if valid_ip line then sl_len s else sl_len s - 1)%nat.
Proof. unfold turn. by destruct (valid_ip line). Qed.

(** Once a line was removed, the loop runs out of the slice. *)
Lemma check_ips_short db n k i s :
  loop_inv db n i s → (sl_len s < n)%nat → (i + S k = n)%nat →
  check_ips db (seq i (S k)) s = Panic IndexOutOfRange.
Proof.
  revert i s. induction k as [|k IH]; intros i s Hinv Hlen Hn; cbn [seq check_ips].
  - by rewrite check_ip_short by lia.
  - destruct (decide (sl_len s ≤ i)%nat) as [Hi|Hi]; [by rewrite check_ip_short|].
    destruct (lookup_lt_is_Some_2 (sl_array s) i) as [line Hline]; [destruct Hinv; lia|].
    rewrite (check_ip_turn db n i s line) by (done || lia). cbn [mbind go_bind].
    apply IH; [apply turn_inv; [done|lia]| |lia]. rewrite turn_len. case_match; lia.
Qed.

(** Up to then, it panics exactly where a line but the last is no address. *)
Lemma check_ips_full db n k i s :
  loop_inv db n i s → sl_len s = n → (i + k = n)%nat →
  check_ips db (seq i k) s = Panic IndexOutOfRange ↔
    ∃ j line, (i ≤ j)%nat ∧ (S j < n)%nat ∧ sl_array s !! j = Some line ∧ valid_ip line = false.
Proof.
  revert i s. induction k as [|k IH]; intros i s Hinv Hlen Hn; cbn [seq check_ips].
  - split; [done|]. intros (j & line & ? & ? & _). lia.
  - destruct (lookup_lt_is_Some_2 (sl_array s) i) as [line Hline]; [destruct Hinv; lia|].
    rewrite (check_ip_turn db n i s line) by (done || lia). cbn [mbind go_bind].
    pose proof (turn_inv db n i s line Hinv ltac:(lia)) as Hinv'.
    destruct (valid_ip line) eqn:Hv.
    + rewrite IH; [|done|by rewrite turn_len, Hv|lia]. unfold turn. rewrite Hv. cbn [sl_array].
      split; intros (j & line' & Hj & Hjn & Hl & Hv'); exists j, line'.
      * rewrite list_lookup_insert_ne in Hl by lia. repeat split; try done; lia.
      * destruct (decide (j = i)) as [->|]; [congruence|].
        rewrite list_lookup_insert_ne by lia. repeat split; try done; lia.
    + destruct k as [|k].
      * split; [done|]. intros (j & ? & ? & ? & _). lia.
      * rewrite (check_ips_short db n) by (done || rewrite ?turn_len, ?Hv; lia).
        split; [|done]. intros _. exists i, line. repeat split; try done; lia.
Qed.

(** Adding machines, one address to a line, none of which is known: the request
    panics exactly where a line other than the last one is not an address.  The
    loop removes such a line from the slice it ranges over, and its last turns index
    behind the shortened slice. *)
Theorem Machine_Store_panics now p db :
  Forall (unknown db) (strings_Split "010" (mp_Ip p)) →
  Machine_Store now p db = Panic IndexOutOfRange ↔
    ∃ i line, strings_Split "010" (mp_Ip p) !! i = Some line ∧
      (S i < length (strings_Split "010" (mp_Ip p)))%nat ∧ valid_ip line = false.
Proof.
  intros Hall. set (lines := strings_Split "010" (mp_Ip p)) in *. unfold Machine_Store. fold lines.
  transitivity (check_ips db (seq 0 (length lines)) (mkSlice lines (length lines)) = Panic IndexOutOfRange).
  - destruct (check_ips _ _ _) as [[s|st]|q|]; split; intros [= ->] || intros Hq; done.
  - rewrite (check_ips_full db (length lines)); [|by repeat split|done|done].
    split; intros (j & line & ?); exists j, line; intuition lia.
Qed.
End MachineStore.

(** ** A table in memory *)

Section Memory.
Context {Row : Type} {rk : RowKind Row} (zero : Row).
Implicit Types (l : list Row).

Definition mem_rows : RowStore (list Row) Row :=
  {| rw_Count c l := inl (Z.of_nat (length (filter (λ r, row_matches c r = true) l)));
     rw_First c l := inl (head (filter (λ r, row_matches c r = true) l));
     rw_FindOne c l := default zero (head (filter (λ r, row_matches c r = true) l));
     rw_Create r l := (l ++ [with_row_id (fresh_Z (row_id <$> l)) r], None);
     rw_LastId l := fresh_Z (row_id <$> l) - 1;
     rw_UpdateColumns id v l := ((λ r, if decide (id = 0 ∨ row_id r = id) then row_overwrite v r else r) <$> l, None);
     rw_Updates id v l := ((λ r, if decide (id = 0 ∨ row_id r = id) then row_overwrite v r else r) <$> l, None);
     rw_Delete id l := (if decide (id = 0) then [] else filter (λ r, row_id r ≠ id) l, None) |}.

#[program] Definition mem_rows_laws (Hzero : row_id zero = 0) : RowLaws (list Row) Row (H:=mem_rows) :=
  {| rw_rows l := l |}.
Next Obligation. by intros _ c db k [= <-]. Qed.
Next Obligation.
  intros Hzero c l. cbn. destruct (filter _ l) as [|r l'] eqn:E; [done|]. cbn. intros _.
  assert (r ∈ filter (λ r, row_matches c r = true) l) as [??]%list_elem_of_filter by (rewrite E; left). done.
Qed.
Next Obligation.
  intros _ r l l' [= <-]. exists (fresh_Z (row_id <$> l)). by destruct (fresh_Z_spec (row_id <$> l)).
Qed.
Next Obligation.
  intros _ id v db db' [= <-] ?. apply list_fmap_ext. intros ? r ?. cbn.
  destruct (decide (row_id r = id)); [rewrite decide_True by auto|rewrite decide_False by naive_solver]; done.
Qed.
Next Obligation. intros _ v db db' [= <-]. apply list_fmap_ext. done. Qed.
Next Obligation. intros _ id db db' [= <-] ?. by rewrite decide_False. Qed.
Next Obligation. by intros _ db db' [= <-]. Qed.
End Memory.

(** A table as a part of a larger state. *)
Section Part.
Context {DB Row : Type} {rk : RowKind Row} (get : DB → list Row) (put : list Row → DB → DB)
  (get_put : ∀ l db, get (put l db) = l).

Definition part_rows (rs : RowStore (list Row) Row) : RowStore DB Row :=
  let change (f : list Row → list Row * option error) db := let '(l, err) := f (get db) in (put l db, err) in
  {| rw_Count c db := rw_Count c (get db);
     rw_First c db := rw_First c (get db);
     rw_FindOne c db := rw_FindOne c (get db);
     rw_Create r := change (rw_Create r);
     rw_LastId db := rw_LastId (get db);
     rw_UpdateColumns id v := change (rw_UpdateColumns id v);
     rw_Updates id v := change (rw_Updates id v);
     rw_Delete id := change (rw_Delete id) |}.

#[program] Definition part_laws {rs : RowStore (list Row) Row} (laws : RowLaws (list Row) Row)
  : RowLaws DB Row (H:=part_rows rs) := {| rw_rows db := rw_rows (get db) |}.
Next Obligation. intros rs laws c db k. apply (rw_Count_ok (DB:=list Row)). Qed.
Next Obligation. intros rs laws c db. apply (rw_FindOne_ok (DB:=list Row)). Qed.
Next Obligation.
  intros rs laws r db db'. cbn. destruct (rw_Create r (get db)) as [l err] eqn:E. intros [= <- ->].
  rewrite get_put. by apply (rw_Create_ok (DB:=list Row)).
Qed.
Next Obligation.
  intros rs laws id v db db'. cbn. destruct (rw_UpdateColumns id v (get db)) as [l err] eqn:E. intros [= <- ->] ?.
  rewrite get_put. by apply (rw_UpdateColumns_ok (DB:=list Row)).
Qed.
Next Obligation.
  intros rs laws v db db'. cbn. destruct (rw_UpdateColumns 0 v (get db)) as [l err] eqn:E. intros [= <- ->].
  rewrite get_put. by eapply (rw_UpdateColumns_all (DB:=list Row)).
Qed.
Next Obligation.
  intros rs laws id db db'. cbn. destruct (rw_Delete id (get db)) as [l err] eqn:E. intros [= <- ->] ?.
  rewrite get_put. by apply (rw_Delete_ok (DB:=list Row)).
Qed.
Next Obligation.
  intros rs laws db db'. cbn. destruct (rw_Delete 0 (get db)) as [l err] eqn:E. intros [= <- ->].
  rewrite get_put. by eapply (rw_Delete_all (DB:=list Row)).
Qed.
End Part.

Definition no_uses {DB} : UseCount DB := {| db_used _ _ _ _ := 0 |}.

Definition feed_row : LaserDatabase := mkLaserDatabase 1 "feed" "the feed" 5.
Definition ads_row : LaserDatabase := mkLaserDatabase 2 "ads" "" 6.

Lemma databases_ok_example : databases_ok [feed_row; ads_row].
Proof.
  split; [|split].
  - apply (bool_decide_unpack _). vm_compute. exact I.
  - apply (bool_decide_unpack _). vm_compute. exact I.
  - by repeat constructor.
Qed.

(** A third database takes the next id. *)
Lemma databases_refine_witness :
  databases_ok [feed_row; ads_row; mkLaserDatabase 3 "user" "profiles" 7].
Proof.
  refine (proj1 (databases_refine (rs:=mem_rows LaserDatabase_zero) (laws:=mem_rows_laws LaserDatabase_zero eq_refl)
    (uses:=no_uses) (rt:=main_go) (DatabaseAdd 7 "user" "profiles") [feed_row; ads_row]
    [feed_row; ads_row; mkLaserDatabase 3 "user" "profiles" 7] StatusOk databases_ok_example _ _)).
  - done.
  - vm_compute. reflexivity.
Defined.

(** Four numbers below 256. *)
Definition dotted : NetIP :=
  {| net_ParseIP s :=
       let pieces := strings_Split "." s in
       (Nat.eqb (length pieces) 4 &&
        forallb (λ p, match ParseUint32 p with Some n => Z.ltb n 256 | None => false end) pieces)%bool |}.

Definition Machine_zero : Machine := mkMachine 0 0 "" "" "" "" 0 MachineCategoryRow_zero.

Definition newline : string := String "010" "".

Definition add_machines (ip : string) : MachineParams := mkMachineParams 0 1 ip "8" "16" "".

(** An empty line between two addresses. *)
Lemma Machine_Store_panics_witness :
  Machine_Store (DB:=list Machine) (rs:=mem_rows Machine_zero) (rt:=main_go) (np:=dotted) 9
    (add_machines ("10.0.0.1" +:+ newline +:+ newline +:+ "10.0.0.2")) [] = Panic IndexOutOfRange.
Proof.
  refine (proj2 (Machine_Store_panics (rs:=mem_rows Machine_zero) (rt:=main_go) (np:=dotted) 9
    (add_machines ("10.0.0.1" +:+ newline +:+ newline +:+ "10.0.0.2")) [] _) _).
  - repeat constructor.
  - exists 1%nat, "". split; [reflexivity|]. split; [vm_compute; lia|]. reflexivity.
Defined.

(** A trailing newline is dropped where there is no machine yet, but then the check
    of the empty address, which selects every machine, finds one. *)
Lemma trailing_newline :
  Machine_Store (DB:=list Machine) (rs:=mem_rows Machine_zero) (rt:=main_go) (np:=dotted) 9
    (add_machines ("10.0.0.1" +:+ newline)) [] =
    Ret ([mkMachine 1 1 "10.0.0.1" "8" "16" "" 9 MachineCategoryRow_zero], StatusOk) ∧
  (λ r, (r.1, Status_Code r.2)) <$>
    Machine_Store (DB:=list Machine) (rs:=mem_rows Machine_zero) (rt:=main_go) (np:=dotted) 9
    (add_machines ("10.0.0.2" +:+ newline)) [mkMachine 1 1 "10.0.0.1" "8" "16" "" 9 MachineCategoryRow_zero] =
    Ret ([mkMachine 1 1 "10.0.0.1" "8" "16" "" 9 MachineCategoryRow_zero], MachineDup).
Proof. split; vm_compute; reflexivity. Qed.
