(* ===== verification/Context.v ===== *)
(** * Configuration and context of the control plane ([control/context])

    The configuration is read once, through viper, which is the class [Viper]; the
    connection to the database is opened when it is first needed. *)

From S2P Require Import Prelude RouterTypes ControlStatus ConsulModel.

(** ** Configuration *)

(** What viper has under a key, converted to the type asked for; the zero value for
    a key that is not set. *)
Class Viper := {
  viper_GetString : string → string;
  viper_GetInt : string → Z;
  viper_GetUint : string → Z;
  viper_GetBool : string → bool;
  viper_GetStringSlice : string → list string
}.

Record Config := mkConfig {
  cf_debug : bool;
  cf_httpServerHost : string;
  cf_httpServerPort : Z;
  cf_httpServerMode : string;
  cf_staticRoot : string;
  cf_databaseDriver : string;
  cf_databaseDsn : string;
  cf_sessionSaveSeconds : Z;
  cf_consulAddress : string;
  cf_consulToken : string;
  cf_consulScheme : string;
  cf_serviceName : string;
  cf_proxyServiceName : string;
  cf_emailUser : string;
  cf_emailPassword : string;
  cf_emailSnmpAddress : string;
  cf_emailFrom : string;
  cf_commonUrls : list string;
  cf_adminUsers : list string;
  cf_projectName : string;
  cf_laserClientTimeout : Z;
  cf_singleOperations : list string;
  cf_multipleOperations : list string;
  cf_batchManagerUrl : string;
  cf_ansibleSshPort : Z;
  cf_ansiblePlaybookDir : string;
  cf_ansibleTmpHostFile : string;
  cf_ansibleTmpPlaybookFile : string;
  cf_serverPrometheusAddress : string;
  cf_clientPrometheusAddress : string;
  cf_cronExpressionPeak : string;
  cf_cronExpressionPeacePeak : string
}.

(** The scheme is read from a key that is spelled ["sonul.scheme"]. *)
Definition NewConfig `{Viper} : Config :=
  {| cf_debug := false;
     cf_httpServerHost := viper_GetString "http.host";
     cf_httpServerPort := viper_GetInt "http.port";
     cf_httpServerMode := if viper_GetBool "debug" then "debug" else "";
     cf_staticRoot := viper_GetString "static.root";
     cf_databaseDriver := viper_GetString "database.driver";
     cf_databaseDsn := viper_GetString "database.dsn";
     cf_sessionSaveSeconds := viper_GetInt "auth.sessionSaveSeconds";
     cf_consulAddress := viper_GetString "consul.address";
     cf_consulToken := viper_GetString "consul.token";
     cf_consulScheme := viper_GetString "sonul.scheme";
     cf_serviceName := viper_GetString "cluster.serviceName";
     cf_proxyServiceName := viper_GetString "cluster.proxyServiceName";
     cf_emailUser := viper_GetString "email.emailUser";
     cf_emailPassword := viper_GetString "email.emailPassword";
     cf_emailSnmpAddress := viper_GetString "email.emailSnmpAddress";
     cf_emailFrom := viper_GetString "email.emailFrom";
     cf_commonUrls := viper_GetStringSlice "commonUrls";
     cf_adminUsers := viper_GetStringSlice "adminUsers";
     cf_projectName := viper_GetString "project.projectName";
     cf_laserClientTimeout := viper_GetInt "laserClient.timeoutMs";
     cf_singleOperations := viper_GetStringSlice "laserCommands.singleOperations";
     cf_multipleOperations := viper_GetStringSlice "laserCommands.multipleOperations";
     cf_batchManagerUrl := viper_GetString "batchUpdateManager.url";
     cf_ansibleSshPort := wrapu 16 (viper_GetUint "ansible.sshPort");
     cf_ansiblePlaybookDir := viper_GetString "ansible.playbookDir";
     cf_ansibleTmpHostFile := viper_GetString "ansible.tmpHostFile";
     cf_ansibleTmpPlaybookFile := viper_GetString "ansible.tmpPlaybookFile";
     cf_serverPrometheusAddress := viper_GetString "prometheus.serverPrometheusAddress";
     cf_clientPrometheusAddress := viper_GetString "prometheus.clientPrometheusAddress";
     cf_cronExpressionPeak := viper_GetString "report.cronExpressionPeak";
     cf_cronExpressionPeacePeak := viper_GetString "report.cronExpressionPeacePeak" |}.

(** The getters that do more than return a field. *)
Definition Config_Debug (c : Config) : bool := String.eqb "debug" (cf_httpServerMode c).
Definition SessionSaveSeconds (c : Config) : Z := wraps 32 (cf_sessionSaveSeconds c).

(** What publishing to consul reads. *)
Definition consul_config (c : Config) : ControlConfig :=
  mkControlConfig (cf_serviceName c) (cf_proxyServiceName c) (cf_consulAddress c) (cf_consulToken c).

(** ** The connection to the database *)

(** [gorm.Open]: the connection, if any, and the error, if any. *)
Class GormOpen (W D : Type) := { gorm_Open : string → string → W → W * (option D * option error) }.

Record Context (D : Type) := mkContext { cx_config : Config; cx_db : option D; cx_logMode : bool }.
Arguments mkContext {D}. Arguments cx_config {D}. Arguments cx_db {D}. Arguments cx_logMode {D}.

Definition Context_New `{Viper} {D} : Context D := mkContext NewConfig None false.

Section Connection.
Context {W D : Type} `{GormOpen W D}.
Implicit Types (w : W) (ctx : Context D).

(** [logger.Panic(err.Error())]: the logger panics with the message, and [err.Error()]
    does where there is no error. *)
Definition log_panic {A} (err : option error) : go A :=
  match err with
  | Some e => Panic (ExplicitPanic (err_msg e))
  | None => Panic NilPointerDereference
  end.

(** The loop of twelve attempts. *)
Fixpoint connect_retry (n : nat) (driver dsn : string) w (db : option D) (err : option error)
  : go (W * (option D * option error)) :=
  match n with
  | O => mret (w, (db, err))
  | S n =>
      let '(w, (db, err)) := gorm_Open driver dsn w in
      match db, err with
      | Some _, None => mret (w, (db, err))
      | _, _ =>
          _ ← (log_panic err : go unit);
          connect_retry n driver dsn w db err
      end
  end.

Definition connectToDatabase w ctx : go (W * Context D * option error) :=
  let driver := cf_databaseDriver (cx_config ctx) in
  let dsn := cf_databaseDsn (cx_config ctx) in
  let '(w, (db, err)) := gorm_Open driver dsn w in
  '(w, (db, err)) ←
    match db, err with
    | Some _, None => mret (w, (db, err))
    | _, _ =>
        '(w, (db, err)) ← connect_retry 12 driver dsn w db err;
        match db, err with
        | Some _, None => mret (w, (db, err))
        | _, _ => log_panic err
        end
    end;
  mret (w, mkContext (cx_config ctx) db (cx_logMode ctx), err).

(** [Db]: the connection, opened where there is none yet. *)
Definition Context_Db w ctx : go (W * Context D * option D) :=
  '(w, ctx) ← match cx_db ctx with
              | Some _ => mret (w, ctx)
              | None => '(w, ctx, _) ← connectToDatabase w ctx; mret (w, ctx)
              end;
  let ctx := match cx_db ctx with
             | Some _ => if Config_Debug (cx_config ctx)
                         then mkContext (cx_config ctx) (cx_db ctx) true else ctx
             | None => ctx
             end in
  mret (w, ctx, cx_db ctx).

(** ** Theorems *)

(** An attempt succeeded. *)
Definition opened (r : W * (option D * option error)) : option (W * D) :=
  match r with
  | (w, (Some db, None)) => Some (w, db)
  | _ => None
  end.

Definition attempt_panic (r : W * (option D * option error)) : panic :=
  match r.2.2 with
  | Some e => ExplicitPanic (err_msg e)
  | None => NilPointerDereference
  end.

(** Opening the database takes two attempts at most, not the thirteen the loop is
    written for: the first failure within the loop panics. *)
Theorem connect_two_attempts w ctx :
  let Open := gorm_Open (cf_databaseDriver (cx_config ctx)) (cf_databaseDsn (cx_config ctx)) in
  connectToDatabase w ctx =
    match opened (Open w) with
    | Some (w, db) => Ret (w, mkContext (cx_config ctx) (Some db) (cx_logMode ctx), None)
    | None =>
        match opened (Open (Open w).1) with
        | Some (w, db) => Ret (w, mkContext (cx_config ctx) (Some db) (cx_logMode ctx), None)
        | None => Panic (attempt_panic (Open (Open w).1))
        end
    end.
Proof.
  cbn zeta. unfold connectToDatabase. set (Open := gorm_Open _ _).
  destruct (Open w) as [w1 [db1 err1]] eqn:E1. cbn [fst].
  assert (∀ db err, opened (w1, (db, err)) = None →
    connect_retry 12 (cf_databaseDriver (cx_config ctx)) (cf_databaseDsn (cx_config ctx)) w1 db err =
    match opened (Open w1) with
    | Some (w, db) => Ret (w, (Some db, None))
    | None => Panic (attempt_panic (Open w1))
    end) as Hretry.
  { intros db err _. cbn [connect_retry]. fold Open. destruct (Open w1) as [w2 [[db2|] [err2|]]]; done. }
  destruct db1 as [db1|], err1 as [err1|]; cbn [opened mbind go_bind mret go_ret]; [|done|..].
  all: rewrite Hretry by done; destruct (Open w1) as [w2 [[db2|] [err2|]]]; done.
Qed.
End Connection.

(** ** An example *)

(** A configuration whose keys are their own values. *)
Definition key_viper : Viper :=
  {| viper_GetString k := k; viper_GetInt _ := 1; viper_GetUint _ := 22; viper_GetBool _ := false;
     viper_GetStringSlice _ := ["root"] |}.

Definition root_config : Config := NewConfig (H:=key_viper).
