(* ===== verification/ServiceManager.v ===== *)
(** * Adding services ([control/service/service_manager.go])

    A new service gets its router configuration in consul, under the paths that the
    service router of the SDK pulls.  The consul client is the class [ConsulKV] of
    [Registry]. *)

From S2P Require Import Prelude RouterTypes Registry ControlStatus.

(** ** Data *)

Definition ConsulRegistryKvKeySplit : string := ":".
Definition ConsulRegistryKvPrefix : string := "ads-core/services/".
Definition ConsulRegistryKvConfig : string := "/config/".
Definition ConsulRegistryKvConfigRouter : string := "router".
Definition ConsulRegistryKvConfigConfigs : string := "configs/".
Definition ConsulRegistryKvNodes : string := "/nodes/".

Record RouterConfigParams := mkRouterConfigParams {
  rcp_TotalShards : Z;
  rcp_TtlInMs : Z;
  rcp_PullInterval : Z;
  rcp_LoadBalance : string
}.

Record ServiceAdd := mkServiceAdd { sa_ServiceName : string; sa_RouterConfig : RouterConfigParams }.

(** The fields of a server that its paths are made of. *)
Record ServiceServer := mkServiceServer {
  ss_Host : string; ss_Port : Z; ss_ServiceName : string; ss_Protocol : string
}.

Definition service_named (name : string) : ServiceServer := mkServiceServer "" 0 name "".

(** ** Paths *)

Definition getServicesPath : string := ConsulRegistryKvPrefix.

Definition getServicePath (serviceName : string) : string := ConsulRegistryKvPrefix +:+ serviceName.

Definition getConfigPath (server : ServiceServer) : string :=
  ConsulRegistryKvPrefix +:+ ss_ServiceName server +:+ ConsulRegistryKvConfig.

Definition getRouterConfigPath (server : ServiceServer) : string :=
  getConfigPath server +:+ ConsulRegistryKvConfigRouter.

Definition getConfigsPath (server : ServiceServer) : string :=
  getConfigPath server +:+ ConsulRegistryKvConfigConfigs.

Definition getNodesPath (server : ServiceServer) : string :=
  ConsulRegistryKvPrefix +:+ ss_ServiceName server +:+ ConsulRegistryKvNodes.

Definition getNodeName (server : ServiceServer) : string :=
  ss_Protocol server +:+ ConsulRegistryKvKeySplit +:+ ss_Host server +:+ ConsulRegistryKvKeySplit
    +:+ Itoa (ss_Port server).

Definition getNodePath (server : ServiceServer) : string := getNodesPath server +:+ getNodeName server.

(** ** Operations *)

Section Manager.
Context {KVS : Type} {kvOps : ConsulKV KVS} {rt : Runtime} {jsonRouterConfig : Json RouterConfigParams}.
Implicit Types (kv : KVS).

(** [api.NewClient] comes to a client or to an error. *)
Definition NewServiceManager (client : KVS + error) : option KVS * Status :=
  match client with
  | inr err => (None, StatusWithError (Some err))
  | inl kv => (Some kv, StatusOk)
  end.

Definition hasService (serviceName : string) kv : bool * Status :=
  match kv_List (getServicePath serviceName) kv with
  | inr err => (false, StatusWithError (Some err))
  | inl (pairs, _) => if Nat.eqb (length pairs) 0 then (false, StatusOk) else (true, StatusOk)
  end.

(** [json.Marshal], of which the error is ignored, then two writes. *)
Definition AddService (info : ServiceAdd) kv : KVS * Status :=
  let '(has, getError) := hasService (sa_ServiceName info) kv in
  if negb (Status_Ok getError) then (kv, getError)
  else if (has : bool) then (kv, StatusError ServiceDup)
  else
    let server := service_named (sa_ServiceName info) in
    let routerConfig := match json_Marshal (sa_RouterConfig info) with inl j => j | inr _ => "" end in
    match kv_Put (getRouterConfigPath server) routerConfig kv with
    | (kv, Some err) => (kv, StatusWithError (Some err))
    | (kv, None) =>
        match kv_Put (getConfigsPath server) "" kv with
        | (kv, Some err) => (kv, StatusWithError (Some err))
        | (kv, None) => (kv, StatusOk)
        end
    end.
End Manager.

(** ** Lemmas *)

(** The control plane and the SDK spell the paths alike. *)
Lemma same_config_path name : getConfigPath (service_named name) = GetConfigPath (with_name name).
Proof. done. Qed.
Lemma same_router_path name : getRouterConfigPath (service_named name) = GetRouterConfigPath (with_name name).
Proof. done. Qed.
Lemma same_configs_key name : getConfigsPath (service_named name) = GetConfigsPath (with_name name).
Proof. done. Qed.

Lemma prefix_app_l p q s : String.prefix (p +:+ q) s = true → String.prefix p s = true.
Proof.
  revert s. induction p as [|c p IH]; intros s; [by destruct s|].
  change (String c p +:+ q) with (String c (p +:+ q)).
  destruct s as [|d s]; cbn [String.prefix]; [done|]. destruct (ascii_dec c d); [apply IH|done].
Qed.

Lemma config_path_in_service name key :
  String.prefix (getConfigPath (service_named name)) key = true →
  String.prefix (getServicePath name) key = true.
Proof.
  unfold getConfigPath, getServicePath. cbn [ss_ServiceName service_named].
  rewrite <- string_append_assoc. apply prefix_app_l.
Qed.

Section Properties.
Context {KVS : Type} {kvOps : ConsulKV KVS} {kvLaws : ConsulKVLaws KVS} {rt : Runtime}
  {jsonRouterConfig : Json RouterConfigParams} {jsonRouter : Json ServiceRouterConfig}.
Implicit Types (kv : KVS).

(** What a listing says about the store. *)
Lemma hasService_spec name kv :
  (∃ err, hasService name kv = (false, StatusWithError (Some err))) ∨
  (hasService name kv = (true, StatusOk) ∧
   ∃ key value, kv_view kv !! key = Some value ∧ String.prefix (getServicePath name) key = true) ∨
  (hasService name kv = (false, StatusOk) ∧
   ∀ key value, kv_view kv !! key = Some value → String.prefix (getServicePath name) key = false).
Proof.
  unfold hasService. destruct (kv_List _ kv) as [[l i]|err] eqn:E; [|by left; exists err].
  apply kv_List_ok in E as [_ Hl]. right. destruct l as [|[key value] l]; cbn [length Nat.eqb].
  - right. split; [done|]. intros key value Hv. destruct (String.prefix _ key) eqn:Hp; [|done].
    assert ((key, value) ∈ []) as []%elem_of_nil. by apply Hl.
  - left. split; [done|]. exists key, value. apply Hl. left.
Qed.

Lemma AddService_ok info kv kv' :
  AddService info kv = (kv', StatusOk) →
  (∀ key value, kv_view kv !! key = Some value →
     String.prefix (getServicePath (sa_ServiceName info)) key = false) ∧
  kv_view kv' =
    <[getConfigsPath (service_named (sa_ServiceName info)) := ""]>
    (<[getRouterConfigPath (service_named (sa_ServiceName info)) :=
         match json_Marshal (sa_RouterConfig info) with inl j => j | inr _ => "" end]> (kv_view kv)).
Proof.
  unfold AddService.
  destruct (hasService_spec (sa_ServiceName info) kv) as [[err ->]|[[-> _]|[-> Hnone]]]; [done..|].
  cbn [negb Status_Ok StatusOk st_code OK Z.eqb].
  destruct (kv_Put _ _ kv) as [kv1 [err|]] eqn:E1; [done|].
  destruct (kv_Put _ _ kv1) as [kv2 [err|]] eqn:E2; [done|]. intros [= <-].
  apply kv_Put_ok in E1 as [E1 _], E2 as [E2 _]. split; [done|]. by rewrite E2, E1.
Qed.

(** The client's view of the configuration: only the router's key counts. *)
Lemma processConfig_new_service name j (l : list (string * string)) rc :
  (len j ≠ 0) →
  (∀ p, p ∈ l → p = (GetRouterConfigPath (with_name name), j) ∨ p = (GetConfigsPath (with_name name), "")) →
  foldl (processConfig_pair (with_name name)) (rc, ∅) l =
    (if bool_decide ((GetRouterConfigPath (with_name name), j) ∈ l)
     then (json_Unmarshal j ServiceRouterConfig_zero).1 else rc, ∅).
Proof.
  intros Hj. revert rc. induction l as [|p l IH]; intros rc Hl; [done|]. cbn [foldl].
  assert (∀ p, p ∈ l → p = (GetRouterConfigPath (with_name name), j) ∨ p = (GetConfigsPath (with_name name), ""))
    as Hl' by (intros; apply Hl; by right).
  destruct (Hl p (list_elem_of_here _ _)) as [->| ->]; unfold processConfig_pair at 2; cbn [fst snd].
  - rewrite String.eqb_refl, (proj2 (Z.eqb_neq _ _) Hj). cbn [negb andb]. rewrite IH by done.
    rewrite (bool_decide_true (_ ∈ _ :: l)) by left. by destruct (bool_decide _).
  - change (len "") with 0. cbn [Z.eqb negb]. rewrite !andb_false_r. rewrite IH by done.
    rewrite (bool_decide_ext ((GetRouterConfigPath (with_name name), j) ∈ (GetConfigsPath (with_name name), "") :: l)
               ((GetRouterConfigPath (with_name name), j) ∈ l)); [done|].
    rewrite elem_of_cons. split; [|by right]. intros [[= E _]|?]; [|done].
    exfalso. apply append_inj_l in E. by vm_compute in E.
Qed.

(** What the client decodes is what the control plane encoded: the two structs have
    the same tags. *)
Definition as_router_config (rc : RouterConfigParams) : ServiceRouterConfig :=
  mkServiceRouterConfig (rcp_TtlInMs rc) (rcp_LoadBalance rc) (rcp_TotalShards rc) (rcp_PullInterval rc).

Definition router_config_tags (rc : RouterConfigParams) : Prop :=
  ∃ j, json_Marshal rc = inl j ∧ len j ≠ 0 ∧ (json_Unmarshal j ServiceRouterConfig_zero).1 = as_router_config rc.

(** A service added by the control plane reaches the clients: a registry that
    subscribes to the service and has not seen its index yet is told exactly the
    router configuration that was added, and no other configuration. *)
Theorem AddService_delivered {Sub} info kv kv' (cr : ConsulRegistry Sub) l i :
  let name := sa_ServiceName info in
  router_config_tags (sa_RouterConfig info) →
  AddService info kv = (kv', StatusOk) →
  kv_List (GetConfigPath (with_name name)) kv' = inl (l, i) →
  i ≠ default 0 (lastIndexes cr !! GetConfigPath (with_name name)) →
  (GetConfig kv' name cr).2 =
    (λ s, ConfigNotify s name (mkServiceConfig (as_router_config (sa_RouterConfig info)) (Some ∅))) <$>
      default [] (configSubscribers cr !! name).
Proof.
  intros name (j & Hj & Hlen & Hun) [Hnone Hview]%AddService_ok Hlist Hi. rewrite Hj in Hview. fold name in Hnone, Hview.
  assert (kv_view kv' !! GetConfigVersionPath (with_name name) = None) as Hversion.
  { rewrite Hview, !lookup_insert_ne.
    - destruct (kv_view kv !! _) eqn:E; [|done]. apply Hnone in E. exfalso.
      rewrite (config_path_in_service name) in E; [done|]. apply prefix_app.
    - intros E. apply append_inj_l in E. by vm_compute in E.
    - intros E. apply append_inj_l in E. by vm_compute in E. }
  assert (checkConfigUpdate kv' (with_name name) cr = (cr, true)) as Hcheck.
  { unfold checkConfigUpdate. destruct (kv_Get _ kv') as [[v|]|] eqn:E; [|done..].
    apply kv_Get_ok in E. congruence. }
  pose proof (kv_List_ok _ _ _ _ Hlist) as [_ Hl].
  assert (∀ p, p ∈ l → p = (GetRouterConfigPath (with_name name), j) ∨ p = (GetConfigsPath (with_name name), "")) as Hin.
  { intros [key value] [Hv Hp]%Hl. rewrite Hview in Hv.
    apply lookup_insert_Some in Hv as [[<- <-]|[_ Hv]]; [by right|].
    apply lookup_insert_Some in Hv as [[<- <-]|[_ Hv]]; [by left|].
    apply Hnone in Hv. by rewrite (config_path_in_service name) in Hv. }
  assert ((GetRouterConfigPath (with_name name), j) ∈ l) as Hrouter.
  { apply Hl. split; [|apply prefix_app]. rewrite Hview, lookup_insert_ne, lookup_insert_eq; [done|].
    intros E. apply append_inj_l in E. by vm_compute in E. }
  unfold GetConfig. rewrite Hcheck. cbn [negb]. rewrite Hlist. unfold processConfig, checkUpdate.
  rewrite (proj2 (Z.eqb_neq _ _) Hi).
  destruct l as [|p l']; [by apply elem_of_nil in Hrouter|]. cbn [length Nat.eqb negb orb snd].
  unfold processConfig_config. rewrite (processConfig_new_service name j) by done.
  rewrite bool_decide_true by done. rewrite Hun. cbn [configSubscribers set_lastIndexes sv_ServiceName with_name].
  by destruct (configSubscribers cr !! name).
Qed.

(** A service is refused as a duplicate exactly where some key begins with its path:
    its own keys, but also those of a service whose name begins with its name. *)
Theorem AddService_duplicate info kv :
  Status_Code (AddService info kv).2 = ServiceDup ↔
  (∃ r, kv_List (getServicePath (sa_ServiceName info)) kv = inl r) ∧
  ∃ key value, kv_view kv !! key = Some value ∧
    String.prefix (getServicePath (sa_ServiceName info)) key = true.
Proof.
  unfold AddService, hasService. destruct (kv_List _ kv) as [[l i]|err] eqn:E; cbn zeta.
  2: { split; [done|]. by intros [[r Hr] _]. }
  apply kv_List_ok in E as [_ Hl]. split.
  - intros Hdup. split; [by eexists|]. destruct l as [|[key value] l].
    + exfalso. revert Hdup. cbn [length Nat.eqb negb Status_Ok StatusOk st_code OK Z.eqb].
      by destruct (kv_Put _ _ kv) as [kv1 [err|]]; [|destruct (kv_Put _ _ kv1) as [kv2 [err|]]].
    + exists key, value. apply Hl. left.
  - intros [_ (key & value & Hkv)]. apply Hl in Hkv. by destruct l; [apply elem_of_nil in Hkv|].
Qed.
End Properties.

(** ** Witnesses *)

Definition online : ServiceAdd := mkServiceAdd "online" (mkRouterConfigParams 64 3000 1000 "random").

Definition online_store : mem_store := (AddService (rt:=main_go) (jsonRouterConfig:=const_json (sa_RouterConfig online)) online (mkMemStore ∅ 0)).1.

Lemma AddService_delivered_witness :
  (GetConfig (jsonRouter:=const_json (as_router_config (sa_RouterConfig online))) online_store "online"
     (SubscribeConfig "online" "client" NewConsulRegistry)).2 =
  [ConfigNotify "client" "online" (mkServiceConfig (mkServiceRouterConfig 3000 "random" 64 1000) (Some ∅))].
Proof.
  refine (AddService_delivered (rt:=main_go) (jsonRouterConfig:=const_json (sa_RouterConfig online))
    (jsonRouter:=const_json (as_router_config (sa_RouterConfig online))) online (mkMemStore ∅ 0) online_store
    (SubscribeConfig "online" "client" NewConsulRegistry)
    [("ads-core/services/online/config/configs/", ""); ("ads-core/services/online/config/router", "value")] 2 _ _ _ _).
  - exists "value". done.
  - vm_compute. reflexivity.
  - vm_compute. reflexivity.
  - vm_compute. done.
Defined.

(** With the service [online] there, [on] cannot be added. *)
Lemma AddService_prefix_refused :
  Status_Code (AddService (rt:=main_go) (jsonRouterConfig:=const_json (sa_RouterConfig online))
    (mkServiceAdd "on" (sa_RouterConfig online)) online_store).2 = ServiceDup.
Proof. vm_compute. reflexivity. Qed.
