(* ===== verification/Mail.v ===== *)
(** * Sending mail ([control/common/send_mail.go])

    A mail is sent over one SMTP session.  The commands of the session are recorded
    in order; what the server answers to a command, given the ones before, is the
    class [Smtp]. *)

From S2P Require Import Prelude RouterTypes.

(** ** Data *)

Record LoginAuth := mkLoginAuth { la_username : string; la_password : string }.

Definition NewLoginAuth (username password : string) : LoginAuth := mkLoginAuth username password.

(** [Start]: the mechanism and the initial response. *)
Definition LoginAuth_Start (a : LoginAuth) : string * string := ("LOGIN", "").

Definition LoginAuth_Next (a : LoginAuth) (fromServer : string) (more : bool) : option string + error :=
  if more then
    if String.eqb fromServer "Username:" then inl (Some (la_username a))
    else if String.eqb fromServer "Password:" then inl (Some (la_password a))
    else inr (mkError "Unknown fromServer" false)
  else inl None.

Inductive smtp_command :=
  | StartTLS (serverName : string)
  | Authenticate (auth : LoginAuth)
  | MailFrom (sender : string)
  | RcptTo (addr : string)
  | BeginData
  | WriteData (message : string)
  | EndData
  | Quit
  | CloseConnection.

(** [smtp.Dial], [Extension], what a command comes to, the host of an address (empty
    where it has none), base64 and [fmt.Errorf] of a text without arguments. *)
Class Smtp := {
  smtp_Dial : string → option error;
  smtp_Extension : string → string → bool;
  smtp_answer : string → list smtp_command → smtp_command → option error;
  net_SplitHost : string → string;
  base64_EncodeToString : string → string;
  fmt_Errorf : string → error
}.

Definition newline_crlf : string := String "013" (String "010" "").

(** A quotation mark. *)
Definition quote_mark : string := String "034" "".

Section Sending.
Context `{Smtp} `{MapOrder}.

(** A command whose error ends the session. *)
Definition smtp_step (addr : string) (cmds : list smtp_command) (c : smtp_command)
    (k : list smtp_command → list smtp_command * option error) : list smtp_command * option error :=
  match smtp_answer addr cmds c with
  | Some err => (cmds ++ [c], Some err)
  | None => k (cmds ++ [c])
  end.

(** The recipients: an error is noted and the next one is tried. *)
Fixpoint rcpt_all (addr : string) (to : list string) (cmds : list smtp_command) (invalid : string)
  : list smtp_command * string :=
  match to with
  | [] => (cmds, invalid)
  | a :: to =>
      let invalid := match smtp_answer addr cmds (RcptTo a) with
                     | Some err => invalid +:+ err_msg err +:+ "; "
                     | None => invalid
                     end in
      rcpt_all addr to (cmds ++ [RcptTo a]) invalid
  end.

Definition mail_headers (subject : string) : gmap string string :=
  <["Content-Transfer-Encoding" := "base64"]>
  (<["Content-Type" := "text/html; charset=" +:+ quote_mark +:+ "utf-8" +:+ quote_mark]>
  (<["MIME-Version" := "1.0"]> (<["Subject" := subject]> ∅))).

Definition mail_message (subject body : string) : string :=
  foldl (λ message kv, message +:+ kv.1 +:+ ": " +:+ kv.2 +:+ newline_crlf) "" (map_range (mail_headers subject))
    +:+ newline_crlf +:+ base64_EncodeToString body.

(** The session once the server has answered the greeting: from [MAIL] to [QUIT]. *)
Definition mail_transaction (addr sender : string) (to : list string) (subject body : string)
    (cmds : list smtp_command) : list smtp_command * option error :=
  smtp_step addr cmds (MailFrom sender) (λ cmds,
    let '(cmds, invalid) := rcpt_all addr to cmds "" in
    smtp_step addr cmds BeginData (λ cmds,
    smtp_step addr cmds (WriteData (mail_message subject body)) (λ cmds,
    smtp_step addr cmds EndData (λ cmds,
      if negb (String.eqb invalid "") then (cmds, Some (fmt_Errorf invalid))
      else smtp_step addr cmds Quit (λ cmds, (cmds, None)))))).

(** TLS and authentication where the server has them. *)
Definition mail_session (addr : string) (auth : option LoginAuth)
    (k : list smtp_command → list smtp_command * option error) : list smtp_command * option error :=
  let authenticate cmds :=
    match auth with
    | Some a => if smtp_Extension addr "AUTH" then smtp_step addr cmds (Authenticate a) k else k cmds
    | None => k cmds
    end in
  if smtp_Extension addr "STARTTLS" then smtp_step addr [] (StartTLS (net_SplitHost addr)) authenticate
  else authenticate [].

Definition SendMail (addr : string) (auth : option LoginAuth) (sender : string) (to : list string)
    (subject body : string) : list smtp_command * option error :=
  match smtp_Dial addr with
  | Some err => ([], Some err)
  | None => let '(cmds, err) := mail_session addr auth (mail_transaction addr sender to subject body) in
            (cmds ++ [CloseConnection], err)
  end.

(** ** Theorems *)

Lemma rcpt_all_commands addr to cmds invalid :
  (rcpt_all addr to cmds invalid).1 = cmds ++ (RcptTo <$> to).
Proof.
  revert cmds invalid. induction to as [|a to IH]; intros cmds invalid; cbn [rcpt_all fmap list_fmap].
  - by rewrite app_nil_r.
  - rewrite IH. by rewrite <- app_assoc.
Qed.

(** The recipients that the server refused, each with what it said. *)
Fixpoint refusals (addr : string) (to : list string) (cmds : list smtp_command) : string :=
  match to with
  | [] => ""
  | a :: to =>
      match smtp_answer addr cmds (RcptTo a) with
      | Some err => err_msg err +:+ "; "
      | None => ""
      end +:+ refusals addr to (cmds ++ [RcptTo a])
  end.

Lemma rcpt_all_refusals addr to cmds invalid :
  (rcpt_all addr to cmds invalid).2 = invalid +:+ refusals addr to cmds.
Proof.
  revert cmds invalid. induction to as [|a to IH]; intros cmds invalid; cbn [rcpt_all refusals].
  - by rewrite string_append_nil_r.
  - rewrite IH. destruct (smtp_answer _ _ _); [|done]. by rewrite !string_append_assoc.
Qed.

Lemma mail_transaction_complete addr sender to subject body hello cmds :
  mail_transaction addr sender to subject body hello = (cmds, None) →
  cmds = hello ++ [MailFrom sender] ++ (RcptTo <$> to) ++
    [BeginData; WriteData (mail_message subject body); EndData; Quit] ∧
  refusals addr to (hello ++ [MailFrom sender]) = "".
Proof.
  unfold mail_transaction, smtp_step. destruct (smtp_answer addr hello _); [done|].
  rewrite (surjective_pairing (rcpt_all addr to (hello ++ [MailFrom sender]) "")).
  rewrite rcpt_all_commands, rcpt_all_refusals.
  change ("" +:+ refusals addr to (hello ++ [MailFrom sender])) with (refusals addr to (hello ++ [MailFrom sender])).
  repeat (destruct (smtp_answer addr _ _); [done|]).
  destruct (String.eqb_spec (refusals addr to (hello ++ [MailFrom sender])) ""); [|done]. cbn [negb].
  destruct (smtp_answer addr _ _); [done|]. intros [= <-]. split; [|done]. by rewrite <- !app_assoc.
Qed.

Definition greeting (addr : string) (auth : option LoginAuth) (c : smtp_command) : Prop :=
  c = StartTLS (net_SplitHost addr) ∨ ∃ a, auth = Some a ∧ c = Authenticate a.

Lemma mail_session_greets addr auth k cmds :
  mail_session addr auth k = (cmds, None) →
  ∃ hello, Forall (greeting addr auth) hello ∧ k hello = (cmds, None).
Proof.
  unfold mail_session, smtp_step, greeting. intros Hrun.
  destruct (smtp_Extension addr "STARTTLS"); [destruct (smtp_answer addr [] _); [done|]|];
    (destruct auth as [a|]; [destruct (smtp_Extension addr "AUTH"); [destruct (smtp_answer addr _ _); [done|]|]|]);
    (eexists; split; [|exact Hrun]); rewrite ?Forall_app, ?Forall_cons, ?Forall_nil; naive_solver.
Qed.

(** A session that reports no error went all the way: it asked for every recipient
    in order, none was refused, and the message was sent once, before [Quit]; the
    connection was closed last. *)
Theorem SendMail_complete addr auth sender to subject body cmds :
  SendMail addr auth sender to subject body = (cmds, None) →
  ∃ hello, cmds = hello ++ [MailFrom sender] ++ (RcptTo <$> to) ++
      [BeginData; WriteData (mail_message subject body); EndData; Quit; CloseConnection] ∧
    Forall (greeting addr auth) hello ∧ refusals addr to (hello ++ [MailFrom sender]) = "".
Proof.
  unfold SendMail. destruct (smtp_Dial addr); [done|].
  destruct (mail_session _ _ _) as [cs err] eqn:E. intros [= <- ->].
  apply mail_session_greets in E as (hello & Hhello & E).
  apply mail_transaction_complete in E as [-> Hr]. exists hello. split; [by rewrite <- !app_assoc|done].
Qed.
End Sending.
