(* ===== verification/Tickets.v ===== *)
(** * Tickets ([control/service/ticket.go])

    A user asks for a table with a ticket; an administrator accepts it, which creates
    the database and the table, or rejects it.  The people concerned are told by
    mail.  The state of an operation is the database and the mails sent so far. *)

From S2P Require Import Prelude RouterTypes Registry GoLib ControlStatus ControlData NodeManager ConsulModel Inventory Catalog Context Mail.

(** ** Data *)

Definition WaitForUpdate : Z := 1.
Definition WaitForProcess : Z := 2.
Definition TicketReject : Z := 3.
Definition ProcessFailed : Z := 4.
Definition ProcessSucceed : Z := 5.

Definition TicketStatusWaitForCheck : string := "待审核".
Definition TicketHasBeenReject : string := "被驳回".
Definition TicketStatusProcessResult : string := "录入结果".
Definition CreateDatabaseFailed : string := "创建数据库失败".
Definition CreateTableFailed : string := "创建数据表失败".
Definition TicketStatusProcessSucceed : string := "录入成功".

Definition SubjectToCreator : string := "Laser存储工单处理结果".
Definition SubjectToHandler : string := "Laser存储工单申请".
Definition EmailTemplateToCreator : string := "templates/email-to-creator.html".
Definition EmailTemplateToHandler : string := "templates/email-to-handler.html".
Definition EmailTail : string := "@gmail.com".

Record Ticket := mkTicket {
  tk_Id : Z;
  tk_Creator : string;
  tk_SDKType : string;
  tk_ReadContactPersion : string;
  tk_WriteContactPersion : string;
  tk_ImportDataContactPersion : string;
  tk_BusinessLine : string;
  tk_BusinessDescription : string;
  tk_BusinessKR : string;
  tk_DatabaseName : string;
  tk_TableName : string;
  tk_ReadQPS : Z;
  tk_WriteQPS : Z;
  tk_RequestDelayLimit : Z;
  tk_DataExpirationTime : Z;
  tk_DataSize : Z;
  tk_ValueSize : Z;
  tk_CrashInfluence : string;
  tk_Command : string;
  tk_KeyNum : Z;
  tk_DockingPersonnel : string;
  tk_Status : option Z;
  tk_PartitionNum : option Z;
  tk_CreatedAt : Z
}.

Record TicketParams := mkTicketParams {
  tkp_Id : Z;
  tkp_Creator : string;
  tkp_SDKType : list string;
  tkp_BusinessLine : string;
  tkp_BusinessDescription : string;
  tkp_BusinessKR : string;
  tkp_ReadContactPersion : string;
  tkp_WriteContactPersion : string;
  tkp_ImportDataContactPersion : string;
  tkp_DatabaseName : string;
  tkp_TableName : string;
  tkp_ReadQPS : Z;
  tkp_WriteQPS : Z;
  tkp_RequestDelayLimit : Z;
  tkp_DataExpirationTime : Z;
  tkp_DataSize : Z;
  tkp_ValueSize : Z;
  tkp_CrashInfluence : string;
  tkp_Command : list string;
  tkp_KeyNum : Z;
  tkp_DockingPersonnel : string;
  tkp_PartitionNum : option Z;
  tkp_Status : option Z
}.

Record TicketListParams := mkTicketListParams { tklp_Loader : string; tklp_Page : Z; tklp_Limit : Z }.

Record TicketProcessParams := mkTicketProcessParams {
  tpp_Handler : string;
  tpp_TicketAcceptStatus : option Z;
  tpp_DatabaseName : string;
  tpp_TableName : string;
  tpp_DcId : Z;
  tpp_DataExpirationTime : option Z;
  tpp_TableConfigId : option Z;
  tpp_TableConfigName : string;
  tpp_PartitionNum : option Z;
  tpp_RejectReason : string
}.

Record TicketMailInfo := mkTicketMailInfo {
  tmi_Creator : string;
  tmi_Handler : string;
  tmi_MailTo : list string;
  tmi_CurrentStatus : Z;
  tmi_CurrentStr : string;
  tmi_DatabaseName : string;
  tmi_TableName : string;
  tmi_TableConfigName : string;
  tmi_PartitionNum : Z;
  tmi_DataExpirationTime : Z
}.

(** A mail as it is handed to [common.SendMail]. *)
Record mail := mkMail {
  mail_addr : string;
  mail_auth : LoginAuth;
  mail_from : string;
  mail_to : list string;
  mail_subject : string;
  mail_body : string
}.

(** The templates beside the program: [ParseFiles], [None] after an error, and
    [Execute]. *)
Class Templates := {
  current_dir : string;
  template_ParseFiles : string → option string;
  template_Execute : string → TicketMailInfo → string
}.

(** ** Lists as text *)

Definition ConvStrArrayToStr (value : list string) : string :=
  foldl (λ ret v, ret +:+ v +:+ ",") "" value.

Definition ConvStrToStrArray (cmd : string) : list string := filter (λ str, str ≠ "") (strings_Split "," cmd).

(** The contact for imports is taken from the one for writes. *)
Definition initTicket (now : Z) (p : TicketParams) : Ticket :=
  mkTicket (tkp_Id p) (tkp_Creator p) (ConvStrArrayToStr (tkp_SDKType p)) (tkp_ReadContactPersion p)
    (tkp_WriteContactPersion p) (tkp_WriteContactPersion p) (tkp_BusinessLine p) (tkp_BusinessDescription p)
    (tkp_BusinessKR p) (tkp_DatabaseName p) (tkp_TableName p) (tkp_ReadQPS p) (tkp_WriteQPS p)
    (tkp_RequestDelayLimit p) (tkp_DataExpirationTime p) (tkp_DataSize p) (tkp_ValueSize p)
    (tkp_CrashInfluence p) (ConvStrArrayToStr (tkp_Command p)) (tkp_KeyNum p) (tkp_DockingPersonnel p)
    (tkp_Status p) (tkp_PartitionNum p) now.

Definition initParamTicket (t : Ticket) : TicketParams :=
  mkTicketParams (tk_Id t) (tk_Creator t) (ConvStrToStrArray (tk_SDKType t)) (tk_BusinessLine t)
    (tk_BusinessDescription t) (tk_BusinessKR t) (tk_ReadContactPersion t) (tk_WriteContactPersion t)
    (tk_WriteContactPersion t) (tk_DatabaseName t) (tk_TableName t) (tk_ReadQPS t) (tk_WriteQPS t)
    (tk_RequestDelayLimit t) (tk_DataExpirationTime t) (tk_DataSize t) (tk_ValueSize t)
    (tk_CrashInfluence t) (ConvStrToStrArray (tk_Command t)) (tk_KeyNum t) (tk_DockingPersonnel t)
    (tk_PartitionNum t) (tk_Status t).

(** [*p.Status = status], and [p.PartitionNum = n] beside it. *)
Definition with_Status (status : Z) (p : TicketParams) : TicketParams :=
  mkTicketParams (tkp_Id p) (tkp_Creator p) (tkp_SDKType p) (tkp_BusinessLine p) (tkp_BusinessDescription p)
    (tkp_BusinessKR p) (tkp_ReadContactPersion p) (tkp_WriteContactPersion p) (tkp_ImportDataContactPersion p)
    (tkp_DatabaseName p) (tkp_TableName p) (tkp_ReadQPS p) (tkp_WriteQPS p) (tkp_RequestDelayLimit p)
    (tkp_DataExpirationTime p) (tkp_DataSize p) (tkp_ValueSize p) (tkp_CrashInfluence p) (tkp_Command p)
    (tkp_KeyNum p) (tkp_DockingPersonnel p) (tkp_PartitionNum p) (Some status).
Definition with_PartitionNum (n : option Z) (p : TicketParams) : TicketParams :=
  mkTicketParams (tkp_Id p) (tkp_Creator p) (tkp_SDKType p) (tkp_BusinessLine p) (tkp_BusinessDescription p)
    (tkp_BusinessKR p) (tkp_ReadContactPersion p) (tkp_WriteContactPersion p) (tkp_ImportDataContactPersion p)
    (tkp_DatabaseName p) (tkp_TableName p) (tkp_ReadQPS p) (tkp_WriteQPS p) (tkp_RequestDelayLimit p)
    (tkp_DataExpirationTime p) (tkp_DataSize p) (tkp_ValueSize p) (tkp_CrashInfluence p) (tkp_Command p)
    (tkp_KeyNum p) (tkp_DockingPersonnel p) n (tkp_Status p).

(** [Ticket{DatabaseName: ..., TableName: ...}]. *)
Definition Ticket_where (databaseName tableName : string) : Ticket :=
  mkTicket 0 "" "" "" "" "" "" "" "" databaseName tableName 0 0 0 0 0 0 "" "" 0 "" None None 0.

(** ** Who is told *)

Definition addToArray (persion_list : list string) (to : string) : list string :=
  if String.eqb to "" then persion_list
  else if decide (to ∈ persion_list) then persion_list
  else persion_list ++ [to].

Definition initMailTo (res : TicketParams) (mail : list string) : list string :=
  let mail := foldl addToArray mail (ConvStrToStrArray (tkp_DockingPersonnel res)) in
  let mail := addToArray mail (tkp_Creator res) in
  let mail := addToArray mail (tkp_ReadContactPersion res) in
  let mail := addToArray mail (tkp_WriteContactPersion res) in
  addToArray mail (tkp_ImportDataContactPersion res).

(** A template that cannot be read is [nil], and executing it panics.  The result of
    [common.SendMail] is only logged. *)
Definition TicketModel_SendMail `{Templates} (cfg : Config) (info : TicketMailInfo) (sent : list mail)
  : go (list mail) :=
  let address user := user +:+ EmailTail in
  let '(subject, recipients, file) :=
    if (Z.eqb (tmi_CurrentStatus info) ProcessSucceed || Z.eqb (tmi_CurrentStatus info) TicketReject)%bool
    then (SubjectToCreator, address <$> tmi_MailTo info, current_dir +:+ "/" +:+ EmailTemplateToCreator)
    else (SubjectToHandler, address <$> cf_adminUsers cfg, current_dir +:+ "/" +:+ EmailTemplateToHandler) in
  t ← go_deref (template_ParseFiles file);
  mret (sent ++ [mkMail (cf_emailSnmpAddress cfg) (NewLoginAuth (cf_emailUser cfg) (cf_emailPassword cfg))
                   (cf_emailFrom cfg) recipients subject (template_Execute t info)]).

(** ** Operations *)

Section Tickets.
Context {DB : Type} {rsTicket : RowStore DB Ticket} {gormTicket : Gorm DB Ticket}
  {rsDatabase : RowStore DB LaserDatabase} {rsTable : RowStore DB Table}
  {asLimit : AssocStore DB TrafficRestrictionLimit} {asNode : AssocStore DB Node}
  {rt : Runtime} {tpl : Templates}.
Implicit Types (db : DB) (sent : list mail) (cfg : Config).

Definition alreadyExist (databaseName tableName : string) db : bool :=
  if negb (Z.eqb (Status_Code (LaserDatabase_CheckDupName databaseName db)) DatabaseNameDup) then false
  else
    let dataBaseId := GetIdByName databaseName db in
    Z.eqb (Status_Code (Table_checkDupName dataBaseId tableName db)) TableNameDup.

Definition Ticket_CheckDupName (databaseName tableName : string) db : Status :=
  match rw_Count (Ticket_where databaseName tableName) db with
  | inr err => StatusWithError (Some err)
  | inl count =>
      if negb (Z.eqb count 0) then StatusError TicketDup
      else if alreadyExist databaseName tableName db then StatusError TicketDup
      else StatusOk
  end.

Definition GetSpecTicket (databaseName tableName : string) db : Ticket :=
  rw_FindOne (Ticket_where databaseName tableName) db.

(** The handlers are told of a ticket that waits for them. *)
Definition tell_waiting cfg (p : TicketParams) sent : go (list mail) :=
  status ← go_deref (tkp_Status p);
  if Z.eqb status WaitForProcess then
    TicketModel_SendMail cfg
      (mkTicketMailInfo (tkp_Creator p) "" [] status TicketStatusWaitForCheck (tkp_DatabaseName p)
         (tkp_TableName p) "" 0 (tkp_DataExpirationTime p)) sent
  else mret sent.

Definition Ticket_Store cfg (now : Z) (p : TicketParams) db sent : go (DB * list mail * Status) :=
  let status := Ticket_CheckDupName (tkp_DatabaseName p) (tkp_TableName p) db in
  if negb (Status_Ok status) then mret (db, sent, status)
  else
    match rw_Create (initTicket now p) db with
    | (_, Some err) => mret (db, sent, StatusWithError (Some err))
    | (db, None) => sent ← tell_waiting cfg p sent; mret (db, sent, StatusOk)
    end.

Definition Ticket_List db (p : TicketListParams) (isTotal : bool) : list TicketParams * Z :=
  let '(tickets, total) := list_rows db gorm_Model (tklp_Page p) (tklp_Limit p) [] isTotal in
  (initParamTicket <$> tickets, total).

Definition Ticket_Update cfg (now : Z) (p : TicketParams) db sent : go (DB * list mail * Status) :=
  if negb (Z.eqb (Status_Code (Ticket_CheckDupName (tkp_DatabaseName p) (tkp_TableName p) db)) TicketDup)
  then mret (db, sent, StatusError TicketNotExists)
  else
    match rw_UpdateColumns (tkp_Id p) (initTicket now p) db with
    | (_, Some err) => mret (db, sent, StatusWithError (Some err))
    | (db, None) => sent ← tell_waiting cfg p sent; mret (db, sent, StatusOk)
    end.

Definition Ticket_Delete (id : Z) db : DB * Status :=
  last_statement db (rw_Delete (Row:=Ticket) id db).

Definition reject cfg (now : Z) (param : TicketProcessParams) db sent : go (DB * list mail) :=
  let res := initParamTicket (GetSpecTicket (tpp_DatabaseName param) (tpp_TableName param) db) in
  let info := mkTicketMailInfo (tkp_Creator res) (tpp_Handler param) (initMailTo res []) TicketReject
    (TicketStatusProcessResult +:+ " : " +:+ TicketHasBeenReject +:+ ", " +:+ tpp_RejectReason param)
    (tpp_DatabaseName param) (tpp_TableName param) "" 0 0 in
  sent ← TicketModel_SendMail cfg info sent;
  _ ← go_deref (tkp_Status res);
  '(db, sent, _) ← Ticket_Update cfg now (with_Status WaitForUpdate res) db sent;
  mret (db, sent).

Definition createDatabase (now : Z) (databaseName : string) db : DB * Status * Z :=
  let '(db, status) := LaserDatabase_Store now databaseName "" db in
  let status := if Z.eqb (Status_Code status) DatabaseNameDup then StatusOk else status in
  (db, status, GetIdByName databaseName db).

Definition createTable (now databaseId : Z) (param : TicketProcessParams) db : go (DB * Status) :=
  tableTtl ← go_deref (tpp_DataExpirationTime param);
  partitionNum ← go_deref (tpp_PartitionNum param);
  configId ← go_deref (tpp_TableConfigId param);
  mret (Table_Store now
    (mkTableAddParams (tpp_TableName param) (Some TableEnabled) (Some 0) partitionNum (Some tableTtl) ""
       (tpp_DcId param) (tpp_DcId param) databaseId configId (Some 0) [] []) db).

Definition accept cfg (now : Z) (param : TicketProcessParams) db sent : go (DB * list mail * Status) :=
  expiration ← go_deref (tpp_DataExpirationTime param);
  partitionNum ← go_deref (tpp_PartitionNum param);
  let info creator mailTo status text :=
    mkTicketMailInfo creator (tpp_Handler param) mailTo status
      (TicketStatusProcessResult +:+ " : " +:+ text) (tpp_DatabaseName param) (tpp_TableName param)
      (tpp_TableConfigName param) partitionNum expiration in
  let '(db, status, dataBaseId) := createDatabase now (tpp_DatabaseName param) db in
  let res := initParamTicket (GetSpecTicket (tpp_DatabaseName param) (tpp_TableName param) db) in
  if negb (Z.eqb (Status_Code status) OK) then
    sent ← TicketModel_SendMail cfg (info (tkp_Creator res) [] ProcessFailed CreateDatabaseFailed) sent;
    mret (db, sent, status)
  else
    '(db, status) ← createTable now dataBaseId param db;
    if negb (Z.eqb (Status_Code status) OK) then
      sent ← TicketModel_SendMail cfg (info (tkp_Creator res) [] ProcessFailed CreateTableFailed) sent;
      mret (db, sent, status)
    else
      let res := with_PartitionNum (tpp_PartitionNum param) res in
      _ ← go_deref (tkp_Status res);
      let res := with_Status ProcessSucceed res in
      '(db, sent, _) ← Ticket_Update cfg now res db sent;
      sent ← TicketModel_SendMail cfg
        (info (tkp_Creator res) (initMailTo res []) ProcessSucceed TicketStatusProcessSucceed) sent;
      mret (db, sent, StatusOk).

(** The status of accepting is dropped. *)
Definition Process cfg (now : Z) (param : TicketProcessParams) db sent : go (DB * list mail * Status) :=
  if decide (tpp_Handler param ∈ cf_adminUsers cfg) then
    acceptStatus ← go_deref (tpp_TicketAcceptStatus param);
    if Z.eqb acceptStatus 0 then
      '(db, sent) ← reject cfg now param db sent; mret (db, sent, StatusOk)
    else
      '(db, sent, _) ← accept cfg now param db sent; mret (db, sent, StatusOk)
  else mret (db, sent, StatusError TicketCanotHandle).
End Tickets.

(** ** Theorems *)

(** *** Lists as text *)

Lemma ConvStrArrayToStr_acc acc l :
  foldl (λ ret v, ret +:+ v +:+ ",") acc l = acc +:+ ConvStrArrayToStr l.
Proof.
  unfold ConvStrArrayToStr. revert acc. induction l as [|v l IH]; intros acc; cbn [foldl].
  - by rewrite string_append_nil_r.
  - rewrite IH, (IH ("" +:+ v +:+ ",")). by rewrite !string_append_assoc.
Qed.

Lemma ConvStr_cons v l :
  ConvStrToStrArray (ConvStrArrayToStr (v :: l)) = ConvStrToStrArray v ++ ConvStrToStrArray (ConvStrArrayToStr l).
Proof.
  unfold ConvStrArrayToStr at 1. cbn [foldl]. rewrite ConvStrArrayToStr_acc, !string_append_assoc.
  change ("" +:+ v +:+ "," +:+ ConvStrArrayToStr l) with (v +:+ String "," (ConvStrArrayToStr l)).
  unfold ConvStrToStrArray at 1. by rewrite strings_Split_sep, filter_app.
Qed.

(** A list written and read again is the list of the pieces of its elements. *)
Lemma ConvStr_pieces l : ConvStrToStrArray (ConvStrArrayToStr l) = l ≫= ConvStrToStrArray.
Proof. induction l as [|v l IH]; [done|]. by rewrite ConvStr_cons, IH. Qed.

Definition plain (s : string) : Prop := s ≠ "" ∧ no_sep "," s = true.

Lemma ConvStr_plain l : Forall plain l → l ≫= ConvStrToStrArray = l.
Proof.
  induction 1 as [|s l [Hne Hs] _ IH]; [done|]. change (ConvStrToStrArray s ++ (l ≫= ConvStrToStrArray) = s :: l). rewrite IH.
  unfold ConvStrToStrArray. rewrite strings_Split_last by done. by rewrite filter_cons_True.
Qed.

(** The ticket that comes back: its lists taken apart, and the contact for imports
    replaced by the one for writes. *)
Definition restored (p : TicketParams) : TicketParams :=
  mkTicketParams (tkp_Id p) (tkp_Creator p) (tkp_SDKType p ≫= ConvStrToStrArray) (tkp_BusinessLine p)
    (tkp_BusinessDescription p) (tkp_BusinessKR p) (tkp_ReadContactPersion p) (tkp_WriteContactPersion p)
    (tkp_WriteContactPersion p) (tkp_DatabaseName p) (tkp_TableName p) (tkp_ReadQPS p) (tkp_WriteQPS p)
    (tkp_RequestDelayLimit p) (tkp_DataExpirationTime p) (tkp_DataSize p) (tkp_ValueSize p)
    (tkp_CrashInfluence p) (tkp_Command p ≫= ConvStrToStrArray) (tkp_KeyNum p) (tkp_DockingPersonnel p)
    (tkp_PartitionNum p) (tkp_Status p).

(** A ticket is stored as a row and read back: its lists survive where their
    elements are neither empty nor contain a comma, every other field survives but
    for the contact for imports, which comes back as the one for writes. *)
Theorem ticket_roundtrip now p :
  initParamTicket (initTicket now p) = restored p ∧
  (Forall plain (tkp_SDKType p) → Forall plain (tkp_Command p) →
   tkp_ImportDataContactPersion p = tkp_WriteContactPersion p → restored p = p).
Proof.
  split.
  - unfold restored. by rewrite <- !ConvStr_pieces.
  - intros Hs Hc Hi. unfold restored. rewrite !ConvStr_plain by done. destruct p. cbn in *. by subst.
Qed.

(** *** What the code relies on of the database *)

Definition nil_or (a b : option Z) : bool :=
  match a with None => true | Some _ => bool_decide (a = b) end.

#[export] Instance Ticket_kind : RowKind Ticket :=
  {| row_id := tk_Id;
     with_row_id id t :=
       mkTicket id (tk_Creator t) (tk_SDKType t) (tk_ReadContactPersion t) (tk_WriteContactPersion t)
         (tk_ImportDataContactPersion t) (tk_BusinessLine t) (tk_BusinessDescription t) (tk_BusinessKR t)
         (tk_DatabaseName t) (tk_TableName t) (tk_ReadQPS t) (tk_WriteQPS t) (tk_RequestDelayLimit t)
         (tk_DataExpirationTime t) (tk_DataSize t) (tk_ValueSize t) (tk_CrashInfluence t) (tk_Command t)
         (tk_KeyNum t) (tk_DockingPersonnel t) (tk_Status t) (tk_PartitionNum t) (tk_CreatedAt t);
     row_matches c t :=
       (zero_or (tk_Id c) (tk_Id t) && empty_or (tk_Creator c) (tk_Creator t) &&
        empty_or (tk_SDKType c) (tk_SDKType t) &&
        empty_or (tk_ReadContactPersion c) (tk_ReadContactPersion t) &&
        empty_or (tk_WriteContactPersion c) (tk_WriteContactPersion t) &&
        empty_or (tk_ImportDataContactPersion c) (tk_ImportDataContactPersion t) &&
        empty_or (tk_BusinessLine c) (tk_BusinessLine t) &&
        empty_or (tk_BusinessDescription c) (tk_BusinessDescription t) &&
        empty_or (tk_BusinessKR c) (tk_BusinessKR t) && empty_or (tk_DatabaseName c) (tk_DatabaseName t) &&
        empty_or (tk_TableName c) (tk_TableName t) && zero_or (tk_ReadQPS c) (tk_ReadQPS t) &&
        zero_or (tk_WriteQPS c) (tk_WriteQPS t) &&
        zero_or (tk_RequestDelayLimit c) (tk_RequestDelayLimit t) &&
        zero_or (tk_DataExpirationTime c) (tk_DataExpirationTime t) &&
        zero_or (tk_DataSize c) (tk_DataSize t) && zero_or (tk_ValueSize c) (tk_ValueSize t) &&
        empty_or (tk_CrashInfluence c) (tk_CrashInfluence t) && empty_or (tk_Command c) (tk_Command t) &&
        zero_or (tk_KeyNum c) (tk_KeyNum t) && empty_or (tk_DockingPersonnel c) (tk_DockingPersonnel t) &&
        nil_or (tk_Status c) (tk_Status t) && nil_or (tk_PartitionNum c) (tk_PartitionNum t) &&
        zero_or (tk_CreatedAt c) (tk_CreatedAt t))%bool;
     row_overwrite v t :=
       mkTicket (over_Z (tk_Id v) (tk_Id t)) (over_string (tk_Creator v) (tk_Creator t))
         (over_string (tk_SDKType v) (tk_SDKType t))
         (over_string (tk_ReadContactPersion v) (tk_ReadContactPersion t))
         (over_string (tk_WriteContactPersion v) (tk_WriteContactPersion t))
         (over_string (tk_ImportDataContactPersion v) (tk_ImportDataContactPersion t))
         (over_string (tk_BusinessLine v) (tk_BusinessLine t))
         (over_string (tk_BusinessDescription v) (tk_BusinessDescription t))
         (over_string (tk_BusinessKR v) (tk_BusinessKR t)) (over_string (tk_DatabaseName v) (tk_DatabaseName t))
         (over_string (tk_TableName v) (tk_TableName t)) (over_Z (tk_ReadQPS v) (tk_ReadQPS t))
         (over_Z (tk_WriteQPS v) (tk_WriteQPS t)) (over_Z (tk_RequestDelayLimit v) (tk_RequestDelayLimit t))
         (over_Z (tk_DataExpirationTime v) (tk_DataExpirationTime t)) (over_Z (tk_DataSize v) (tk_DataSize t))
         (over_Z (tk_ValueSize v) (tk_ValueSize t)) (over_string (tk_CrashInfluence v) (tk_CrashInfluence t))
         (over_string (tk_Command v) (tk_Command t)) (over_Z (tk_KeyNum v) (tk_KeyNum t))
         (over_string (tk_DockingPersonnel v) (tk_DockingPersonnel t)) (over_ptr (tk_Status v) (tk_Status t))
         (over_ptr (tk_PartitionNum v) (tk_PartitionNum t)) (over_Z (tk_CreatedAt v) (tk_CreatedAt t)) |}.

Definition with_table_id (id : Z) (t : Table) : Table :=
  mkTable id (t_Name t) (t_Status t) (t_DenyAll t) (t_PartitionNumber t) (t_Ttl t) (t_Desc t) (t_DcId t) (t_Dc t)
    (t_DistDcId t) (t_DistDc t) (t_DatabaseId t) (t_ConfigId t) (t_Database t) (t_Config t) (t_EdgeFlowRatio t)
    (t_TrafficLimits t) (t_BindEdgeNodes t) (t_CreatedAt t).

(** Creating a table adds its row, appending no nodes does nothing, and a statement
    about one kind of rows leaves the other kinds alone. *)
Class TicketLaws (DB : Type) `{RowStore DB Table} `{AssocStore DB Node}
    `{laws1 : RowLaws DB LaserDatabase} `{laws2 : RowLaws DB Ticket} := {
  table_rows : DB → list Table;
  table_Create_ok t db db' : rw_Create t db = (db', None) →
    (∃ id, table_rows db' = table_rows db ++ [with_table_id id t]) ∧
    rw_rows (Row:=LaserDatabase) db' = rw_rows db ∧ rw_rows (Row:=Ticket) db' = rw_rows db;
  append_nothing name id db db' : as_Append (Item:=Node) name id [] db = (db', None) → db' = db;
  database_Create_frame (d : LaserDatabase) db db' : rw_Create d db = (db', None) →
    table_rows db' = table_rows db ∧ rw_rows (Row:=Ticket) db' = rw_rows db;
  ticket_Update_frame id (t : Ticket) db db' : rw_UpdateColumns id t db = (db', None) →
    table_rows db' = table_rows db ∧ rw_rows (Row:=LaserDatabase) db' = rw_rows db
}.

Section Properties.
Context {DB : Type} {rsTicket : RowStore DB Ticket} {gormTicket : Gorm DB Ticket}
  {rsDatabase : RowStore DB LaserDatabase} {rsTable : RowStore DB Table}
  {asLimit : AssocStore DB TrafficRestrictionLimit} {asNode : AssocStore DB Node}
  {rt : Runtime} {tpl : Templates}
  {dbLaws : RowLaws DB LaserDatabase} {tkLaws : RowLaws DB Ticket} {laws : TicketLaws DB}.
Implicit Types (db : DB) (sent : list mail) (cfg : Config).

(** *** What accepting a ticket does *)

Lemma createDatabase_rows now name db db1 st id :
  name ≠ "" → createDatabase now name db = (db1, st, id) →
  table_rows db1 = table_rows db ∧ rw_rows (Row:=Ticket) db1 = rw_rows db ∧
  (id = 0 ∨ ∃ d, d ∈ rw_rows db1 ∧ ld_Id d = id ∧ ld_Name d = name).
Proof.
  intros Hname. unfold createDatabase, LaserDatabase_Store, store_row.
  assert (∀ db0, GetIdByName name db0 = 0 ∨
    ∃ d, d ∈ rw_rows db0 ∧ ld_Id d = GetIdByName name db0 ∧ ld_Name d = name) as Hfind.
  { intros db0. destruct (decide (GetIdByName name db0 = 0)) as [|Hid]; [by left|right].
    pose proof (rw_FindOne_ok (LaserDatabase_where name) db0) as Hok. destruct (Hok Hid) as [Hin Hm].
    exists (rw_FindOne (LaserDatabase_where name) db0). split; [done|]. split; [done|].
    by apply database_matches in Hm. }
  destruct (Status_Ok _); cbn [negb].
  - destruct (rw_Create _ db) as [db2 [err|]] eqn:E; cbn [last_statement]; intros [= <- _ <-]; [by split|].
    apply database_Create_frame in E as [Ht Hk]. by split.
  - intros [= <- _ <-]. by split.
Qed.

(** The row that accepting a ticket creates. *)
Definition accepted_table (now databaseId expiration partitionNum configId : Z) (param : TicketProcessParams) : Table :=
  mkTable 0 (tpp_TableName param) (Some TableEnabled) (Some 0) partitionNum (Some expiration) "" (tpp_DcId param)
    Dc_zero (tpp_DcId param) Dc_zero databaseId configId LaserDatabase_zero TableConfig_zero (Some 0) [] [] now.

Lemma createTable_rows now databaseId param db db1 st :
  createTable now databaseId param db = Ret (db1, st) → Status_Code st = OK →
  ∃ expiration partitionNum configId id,
    tpp_DataExpirationTime param = Some expiration ∧ tpp_PartitionNum param = Some partitionNum ∧
    tpp_TableConfigId param = Some configId ∧
    table_rows db1 =
      table_rows db ++ [with_table_id id (accepted_table now databaseId expiration partitionNum configId param)] ∧
    rw_rows (Row:=LaserDatabase) db1 = rw_rows db ∧ rw_rows (Row:=Ticket) db1 = rw_rows db.
Proof.
  unfold createTable. destruct (tpp_DataExpirationTime param) as [e|]; [|done].
  destruct (tpp_PartitionNum param) as [n|]; [|done]. destruct (tpp_TableConfigId param) as [c|]; [|done].
  cbn [go_deref mbind go_bind]. unfold mret, go_ret, Table_Store.
  destruct (Status_Ok _) eqn:Hcheck; cbn [negb].
  2: { intros [= <- <-] Hst. unfold Status_Ok in Hcheck. apply Z.eqb_neq in Hcheck. done. }
  destruct (rw_Create _ db) as [db2 [err|]] eqn:Ec; cbn [row_step]; [by intros [= <- <-]|].
  destruct (as_Append _ _ _ db2) as [db3 [err|]] eqn:Ea; [by intros [= <- <-]|]. intros [= <- <-] _.
  apply append_nothing in Ea as ->. apply table_Create_ok in Ec as ([id Ht] & Hd & Hk).
  by exists e, n, c, id.
Qed.

(** An update that tells nobody: the row changes or, after an error, nothing does. *)
Lemma Ticket_Update_rows cfg now p status db sent r :
  tkp_Status p = Some status → status ≠ WaitForProcess →
  Ticket_Update cfg now p db sent = r →
  ∃ db' st, r = Ret (db', sent, st) ∧ (db' = db ∨ rw_UpdateColumns (tkp_Id p) (initTicket now p) db = (db', None)).
Proof.
  intros Hs Hne <-. unfold Ticket_Update, tell_waiting. rewrite Hs. cbn [go_deref mbind go_bind].
  rewrite (proj2 (Z.eqb_neq _ _) Hne). destruct (negb _); [by eauto|].
  destruct (rw_UpdateColumns _ _ db) as [db1 [err|]] eqn:E; eauto.
Qed.

(** *** What deciding on a ticket does *)

Lemma go_deref_nil {A} (x : option A) : x = None → go_deref x = Panic NilPointerDereference.
Proof. by intros ->. Qed.

(** A rejection, by whether the ticket has a status and its template can be read. *)
Lemma reject_spec cfg now param db sent :
  let ticket := GetSpecTicket (tpp_DatabaseName param) (tpp_TableName param) db in
  let template := template_ParseFiles (current_dir +:+ "/" +:+ EmailTemplateToCreator) in
  (tk_Status ticket = None ∨ template = None → reject cfg now param db sent = Panic NilPointerDereference) ∧
  (is_Some (tk_Status ticket) → is_Some template →
   ∃ db' m, reject cfg now param db sent = Ret (db', sent ++ [m]) ∧
     mail_to m = (λ user, user +:+ EmailTail) <$> initMailTo (initParamTicket ticket) [] ∧
     (db' = db ∨ rw_UpdateColumns (tk_Id ticket) (initTicket now (with_Status WaitForUpdate (initParamTicket ticket))) db
                   = (db', None))).
Proof.
  intros ticket template. unfold reject, TicketModel_SendMail. fold ticket.
  cbn [tmi_CurrentStatus Z.eqb ProcessSucceed TicketReject orb Pos.eqb tkp_Status initParamTicket].
  change (template_ParseFiles _) with template. split.
  - intros [Hs|Ht]; destruct template as [t|]; cbn [go_deref mbind go_bind mret go_ret]; try done.
    by rewrite (go_deref_nil _ Hs).
  - intros [s Hs] [t Ht]. rewrite Ht, Hs. cbn [go_deref mbind go_bind mret go_ret].
    edestruct (Ticket_Update_rows cfg now (with_Status WaitForUpdate (initParamTicket ticket)) WaitForUpdate db)
      as (db' & st & Hr & Hupd); [done..|]. rewrite Hr. cbn [mbind go_bind mret go_ret].
    eexists _, _. split; [done|]. by split.
Qed.

(** C34: what [Process] does with a decision, by the name its request gives as the
    handler.  The name is a field of the request's body that is compared with no session:
    whoever writes an administrator's name there decides.  Under any other name nothing
    is changed, no mail is sent and the answer is [TicketCanotHandle].  Under an
    administrator's: a request without a decision panics.  A rejection panics where the
    ticket has no status, as where no ticket is found, or where the mail's template
    cannot be read; otherwise it answers OK, sends one mail, to the people of the
    ticket, touches no database and no table, and leaves the tickets as they were or, for
    the ticket's own row alone, waiting for an update.  An acceptance that returns is
    answered OK whatever its own status was. *)
Theorem Process_decides cfg now param db sent :
  let ticket := GetSpecTicket (tpp_DatabaseName param) (tpp_TableName param) db in
  let template := template_ParseFiles (current_dir +:+ "/" +:+ EmailTemplateToCreator) in
  let result := Process cfg now param db sent in
  (tpp_Handler param ∉ cf_adminUsers cfg → result = Ret (db, sent, StatusError TicketCanotHandle)) ∧
  (tpp_Handler param ∈ cf_adminUsers cfg →
   (tpp_TicketAcceptStatus param = None → result = Panic NilPointerDereference) ∧
   (tpp_TicketAcceptStatus param = Some 0 →
    (tk_Status ticket = None ∨ template = None → result = Panic NilPointerDereference) ∧
    (is_Some (tk_Status ticket) → is_Some template →
     ∃ db' m, result = Ret (db', sent ++ [m], StatusOk) ∧
       mail_to m = (λ user, user +:+ EmailTail) <$> initMailTo (initParamTicket ticket) [] ∧
       table_rows db' = table_rows db ∧ rw_rows (Row:=LaserDatabase) db' = rw_rows db ∧
       (rw_rows (Row:=Ticket) db' = rw_rows db ∨ (tk_Id ticket ≠ 0 →
        rw_rows db' = (λ r, if decide (tk_Id r = tk_Id ticket)
                            then row_overwrite (initTicket now (with_Status WaitForUpdate (initParamTicket ticket))) r
                            else r) <$> rw_rows db)))) ∧
   (∀ a db' sent' st, tpp_TicketAcceptStatus param = Some a → a ≠ 0 →
    accept cfg now param db sent = Ret (db', sent', st) → result = Ret (db', sent', StatusOk))).
Proof.
  intros ticket template result. unfold result, Process. split; intros Hh; [by rewrite decide_False|].
  rewrite decide_True by done. destruct (reject_spec cfg now param db sent) as [Hpanic Hret].
  split; [by intros ->|]. split; [intros ->; cbn [go_deref mbind go_bind Z.eqb]; split|].
  - intros H. by rewrite (Hpanic H).
  - intros Hs Ht. destruct (Hret Hs Ht) as (db' & m & -> & Hm & Hupd). exists db', m. split; [done|]. split; [done|].
    destruct Hupd as [->|Hupd]; [by split_and!; [..|left]|].
    pose proof (ticket_Update_frame _ _ _ _ Hupd) as [Htb Hd]. split_and!; [done..|]. right. intros Hne.
    by rewrite (rw_UpdateColumns_ok _ _ _ _ Hupd Hne).
  - intros a db' sent' st -> Ha Hacc. cbn [go_deref mbind go_bind].
    rewrite (proj2 (Z.eqb_neq a 0) Ha), Hacc. done.
Qed.

(** C28: Accepting a ticket, where its answer is OK, adds one table with what the
    administrator asked for, in a database with the ticket's name (or with no
    database where the lookup failed), sends one mail, to the people of the ticket,
    and leaves the ticket either as it was or, for its own row alone, processed. *)
Theorem accept_creates cfg now param db sent db' sent' st :
  tpp_DatabaseName param ≠ "" →
  accept cfg now param db sent = Ret (db', sent', st) → Status_Code st = OK →
  let ticket := GetSpecTicket (tpp_DatabaseName param) (tpp_TableName param)
    (createDatabase now (tpp_DatabaseName param) db).1.1 in
  (∃ id databaseId e n c, tpp_DataExpirationTime param = Some e ∧ tpp_PartitionNum param = Some n ∧
     tpp_TableConfigId param = Some c ∧
     table_rows db' = table_rows db ++ [with_table_id id (accepted_table now databaseId e n c param)] ∧
     (databaseId = 0 ∨ ∃ d, d ∈ rw_rows db' ∧ ld_Id d = databaseId ∧ ld_Name d = tpp_DatabaseName param)) ∧
  (∃ m, sent' = sent ++ [m] ∧
     mail_to m = (λ user, user +:+ EmailTail) <$> initMailTo (initParamTicket ticket) []) ∧
  (rw_rows (Row:=Ticket) db' = rw_rows db ∨ (tk_Id ticket ≠ 0 →
   rw_rows db' = (λ r, if decide (tk_Id r = tk_Id ticket)
                       then row_overwrite (initTicket now (with_Status ProcessSucceed
                              (with_PartitionNum (tpp_PartitionNum param) (initParamTicket ticket)))) r
                       else r) <$> rw_rows db)).
Proof.
  intros Hname Hrun Hst ticket. revert Hrun. unfold accept.
  destruct (tpp_DataExpirationTime param) as [e0|] eqn:Ee; [|done].
  destruct (tpp_PartitionNum param) as [n0|] eqn:En; [|done]. cbn [go_deref mbind go_bind].
  destruct (createDatabase now (tpp_DatabaseName param) db) as [[db1 st1] databaseId] eqn:Ed.
  apply createDatabase_rows in Ed as (Ht1 & Hk1 & Hid); [|done]. cbn [fst] in ticket. fold ticket.
  destruct (Z.eqb_spec (Status_Code st1) OK) as [Hst1|Hst1]; cbn [negb].
  2: { destruct (TicketModel_SendMail _ _ _); [|done..]. cbn [mbind go_bind]. unfold mret, go_ret. intros. congruence. }
  destruct (createTable now databaseId param db1) as [[db2 st2]| |] eqn:Et; [|done..]. cbn [mbind go_bind].
  destruct (Z.eqb_spec (Status_Code st2) OK) as [Hst2|Hst2]; cbn [negb].
  2: { destruct (TicketModel_SendMail _ _ _); [|done..]. cbn [mbind go_bind]. unfold mret, go_ret. intros. congruence. }
  destruct (createTable_rows _ _ _ _ _ _ Et Hst2) as (e & n & c & id & He & Hn & Hc & Ht2 & Hd2 & Hk2).
  destruct (tkp_Status (with_PartitionNum _ _)); [|done]. cbn [go_deref mbind go_bind].
  set (upd := with_Status ProcessSucceed (with_PartitionNum (Some n0) (initParamTicket ticket))).
  destruct (Ticket_Update_rows cfg now upd ProcessSucceed db2 sent _ eq_refl ltac:(done) eq_refl)
    as (db3 & st3 & -> & Hupd). cbn [mbind go_bind].
  unfold TicketModel_SendMail. cbn [tmi_CurrentStatus Z.eqb ProcessSucceed orb Pos.eqb].
  destruct (template_ParseFiles _) as [t|]; cbn [go_deref mbind go_bind]; [|done]. unfold mret, go_ret.
  intros [= <- <- <-]. rewrite En in Hn. injection Hn as <-. rewrite Ee in He. injection He as <-.
  assert (table_rows db3 = table_rows db2 ∧ rw_rows (Row:=LaserDatabase) db3 = rw_rows db2) as [Ht3 Hd3].
  { destruct Hupd as [->|Hupd]; [done|]. by apply ticket_Update_frame in Hupd. }
  split; [|split].
  - exists id, databaseId, e0, n0, c. do 3 (split; [done|]). rewrite Ht3, Ht2, Ht1. split; [done|].
    by rewrite Hd3, Hd2.
  - eexists. split; [done|]. done.
  - destruct Hupd as [->|Hupd]; [left; by rewrite Hk2, Hk1|right]. intros Hne.
    rewrite (rw_UpdateColumns_ok _ _ _ _ Hupd Hne), Hk2, Hk1. done.
Qed.
End Properties.

(** ** Witnesses: three tables in memory *)

Record ticket_db := mkTicketDb {
  td_databases : list LaserDatabase; td_tickets : list Ticket; td_tables : list Table
}.

Definition Ticket_zero : Ticket := Ticket_where "" "".

Definition td_database_rows : RowStore ticket_db LaserDatabase :=
  part_rows td_databases (λ l db, mkTicketDb l (td_tickets db) (td_tables db)) (mem_rows LaserDatabase_zero).
Definition td_ticket_rows : RowStore ticket_db Ticket :=
  part_rows td_tickets (λ l db, mkTicketDb (td_databases db) l (td_tables db)) (mem_rows Ticket_zero).
Definition td_table_rows : RowStore ticket_db Table :=
  {| rw_Count c db := inl (Z.of_nat (length (filter (λ t, t_Name t = t_Name c ∧ t_DatabaseId t = t_DatabaseId c) (td_tables db))));
     rw_First c db := inl (head (filter (λ t, t_Name t = t_Name c ∧ t_DatabaseId t = t_DatabaseId c) (td_tables db)));
     rw_FindOne c db :=
       default (Table_named 0 "") (head (filter (λ t, t_Name t = t_Name c ∧ t_DatabaseId t = t_DatabaseId c) (td_tables db)));
     rw_Create t db :=
       (mkTicketDb (td_databases db) (td_tickets db)
          (td_tables db ++ [with_table_id (fresh_Z (t_Id <$> td_tables db)) t]), None);
     rw_LastId db := fresh_Z (t_Id <$> td_tables db) - 1;
     rw_UpdateColumns id v db := (db, Some (mkError "read only" false));
     rw_Updates id v db := (db, Some (mkError "read only" false));
     rw_Delete id db := (db, Some (mkError "read only" false)) |}.
Definition td_items {Item} : AssocStore ticket_db Item :=
  {| as_Clear _ _ db := (db, None); as_Replace _ _ _ db := (db, None); as_Append _ _ _ db := (db, None);
     as_DeleteOrphans _ db := (db, None) |}.

Definition td_database_laws : RowLaws ticket_db LaserDatabase (H:=td_database_rows) :=
  part_laws td_databases (λ l db, mkTicketDb l (td_tickets db) (td_tables db)) (λ _ _, eq_refl)
    (mem_rows_laws LaserDatabase_zero eq_refl).
Definition td_ticket_laws : RowLaws ticket_db Ticket (H:=td_ticket_rows) :=
  part_laws td_tickets (λ l db, mkTicketDb (td_databases db) l (td_tables db)) (λ _ _, eq_refl)
    (mem_rows_laws Ticket_zero eq_refl).

#[local] Existing Instances td_database_rows td_ticket_rows td_table_rows td_items td_database_laws td_ticket_laws.
#[local] Existing Instance main_go.

Definition td_laws : TicketLaws ticket_db.
Proof.
  refine {| table_rows := td_tables |}.
  - intros t db db' [= <-]. by split; [eexists|].
  - by intros name id db db' [= <-].
  - by intros d db db' [= <-].
  - by intros id t db db' [= <-].
Defined.

#[local] Existing Instance td_laws.

Definition one_template : Templates :=
  {| current_dir := "/opt/laser"; template_ParseFiles _ := Some "template"; template_Execute t _ := t |}.
#[local] Existing Instance one_template.

Definition asked : TicketParams :=
  mkTicketParams 1 "ann" ["go"; "cpp"] "ads" "profiles" "" "rita" "will" "will" "user" "profile" 10 10 5 3600 1 1 ""
    ["get"] 100 "bob,ann" None (Some WaitForProcess).

Definition decided : TicketProcessParams :=
  mkTicketProcessParams "root" (Some 1) "user" "profile" 1 (Some 3600) (Some 2) "default" (Some 4) "".

Definition waiting_db : ticket_db := mkTicketDb [] [initTicket 5 asked] [].

Lemma accept_creates_witness :
  ∃ db' sent' st m, accept root_config 7 decided waiting_db [] = Ret (db', sent', st) ∧
    t_Name <$> td_tables db' = ["profile"] ∧ sent' = [m] ∧
    mail_to m = ["bob@gmail.com"; "ann@gmail.com"; "rita@gmail.com"; "will@gmail.com"].
Proof.
  destruct (returns_Ret (accept root_config 7 decided waiting_db [])) as [[[db' sent'] st] E];
    [vm_compute; reflexivity|].
  assert (Status_Code st = OK) as Hst by (clear -E; vm_compute in E; by injection E as _ _ <-).
  destruct (accept_creates root_config 7 decided waiting_db [] db' sent' st ltac:(done) E Hst)
    as [(id & databaseId & e & n & c & He & Hn & Hc & Ht & _) [(m & Hm & Hto) _]].
  exists db', sent', st, m. split; [exact E|]. split; [|split; [exact Hm|]].
  - change (t_Name <$> table_rows db' = ["profile"]). rewrite Ht. reflexivity.
  - rewrite Hto. vm_compute. reflexivity.
Defined.

Lemma ticket_roundtrip_witness : initParamTicket (initTicket 5 asked) = asked.
Proof.
  destruct (ticket_roundtrip 5 asked) as [-> H]. apply H; [repeat constructor; done..|done].
Defined.

(** Where the table exists already, accepting fails; the administrator is answered
    OK all the same, and the ticket waits on. *)
Lemma Process_hides_failure :
  ∃ db' sent', Process root_config 7 decided
      (mkTicketDb [mkLaserDatabase 3 "user" "" 1] [initTicket 5 asked]
         [with_table_id 1 (accepted_table 1 3 3600 4 2 decided)]) [] = Ret (db', sent', StatusOk) ∧
    tk_Status <$> td_tickets db' = [Some WaitForProcess].
Proof. eexists _, _. split; vm_compute; reflexivity. Qed.

(** Under another name the ticket waits on; rejected, it waits for an update; and a
    rejection of a ticket that is not there panics. *)
Definition decision (handler : string) (acceptStatus : Z) (tableName : string) : TicketProcessParams :=
  mkTicketProcessParams handler (Some acceptStatus) "user" tableName 1 (Some 3600) (Some 2) "default" (Some 4) "".

Lemma Process_decides_witness :
  Process root_config 7 (decision "mallory" 1 "profile") waiting_db [] = Ret (waiting_db, [], StatusError TicketCanotHandle) ∧
  (∃ db' m, Process root_config 7 (decision "root" 0 "profile") waiting_db [] = Ret (db', [m], StatusOk) ∧
     mail_to m = ["bob@gmail.com"; "ann@gmail.com"; "rita@gmail.com"; "will@gmail.com"] ∧ td_tables db' = []) ∧
  Process root_config 7 (decision "root" 0 "missing") waiting_db [] = Panic NilPointerDereference.
Proof.
  assert ("root" ∈ cf_adminUsers root_config) as Hroot by left. split; [|split].
  - apply (proj1 (Process_decides root_config 7 (decision "mallory" 1 "profile") waiting_db [])).
    cbn. intros [=]%list_elem_of_singleton.
  - destruct (proj2 (Process_decides root_config 7 (decision "root" 0 "profile") waiting_db []) Hroot) as (_ & Hr & _).
    destruct (proj2 (Hr eq_refl) ltac:(by eexists) ltac:(by eexists)) as (db' & m & HP & Hm & Ht & _).
    exists db', m. split; [exact HP|]. split; [rewrite Hm; vm_compute; reflexivity|exact Ht].
  - destruct (proj2 (Process_decides root_config 7 (decision "root" 0 "missing") waiting_db []) Hroot) as (_ & Hr & _).
    apply (proj1 (Hr eq_refl)). left. vm_compute. reflexivity.
Defined.
