(* ===== verification/Ansible.v ===== *)
(** * Operations on nodes with ansible ([control/service/ansible_operation_manager.go])

    An operation is a goroutine: it registers a cache for its group, writes the
    inventory and the playbook to two files, runs ansible and marks the cache done.
    Requests and goroutines interleave between the locks; the caches are shared by
    the map and the goroutines, so they live in a heap and a pointer is an index.
    The ini, yaml and ansible libraries and the file system are [AnsibleWorld]. *)

From S2P Require Import Prelude RouterTypes ControlStatus ConsulModel Context.

(** ** Data *)

Definition DefaultInventorySectionName : string := "hosts".
Definition AnsiblePlaybookTagsStart : string := "start".
Definition AnsiblePlaybookTagsStop : string := "stop".
Definition AnsiblePlaybookTagsRestart : string := "restart".
Definition AnsiblePlaybookTagsUpgrade : string := "upgrade".
Definition AnsiblePlaybookTagsEnable : string := "enable".
Definition AnsiblePlaybookTagsDisable : string := "disable".

Definition SupportedTags : list string :=
  [AnsiblePlaybookTagsStart; AnsiblePlaybookTagsStop; AnsiblePlaybookTagsRestart; AnsiblePlaybookTagsUpgrade;
   AnsiblePlaybookTagsEnable; AnsiblePlaybookTagsDisable].

Record AnsiblePlaybookEntity := mkAnsiblePlaybookEntity {
  ape_Hosts : string; ape_Variables : gmap string string; ape_Roles : list string
}.

Record NodeOperationParams := mkNodeOperationParams {
  noi_Host : string; noi_Port : Z; noi_GroupName : string; noi_Dc : string; noi_NodeId : Z
}.

(** The variables are passed on to ansible as they came, in JSON. *)
Record NodeBatchOperationParams := mkNodeBatchOperationParams {
  nbo_Nodes : list NodeOperationParams;
  nbo_AnsibleVars : gmap string string;
  nbo_Tags : string;
  nbo_Roles : list string;
  nbo_OperationName : string
}.

Record NodeBatchOperationResult := mkNodeBatchOperationResult { nbr_TaskId : string }.

Record NodeBatchOperationInfo := mkNodeBatchOperationInfo {
  nbi_HasTask : bool; nbi_OperationName : string; nbi_Log : string; nbi_Done : bool
}.

Record OperationCache := mkOperationCache { oc_operationName : string; oc_log : string; oc_done : bool }.

(** [AnsiblePlaybookCmd] as it is run. *)
Record playbook_cmd := mkPlaybookCmd {
  pbc_Playbook : string;
  pbc_Connection : string;
  pbc_ExtraVars : gmap string string;
  pbc_Inventory : string;
  pbc_Tags : string;
  pbc_ExecPrefix : string
}.

Class AnsibleWorld (W F : Type) := {
  path_Join : string → string → string;
  ini_LoadSources : string → W → F + error;
  ini_Sections : F → list string;
  ini_DeleteSection : string → F → F;
  ini_NewSection : string → F → F + error;
  ini_NewKey : string → string → string → F → F;
  ini_SaveTo : F → string → W → W * option error;
  yaml_Marshal : list AnsiblePlaybookEntity → string + error;
  ioutil_WriteFile : string → string → W → W * option error;
  playbook_Run : playbook_cmd → W → W * string * option error
}.

(** ** The files *)

Section Files.
Context {W F : Type} {aw : AnsibleWorld W F} {rt : Runtime}.
Implicit Types (cfg : Config) (w : W).

Definition inventory_path cfg : string := path_Join (cf_ansiblePlaybookDir cfg) (cf_ansibleTmpHostFile cfg).
Definition playbook_path cfg : string := path_Join (cf_ansiblePlaybookDir cfg) (cf_ansibleTmpPlaybookFile cfg).

Definition inventory_value cfg (node : NodeOperationParams) : string :=
  "group_name=" +:+ noi_GroupName node +:+ " node_id=" +:+ Itoa (noi_NodeId node) +:+ " dc=" +:+ noi_Dc node
    +:+ " ansible_ssh_port=" +:+ Itoa (cf_ansibleSshPort cfg).

Definition generateAnsibleInventory cfg (param : NodeBatchOperationParams) w : W * Status :=
  match ini_LoadSources (inventory_path cfg) w with
  | inr err => (w, StatusWithError (Some err))
  | inl file =>
      let file := foldl (λ file name, ini_DeleteSection name file) file (ini_Sections file) in
      match ini_NewSection DefaultInventorySectionName file with
      | inr err => (w, StatusWithError (Some err))
      | inl file =>
          let file := foldl (λ file node, ini_NewKey DefaultInventorySectionName (noi_Host node)
                                            (inventory_value cfg node) file) file (nbo_Nodes param) in
          match ini_SaveTo file (inventory_path cfg) w with
          | (w, Some err) => (w, StatusWithError (Some err))
          | (w, None) => (w, StatusOk)
          end
      end
  end.

Definition generateAnsiblePlaybook cfg (param : NodeBatchOperationParams) w : W * Status :=
  match yaml_Marshal [mkAnsiblePlaybookEntity "all" ∅ (nbo_Roles param)] with
  | inr err => (w, StatusWithError (Some err))
  | inl data =>
      match ioutil_WriteFile (playbook_path cfg) data w with
      | (w, Some err) => (w, StatusWithError (Some err))
      | (w, None) => (w, StatusOk)
      end
  end.

Definition ansible_cmd cfg (param : NodeBatchOperationParams) : playbook_cmd :=
  mkPlaybookCmd (playbook_path cfg) "smart" (nbo_AnsibleVars param) (inventory_path cfg) (nbo_Tags param)
    (nbo_OperationName param).
End Files.

(** ** The manager and its goroutines *)

(** Where a goroutine is; a cache is named by its place in the heap. *)
Inductive position :=
  | Spawned
  | Registered (cache : nat)
  | InventoryWritten (cache : nat)
  | PlaybookWritten (cache : nat)
  | Finished (cache : nat).

Record task := mkTask { tsk_param : NodeBatchOperationParams; tsk_id : string; tsk_at : position }.

Record AnsibleOperationManager (W : Type) := mkAnsibleManager {
  am_heap : list OperationCache;
  am_operationCaches : gmap string nat;
  am_tasks : list task;
  am_world : W
}.
Arguments mkAnsibleManager {W}. Arguments am_heap {W}. Arguments am_operationCaches {W}.
Arguments am_tasks {W}. Arguments am_world {W}.

Definition GetNodeOperatorManager {W} (w : W) : AnsibleOperationManager W := mkAnsibleManager [] ∅ [] w.

Definition set_task {W} (i : nat) (t : task) (m : AnsibleOperationManager W) : AnsibleOperationManager W :=
  mkAnsibleManager (am_heap m) (am_operationCaches m) (<[i := t]> (am_tasks m)) (am_world m).

Definition set_world {W} (w : W) (m : AnsibleOperationManager W) : AnsibleOperationManager W :=
  mkAnsibleManager (am_heap m) (am_operationCaches m) (am_tasks m) w.

Definition on_cache {W} (c : nat) (f : OperationCache → OperationCache) (m : AnsibleOperationManager W)
  : AnsibleOperationManager W :=
  mkAnsibleManager (alter f c (am_heap m)) (am_operationCaches m) (am_tasks m) (am_world m).

(** The last words of an operation. *)
Definition finish_cache (text : string) (c : OperationCache) : OperationCache :=
  mkOperationCache (oc_operationName c) (oc_log c +:+ text) true.

Definition getOperationKey (param : NodeBatchOperationParams) : string :=
  match nbo_Nodes param with
  | node :: _ => noi_GroupName node
  | [] => ""
  end.

Section Manager.
Context {W F : Type} {aw : AnsibleWorld W F} {rt : Runtime}.
Implicit Types (cfg : Config) (m : AnsibleOperationManager W) (i : nat).

Definition AnsibleOperation (param : NodeBatchOperationParams) m
  : AnsibleOperationManager W * Status * NodeBatchOperationResult :=
  if decide (nbo_Tags param ∈ SupportedTags) then
    let taskId := getOperationKey param in
    if String.eqb taskId "" then (m, StatusError AnsibleParamsError, mkNodeBatchOperationResult "")
    else
      let busy := match am_operationCaches m !! taskId ≫= (λ c, am_heap m !! c) with
                  | Some cache => negb (oc_done cache)
                  | None => false
                  end in
      if (busy : bool) then (m, StatusError AnsibleGroupHasTaskInProgress, mkNodeBatchOperationResult "")
      else (mkAnsibleManager (am_heap m) (am_operationCaches m) (am_tasks m ++ [mkTask param taskId Spawned])
              (am_world m),
            StatusOk, mkNodeBatchOperationResult taskId)
  else (m, StatusError AnsibleUnknownTags, mkNodeBatchOperationResult "").

Definition GetOperationInfo (groupName : string) m : Status * NodeBatchOperationInfo :=
  match am_operationCaches m !! groupName ≫= (λ c, am_heap m !! c) with
  | None => (StatusOk, mkNodeBatchOperationInfo false "" "" false)
  | Some cache => (StatusOk, mkNodeBatchOperationInfo true (oc_operationName cache) (oc_log cache) (oc_done cache))
  end.

(** A goroutine from one lock to the next.  A step that fails writes its error to the
    log and ends the goroutine; what ansible writes goes to the log as well. *)
Definition ansibleOperation cfg i m : option (AnsibleOperationManager W) :=
  t ← am_tasks m !! i;
  let at_ p := mkTask (tsk_param t) (tsk_id t) p in
  match tsk_at t with
  | Spawned =>
      let c := length (am_heap m) in
      Some (set_task i (at_ (Registered c))
              (mkAnsibleManager (am_heap m ++ [mkOperationCache (nbo_OperationName (tsk_param t)) "" false])
                 (<[tsk_id t := c]> (am_operationCaches m)) (am_tasks m) (am_world m)))
  | Registered c =>
      let '(w, status) := generateAnsibleInventory cfg (tsk_param t) (am_world m) in
      if negb (Status_Ok status)
      then Some (set_task i (at_ (Finished c)) (on_cache c (finish_cache (Status_Error status)) (set_world w m)))
      else Some (set_task i (at_ (InventoryWritten c)) (set_world w m))
  | InventoryWritten c =>
      let '(w, status) := generateAnsiblePlaybook cfg (tsk_param t) (am_world m) in
      if negb (Status_Ok status)
      then Some (set_task i (at_ (Finished c)) (on_cache c (finish_cache (Status_Error status)) (set_world w m)))
      else Some (set_task i (at_ (PlaybookWritten c)) (set_world w m))
  | PlaybookWritten c =>
      let '(w, output, err) := playbook_Run (ansible_cmd cfg (tsk_param t)) (am_world m) in
      let text := match err with
                  | Some e => err_msg e +:+ String "010" (String "010" "") +:+ " Failed!"
                  | None => String "010" (String "010" "") +:+ " Done."
                  end in
      Some (set_task i (at_ (Finished c)) (on_cache c (finish_cache (output +:+ text)) (set_world w m)))
  | Finished _ => None
  end.

(** Requests and goroutines, in any order. *)
Inductive ansible_step cfg m : AnsibleOperationManager W → Prop :=
  | ansible_request param : ansible_step cfg m (AnsibleOperation param m).1.1
  | ansible_goroutine i m' : ansibleOperation cfg i m = Some m' → ansible_step cfg m m'.

(** Requests one after the other, each of whose goroutines registers at once. *)
Inductive serial_step cfg m : AnsibleOperationManager W → Prop :=
  | serial_refused param : (AnsibleOperation param m).1.1 = m → serial_step cfg m m
  | serial_request param m1 m2 :
      m1 = (AnsibleOperation param m).1.1 → m1 ≠ m →
      ansibleOperation cfg (length (am_tasks m)) m1 = Some m2 → serial_step cfg m m2
  | serial_goroutine i m' : ansibleOperation cfg i m = Some m' → serial_step cfg m m'.
End Manager.

(** ** Theorems *)

Definition cache_of (p : position) : option nat :=
  match p with
  | Spawned => None
  | Registered c | InventoryWritten c | PlaybookWritten c | Finished c => Some c
  end.

Definition finished (p : position) : bool := match p with Finished _ => true | _ => false end.

Section Exclusion.
Context {W F : Type} {aw : AnsibleWorld W F} {rt : Runtime}.
Implicit Types (cfg : Config) (m : AnsibleOperationManager W) (i j c : nat).

(** An operation of the group that has not ended. *)
Definition running (m : AnsibleOperationManager W) (i : nat) (id : string) : Prop :=
  ∃ t, am_tasks m !! i = Some t ∧ tsk_id t = id ∧ finished (tsk_at t) = false.

(** Every goroutine has a cache of its own that says whether it has ended, the map
    has the cache of a running one, and nothing but caches of goroutines. *)
Record ansible_inv m : Prop := {
  inv_cache i t : am_tasks m !! i = Some t →
    ∃ c oc, cache_of (tsk_at t) = Some c ∧ am_heap m !! c = Some oc ∧ oc_done oc = finished (tsk_at t) ∧
      (finished (tsk_at t) = false → am_operationCaches m !! tsk_id t = Some c);
  inv_own i j t u c : am_tasks m !! i = Some t → am_tasks m !! j = Some u →
    cache_of (tsk_at t) = Some c → cache_of (tsk_at u) = Some c → i = j;
  inv_map id c : am_operationCaches m !! id = Some c →
    ∃ i t, am_tasks m !! i = Some t ∧ tsk_id t = id ∧ cache_of (tsk_at t) = Some c
}.

Definition busy m (id : string) : bool :=
  match am_operationCaches m !! id ≫= (λ c, am_heap m !! c) with
  | Some cache => negb (oc_done cache)
  | None => false
  end.

Lemma busy_running m id : ansible_inv m → busy m id = true ↔ ∃ i, running m i id.
Proof.
  intros [Hc Ho Hm]. unfold busy. split.
  - destruct (am_operationCaches m !! id) as [c|] eqn:E; cbn [mbind option_bind]; [|done].
    destruct (Hm _ _ E) as (i & t & Ht & Hid & Hct). destruct (Hc _ _ Ht) as (c' & oc & Hc' & Hoc & Hd & _).
    assert (c' = c) as -> by congruence. rewrite Hoc, Hd, negb_true_iff. intros Hf. exists i, t. done.
  - intros (i & t & Ht & <- & Hf). destruct (Hc _ _ Ht) as (c & oc & _ & Hoc & Hd & Hmap).
    rewrite Hmap by done. cbn [mbind option_bind]. by rewrite Hoc, Hd, Hf.
Qed.

(** What a request does. *)
Lemma AnsibleOperation_cases param m :
  ((AnsibleOperation param m).1.1 = m ∧ Status_Ok (AnsibleOperation param m).1.2 = false) ∨
  (busy m (getOperationKey param) = false ∧ (AnsibleOperation param m).1.2 = StatusOk ∧
   (AnsibleOperation param m).1.1 =
     mkAnsibleManager (am_heap m) (am_operationCaches m)
       (am_tasks m ++ [mkTask param (getOperationKey param) Spawned]) (am_world m)).
Proof.
  unfold AnsibleOperation. case_decide; [|by left]. destruct (String.eqb _ ""); [by left|].
  fold (busy m (getOperationKey param)). destruct (busy m (getOperationKey param)); [by left|by right].
Qed.

Lemma ansible_inv_init w : ansible_inv (GetNodeOperatorManager w).
Proof. split; cbn; intros *; by rewrite ?lookup_nil, ?lookup_empty. Qed.

(** A goroutine moves on with its cache; where it ends, the cache is done. *)
Definition moved i t p (h : list OperationCache) m w : AnsibleOperationManager W :=
  mkAnsibleManager h (am_operationCaches m) (<[i := mkTask (tsk_param t) (tsk_id t) p]> (am_tasks m)) w.

Lemma moved_inv m i t c p text w :
  ansible_inv m → am_tasks m !! i = Some t → cache_of (tsk_at t) = Some c → finished (tsk_at t) = false →
  cache_of p = Some c →
  ansible_inv (moved i t p (if finished p then alter (finish_cache text) c (am_heap m) else am_heap m) m w).
Proof.
  intros [Hc Ho Hm] Ht Hct Hf Hp.
  assert (∀ j u, <[i := mkTask (tsk_param t) (tsk_id t) p]> (am_tasks m) !! j = Some u →
    (j = i ∧ u = mkTask (tsk_param t) (tsk_id t) p) ∨ (j ≠ i ∧ am_tasks m !! j = Some u)) as Hlook.
  { intros j u [(-> & -> & _)|[? ?]]%list_lookup_insert_Some; [by left|by right]. }
  assert (∀ j u c', am_tasks m !! j = Some u → cache_of (tsk_at u) = Some c' → j ≠ i → c' ≠ c) as Hother.
  { intros j u c' Hu Hcu Hj ->. apply Hj. by eapply Ho. }
  split; cbn [moved am_tasks am_heap am_operationCaches].
  - intros j u [[-> ->]|[Hj Hu]]%Hlook; cbn [tsk_at tsk_id].
    + destruct (Hc _ _ Ht) as (c' & oc & Hc' & Hoc & Hd & Hmap). assert (c' = c) as -> by congruence.
      destruct (finished p) eqn:Hfp; [exists c, (finish_cache text oc)|exists c, oc].
      * rewrite list_lookup_alter_eq, Hoc. done.
      * rewrite Hd, Hf. auto.
    + destruct (Hc _ _ Hu) as (c' & oc & Hc' & Hoc & Hd & Hmap). exists c', oc. split; [done|].
      destruct (finished p); [|done]. rewrite list_lookup_alter_ne by (intros ->; by eapply Hother). done.
  - intros j k u v c' [[-> ->]|[Hj Hu]]%Hlook [[-> ->]|[Hk Hv]]%Hlook; cbn [tsk_at]; intros Hcu Hcv; [done|..].
    + exfalso. eapply (Hother k v c'); [done..|congruence].
    + exfalso. eapply (Hother j u c'); [done..|congruence].
    + by eapply Ho.
  - intros id c' (j & u & Hu & Hid & Hcu)%Hm. destruct (decide (j = i)) as [->|Hj].
    + exists i, (mkTask (tsk_param t) (tsk_id t) p). cbn [tsk_id tsk_at].
      rewrite list_lookup_insert_eq by (by eapply lookup_lt_Some). split; [done|].
      assert (u = t) as -> by congruence. split; [done|congruence].
    + exists j, u. by rewrite list_lookup_insert_ne.
Qed.

(** A request is accepted and its goroutine registers. *)
Definition registered param m : AnsibleOperationManager W :=
  mkAnsibleManager (am_heap m ++ [mkOperationCache (nbo_OperationName param) "" false])
    (<[getOperationKey param := length (am_heap m)]> (am_operationCaches m))
    (am_tasks m ++ [mkTask param (getOperationKey param) (Registered (length (am_heap m)))]) (am_world m).

Lemma registered_inv param m :
  ansible_inv m → busy m (getOperationKey param) = false → ansible_inv (registered param m).
Proof.
  intros Hinv Hbusy. pose proof Hinv as [Hc Ho Hm].
  assert (∀ i t, am_tasks m !! i = Some t → finished (tsk_at t) = false → tsk_id t ≠ getOperationKey param) as Hidle.
  { intros i t Ht Hf Hid. apply not_true_iff_false in Hbusy. apply Hbusy, busy_running; [done|]. by exists i, t. }
  assert (∀ i t c, am_tasks m !! i = Some t → cache_of (tsk_at t) = Some c → c < length (am_heap m))%nat as Hlt.
  { intros i t c Ht Hct. destruct (Hc _ _ Ht) as (c' & oc & Hc' & Hoc & _).
    assert (c' = c) as -> by congruence. by eapply lookup_lt_Some. }
  split; cbn [registered am_tasks am_heap am_operationCaches].
  - intros i t [Ht|[Hi Ht]]%lookup_app_Some.
    + destruct (Hc _ _ Ht) as (c & oc & Hct & Hoc & Hd & Hmap). exists c, oc. split; [done|].
      rewrite lookup_app_l by (by eapply Hlt). split; [done|]. split; [done|]. intros Hf.
      rewrite lookup_insert_ne by (intros E; exact (Hidle i t Ht Hf (eq_sym E))). auto.
    + apply list_lookup_singleton_Some in Ht as [_ <-].
      eexists _, _. cbn [tsk_at cache_of tsk_id]. split; [done|]. rewrite list_lookup_middle by done.
      split; [done|]. split; [done|]. intros _. by rewrite lookup_insert_eq.
  - intros i j t u c [Ht|[Hi Ht]]%lookup_app_Some [Hu|[Hj Hu]]%lookup_app_Some Hct Hcu;
      try apply list_lookup_singleton_Some in Ht as [Hi0 <-]; try apply list_lookup_singleton_Some in Hu as [Hj0 <-].
    + by eapply Ho.
    + cbn in Hcu. injection Hcu as <-. pose proof (Hlt _ _ _ Ht Hct). lia.
    + cbn in Hct. injection Hct as <-. pose proof (Hlt _ _ _ Hu Hcu). lia.
    + lia.
  - intros id c [[<- <-]|[Hne Hl]]%lookup_insert_Some.
    + eexists (length (am_tasks m)), _. by rewrite list_lookup_middle.
    + destruct (Hm _ _ Hl) as (i & t & Ht & Hid & Hct). exists i, t. split; [|done].
      by apply lookup_app_l_Some.
Qed.

Lemma goroutine_inv cfg i m m' :
  ansible_inv m → ansibleOperation cfg i m = Some m' → ansible_inv m'.
Proof.
  intros Hinv. unfold ansibleOperation. destruct (am_tasks m !! i) as [t|] eqn:Ht; [|done].
  cbn [mbind option_bind]. destruct (tsk_at t) as [|c|c|c|c] eqn:Hat.
  - destruct (inv_cache _ Hinv _ _ Ht) as (c & oc & Hc & _). by rewrite Hat in Hc.
  - destruct (generateAnsibleInventory _ _ _) as [w status].
    destruct (negb _); intros [= <-].
    + apply (moved_inv m i t c (Finished c)); rewrite ?Hat; done.
    + apply (moved_inv m i t c (InventoryWritten c) "" w); rewrite ?Hat; done.
  - destruct (generateAnsiblePlaybook _ _ _) as [w status].
    destruct (negb _); intros [= <-].
    + apply (moved_inv m i t c (Finished c)); rewrite ?Hat; done.
    + apply (moved_inv m i t c (PlaybookWritten c) "" w); rewrite ?Hat; done.
  - destruct (playbook_Run _ _) as [[w output] err]. intros [= <-].
    apply (moved_inv m i t c (Finished c)); rewrite ?Hat; done.
  - done.
Qed.

Lemma serial_inv cfg m m' : ansible_inv m → serial_step cfg m m' → ansible_inv m'.
Proof.
  intros Hinv [param|param m1 m2 -> Hne Hstep|i m2 Hstep]; [done| |by eapply goroutine_inv].
  destruct (AnsibleOperation_cases param m) as [[E _]|(Hbusy & _ & E)]; [done|]. rewrite E in Hstep.
  unfold ansibleOperation in Hstep. cbn [am_tasks] in Hstep. rewrite list_lookup_middle in Hstep by done.
  cbn [mbind option_bind tsk_at] in Hstep. injection Hstep as <-.
  pose proof (registered_inv param m Hinv Hbusy) as Hr. unfold registered in Hr. unfold set_task.
  cbn [am_tasks am_heap am_operationCaches am_world tsk_param tsk_id].
  rewrite insert_app_r_alt by lia. by rewrite Nat.sub_diag.
Qed.

(** C29: One operation at a time for a group: where every accepted request's goroutine
    registers before the next request is handled, no two goroutines that run are of
    the same group, and a request is accepted exactly when its tag is known, it names
    a group and no operation of the group is running. *)
Theorem one_operation_per_group cfg w m :
  rtc (serial_step cfg) (GetNodeOperatorManager w) m →
  (∀ i j id, running m i id → running m j id → i = j) ∧
  ∀ param, Status_Ok (AnsibleOperation param m).1.2 = true ↔
    nbo_Tags param ∈ SupportedTags ∧ getOperationKey param ≠ "" ∧ ¬ ∃ i, running m i (getOperationKey param).
Proof.
  intros Hm. assert (ansible_inv m) as Hinv.
  { pose proof (ansible_inv_init w) as Hinit. induction Hm; eauto using serial_inv. }
  split.
  - intros i j id (t & Ht & Hid & Hf) (u & Hu & Hid' & Hf').
    destruct (inv_cache _ Hinv _ _ Ht) as (c & oc & Hc & _ & _ & Hmap).
    destruct (inv_cache _ Hinv _ _ Hu) as (c' & oc' & Hc' & _ & _ & Hmap').
    specialize (Hmap Hf). specialize (Hmap' Hf'). rewrite Hid in Hmap. rewrite Hid' in Hmap'.
    eapply inv_own; [done..|congruence].
  - intros param. rewrite <- busy_running by done. unfold AnsibleOperation.
    case_decide as Htag; [|split; [done|by intros [? _]]].
    destruct (String.eqb_spec (getOperationKey param) ""); [split; [done|by intros (_ & ? & _)]|].
    fold (busy m (getOperationKey param)). destruct (busy m (getOperationKey param)); [|by split].
    split; [done|]. by intros (_ & _ & ?).
Qed.
End Exclusion.

(** ** Runs: files in memory *)

(** The files, and what ansible was run with: the tags and the inventory it read. *)
Record mem_files := mkMemFiles { mf_files : gmap string string; mf_runs : list (string * string) }.

(** An ini file here is its keys with their values. *)
Definition mem_ansible : AnsibleWorld mem_files (list (string * string)) :=
  {| path_Join dir file := dir +:+ "/" +:+ file;
     ini_LoadSources _ _ := inl [];
     ini_Sections _ := [];
     ini_DeleteSection _ f := f;
     ini_NewSection _ f := inl f;
     ini_NewKey _ key value f := f ++ [(key, value)];
     ini_SaveTo f path w :=
       (mkMemFiles (<[path := foldr (λ kv text, kv.1 +:+ " " +:+ kv.2 +:+ ";" +:+ text) "" f]> (mf_files w)) (mf_runs w), None);
     yaml_Marshal _ := inl "playbook";
     ioutil_WriteFile path data w := (mkMemFiles (<[path := data]> (mf_files w)) (mf_runs w), None);
     playbook_Run cmd w :=
       (mkMemFiles (mf_files w) (mf_runs w ++ [(pbc_Tags cmd, default "" (mf_files w !! pbc_Inventory cmd))]), "", None) |}.

#[local] Existing Instances mem_ansible main_go.

Definition operation (tags group host : string) : NodeBatchOperationParams :=
  mkNodeBatchOperationParams [mkNodeOperationParams host 80 group "bj" 1] ∅ tags ["laser"] tags.

(** A schedule: [None] is a request, [Some i] a step of the goroutine [i]. *)
Fixpoint run_schedule (l : list (NodeBatchOperationParams + nat)) (m : AnsibleOperationManager mem_files)
  : AnsibleOperationManager mem_files :=
  match l with
  | [] => m
  | inl param :: l => run_schedule l (AnsibleOperation param m).1.1
  | inr i :: l => run_schedule l (default m (ansibleOperation root_config i m))
  end.

Lemma run_schedule_steps l m : rtc (ansible_step root_config) m (run_schedule l m).
Proof.
  revert m. induction l as [|[param|i] l IH]; intros m; cbn [run_schedule]; [done|..].
  - eapply rtc_l; [apply (ansible_request _ _ param)|apply IH].
  - destruct (ansibleOperation root_config i m) as [m'|] eqn:E; cbn [default]; [|apply IH].
    eapply rtc_l; [by apply (ansible_goroutine _ _ i)|apply IH].
Qed.

Definition no_files : mem_files := mkMemFiles ∅ [].

Definition two_requests : AnsibleOperationManager mem_files :=
  run_schedule [inl (operation "stop" "a" "h1"); inl (operation "restart" "a" "h1"); inr 0%nat; inr 1%nat]
    (GetNodeOperatorManager no_files).

Definition shared_inventory : AnsibleOperationManager mem_files :=
  run_schedule [inl (operation "stop" "a" "h1"); inr 0%nat; inr 0%nat;
                inl (operation "restart" "b" "h2"); inr 1%nat; inr 1%nat; inr 0%nat; inr 0%nat]
    (GetNodeOperatorManager no_files).

(** Without that order the exclusion fails: two requests for one group that arrive
    before a goroutine registers both run.  And groups are not kept apart either:
    their operations share the inventory file, so that the nodes of the second
    request are stopped in place of those of the first. *)
Theorem operations_overlap :
  (rtc (ansible_step root_config) (GetNodeOperatorManager no_files) two_requests ∧
   running two_requests 0 "a" ∧ running two_requests 1 "a") ∧
  (rtc (ansible_step root_config) (GetNodeOperatorManager no_files) shared_inventory ∧
   mf_runs (am_world shared_inventory) =
     [("stop", "h2 " +:+ inventory_value root_config (mkNodeOperationParams "h2" 80 "b" "bj" 1) +:+ ";")]).
Proof.
  split; (split; [apply run_schedule_steps|]).
  - split; eexists; vm_compute; by repeat split.
  - vm_compute. reflexivity.
Qed.

Lemma serial_example :
  rtc (serial_step root_config) (GetNodeOperatorManager no_files)
    (run_schedule [inl (operation "stop" "a" "h1"); inr 0%nat] (GetNodeOperatorManager no_files)).
Proof.
  apply rtc_once. eapply (serial_request _ _ (operation "stop" "a" "h1")); [reflexivity|by vm_compute|reflexivity].
Qed.

Lemma one_operation_per_group_witness :
  Status_Ok (AnsibleOperation (operation "start" "b" "h2")
    (run_schedule [inl (operation "stop" "a" "h1"); inr 0%nat] (GetNodeOperatorManager no_files))).1.2 = true.
Proof.
  apply (proj2 (one_operation_per_group root_config no_files _ serial_example)).
  split; [by apply (list_elem_of_here "start")|]. split; [done|].
  intros (i & t & Ht & Hid & _). destruct i as [|[|i]]; vm_compute in Ht; [|done..].
  injection Ht as <-. done.
Defined.
