(* ===== verification/Users.v ===== *)
(** * Users and their sessions ([control/service/user.go], [control/middlerware])

    A user's token is validated once by the CAS server and then kept in a table of
    sessions, which a ticker cleans.  Times are in nanoseconds. *)

From S2P Require Import Prelude RouterTypes ControlStatus ShardMetrics ConsulModel Context.

(** ** Data *)

Record UserInfoDto := mkUserInfoDto { ui_Uid : string; ui_Name : string; ui_Email : string; ui_IsAdmin : bool }.

Record UserToken := mkUserToken { ut_UserInfo : UserInfoDto; ut_CreateTime : Z }.

Record XmlInfo := mkXmlInfo { xi_UserName : string; xi_Email : string; xi_Uid : string; xi_Name : string }.
Record XmlUser := mkXmlUser { xu_Info : XmlInfo }.
Definition XmlUser_zero : XmlUser := mkXmlUser (mkXmlInfo "" "" "" "").

Definition ErpCasValidUrl : string := "http://your.validate.url/".

(** [xml.Unmarshal] into a new [XmlUser]. *)
Class XmlDecode := { xml_Unmarshal : string → XmlUser * option error }.

Abbreviation Sessions := (gmap string UserToken).

Definition UserInfoDto_zero : UserInfoDto := mkUserInfoDto "" "" "" false.

(** ** Operations *)

Definition isAdminUser (cfg : Config) (emailPrefix : string) : bool := bool_decide (emailPrefix ∈ cf_adminUsers cfg).

Definition isCommonUrl (cfg : Config) (url : string) : bool := bool_decide (url ∈ cf_commonUrls cfg).

Definition validate_url (token service : string) : string :=
  ErpCasValidUrl +:+ "?ticket=" +:+ token +:+ "&codetype=" +:+ "utf8" +:+ "&service=" +:+ service.

Section Users.
Context `{Http} `{XmlDecode} `{Runtime}.
Implicit Types (cfg : Config) (sessions : Sessions).

Definition user_of cfg (x : XmlUser) : UserInfoDto :=
  let info := xu_Info x in
  mkUserInfoDto (xi_UserName info) (xi_Name info) (xi_Email info) (isAdminUser cfg (xi_Email info)).

Definition User_Info cfg (now : Z) (token service : string) sessions : Sessions * (UserInfoDto * Status) :=
  match sessions !! token with
  | Some v => (sessions, (ut_UserInfo v, StatusOk))
  | None =>
      match http_Get (validate_url token service) with
      | inr err => (sessions, (UserInfoDto_zero, StatusWithError (Some err)))
      | inl (inr err) => (sessions, (UserInfoDto_zero, StatusWithError (Some err)))
      | inl (inl body) =>
          match xml_Unmarshal body with
          | (_, Some err) => (sessions, (UserInfoDto_zero, StatusWithError (Some err)))
          | (xmlUser, None) =>
              let userInfo := user_of cfg xmlUser in
              if String.eqb (ui_Name userInfo) "" then (sessions, (userInfo, StatusError ERROR))
              else (<[token := mkUserToken userInfo now]> sessions, (userInfo, StatusOk))
          end
      end
  end.
End Users.

(** [CreateTime.Add(interval * time.Second)]. *)
Definition limitLifeTime (interval : Z) (t : UserToken) : Z := ut_CreateTime t + i64 (interval * 1000000000).

(** The keys to delete are collected first, in the order of the map. *)
Definition CleanTokens `{MapOrder} (interval now : Z) (sessions : Sessions) : Sessions :=
  let deleteKeys := (filter (λ kv, limitLifeTime interval kv.2 < now) (map_range sessions)).*1 in
  foldl (λ m key, delete key m) sessions deleteKeys.

Definition CheckToken (token : string) (sessions : Sessions) : bool :=
  match sessions !! token with Some _ => true | None => false end.

Definition HasAccessToUrl (cfg : Config) (token url : string) (sessions : Sessions) : bool :=
  if isCommonUrl cfg url then true
  else match sessions !! token with
       | None => false
       | Some userToken => ui_IsAdmin (ut_UserInfo userToken)
       end.

(** ** The middleware *)

(** What a handler of the chain does: it answers and ends the chain, or the rest
    runs with the headers set so far. *)
Inductive verdict := Continue (headers : list (string * string)) | Stop (headers : list (string * string)) (code : Z).

(** Every request goes on; the check of the token is commented out. *)
Definition Auth (cfg : Config) (token url : string) (sessions : Sessions) : verdict := Continue [].

Definition cors_headers : list (string * string) :=
  [("Access-Control-Allow-Origin", "*");
   ("Access-Control-Allow-Headers", "Content-Type,AccessToken,X-CSRF-Token, Authorization, Token, X-Token");
   ("Access-Control-Allow-Methods", "POST, GET, OPTIONS, PUT, PATCH, DELETE");
   ("Access-Control-Expose-Headers",
    "Content-Length, Access-Control-Allow-Origin, Access-Control-Allow-Headers, Content-Type");
   ("Access-Control-Allow-Credentials", "true")].

Definition Cors (method : string) : verdict :=
  if String.eqb method "OPTIONS" then Stop cors_headers 204 else Continue cors_headers.

(** ** Theorems *)

Section Properties.
Context `{Http} `{XmlDecode} `{Runtime} {order : MapOrder}.
Implicit Types (cfg : Config) (sessions : Sessions).

(** A request for a user's information, or a tick. *)
Inductive session_step cfg sessions : Sessions → Prop :=
  | session_info now token service : session_step cfg sessions (User_Info cfg now token service sessions).1
  | session_clean interval now : session_step cfg sessions (CleanTokens interval now sessions).

Lemma lookup_CleanTokens interval now sessions token t :
  CleanTokens interval now sessions !! token = Some t ↔
  sessions !! token = Some t ∧ now ≤ limitLifeTime interval t.
Proof.
  unfold CleanTokens. rewrite foldl_delete_lookup. case_decide as Hin.
  - split; [done|]. intros [Ht Hle]. apply list_elem_of_fmap in Hin as ([k v] & -> & Hf).
    apply list_elem_of_filter in Hf as [Hlt Hkv%elem_of_map_range]. cbn in *. assert (v = t) as -> by congruence. lia.
  - split; [|by intros [? _]]. intros Ht. split; [done|]. destruct (decide (now ≤ limitLifeTime interval t)) as [|Hn]; [done|].
    exfalso. apply Hin, list_elem_of_fmap. exists (token, t). split; [done|].
    apply list_elem_of_filter. split; [cbn; lia|]. by apply elem_of_map_range.
Qed.

(** What every session has: a name, and the rights that the configuration gives to
    its mail address. *)
Definition session_ok cfg (t : UserToken) : Prop :=
  ui_Name (ut_UserInfo t) ≠ "" ∧ ui_IsAdmin (ut_UserInfo t) = isAdminUser cfg (ui_Email (ut_UserInfo t)).

Lemma session_step_ok cfg sessions sessions' :
  session_step cfg sessions sessions' →
  map_Forall (λ _, session_ok cfg) sessions → map_Forall (λ _, session_ok cfg) sessions'.
Proof.
  intros [now token service|interval now] Hok.
  - unfold User_Info. destruct (sessions !! token) as [v|]; [done|].
    destruct (http_Get _) as [[body|]|]; [|done..]. destruct (xml_Unmarshal body) as [x [err|]]; [done|].
    destruct (String.eqb_spec (ui_Name (user_of cfg x)) ""); [done|]. cbn [fst].
    by apply map_Forall_insert_2.
  - intros token t [Ht _]%lookup_CleanTokens. by eapply Hok.
Qed.

(** C32: Access follows the configuration: in every table of sessions that logins and
    cleaning lead to, a token has access to an address exactly when the address is
    open to all or the token is of a session whose mail address is an
    administrator's. *)
Theorem access_follows_config cfg sessions token url :
  rtc (session_step cfg) ∅ sessions →
  HasAccessToUrl cfg token url sessions = true ↔
    url ∈ cf_commonUrls cfg ∨
    ∃ t, sessions !! token = Some t ∧ ui_Email (ut_UserInfo t) ∈ cf_adminUsers cfg.
Proof.
  intros Hs. assert (map_Forall (λ _, session_ok cfg) sessions) as Hok.
  { assert (map_Forall (λ _, session_ok cfg) (∅ : Sessions)) as Hinit by apply map_Forall_empty.
    induction Hs; eauto using session_step_ok. }
  unfold HasAccessToUrl, isCommonUrl. case_bool_decide as Hurl; [by split; auto|].
  destruct (sessions !! token) as [t|] eqn:Ht.
  - destruct (Hok _ _ Ht) as [_ ->]. unfold isAdminUser. rewrite bool_decide_eq_true. naive_solver.
  - naive_solver.
Qed.

(** Cleaning removes exactly the sessions older than the interval; what it leaves
    still passes for a known token. *)
Theorem CleanTokens_spec interval now sessions :
  -2 ^ 31 ≤ interval < 2 ^ 31 →
  ∀ token, CheckToken token (CleanTokens interval now sessions) = true ↔
    ∃ t, sessions !! token = Some t ∧ now - ut_CreateTime t ≤ interval * 1000000000.
Proof.
  intros Hint token. unfold CheckToken.
  assert (∀ t, now ≤ limitLifeTime interval t ↔ now - ut_CreateTime t ≤ interval * 1000000000) as Hlimit.
  { intros t. unfold limitLifeTime. rewrite wraps_small by lia. lia. }
  destruct (CleanTokens interval now sessions !! token) as [t|] eqn:E.
  - apply lookup_CleanTokens in E as [Ht Hle%Hlimit]. split; [|done]. by exists t.
  - split; [done|]. intros (t & Ht & Hle%Hlimit). exfalso.
    assert (CleanTokens interval now sessions !! token = Some t) by (by apply lookup_CleanTokens). congruence.
Qed.
End Properties.

(** ** Witnesses *)

Definition cas_answers : Http := {| http_Get _ := inl (inl "<info/>") |}.
Definition root_xml : XmlDecode := {| xml_Unmarshal _ := (mkXmlUser (mkXmlInfo "1" "root" "1" "Root"), None) |}.

Definition root_session : Sessions := {[ "t" := mkUserToken (mkUserInfoDto "1" "Root" "root" true) 5 ]}.

Lemma root_session_reached :
  rtc (session_step (H:=cas_answers) (H0:=root_xml) (H1:=main_go) (order:=stdpp_order) root_config) ∅ root_session.
Proof.
  apply rtc_once. exact (session_info (H:=cas_answers) (H0:=root_xml) (H1:=main_go) (order:=stdpp_order) root_config ∅ 5 "t" "s").
Qed.

Lemma access_follows_config_witness : HasAccessToUrl root_config "t" "/node/store" root_session = true.
Proof.
  apply (access_follows_config (H:=cas_answers) (H0:=root_xml) (H1:=main_go) (order:=stdpp_order) root_config root_session
    "t" "/node/store" root_session_reached).
  right. eexists. split; [vm_compute; reflexivity|]. left.
Defined.

Lemma CleanTokens_spec_witness :
  CheckToken "t" (CleanTokens (H:=stdpp_order) 1 1000000006 root_session) = false.
Proof.
  apply not_true_iff_false. rewrite (CleanTokens_spec (order:=stdpp_order) 1 1000000006 root_session ltac:(lia) "t").
  intros (t & Ht & Hle). vm_compute in Ht. injection Ht as <-. cbn in Hle. lia.
Defined.
