(* ===== verification/Curl.v ===== *)
(** * The HTTP client of the control plane ([control/common/curl])

    A request is built by setters and sent; the answer is read as a whole.  The
    network and the parsing of addresses are the class [HttpClient]. *)

From S2P Require Import Prelude RouterTypes Registry.

(** ** Data *)

(** [http.Request] as it is sent: the query is what the address has and what was
    added to it, encoded. *)
Record http_request := mkHttpRequest {
  hr_method : string;
  hr_url : string;
  hr_headers : gmap string string;
  hr_cookies : list (string * string);
  hr_rawQuery : string;
  hr_body : option string
}.

(** [http.Response]: the body is read to its end or fails. *)
Record http_response := mkHttpResponse {
  rsp_StatusCode : Z;
  rsp_Header : gmap string (list string);
  rsp_Body : string + error
}.

(** [http.NewRequest] refuses a method or an address, the canonical form of a header's
    key, [URL.Query], [Values.Encode] and [Client.Do] with the timeouts in seconds. *)
Class HttpClient := {
  http_CanonicalKey : string → string;
  http_NewRequest : string → string → option error;
  url_Query : string → gmap string (list string);
  url_Encode : gmap string (list string) → string;
  http_Do : Z → Z → http_request → http_response + error
}.

(** The values of the posted data are of any type, [A] here. *)
Record CurlRequest {A : Type} := mkCurlRequest {
  cr_Url : string;
  cr_Method : string;
  cr_dialTimeout : Z;
  cr_responseTimeOut : Z;
  cr_Headers : gmap string string;
  cr_Cookies : gmap string string;
  cr_Queries : gmap string string;
  cr_PostData : option (gmap string A)
}.
Arguments CurlRequest : clear implicits.
Arguments mkCurlRequest {A}.

Record CurlResponse := mkCurlResponse {
  crs_StatusCode : Z; crs_Headers : gmap string string; crs_Body : string
}.

(** ** Requests *)

Section Building.
Context {A : Type}.
Implicit Types (r : CurlRequest A).

Definition NewRequest : CurlRequest A := mkCurlRequest "" "" 10 10 ∅ ∅ ∅ None.

Definition SetMethod (method : string) r : CurlRequest A :=
  mkCurlRequest (cr_Url r) method (cr_dialTimeout r) (cr_responseTimeOut r) (cr_Headers r) (cr_Cookies r)
    (cr_Queries r) (cr_PostData r).
Definition SetUrl (url : string) r : CurlRequest A :=
  mkCurlRequest url (cr_Method r) (cr_dialTimeout r) (cr_responseTimeOut r) (cr_Headers r) (cr_Cookies r)
    (cr_Queries r) (cr_PostData r).
Definition SetHeaders (headers : gmap string string) r : CurlRequest A :=
  mkCurlRequest (cr_Url r) (cr_Method r) (cr_dialTimeout r) (cr_responseTimeOut r) headers (cr_Cookies r)
    (cr_Queries r) (cr_PostData r).
Definition SetCookies (cookies : gmap string string) r : CurlRequest A :=
  mkCurlRequest (cr_Url r) (cr_Method r) (cr_dialTimeout r) (cr_responseTimeOut r) (cr_Headers r) cookies
    (cr_Queries r) (cr_PostData r).
Definition SetQueries (queries : gmap string string) r : CurlRequest A :=
  mkCurlRequest (cr_Url r) (cr_Method r) (cr_dialTimeout r) (cr_responseTimeOut r) (cr_Headers r) (cr_Cookies r)
    queries (cr_PostData r).
Definition SetPostData (postData : option (gmap string A)) r : CurlRequest A :=
  mkCurlRequest (cr_Url r) (cr_Method r) (cr_dialTimeout r) (cr_responseTimeOut r) (cr_Headers r) (cr_Cookies r)
    (cr_Queries r) postData.
Definition SetDialTimeOut (seconds : Z) r : CurlRequest A :=
  mkCurlRequest (cr_Url r) (cr_Method r) seconds (cr_responseTimeOut r) (cr_Headers r) (cr_Cookies r)
    (cr_Queries r) (cr_PostData r).
Definition SetResponseTimeOut (seconds : Z) r : CurlRequest A :=
  mkCurlRequest (cr_Url r) (cr_Method r) (cr_dialTimeout r) seconds (cr_Headers r) (cr_Cookies r)
    (cr_Queries r) (cr_PostData r).

End Building.

Section Sending.
Context `{HttpClient} `{MapOrder} {A : Type} {jsonPost : Json (gmap string A)}.
Implicit Types (r : CurlRequest A).

(** [q.Add] for every query, in the order of the map. *)
Definition curl_setQueries (url : string) r : string :=
  url_Encode (foldl (λ q kv, map_append q kv.1 kv.2) (url_Query url) (map_range (cr_Queries r))).

(** The headers are set one by one and the cookies added, in the order of the map. *)
Definition curl_setHeaders r : gmap string string :=
  foldl (λ h kv, <[http_CanonicalKey kv.1 := kv.2]> h) ∅ (map_range (cr_Headers r)).
Definition curl_setCookies r : list (string * string) := map_range (cr_Cookies r).

(** The first value of every header; a header without one panics. *)
Definition parseHeaders (header : gmap string (list string)) : go (gmap string string) :=
  go_fold (λ headers kv, v ← go_index kv.2 0; mret (<[kv.1 := v]> headers)) (map_range header) ∅.

(** A body that cannot be read panics. *)
Definition parseBody (body : string + error) : go string :=
  match body with
  | inl b => mret b
  | inr err => Panic (ExplicitPanic (err_msg err))
  end.

(** The body of the request: the data of a POST in JSON. *)
Definition curl_payload (method : string) r : option string + error :=
  match (if String.eqb method "POST" then cr_PostData r else None) with
  | Some data => match json_Marshal data with inl j => inl (Some j) | inr err => inr err end
  | None => inl None
  end.

Definition curl_request (url method : string) r (payload : option string) : http_request :=
  mkHttpRequest method url (curl_setHeaders r) (curl_setCookies r) (curl_setQueries url r) payload.

Definition Send (url method : string) r : go (CurlResponse + error) :=
  if String.eqb url "" then mret (inr (mkError "Lack of request url" false))
  else if String.eqb method "" then mret (inr (mkError "Lack of request method" false))
  else
    match curl_payload method r with
    | inr err => mret (inr err)
    | inl payload =>
        match http_NewRequest method url with
        | Some err => mret (inr err)
        | None =>
            match http_Do (cr_dialTimeout r) (cr_responseTimeOut r) (curl_request url method r payload) with
            | inr err => mret (inr err)
            | inl raw =>
                headers ← parseHeaders (rsp_Header raw);
                body ← parseBody (rsp_Body raw);
                mret (inl (mkCurlResponse (rsp_StatusCode raw) headers body))
            end
        end
    end.

Definition Get r : go (CurlResponse + error) := Send (cr_Url r) "GET" r.
Definition Post r : go (CurlResponse + error) := Send (cr_Url r) "POST" r.
Definition Put r : go (CurlResponse + error) := Send (cr_Url r) "PUT" r.
Definition Delete r : go (CurlResponse + error) := Send (cr_Url r) "DELETE" r.
Definition Patch r : go (CurlResponse + error) := Send (cr_Url r) "PATCH" r.
End Sending.

Definition IsOk (r : CurlResponse) : bool := Z.eqb (crs_StatusCode r) 200.

(** ** Theorems *)

Section Properties.
Context `{HttpClient} `{MapOrder} {A : Type} {jsonPost : Json (gmap string A)}.
Implicit Types (r : CurlRequest A).

(** A map has one value for a key, whatever the order. *)
Lemma assoc_values_map_range {V} (m : gmap string V) k :
  assoc_values k (map_range m) = match m !! k with Some v => [v] | None => [] end.
Proof.
  assert (NoDup (filter (λ kv, kv.1 = k) (map_range m))) as Hnd.
  { eapply sublist_NoDup; [|apply sublist_filter]. eapply NoDup_fmap_1, NoDup_fst_map_range. }
  assert (∀ v, v ∈ assoc_values k (map_range m) ↔ m !! k = Some v) as Hin.
  { intros v. by rewrite elem_of_assoc_values, elem_of_map_range. }
  unfold assoc_values in *.
  destruct (filter (λ kv, kv.1 = k) (map_range m)) as [|[k1 v1] [|[k2 v2] l]] eqn:E; cbn [fmap list_fmap snd] in *.
  - destruct (m !! k) as [v|]; [|done]. destruct (proj1 (elem_of_nil v) (proj2 (Hin v) eq_refl)).
  - by rewrite (proj1 (Hin v1) (list_elem_of_here _ _)).
  - exfalso. assert (∀ kv, kv ∈ (k1, v1) :: (k2, v2) :: l → kv.1 = k) as Hk.
    { intros kv. rewrite <- E. by intros [? _]%list_elem_of_filter. }
    assert (k1 = k) as -> by (apply (Hk (k1, v1)); left). assert (k2 = k) as -> by (apply (Hk (k2, v2)); right; left).
    assert (v1 = v2) as ->.
    { assert (m !! k = Some v1) by (apply Hin; left). assert (m !! k = Some v2) by (apply Hin; right; left). congruence. }
    apply NoDup_cons in Hnd as [Hnd _]. apply Hnd. left.
Qed.

(** Every query that was set is sent once, behind what the address has of it. *)
Lemma curl_queries r q k :
  foldl (λ q kv, map_append q kv.1 kv.2) q (map_range (cr_Queries r)) !! k =
    match cr_Queries r !! k with
    | Some v => Some (default [] (q !! k) ++ [v])
    | None => q !! k
    end.
Proof.
  change (foldl _ q (map_range (cr_Queries r))) with (map_append_all q (map_range (cr_Queries r))).
  rewrite lookup_map_append_all, assoc_values_map_range. by destruct (cr_Queries r !! k).
Qed.

(** [net/http] gives every header of a response at least one value. *)
Lemma parseHeaders_total header :
  map_Forall (λ _ l, l ≠ []) header → ∃ headers, parseHeaders header = Ret headers.
Proof.
  intros Hh. unfold parseHeaders.
  assert (∀ (l : list (string * list string)) (acc : gmap string string), Forall (λ kv, kv.2 ≠ []) l →
    ∃ headers, go_fold (λ headers kv, v ← go_index kv.2 0; mret (<[kv.1 := v]> headers)) l acc = Ret headers) as Hgo.
  { induction l as [|[k [|v vs]] l IH]; intros acc Hl; [by exists acc|..].
    - apply Forall_cons in Hl as [Hk _]. done.
    - apply Forall_cons in Hl as [_ Hl]. destruct (IH (<[k := v]> acc) Hl) as [h Hr]. exists h. exact Hr. }
  apply Hgo, Forall_forall. intros [k v] Hkv%elem_of_map_range. by apply (Hh k).
Qed.

(** Sending panics only on an answer: its body could not be read, or one of its headers
    has no value. *)
Lemma Send_panics url method r p :
  Send url method r = Panic p →
  ∃ payload raw, curl_payload method r = inl payload ∧
    http_Do (cr_dialTimeout r) (cr_responseTimeOut r) (curl_request url method r payload) = inl raw ∧
    (map_Forall (λ _ l, l ≠ []) (rsp_Header raw) → ∃ err, rsp_Body raw = inr err ∧ p = ExplicitPanic (err_msg err)).
Proof.
  unfold Send. destruct (String.eqb url ""); [done|]. destruct (String.eqb method ""); [done|].
  destruct (curl_payload method r) as [payload|]; [|done]. destruct (http_NewRequest method url); [done|].
  destruct (http_Do _ _ _) as [raw|err] eqn:E; [|done]. intros Hrun. exists payload, raw. split_and!; [done..|].
  intros [headers Hh]%parseHeaders_total. rewrite Hh in Hrun. cbn [mbind go_bind] in Hrun.
  destruct (rsp_Body raw) as [body|err]; cbn [parseBody mbind go_bind] in Hrun; [done|].
  exists err. by injection Hrun as <-.
Qed.
End Properties.
