(* ===== verification/Api.v ===== *)
(** * The HTTP interface of the control plane ([control/apis], [control/params])

    A handler binds what a request carries to a struct, calls a service and answers
    with a status and data in JSON, always with the HTTP code 200.  What the struct's
    [binding] tags ask for is a list of rules per struct, from
    [control/params/params.go]; decoding and validating them are gin's, the classes
    [GinBinding] and [StructValidator]. *)

From S2P Require Import Prelude RouterTypes Registry GoLib ControlStatus ControlData NodeManager.
From S2P Require Import Inventory Catalog.

(** ** Results ([apis/base.go]) *)

Definition HttpOkCode : Z := 200.

Record Result (A : Type) := mkResult { res_Code : Z; res_Message : string; res_Data : option A }.
Arguments mkResult {A}. Arguments res_Code {A}. Arguments res_Message {A}. Arguments res_Data {A}.

Record ListResult (A : Type) := mkListResult { lr_Total : Z; lr_Items : list A }.
Arguments mkListResult {A}. Arguments lr_Total {A}. Arguments lr_Items {A}.

Record ListValResult (A B : Type) := mkListValResult { lv_IdInfo : list A; lv_Items : list B }.
Arguments mkListValResult {A B}. Arguments lv_IdInfo {A B}. Arguments lv_Items {A B}.

Definition ReturnJson {A} (status : Status) (data : option A) : Result A :=
  mkResult (Status_Code status) (Status_Error status) data.
Definition ReturnData {A} (data : A) : Result A := ReturnJson StatusOk (Some data).
Definition ReturnOk {A} : Result A := ReturnJson StatusOk None.
Definition ReturnError {A} (status : Status) : Result A := ReturnJson status None.

(** The end of most handlers: what the service did and its status. *)
Definition answer {S} (r : S * Status) : S * Result unit := (r.1, ReturnJson r.2 None).

(** ** Binding *)

(** What a tag asks of a field: [required] that it is not zero (or, for a pointer, not
    nil), [required] of a slice that it is not nil, which its length does not say, [gte]
    and [oneof] of a number or a pointer to one. *)
Inductive rule :=
  | Required (set : bool)
  | RequiredSlice (len : nat)
  | Gte (bound : Z) (value : option Z)
  | OneOf (values : list Z) (value : option Z).

Definition req_string (s : string) : rule := Required (negb (String.eqb s "")).
Definition req_number (z : Z) : rule := Required (negb (Z.eqb z 0)).
Definition req_pointer {A} (p : option A) : rule := Required (bool_decide (is_Some p)).
Definition gte_0 (z : Z) : rule := Gte 0 (Some z).

(** [binding.JSON] and [binding.Query] into a new struct. *)
Class GinBinding (A : Type) := { decode_JSON : string → A + error; decode_Query : string → A + error }.

(** [validate.Struct] on the fields of a struct with their tags, and the request they
    were decoded from. *)
Class StructValidator := { validate_Struct : string → list rule → option error }.

(** A required field that is not set is refused, so is a pointer to none of the values;
    a struct without tags is not. *)
Class ValidatorLaws `{StructValidator} := {
  validate_required request rules : validate_Struct request rules = None → Required false ∉ rules;
  validate_oneof request rules l v :
    validate_Struct request rules = None → OneOf l v ∈ rules → ∃ x, v = Some x ∧ x ∈ l;
  validate_untagged request : validate_Struct request [] = None
}.

(** [DefaultValidator.ValidateStruct]: every parameter is a pointer to a struct, so all
    are validated. *)
Definition ValidateStruct `{StructValidator} (request : string) (rules : list rule) : option error :=
  validate_Struct request rules.

Section Bind.
Context {P : Type} `{GinBinding P} `{StructValidator}.

Definition should_bind (decoded : P + error) (tags : P → list rule) (request : string) : P + error :=
  match decoded with
  | inr err => inr err
  | inl p => match ValidateStruct request (tags p) with Some err => inr err | None => inl p end
  end.

Definition ShouldBindJSON (tags : P → list rule) (body : string) : P + error :=
  should_bind (decode_JSON body) tags body.
Definition ShouldBindQuery (tags : P → list rule) (query : string) : P + error :=
  should_bind (decode_Query query) tags query.
End Bind.

(** How every handler that has parameters begins. *)
Definition with_param {P A O} `{Runtime} (bound : P + error) (refuse : Result A → O) (k : P → O) : O :=
  match bound with
  | inr err => refuse (ReturnError (StatusWithMessage ParamsInvalid (err_msg err)))
  | inl param => k param
  end.

Arguments with_param {P A O H} & bound refuse k.

(** [-] and no tag ask for nothing. *)
Definition no_tags {P} (p : P) : list rule := [].

(** ** Databases ([apis/database.go]) *)

Record DatabaseAddParams := mkDatabaseAddParams { dap_Name : string; dap_Desc : string }.
Definition DatabaseAddParams_tags (p : DatabaseAddParams) : list rule := [req_string (dap_Name p)].

Record DatabaseDto := mkDatabaseDto { dd_Id : Z; dd_Name : string; dd_Desc : string }.

Record DatabaseUpdateParams := mkDatabaseUpdateParams { dup_Id : Z; dup_Name : string; dup_Desc : string }.

Record DatabaseDeleteParams := mkDatabaseDeleteParams { ddp_Id : Z }.
Definition DatabaseDeleteParams_tags (p : DatabaseDeleteParams) : list rule := [req_number (ddp_Id p)].

Section Databases.
Context {DB : Type} {rs : RowStore DB LaserDatabase} {uses : UseCount DB} {rt : Runtime} {sv : StructValidator}
  {bAdd : GinBinding DatabaseAddParams} {bUpdate : GinBinding DatabaseUpdateParams}
  {bDelete : GinBinding DatabaseDeleteParams}.

Definition DBStore (now : Z) (body : string) (db : DB) : DB * Result unit :=
  with_param (ShouldBindJSON DatabaseAddParams_tags body) (pair db) (λ param,
    answer (LaserDatabase_Store now (dap_Name param) (dap_Desc param) db)).

Definition DBUpdate (body : string) (db : DB) : DB * Result unit :=
  with_param (ShouldBindJSON no_tags body) (pair db) (λ param,
    answer (LaserDatabase_Update (dup_Id param) (dup_Name param) (dup_Desc param) db)).

Definition DBDelete (body : string) (db : DB) : DB * Result unit :=
  with_param (ShouldBindJSON DatabaseDeleteParams_tags body) (pair db) (λ param,
    answer (LaserDatabase_Delete (ddp_Id param) db)).

Definition DBList `{ConfigDb DB} {bList : GinBinding DatabaseListParams} (query : string) (db : DB)
  : Result (ListResult DatabaseDto) :=
  with_param (ShouldBindQuery no_tags query) id (λ param,
    let '(list, total) := LaserDatabase_List db param true in
    ReturnData (mkListResult total ((λ info, mkDatabaseDto (ld_Id info) (ld_Name info) (ld_Desc info)) <$> list))).
End Databases.

(** ** Clusters ([apis/cluster.go]) *)

Definition ClusterParams_tags (p : ClusterParams) : list rule :=
  [req_string (clpa_Name p); req_string (clpa_Alias p); req_number (clpa_ShardTotal p)].

Section Clusters.
Context {DB : Type} {rs : RowStore DB Cluster} {cdb : ControlDb DB} {rt : Runtime} {sv : StructValidator}
  {bParams : GinBinding ClusterParams} {bList : GinBinding ClusterListParams}.

Definition ClusterStore (body : string) (db : DB) : DB * Result unit :=
  with_param (ShouldBindJSON ClusterParams_tags body) (pair db) (λ param, answer (Cluster_Store param db)).

Definition ClusterList (query : string) (db : DB) : Result (ListResult ClusterParams) :=
  with_param (ShouldBindQuery no_tags query) id (λ param,
    let '(list, total) := Cluster_List db param true in
    ReturnData (mkListResult total
      ((λ info, mkClusterParams (cl_Id info) (cl_Name info) (cl_Alias info) (cl_ShardTotal info) (cl_Desc info))
         <$> list))).

Definition ClusterUpdate (body : string) (db : DB) : DB * Result unit :=
  with_param (ShouldBindJSON ClusterParams_tags body) (pair db) (λ param, answer (Cluster_Update param db)).
End Clusters.

(** ** Data centres ([apis/dc.go]) *)

(** The answer of a service that also keeps a snapshot of the cluster. *)
Definition answer_nodes {DB} (r : go (DB * NodeManager * Status)) : go (DB * NodeManager * Result unit) :=
  '(db, nm, status) ← r; mret (db, nm, ReturnJson status None).

Definition refuse_nodes {DB} (db : DB) (nm : NodeManager) (r : Result unit) : go (DB * NodeManager * Result unit) :=
  mret (db, nm, r).

(** The name of the cluster gorm found for a row, which the rows leave out. *)
Class ClusterNames := { dc_ClusterInfo_Name : Dc → string; g_ClusterInfo_Name : Group → string }.

Definition DcParams_tags (p : DcParams) : list rule :=
  [req_number (dcp_ClusterId p); req_string (dcp_ClusterName p); req_string (dcp_Name p);
   req_number (dcp_ShardNumber p)].

Section Dcs.
Context {DB : Type} {rs : RowStore DB Dc} {cdb : ControlDb DB} {rt : Runtime} {sv : StructValidator}
  {jsonText : Json ShardsStruct} `{CityHash} `{ClusterNames}
  {bParams : GinBinding DcParams} {bList : GinBinding DcListParams}.

Definition DcStore (body : string) (db : DB) (nm : NodeManager) : go (DB * NodeManager * Result unit) :=
  with_param (ShouldBindJSON DcParams_tags body) (refuse_nodes db nm) (λ param,
    answer_nodes (Dc_Store param db nm)).

Definition DcList (query : string) (db : DB) : Result (ListResult DcParams) :=
  with_param (ShouldBindQuery no_tags query) id (λ param,
    let '(list, total) := Dc_List db param true in
    ReturnData (mkListResult total
      ((λ dc, mkDcParams (dc_Id dc) (dc_ClusterId dc) (dc_ClusterInfo_Name dc) (dc_Name dc) (dc_ShardNumber dc)
                (dc_Desc dc)) <$> list))).

Definition DcUpdate (body : string) (db : DB) (nm : NodeManager) : go (DB * NodeManager * Result unit) :=
  with_param (ShouldBindJSON DcParams_tags body) (refuse_nodes db nm) (λ param,
    answer_nodes (Dc_Update param db nm)).
End Dcs.

(** ** Groups ([apis/group.go]) *)

Definition GroupParams_tags (p : GroupParams) : list rule :=
  [req_string (gp_Name p); req_string (gp_Alias p); req_number (gp_DcId p); req_number (gp_ClusterId p);
   req_string (gp_ClusterName p)].

Record GroupDeleteParams := mkGroupDeleteParams { gdp_Id : Z }.
Definition GroupDeleteParams_tags (p : GroupDeleteParams) : list rule := [req_number (gdp_Id p)].

Record GroupDto := mkGroupDto {
  gd_Id : Z;
  gd_Name : string;
  gd_Alias : string;
  gd_NodeConfigId : Z;
  gd_NodeConfigName : string;
  gd_ActiveNumber : Z;
  gd_InactiveNumber : Z;
  gd_Desc : string;
  gd_DcId : Z;
  gd_DcName : string;
  gd_ClusterId : Z;
  gd_ClusterName : string
}.

Section Groups.
Context {DB : Type} {rs : RowStore DB Group} {uses : UseCount DB} {cdb : ControlDb DB} {rt : Runtime}
  {sv : StructValidator} `{ClusterNames}
  {bParams : GinBinding GroupParams} {bList : GinBinding GroupListParams} {bDelete : GinBinding GroupDeleteParams}.

(** A handler makes its own model, to which nothing is subscribed. *)
Definition GroupStore (now : Z) (body : string) (db : DB) (nm : NodeManager) : go (DB * NodeManager * Result unit) :=
  with_param (ShouldBindJSON GroupParams_tags body) (refuse_nodes db nm) (λ param,
    answer_nodes (Group_Store NewGroupModel now param db nm)).

(** A node without [Active] panics. *)
Definition count_active (counts : Z * Z) (node : Node) : go (Z * Z) :=
  active ← go_deref (n_Active node);
  mret (if Z.eqb active NodeActive then (u32 (counts.1 + 1), counts.2) else (counts.1, u32 (counts.2 + 1))).

Definition group_dto (info : Group) : go GroupDto :=
  '(activeNum, inactiveNum) ← go_fold count_active (g_Nodes info) (0, 0);
  let row := g_row info in
  mret (mkGroupDto (g_Id row) (g_Name row) (g_Alias row) (g_NodeConfigId row) (nc_Name (g_Config info))
          activeNum inactiveNum (g_Desc row) (g_DcId row) (dc_Name (g_Dc info)) (g_ClusterId row)
          (g_ClusterInfo_Name info)).

Definition GroupList (query : string) (db : DB) : go (Result (ListResult GroupDto)) :=
  with_param (ShouldBindQuery no_tags query) mret (λ param,
    let '(list, total) := Group_List db param true in
    result ← go_fold (λ result info, dto ← group_dto info; mret (result ++ [dto])) list [];
    mret (ReturnData (mkListResult total result))).

Definition GroupUpdate (body : string) (db : DB) (nm : NodeManager) : go (DB * NodeManager * Result unit) :=
  with_param (ShouldBindJSON GroupParams_tags body) (refuse_nodes db nm) (λ param,
    answer_nodes (Group_Update NewGroupModel param db nm)).

Definition GroupDelete (body : string) (db : DB) : DB * Result unit :=
  with_param (ShouldBindJSON GroupDeleteParams_tags body) (pair db) (λ param, answer (Group_Delete (gdp_Id param) db)).
End Groups.

(** ** Node configurations ([apis/node_config.go]) *)

Definition NodeConfigParams_tags (p : NodeConfigParams) : list rule :=
  [gte_0 (ncp_Id p); req_string (ncp_Name p); req_number (ncp_BlockCacheSizeGb p);
   req_number (ncp_WriteBufferSizeGb p); req_number (ncp_NumShardBits p); req_pointer (ncp_HighPriPoolRatio p)].

(** [NodeConfigDto] has the fields of the parameters. *)
Abbreviation NodeConfigDto := NodeConfigParams.

Record NodeConfigDeleteParams := mkNodeConfigDeleteParams { ncd_Id : Z }.
Definition NodeConfigDeleteParams_tags (p : NodeConfigDeleteParams) : list rule := [req_number (ncd_Id p)].

Section NodeConfigs.
Context {DB : Type} {rs : RowStore DB NodeConfig} {assoc : AssocStore DB NodeRateLimitEntry} {uses : UseCount DB}
  {cdb : ConfigDb DB} {rt : Runtime} {sv : StructValidator}
  {bParams : GinBinding NodeConfigParams} {bList : GinBinding NodeConfigListParams}
  {bDelete : GinBinding NodeConfigDeleteParams}.

Definition NodeConfigStore (now : Z) (body : string) (db : DB) : DB * Result unit :=
  with_param (ShouldBindJSON NodeConfigParams_tags body) (pair db) (λ param, answer (NodeConfig_Store now param db)).

Definition node_config_dto (info : NodeConfig) : NodeConfigDto :=
  mkNodeConfigParams (nc_Id info) (nc_Name info) (nc_Desc info) (nc_BlockCacheSizeGb info)
    (nc_WriteBufferSizeGb info) (nc_NumShardBits info) (nc_HighPriPoolRatio info) (nc_StrictCapacityLimit info)
    ((λ entry, mkNodeRateLimitEntryParams (nr_Id entry) (nr_BeginHour entry) (nr_EndHour entry)
                 (nr_RateBytesPerSec entry)) <$> nc_RateLimitStrategy info).

Definition NodeConfigList (query : string) (db : DB) : Result (ListResult NodeConfigDto) :=
  with_param (ShouldBindQuery no_tags query) id (λ param,
    let '(list, total) := NodeConfig_List db param true in
    ReturnData (mkListResult total (node_config_dto <$> list))).

Definition NodeConfigUpdate (body : string) (db : DB) : DB * Result unit :=
  with_param (ShouldBindJSON NodeConfigParams_tags body) (pair db) (λ param, answer (NodeConfig_Update param db)).

Definition NodeConfigDelete (body : string) (db : DB) : DB * Result unit :=
  with_param (ShouldBindJSON NodeConfigDeleteParams_tags body) (pair db) (λ param,
    answer (NodeConfig_Delete (ncd_Id param) db)).
End NodeConfigs.

(** ** Ansible configurations ([apis/ansible_config.go]) *)

Definition AnsibleConfigParams_tags (p : AnsibleConfigParams) : list rule :=
  [req_string (acp_Name p); req_string (acp_Vars p); req_string (acp_Roles p)].

Record AnsibleConfigDeleteParams := mkAnsibleConfigDeleteParams { acd_Id : Z }.
Definition AnsibleConfigDeleteParams_tags (p : AnsibleConfigDeleteParams) : list rule := [gte_0 (acd_Id p)].

Section AnsibleConfigs.
Context {DB : Type} {rs : RowStore DB AnsibleConfig} {gorm : Gorm DB AnsibleConfig} {uses : UseCount DB}
  {rt : Runtime} {sv : StructValidator}
  {bParams : GinBinding AnsibleConfigParams} {bList : GinBinding AnsibleConfigListParams}
  {bDelete : GinBinding AnsibleConfigDeleteParams}.

Definition AnsibleConfigStore (now : Z) (body : string) (db : DB) : DB * Result unit :=
  with_param (ShouldBindJSON AnsibleConfigParams_tags body) (pair db) (λ param,
    answer (AnsibleConfig_Store now param db)).

Definition AnsibleConfigList (query : string) (db : DB) : Result (ListResult AnsibleConfigParams) :=
  with_param (ShouldBindQuery no_tags query) id (λ param,
    let '(list, total) := AnsibleConfig_List db param true in
    ReturnData (mkListResult total
      ((λ info, mkAnsibleConfigParams (ac_Id info) (ac_Name info) (ac_Vars info) (ac_Roles info) (ac_Desc info))
         <$> list))).

Definition AnsibleConfigUpdate (body : string) (db : DB) : DB * Result unit :=
  with_param (ShouldBindJSON AnsibleConfigParams_tags body) (pair db) (λ param,
    answer (AnsibleConfig_Update param db)).

Definition AnsibleConfigDelete (body : string) (db : DB) : DB * Result unit :=
  with_param (ShouldBindJSON AnsibleConfigDeleteParams_tags body) (pair db) (λ param,
    answer (AnsibleConfig_Delete (acd_Id param) db)).
End AnsibleConfigs.

(** ** Table configurations ([apis/table_config.go]) *)

Definition TableConfigParams_tags (p : TableConfigParams) : list rule :=
  [gte_0 (tcp_Id p); req_string (tcp_Name p); gte_0 (tcp_Version p); req_pointer (tcp_IsDefault p)].

Record TableConfigDeleteParams := mkTableConfigDeleteParams { tcd_Id : Z }.
Definition TableConfigDeleteParams_tags (p : TableConfigDeleteParams) : list rule := [req_number (tcd_Id p)].

Section TableConfigs.
Context {DB : Type} {rs : RowStore DB TableConfig} {assoc : AssocStore DB TableConfigItem} {uses : UseCount DB}
  {cdb : ConfigDb DB} {rt : Runtime} {sv : StructValidator}
  {bParams : GinBinding TableConfigParams} {bList : GinBinding TableConfigListParams}
  {bDelete : GinBinding TableConfigDeleteParams}.

Definition TableConfigStore (body : string) (db : DB) : DB * Result unit :=
  with_param (ShouldBindJSON TableConfigParams_tags body) (pair db) (λ param, answer (TableConfig_Store param db)).

(** The list leaves the items out. *)
Definition TableConfigList (query : string) (db : DB) : Result (ListResult TableConfigParams) :=
  with_param (ShouldBindQuery no_tags query) id (λ param,
    let '(list, total) := TableConfig_List db param true in
    ReturnData (mkListResult total
      ((λ info, mkTableConfigParams (tc_Id info) (tc_Name info) (tc_Version info) (tc_IsDefault info) (tc_Desc info) [])
         <$> list))).

Definition config_item_dto (item : TableConfigItem) : TableConfigItemParams :=
  mkTableConfigItemParams (ti_Id item) (ti_Name item) (ti_Value item) (ti_Type item).

Definition TableConfigListWithDetailItems (query : string) (db : DB) : Result (ListResult TableConfigParams) :=
  with_param (ShouldBindQuery no_tags query) id (λ param,
    let '(list, total) := ListWithDetailItems db param true in
    ReturnData (mkListResult total
      ((λ info, mkTableConfigParams (tc_Id info) (tc_Name info) (tc_Version info) (tc_IsDefault info) (tc_Desc info)
                  (config_item_dto <$> tc_ConfigItems info)) <$> list))).

Definition TableConfigUpdate (body : string) (db : DB) : DB * Result unit :=
  with_param (ShouldBindJSON TableConfigParams_tags body) (pair db) (λ param, answer (TableConfig_Update param db)).

Definition TableConfigDelete (body : string) (db : DB) : DB * Result unit :=
  with_param (ShouldBindJSON TableConfigDeleteParams_tags body) (pair db) (λ param,
    answer (TableConfig_Delete (tcd_Id param) db)).
End TableConfigs.

(** ** Tables ([apis/table.go]) *)

Definition TableAddParams_tags (p : TableAddParams) : list rule :=
  [req_string (tap_Name p); OneOf [0; 1] (tap_Status p); OneOf [0; 1] (tap_DenyAll p);
   req_number (tap_PartitionNumber p); gte_0 (tap_DcId p); gte_0 (tap_DistDcId p); gte_0 (tap_DatabaseId p);
   gte_0 (tap_ConfigId p)].

Definition TableUpdateParams_tags (p : TableUpdateParams) : list rule :=
  [gte_0 (tup_Id p); req_string (tup_Name p); OneOf [0; 1] (tup_Status p); OneOf [0; 1] (tup_DenyAll p);
   Gte 0 (tup_Ttl p); gte_0 (tup_DcId p); gte_0 (tup_DistDcId p); gte_0 (tup_DatabaseId p);
   gte_0 (tup_ConfigId p)].

Record TableDeleteParams := mkTableDeleteParams { tdp_Id : Z }.
Definition TableDeleteParams_tags (p : TableDeleteParams) : list rule := [req_number (tdp_Id p)].

Record LaserCommandParams := mkLaserCommandParams { lcp_Name : string; lcp_OperationType : Z }.

Record TableDto := mkTableDto {
  td_Id : Z;
  td_Name : string;
  td_Status : Z;
  td_DenyAll : Z;
  td_PartitionNumber : Z;
  td_Ttl : Z;
  td_Desc : string;
  td_DcId : Z;
  td_DcName : string;
  td_DistDcId : Z;
  td_DistDcName : string;
  td_DatabaseId : Z;
  td_ConfigId : Z;
  td_DatabaseName : string;
  td_ConfigName : string;
  td_EdgeFlowRatio : option Z;
  td_TrafficLimits : list TrafficRestrictionLimitParams;
  td_BindEdgeNodes : list NodeInfoDto
}.

(** [NodeInfo{Id: id, NodeId: nodeId, GroupId: groupId}]. *)
Definition edge_node_dto (node : Node) : NodeInfoDto :=
  mkNodeInfoDto (n_Id node) (n_NodeId node) None None "" 0 None 0 0 false false [] "" (n_GroupId node) "" "" 0 "" 0 ""
    None None false 0 0.

Definition traffic_limit_dto (limit : TrafficRestrictionLimit) : TrafficRestrictionLimitParams :=
  mkTrafficRestrictionLimitParams (tl_Id limit) (tl_Name limit) (tl_OperationType limit) (tl_LimitType limit)
    (tl_LimitValue limit).

(** A table without status, [DenyAll] or [Ttl] panics. *)
Definition table_dto (limits : list TrafficRestrictionLimitParams) (nodes : list NodeInfoDto) (info : Table)
  : go TableDto :=
  status ← go_deref (t_Status info);
  denyAll ← go_deref (t_DenyAll info);
  ttl ← go_deref (t_Ttl info);
  mret (mkTableDto (t_Id info) (t_Name info) status denyAll (t_PartitionNumber info) ttl (t_Desc info) (t_DcId info)
          (dc_Name (t_Dc info)) (t_DistDcId info) (dc_Name (t_DistDc info)) (t_DatabaseId info) (t_ConfigId info)
          (ld_Name (t_Database info)) (tc_Name (t_Config info)) (t_EdgeFlowRatio info) limits nodes).

Section Tables.
Context {DB : Type} {rs : RowStore DB Table} {limits : AssocStore DB TrafficRestrictionLimit}
  {nodes : AssocStore DB Node} {cdb : ControlDb DB} {rt : Runtime} {sv : StructValidator}
  {bAdd : GinBinding TableAddParams} {bUpdate : GinBinding TableUpdateParams} {bList : GinBinding TableListParams}
  {bDelete : GinBinding TableDeleteParams}.

Definition TableStore (now : Z) (body : string) (db : DB) : DB * Result unit :=
  with_param (ShouldBindJSON TableAddParams_tags body) (pair db) (λ param, answer (Table_Store now param db)).

Definition TableList (query : string) (db : DB) : go (Result (ListResult TableDto)) :=
  with_param (ShouldBindQuery no_tags query) mret (λ param,
    let '(list, total) := Table_List db param true in
    result ← go_fold (λ result info, dto ← table_dto [] [] info; mret (result ++ [dto])) list [];
    mret (ReturnData (mkListResult total result))).

Definition TableListDetail (query : string) (db : DB) : go (Result (ListResult TableDto)) :=
  with_param (ShouldBindQuery no_tags query) mret (λ param,
    let '(list, total) := Table_ListDetail db param true in
    result ← go_fold (λ result info,
        dto ← table_dto (traffic_limit_dto <$> t_TrafficLimits info) (edge_node_dto <$> t_BindEdgeNodes info) info;
        mret (result ++ [dto])) list [];
    mret (ReturnData (mkListResult total result))).

Definition TableUpdate (body : string) (db : DB) : DB * Result unit :=
  with_param (ShouldBindJSON TableUpdateParams_tags body) (pair db) (λ param, answer (Table_Update param db)).

Definition TableDelete (body : string) (db : DB) : DB * Result unit :=
  with_param (ShouldBindJSON TableDeleteParams_tags body) (pair db) (λ param, answer (Table_Delete (tdp_Id param) db)).
End Tables.

(** ** Proxy configurations ([apis/proxy_table_config.go]) *)

Definition ProxyTableConfigParams_tags (p : ProxyTableConfigParams) : list rule :=
  [gte_0 (pcp_Id p); req_string (pcp_DatabaseName p); req_string (pcp_TableName p); req_number (pcp_ReadTimeout p);
   req_number (pcp_WriteTimeout p); req_number (pcp_AllowedFlow p)].

Record ProxyTableConfigDto := mkProxyTableConfigDto {
  pd_Id : Z; pd_DatabaseName : string; pd_TableName : string; pd_ReadTimeout : Z; pd_WriteTimeout : Z;
  pd_AllowedFlow : Z
}.

Section Proxies.
Context {DB : Type} {rs : RowStore DB ProxyTableConfig} {cdb : ConfigDb DB} {rt : Runtime} {sv : StructValidator}
  {bParams : GinBinding ProxyTableConfigParams} {bList : GinBinding ProxyTableConfigListParams}.

Definition ProxyTableConfigStore (now : Z) (body : string) (db : DB) : DB * Result unit :=
  with_param (ShouldBindJSON ProxyTableConfigParams_tags body) (pair db) (λ param,
    answer (ProxyTableConfig_Store now param db)).

Definition ProxyTableConfigList (now : Z) (query : string) (db : DB) : DB * Result (ListResult ProxyTableConfigDto) :=
  with_param (ShouldBindQuery no_tags query) (pair db) (λ param,
    let '(db, (list, total)) := ProxyTableConfig_List now param true db in
    (db, ReturnData (mkListResult total
      ((λ info, mkProxyTableConfigDto (pc_Id info) (pc_DatabaseName info) (pc_TableName info) (pc_ReadTimeout info)
                  (pc_WriteTimeout info) (pc_AllowedFlow info)) <$> list)))).

Definition ProxyTableConfigUpdate (body : string) (db : DB) : DB * Result unit :=
  with_param (ShouldBindJSON ProxyTableConfigParams_tags body) (pair db) (λ param,
    answer (ProxyTableConfig_Update param db)).
End Proxies.

(** ** Machines and their categories ([apis/machine.go], [apis/machine_category.go]) *)

Definition MachineCategoryParams_tags (p : MachineCategoryParams) : list rule := [req_string (mcp_Name p)].

Record MachineCategoryDeleteParams := mkMachineCategoryDeleteParams { mcd_Id : Z }.
Definition MachineCategoryDeleteParams_tags (p : MachineCategoryDeleteParams) : list rule := [req_number (mcd_Id p)].

Definition MachineParams_tags (p : MachineParams) : list rule :=
  [req_number (mp_CategoryId p); req_string (mp_Ip p); req_string (mp_CpuCoreNumber p); req_string (mp_MemorySizeGb p)].

Definition MachineUpdateParams_tags (p : MachineUpdateParams) : list rule :=
  [gte_0 (mup_Id p); req_number (mup_CategoryId p); req_string (mup_Ip p); req_string (mup_CpuCoreNumber p);
   req_string (mup_MemorySizeGb p)].

Record MachineDeleteParams := mkMachineDeleteParams { mdp_Id : Z }.
Definition MachineDeleteParams_tags (p : MachineDeleteParams) : list rule := [gte_0 (mdp_Id p)].

Record MachineDto := mkMachineDto {
  md_Id : Z; md_CategoryId : Z; md_Ip : string; md_CpuCoreNumber : string; md_MemorySizeGb : string;
  md_Desc : string; md_MachineCategoryName : string
}.
Record MachineCategoryDto := mkMachineCategoryDto {
  mcdt_Id : Z; mcdt_Name : string; mcdt_Desc : string; mcdt_Machines : list MachineDto
}.

Definition machine_dto (categoryName : string) (m : Machine) : MachineDto :=
  mkMachineDto (ma_Id m) (ma_CategoryId m) (ma_Ip m) (ma_CpuCoreNumber m) (ma_MemorySizeGb m) (ma_Desc m) categoryName.

Section Machines.
Context {DB : Type} {rsCategory : RowStore DB MachineCategory} {gormCategory : Gorm DB MachineCategory}
  {rsMachine : RowStore DB Machine} {gormMachine : Gorm DB Machine} {uses : UseCount DB} {np : NetIP}
  {rt : Runtime} {sv : StructValidator}
  {bCategory : GinBinding MachineCategoryParams} {bCategories : GinBinding MachineCategoryListParams}
  {bDeleteCategory : GinBinding MachineCategoryDeleteParams} {bMachine : GinBinding MachineParams}
  {bMachines : GinBinding MachineListParams} {bUpdate : GinBinding MachineUpdateParams}
  {bDelete : GinBinding MachineDeleteParams}.

Definition MachineCategoryStore (now : Z) (body : string) (db : DB) : DB * Result unit :=
  with_param (ShouldBindJSON MachineCategoryParams_tags body) (pair db) (λ param,
    answer (MachineCategory_Store now param db)).

Definition MachineCategoryList (query : string) (db : DB) : Result (ListResult MachineCategoryDto) :=
  with_param (ShouldBindQuery no_tags query) id (λ param,
    let '(list, total) := MachineCategory_List db param true in
    ReturnData (mkListResult total
      ((λ info, mkMachineCategoryDto (mc_Id (mc_row info)) (mc_Name (mc_row info)) (mc_Desc (mc_row info))
                  (machine_dto "" <$> mc_Machines info)) <$> list))).

Definition MachineCategoryUpdate (body : string) (db : DB) : DB * Result unit :=
  with_param (ShouldBindJSON MachineCategoryParams_tags body) (pair db) (λ param,
    answer (MachineCategory_Update param db)).

Definition MachineCategoryDelete (body : string) (db : DB) : DB * Result unit :=
  with_param (ShouldBindJSON MachineCategoryDeleteParams_tags body) (pair db) (λ param,
    answer (MachineCategory_Delete (mcd_Id param) db)).

Definition MachineStore (now : Z) (body : string) (db : DB) : go (DB * Result unit) :=
  with_param (ShouldBindJSON MachineParams_tags body) (λ r, mret (db, r)) (λ param,
    r ← Machine_Store now param db; mret (answer r)).

Definition MachineList (query : string) (db : DB) : Result (ListResult MachineDto) :=
  with_param (ShouldBindQuery no_tags query) id (λ param,
    let '(list, total) := Machine_List db param true in
    ReturnData (mkListResult total
      ((λ info, machine_dto (mc_Name (ma_MachineCategory info)) info) <$> list))).

Definition MachineUpdate (body : string) (db : DB) : DB * Result unit :=
  with_param (ShouldBindJSON MachineUpdateParams_tags body) (pair db) (λ param, answer (Machine_Update param db)).

Definition MachineDelete (body : string) (db : DB) : DB * Result unit :=
  with_param (ShouldBindJSON MachineDeleteParams_tags body) (pair db) (λ param, answer (Machine_Delete (mdp_Id param) db)).
End Machines.

(** ** Theorems: what a request may do to the databases *)

Inductive database_request :=
  | PostStore (now : Z) (body : string)
  | PostUpdate (body : string)
  | PostDelete (body : string).

(** An update is not validated: it may lack an id, which makes it an update of every
    row, and a name, which any row then has. *)
Definition named (m : catalog) (name : string) : Prop := if decide (name = "") then m ≠ ∅ else taken m name.

Definition change_at (id : Z) (desc : string) (m : catalog) : catalog :=
  if decide (id = 0) then describe desc <$> m else alter (describe desc) id m.

Inductive request_step (used : Z → Prop) (fails : Prop) (m : catalog) : database_op → catalog → Z → Prop :=
  | request_valid op m' code :
      op_valid op → catalog_step used fails m op m' code → request_step used fails m op m' code
  | request_change id name desc :
      named m name → request_step used fails m (DatabaseChange id name desc) (change_at id desc m) OK
  | request_missing id name desc :
      ¬ named m name ∨ fails → request_step used fails m (DatabaseChange id name desc) m DatabaseNotExists
  | request_error id name desc : fails → request_step used fails m (DatabaseChange id name desc) m ERROR.

Section DatabaseApi.
Context {DB : Type} {rs : RowStore DB LaserDatabase} {laws : RowLaws DB LaserDatabase} {uses : UseCount DB}
  {rt : Runtime} {sv : StructValidator} {svLaws : ValidatorLaws}
  {bAdd : GinBinding DatabaseAddParams} {bUpdate : GinBinding DatabaseUpdateParams}
  {bDelete : GinBinding DatabaseDeleteParams}.
Implicit Types (db : DB).

Definition run_request (r : database_request) db : DB * Result unit :=
  match r with
  | PostStore now body => DBStore now body db
  | PostUpdate body => DBUpdate body db
  | PostDelete body => DBDelete body db
  end.

(** What the request asks for, where it can be bound. *)
Definition requested (r : database_request) : database_op + error :=
  match r with
  | PostStore now body =>
      match ShouldBindJSON DatabaseAddParams_tags body with
      | inl p => inl (DatabaseAdd now (dap_Name p) (dap_Desc p))
      | inr err => inr err
      end
  | PostUpdate body =>
      match ShouldBindJSON no_tags body with
      | inl p => inl (DatabaseChange (dup_Id p) (dup_Name p) (dup_Desc p))
      | inr err => inr err
      end
  | PostDelete body =>
      match ShouldBindJSON DatabaseDeleteParams_tags body with
      | inl p => inl (DatabaseRemove (ddp_Id p))
      | inr err => inr err
      end
  end.

(** A request that is bound passed its struct's tags. *)
Lemma bound_required {P} `{GinBinding P} (tags : P → list rule) body p :
  ShouldBindJSON tags body = inl p → Required false ∉ tags p.
Proof.
  unfold ShouldBindJSON, should_bind, ValidateStruct. destruct (decode_JSON body) as [p'|]; [|done].
  destruct (validate_Struct body (tags p')) eqn:E; [done|]. intros [= ->]. by apply validate_required in E.
Qed.

Lemma requested_valid r op :
  requested r = inl op → (∃ id name desc, op = DatabaseChange id name desc) ∨ op_valid op.
Proof.
  destruct r as [now body|body|body]; cbn [requested].
  - destruct (ShouldBindJSON DatabaseAddParams_tags body) as [p|] eqn:E; [|done]. intros [= <-]. right.
    apply bound_required in E. unfold DatabaseAddParams_tags, req_string in E. intros Hn. cbn in Hn. rewrite Hn in E.
    apply E. left.
  - destruct (ShouldBindJSON no_tags body) as [p|]; [|done]. intros [= <-]. left. eauto.
  - destruct (ShouldBindJSON DatabaseDeleteParams_tags body) as [p|] eqn:E; [|done]. intros [= <-]. right.
    apply bound_required in E. unfold DatabaseDeleteParams_tags, req_number in E. intros Hn. cbn in Hn. rewrite Hn in E.
    apply E. left.
Qed.

(** A handler does what the service does, or refuses. *)
Lemma run_request_cases r db :
  run_request r db =
    match requested r with
    | inl op => answer (run_database op db)
    | inr err => (db, ReturnError (StatusWithMessage ParamsInvalid (err_msg err)))
    end.
Proof.
  destruct r as [now body|body|body]; cbn [run_request requested]; unfold DBStore, DBUpdate, DBDelete, with_param.
  - by destruct (ShouldBindJSON DatabaseAddParams_tags body).
  - by destruct (ShouldBindJSON no_tags body).
  - by destruct (ShouldBindJSON DatabaseDeleteParams_tags body).
Qed.

(** The check for a name, which any row passes where it is empty. *)
Lemma named_check name db :
  NoDup (ld_Id <$> rw_rows db) →
  (Status_Code (LaserDatabase_CheckDupName name db) = DatabaseNameDup ∧ named (catalog_of (rw_rows db)) name) ∨
  (LaserDatabase_CheckDupName name db = StatusOk ∧ ¬ named (catalog_of (rw_rows db)) name) ∨
  (Status_Code (LaserDatabase_CheckDupName name db) = ERROR ∧ is_inr (rw_Count (LaserDatabase_where name) db)).
Proof.
  intros Hnd. unfold named. destruct (decide (name = "")) as [->|Hn].
  - destruct (check_dup_spec (LaserDatabase_where "") DatabaseNameDup db) as [[Hc Hex]|[[Hc Hall]|Hc]];
      [done|done| | |by auto].
    + left. split; [done|]. apply Exists_exists in Hex as (r & Hr & _). intros Hm.
      assert (catalog_of (rw_rows db) !! ld_Id r = Some (ld_Name r, ld_Desc r)) as Hl
        by (apply catalog_of_lookup; [done|]; by exists r).
      by rewrite Hm, lookup_empty in Hl.
    + right. left. split; [done|]. intros Hm. apply Hm.
      by destruct (rw_rows db) as [|r l]; [|apply Forall_cons in Hall as [? _]].
  - rewrite (taken_catalog _ _ Hnd). by apply database_check.
Qed.

(** A change of every row. *)
Lemma update_all_catalog rows desc :
  databases_ok rows →
  let rows' := row_overwrite (mkLaserDatabase 0 "" desc 0) <$> rows in
  databases_ok rows' ∧ catalog_of rows' = describe desc <$> catalog_of rows.
Proof.
  intros (Hids & Hnames & Hall) rows'.
  assert (databases_ok rows') as Hok.
  { unfold databases_ok, rows'. by rewrite <- !list_fmap_compose, Forall_fmap. }
  split; [done|]. apply catalog_of_ext; [apply Hok|]. intros id name desc'.
  unfold rows'. setoid_rewrite list_elem_of_fmap. rewrite lookup_fmap_Some. split.
  - intros (? & (r & -> & Hr) & <- & <- & <-). exists (ld_Name r, ld_Desc r). split; [done|].
    apply catalog_of_lookup; [done|]. by exists r.
  - intros ([n d] & Heq & (r & Hr & Hid & Hn & Hd)%catalog_of_lookup); [|done].
    eexists. split; [by exists r|]. unfold describe in Heq. cbn in *. by simplify_eq.
Qed.

Lemma change_at_rows id desc db db' :
  databases_ok (rw_rows db) →
  rw_UpdateColumns id (mkLaserDatabase 0 "" desc 0) db = (db', None) →
  databases_ok (rw_rows db') ∧ catalog_of (rw_rows db') = change_at id desc (catalog_of (rw_rows db)).
Proof.
  intros Hok Hup. unfold change_at. destruct (decide (id = 0)) as [->|Hid].
  - rewrite (rw_UpdateColumns_all _ _ _ Hup). by apply update_all_catalog.
  - rewrite (rw_UpdateColumns_ok _ _ _ _ Hup Hid). by apply update_catalog.
Qed.

Lemma Update_request id name desc db db' st :
  databases_ok (rw_rows db) → LaserDatabase_Update id name desc db = (db', st) →
  databases_ok (rw_rows db') ∧
  request_step (database_used db) (statement_fails (DatabaseChange id name desc) db) (catalog_of (rw_rows db))
    (DatabaseChange id name desc) (catalog_of (rw_rows db')) (Status_Code st).
Proof.
  intros Hok Hrun. unfold LaserDatabase_Update, update_row in Hrun.
  destruct (named_check name db (proj1 Hok)) as [[Hc Hin]|[[Hc Hnin]|[Hc Hf]]]; rewrite Hc in Hrun.
  - rewrite Z.eqb_refl in Hrun. cbn [negb] in Hrun.
    apply last_statement_cases in Hrun as [(-> & -> & Hf)|[Hup ->]].
    + split; [done|]. apply request_error. by right.
    + destruct (change_at_rows _ _ _ _ Hok Hup) as [Hok' ->]. split; [done|]. by apply request_change.
  - injection Hrun as <- <-. split; [done|]. apply request_missing. by left.
  - injection Hrun as <- <-. split; [done|]. apply request_missing. right. by left.
Qed.

(** C27: Through the HTTP interface the databases follow the catalogue: a request that
    cannot be bound changes nothing and is answered with [ParamsInvalid]; any other
    keeps the rows well formed and is a step of the catalogue with the code of the
    answer, save that an update, whose fields no tag requires, changes the description
    of every database where it has no id and accepts any existing database where it has
    no name. *)
Theorem database_api_refines r db db' res :
  databases_ok (rw_rows db) → run_request r db = (db', res) →
  match requested r with
  | inr _ => db' = db ∧ res_Code res = ParamsInvalid
  | inl op =>
      databases_ok (rw_rows db') ∧
      request_step (database_used db) (statement_fails op db) (catalog_of (rw_rows db)) op
        (catalog_of (rw_rows db')) (res_Code res)
  end.
Proof.
  intros Hok. rewrite run_request_cases. destruct (requested r) as [op|err] eqn:Er; [|by intros [= <- <-]].
  destruct (run_database op db) as [db1 st] eqn:Erun. intros [= <- <-]. cbn [res_Code ReturnJson].
  destruct (requested_valid _ _ Er) as [(id & name & desc & ->)|Hv]; [by apply Update_request|].
  destruct op as [now name desc|id name desc|id]; cbn [run_database] in Erun.
  - destruct (Store_simulated _ _ _ _ _ _ Hok Hv Erun) as [Hok' Hs]. split; [done|]. by apply request_valid.
  - by apply Update_request.
  - destruct (Delete_simulated _ _ _ _ Hok Hv Erun) as [Hok' Hs]. split; [done|]. by apply request_valid.
Qed.
End DatabaseApi.

(** ** Theorems: deleting machines *)

Section MachineApi.
Context {DB : Type} {rs : RowStore DB Machine} {laws : RowLaws DB Machine} {gorm : Gorm DB Machine}
  {uses : UseCount DB} {rt : Runtime} {sv : StructValidator} {bDelete : GinBinding MachineDeleteParams}.

(** The tag of the id of a machine to delete, [gte=0], admits a request without an id,
    which then deletes every machine: the one answered with OK leaves none, one answered
    with an error changes nothing. *)
Theorem MachineDelete_all body db db' res :
  ShouldBindJSON MachineDeleteParams_tags body = inl (mkMachineDeleteParams 0) →
  MachineDelete body db = (db', res) →
  (res_Code res = OK ∧ rw_rows db' = []) ∨ (res_Code res ≠ OK ∧ db' = db).
Proof.
  unfold MachineDelete. intros ->. cbn [with_param mdp_Id]. unfold answer.
  destruct (Machine_Delete 0 db) as [db1 st] eqn:E. intros [= <- <-]. cbn [res_Code ReturnJson fst snd].
  apply delete_unused_cases in E as [(-> & -> & _)|[(-> & -> & _)|(Hdel & -> & _)]]; [by right..|].
  left. split; [done|]. by apply rw_Delete_all in Hdel.
Qed.
End MachineApi.

(** ** Concrete requests *)

(** A validator that follows the tags, nil slices aside. *)
Definition rule_ok (r : rule) : bool :=
  match r with
  | Required set => set
  | RequiredSlice _ => true
  | Gte bound v => match v with Some z => Z.leb bound z | None => false end
  | OneOf l v => match v with Some z => bool_decide (z ∈ l) | None => false end
  end.

Definition tag_validator : StructValidator :=
  {| validate_Struct _ rules := if forallb rule_ok rules then None else Some (mkError "validation" false) |}.

Lemma tag_validator_ok request rules r :
  validate_Struct (StructValidator:=tag_validator) request rules = None → r ∈ rules → rule_ok r = true.
Proof.
  cbn. destruct (forallb rule_ok rules) eqn:E; [|done]. intros _ Hr. rewrite forallb_forall in E.
  apply E. by apply list_elem_of_In.
Qed.

Lemma tag_validator_laws : ValidatorLaws (H:=tag_validator).
Proof.
  split.
  - intros request rules Hok Hr. by apply (tag_validator_ok _ _ _ Hok) in Hr.
  - intros request rules l [z|] Hok Hr; apply (tag_validator_ok _ _ _ Hok) in Hr; [|done].
    exists z. split; [done|]. by apply bool_decide_eq_true in Hr.
  - done.
Qed.

(** A decoder for one request. *)
Definition decodes {A} (x : A) : GinBinding A :=
  {| decode_JSON _ := inl x; decode_Query _ := inl x |}.

(** An update without id and name gives every database its description. *)
Lemma database_api_refines_witness :
  databases_ok [mkLaserDatabase 1 "feed" "x" 5; mkLaserDatabase 2 "ads" "x" 6].
Proof.
  refine (proj1 (database_api_refines (rs:=mem_rows LaserDatabase_zero)
    (laws:=mem_rows_laws LaserDatabase_zero eq_refl) (uses:=no_uses) (rt:=main_go) (sv:=tag_validator)
    (svLaws:=tag_validator_laws) (bAdd:=decodes (mkDatabaseAddParams "" ""))
    (bUpdate:=decodes (mkDatabaseUpdateParams 0 "" "x")) (bDelete:=decodes (mkDatabaseDeleteParams 0))
    (PostUpdate "{desc: x}") [feed_row; ads_row]
    [mkLaserDatabase 1 "feed" "x" 5; mkLaserDatabase 2 "ads" "x" 6] ReturnOk databases_ok_example _)).
  vm_compute. reflexivity.
Defined.

Definition two_machines : list Machine :=
  [mkMachine 1 1 "10.0.0.1" "8" "16" "" 0 MachineCategoryRow_zero;
   mkMachine 2 1 "10.0.0.2" "8" "16" "" 0 MachineCategoryRow_zero].

Lemma MachineDelete_all_witness :
  (res_Code (ReturnOk (A:=unit)) = OK ∧ @nil Machine = []) ∨ (res_Code (ReturnOk (A:=unit)) ≠ OK ∧ [] = two_machines).
Proof.
  apply (MachineDelete_all (rs:=mem_rows (rk:=Machine_kind) Machine_zero) (laws:=mem_rows_laws (rk:=Machine_kind) Machine_zero eq_refl)
    (uses:=no_uses) (rt:=main_go) (sv:=tag_validator) (bDelete:=decodes (mkMachineDeleteParams 0))
    "{}" two_machines [] ReturnOk); vm_compute; reflexivity.
Defined.
