(* ===== verification/ApiServices.v ===== *)
(** * The HTTP interface: nodes, tickets, operations, checks ([control/apis])

    The handlers of the services that are more than rows, and what the tags of their
    parameters promise the services: which pointers a service may follow. *)

From S2P Require Import Prelude RouterTypes Registry Partition GoLib ControlStatus ControlData ShardMetrics.
From S2P Require Import ShardAssigner StatusManager ShardManager ReduceMetrics NodeManager ConsulModel.
From S2P Require Import ConfigValidator Inventory Catalog Context ServiceManager Mail Tickets Ansible Users Api.

(** ** Nodes ([apis/node.go]) *)

Definition NodeParams_tags (p : NodeParams) : list rule :=
  [req_number (np_NodeId p); req_pointer (np_Active p); req_pointer (np_Status p); req_string (np_Host p);
   req_number (np_Port p); req_pointer (np_Weight p); req_pointer (np_Master p); req_pointer (np_IsEdgeNode p);
   req_number (np_GroupId p); req_number (np_ConfigId p); req_number (np_AnsibleConfigId p)].

Record NodeBatchStoreParams := mkNodeBatchStoreParams { nbs_Nodes : list NodeParams }.
(** There is no [dive]: the nodes themselves are not validated. *)
Definition NodeBatchStoreParams_tags (p : NodeBatchStoreParams) : list rule := [RequiredSlice (length (nbs_Nodes p))].

Record NodeDeleteParams := mkNodeDeleteParams { ndp_Id : Z }.
Definition NodeDeleteParams_tags (p : NodeDeleteParams) : list rule := [req_number (ndp_Id p)].

Record NodeBatchDeleteParams := mkNodeBatchDeleteParams { nbd_Ids : list Z }.
Definition NodeBatchDeleteParams_tags (p : NodeBatchDeleteParams) : list rule := [RequiredSlice (length (nbd_Ids p))].

Definition NodeChangeRoleParams_tags (p : NodeChangeRoleParams) : list rule :=
  [req_number (ncr_GroupId p); req_pointer (ncr_Master p)].

Section Nodes.
Context {DB : Type} {ns : NodeStore DB} {cdb : ControlDb DB} {rt : Runtime} {jsonText : Json ShardsStruct}
  `{CityHash} `{MapOrder} `{FloatToUint} {sv : StructValidator}
  {bNode : GinBinding NodeParams} {bBatch : GinBinding NodeBatchStoreParams} {bRole : GinBinding NodeChangeRoleParams}
  {bDelete : GinBinding NodeDeleteParams} {bBatchDelete : GinBinding NodeBatchDeleteParams}.
Implicit Types (db : DB) (nm : NodeManager).

Definition NodeStore_api (body : string) db nm : go (DB * NodeManager * Result unit) :=
  with_param (ShouldBindJSON NodeParams_tags body) (refuse_nodes db nm) (λ param,
    answer_nodes (NodeManager_Store param db nm)).

Definition NodeBatchStore (body : string) db nm : go (DB * NodeManager * Result unit) :=
  with_param (ShouldBindJSON NodeBatchStoreParams_tags body) (refuse_nodes db nm) (λ param,
    answer_nodes (BatchStore (nbs_Nodes param) db nm)).

Definition NodeUpdate (body : string) db nm : go (DB * NodeManager * Result unit) :=
  with_param (ShouldBindJSON NodeParams_tags body) (refuse_nodes db nm) (λ param,
    answer_nodes (UpdateNode param db nm)).

Definition NodeChangeRole (body : string) db nm : go (DB * NodeManager * Result unit) :=
  with_param (ShouldBindJSON NodeChangeRoleParams_tags body) (refuse_nodes db nm) (λ param,
    answer_nodes (ChangeRole param db nm)).

Definition NodeDelete (body : string) db nm : go (DB * NodeManager * Result unit) :=
  with_param (ShouldBindJSON NodeDeleteParams_tags body) (refuse_nodes db nm) (λ param,
    answer_nodes (DeleteNode (ndp_Id param) db nm)).

Definition NodeBatchDelete (body : string) db nm : go (DB * NodeManager * Result unit) :=
  with_param (ShouldBindJSON NodeBatchDeleteParams_tags body) (refuse_nodes db nm) (λ param,
    answer_nodes (BatchDeleteNode (nbd_Ids param) db nm)).

Definition NodeList db (mm : ShardMetricsManager) : go (Result (list NodeGroup)) :=
  '(err, groups) ← ListNode db mm;
  if negb (Status_Ok err) then mret (ReturnError err) else mret (ReturnJson StatusOk (Some groups)).

(** Before start-up has made a shard manager, there is none to list. *)
Definition ShardList_api {jsonShards : Json (gmap string ShardStatus)} {jsonRelations : Json (gmap Z ShardRelation)}
    (shardManager : option ShardManager) : go (Result ShardList) :=
  shardManager ← go_deref shardManager; mret (ReturnJson StatusOk (Some (GetShards shardManager))).
End Nodes.

(** ** Groups: reducing load ([apis/group.go]) *)

Definition GroupReduceMerticsParams_tags (p : GroupReduceMerticsParams) : list rule :=
  [req_number (grp_GroupId p); req_number (grp_ReduceRate p); req_string (grp_ReduceMode p)].

(** [params.ReduceMetrics] and [params.GroupReduceMetricsDto] have the fields of the
    service's results. *)
Record ReduceMetricsDto := mkReduceMetricsDto { rmd_ShardId : Z; rmd_ReduceNum : double }.
Record GroupReduceMetricsDto := mkGroupReduceMetricsDto { grd_Address : string; grd_ShardInfo : list ReduceMetricsDto }.

Definition reduce_dto (shardList : ReduceMetricsInfo) : GroupReduceMetricsDto :=
  mkGroupReduceMetricsDto (rm_Address shardList)
    ((λ info, mkReduceMetricsDto (rd_ShardId info) (rd_ReduceNum info)) <$> rm_Metrics shardList).

Abbreviation reduce_requests := (list (string * list Z * Status)).

Definition refuse_reduce (r : Result (list GroupReduceMetricsDto))
  : go (reduce_requests * Result (list GroupReduceMetricsDto)) := mret ([], r).

Definition answer_reduce (r : go (list ReduceMetricsInfo * reduce_requests))
  : go (reduce_requests * Result (list GroupReduceMetricsDto)) :=
  '(hostShardList, requests) ← r; mret (requests, ReturnData (fmap (M:=list) reduce_dto hostShardList)).

Definition GroupReduceMetrics `{CityHash} `{MapOrder} `{GoSort} {DB : Type} `{ControlDb DB}
    {jsonNode : Json NodeBasicInfo} {jsonShards : Json HostShards} {rt : Runtime} `{HttpPost}
    {jsonIds : Json (list Z)} {sv : StructValidator} {bReduce : GinBinding GroupReduceMerticsParams}
    (body : string) (db : DB) (mm : ShardMetricsManager)
  : go (reduce_requests * Result (list GroupReduceMetricsDto)) :=
  with_param (ShouldBindJSON GroupReduceMerticsParams_tags body) refuse_reduce (λ param,
    answer_reduce (ReduceMetrics db mm param)).

(** ** Dividing shards ([apis/tools.go]) *)

Definition AssignShardListParams_tags (p : AssignShardListParams) : list rule :=
  [req_string (asp_DatabaseName p); req_string (asp_TableName p); req_number (asp_Type p);
   req_number (asp_AssignedListNum p)].

Definition AssignTableShardList_api `{CityHash} `{MapOrder} `{GoSort} {rt : Runtime} {DB : Type} `{ControlDb DB}
    {sv : StructValidator} {bAssign : GinBinding AssignShardListParams}
    (query : string) (db : DB) (mm : ShardMetricsManager) : go (Result AssignedTableShardResult) :=
  with_param (ShouldBindQuery AssignShardListParams_tags query) mret (λ param,
    '(shardLists, status) ← AssignTableShardList db mm param;
    mret (ReturnJson status (Some shardLists))).

(** ** Checks ([apis/config_validator.go]) *)

Record CheckGroupReadyToBeMasterParams := mkCheckGroupReadyToBeMasterParams { cgp_GroupName : string }.
Definition CheckGroupReadyToBeMasterParams_tags (p : CheckGroupReadyToBeMasterParams) : list rule :=
  [req_string (cgp_GroupName p)].

Definition CheckGroupReadyToBeMaster_api `{CityHash} `{MapOrder} {rt : Runtime} {DB : Type} `{ControlDb DB}
    {jsonNode : Json NodeBasicInfo} {jsonInfo : Json (gmap string ShardInfo)}
    {jsonShards : Json (gmap string ShardStatus)} {jsonRelations : Json (gmap Z ShardRelation)}
    {jsonText : Json ShardsStruct} {sv : StructValidator} {bCheck : GinBinding CheckGroupReadyToBeMasterParams}
    (query : string) (db : DB) (mm : ShardMetricsManager) (sg : option ShardManager)
  : go (Result CheckGroupReadyToBeMasterResult) :=
  with_param (ShouldBindQuery CheckGroupReadyToBeMasterParams_tags query) mret (λ param,
    '(result, status) ← CheckGroupReadyToBeMaster db mm sg (cgp_GroupName param);
    mret (ReturnJson status result)).

(** ** Publishing ([apis/table.go], [apis/cluster.go], [apis/proxy_table_config.go]) *)

Section Publishing.
Context {V : Type} `{EqDecision V} `{JsonAny V}
  `{CityHash} `{MapOrder} `{GoSort} {rt : Runtime} `{FloatToUint} `{FloatText} `{Base64} `{ConfigJson}
  {DB : Type} `{ControlDb DB} `{ConfigDb DB} {K : Type} `{ConsulHttp K}.
Implicit Types (cfg : ControlConfig) (db : DB) (k : K).

Definition CheckUnsynchronizedConfig_api cfg (now : Now) db (mm : ShardMetricsManager) (nm : NodeManager) k
  : go (Result (gset Z)) :=
  data ← CheckUnsynchronizedConfig (V:=V) cfg now db mm nm k; mret (ReturnData data).

Definition TableSynchronizeToConsul cfg db k : go (K * Result unit) :=
  r ← SynchronizeDatabaseTableSchemaToConsul cfg db k; mret (answer r).

Definition ClusterSynchronizeToConsul cfg (now : Now) db (mm : ShardMetricsManager) (nm : NodeManager) k
  : go (K * Result unit) :=
  r ← SynchronizeClusterInfoToConsul cfg now db mm nm k; mret (answer r).

Definition ProxyTableConfigSynchronizeToConsul cfg (now : Z) db k : DB * (K * Result unit) :=
  let '(db, r) := SynchronizeProxyTableConfigSchemaToConsul cfg now db k in (db, answer r).
End Publishing.

Definition command_dtos (cfg : Config) : list LaserCommandParams :=
  ((λ command, mkLaserCommandParams command SingleOperation) <$> cf_singleOperations cfg) ++
  ((λ command, mkLaserCommandParams command MultipleOperation) <$> cf_multipleOperations cfg).

Definition TableListAllCommands (cfg : Config) : Result (ListResult LaserCommandParams) :=
  let commands := command_dtos cfg in
  ReturnData (mkListResult (u32 (Z.of_nat (length commands))) commands).

(** ** Services and users ([apis/service.go], [apis/user.go]) *)

Definition ServiceStore {KVS : Type} {kvOps : ConsulKV KVS} {rt : Runtime} {jsonRouterConfig : Json RouterConfigParams}
    {sv : StructValidator} {bService : GinBinding ServiceAdd} (body : string) (client : KVS + error)
  : (KVS + error) * Result unit :=
  with_param (ShouldBindJSON no_tags body) (pair client) (λ param,
    match NewServiceManager client with
    | (Some kv, status) =>
        if negb (Status_Ok status) then (client, ReturnJson status None)
        else let '(kv, addStatus) := AddService param kv in (inl kv, ReturnJson addStatus None)
    | (None, status) => (client, ReturnJson status None)
    end).

Definition UserInfo {http : Http} {xml : XmlDecode} {rt : Runtime} (cfg : Config) (now : Z) (token service : string)
    (sessions : Sessions) : Sessions * Result UserInfoDto :=
  let '(sessions, (userInfo, err)) := User_Info cfg now token service sessions in
  if negb (Status_Ok err) then (sessions, ReturnError err) else (sessions, ReturnJson StatusOk (Some userInfo)).

(** ** Operations on nodes ([apis/node.go]) *)

Definition NodeBatchOperationParams_tags (p : NodeBatchOperationParams) : list rule :=
  [RequiredSlice (length (nbo_Nodes p)); req_string (nbo_Tags p); req_string (nbo_OperationName p)].

Record NodeBatchOperationInfoParams := mkNodeBatchOperationInfoParams { noip_GroupName : string }.

Section Operations.
Context {W F : Type} {aw : AnsibleWorld W F} {rt : Runtime} {sv : StructValidator}
  {bOperation : GinBinding NodeBatchOperationParams} {bInfo : GinBinding NodeBatchOperationInfoParams}.

Definition AnsibleOperation_api (body : string) (m : AnsibleOperationManager W)
  : AnsibleOperationManager W * Result NodeBatchOperationResult :=
  with_param (ShouldBindJSON NodeBatchOperationParams_tags body) (pair m) (λ param,
    let '(m, status, result) := AnsibleOperation param m in (m, ReturnJson status (Some result))).

Definition GetAnsbileOperationInfo (query : string) (m : AnsibleOperationManager W) : Result NodeBatchOperationInfo :=
  with_param (ShouldBindQuery no_tags query) id (λ param,
    let '(status, result) := GetOperationInfo (noip_GroupName param) m in ReturnJson status (Some result)).
End Operations.

(** ** Tickets ([apis/ticket.go]) *)

Definition TicketParams_tags (p : TicketParams) : list rule :=
  [req_string (tkp_Creator p); RequiredSlice (length (tkp_SDKType p)); req_string (tkp_BusinessDescription p);
   req_string (tkp_DatabaseName p); req_string (tkp_TableName p); gte_0 (tkp_ReadQPS p); gte_0 (tkp_WriteQPS p);
   gte_0 (tkp_RequestDelayLimit p); gte_0 (tkp_DataExpirationTime p); gte_0 (tkp_DataSize p);
   gte_0 (tkp_ValueSize p); RequiredSlice (length (tkp_Command p)); req_pointer (tkp_Status p)].

Definition TicketProcessParams_tags (p : TicketProcessParams) : list rule :=
  [req_string (tpp_Handler p); OneOf [0; 1] (tpp_TicketAcceptStatus p); req_string (tpp_DatabaseName p);
   req_string (tpp_TableName p); gte_0 (tpp_DcId p); req_pointer (tpp_DataExpirationTime p);
   req_pointer (tpp_TableConfigId p); req_string (tpp_TableConfigName p); req_pointer (tpp_PartitionNum p)].

Record TicketDeleteParams := mkTicketDeleteParams { tkd_Id : Z }.
Definition TicketDeleteParams_tags (p : TicketDeleteParams) : list rule := [req_number (tkd_Id p)].

(** [TicketDto] has the fields of [TicketParams], which the list copies one by one. *)
Abbreviation TicketDto := TicketParams.

Section TicketApi.
Context {DB : Type} {rsTicket : RowStore DB Ticket} {gormTicket : Gorm DB Ticket}
  {rsDatabase : RowStore DB LaserDatabase} {rsTable : RowStore DB Table}
  {asLimit : AssocStore DB TrafficRestrictionLimit} {asNode : AssocStore DB Node}
  {rt : Runtime} {tpl : Templates} {sv : StructValidator}
  {bTicket : GinBinding TicketParams} {bList : GinBinding TicketListParams} {bProcess : GinBinding TicketProcessParams}
  {bDelete : GinBinding TicketDeleteParams}.
Implicit Types (db : DB) (sent : list mail) (cfg : Config).

Definition answer_mail (r : go (DB * list mail * Status)) : go (DB * list mail * Result unit) :=
  '(db, sent, status) ← r; mret (db, sent, ReturnJson status None).

Definition refuse_mail db sent (r : Result unit) : go (DB * list mail * Result unit) := mret (db, sent, r).

Definition TicketStcore cfg (now : Z) (body : string) db sent : go (DB * list mail * Result unit) :=
  with_param (ShouldBindJSON TicketParams_tags body) (refuse_mail db sent) (λ param,
    answer_mail (Ticket_Store cfg now param db sent)).

Definition TicketList (query : string) db : Result (ListResult TicketDto) :=
  with_param (ShouldBindQuery no_tags query) id (λ param,
    let '(list, total) := Ticket_List db param true in ReturnData (mkListResult total list)).

Definition TicketUpdate cfg (now : Z) (body : string) db sent : go (DB * list mail * Result unit) :=
  with_param (ShouldBindJSON TicketParams_tags body) (refuse_mail db sent) (λ param,
    answer_mail (Ticket_Update cfg now param db sent)).

Definition TicketProcess cfg (now : Z) (body : string) db sent : go (DB * list mail * Result unit) :=
  with_param (ShouldBindJSON TicketProcessParams_tags body) (refuse_mail db sent) (λ param,
    answer_mail (Process cfg now param db sent)).

Definition TicketDelete (body : string) db : DB * Result unit :=
  with_param (ShouldBindJSON TicketDeleteParams_tags body) (pair db) (λ param, answer (Ticket_Delete (tkd_Id param) db)).
End TicketApi.

(** ** Theorems: what the tags promise the services *)

Section Promises.
Context {sv : StructValidator} {svLaws : ValidatorLaws}.

Lemma bound_pointer {P A} `{GinBinding P} (tags : P → list rule) body p (x : option A) :
  ShouldBindJSON tags body = inl p → req_pointer x ∈ tags p → is_Some x.
Proof.
  intros Hb Hin. apply (bound_required tags) in Hb. destruct x as [a|]; [by exists a|].
  exfalso. apply Hb. exact Hin.
Qed.

Lemma bound_oneof {P} `{GinBinding P} (tags : P → list rule) body p l v :
  ShouldBindJSON tags body = inl p → OneOf l v ∈ tags p → ∃ x, v = Some x ∧ x ∈ l.
Proof.
  unfold ShouldBindJSON, should_bind, ValidateStruct. destruct (decode_JSON body) as [p'|]; [|done].
  destruct (validate_Struct body (tags p')) eqn:E; [done|]. intros [= ->]. by eapply validate_oneof.
Qed.

(** The pointers that processing a ticket follows in its parameters are set, and its
    decision is one of two. *)
Theorem TicketProcess_pointers `{GinBinding TicketProcessParams} body p :
  ShouldBindJSON TicketProcessParams_tags body = inl p →
  (tpp_TicketAcceptStatus p = Some 0 ∨ tpp_TicketAcceptStatus p = Some 1) ∧
  is_Some (tpp_DataExpirationTime p) ∧ is_Some (tpp_TableConfigId p) ∧ is_Some (tpp_PartitionNum p).
Proof.
  intros Hb. split_and!.
  - destruct (bound_oneof _ _ _ [0; 1] (tpp_TicketAcceptStatus p) Hb) as (x & -> & Hx); [by repeat constructor|].
    apply elem_of_cons in Hx as [->|Hx%list_elem_of_singleton]; [by left|right; by rewrite Hx].
  - apply (bound_pointer _ _ _ _ Hb). by repeat constructor.
  - apply (bound_pointer _ _ _ _ Hb). by repeat constructor.
  - apply (bound_pointer _ _ _ _ Hb). by repeat constructor.
Qed.
End Promises.

Section Batches.
Context {DB : Type} {ns : NodeStore DB} {cdb : ControlDb DB} {rt : Runtime} {jsonText : Json ShardsStruct}
  `{CityHash} {sv : StructValidator} {bBatch : GinBinding NodeBatchStoreParams}.

(** The nodes of a batch are not validated: one that passes the check for duplicates
    but lacks a pointer brings the handler down. *)
Theorem NodeBatchStore_nil body db nm p ps :
  ShouldBindJSON NodeBatchStoreParams_tags body = inl (mkNodeBatchStoreParams (p :: ps)) →
  Status_Ok (checkDupNode db (np_GroupId p) (np_Id p) (np_Host p) (np_Port p) (np_NodeId p)) = true →
  np_LeaderShardList p = None →
  ∃ e, NodeBatchStore body db nm = Panic e.
Proof.
  intros Hb Hcheck Hnil. unfold NodeBatchStore. rewrite Hb. cbn [with_param nbs_Nodes].
  unfold answer_nodes, BatchStore, and_update, batchStore. cbn [batch_loop]. rewrite Hcheck. cbn [negb].
  unfold node_values. rewrite Hnil.
  destruct (np_Active p), (np_Status p), (np_Weight p), (np_Master p), (np_IsEdgeNode p);
    (eexists; reflexivity).
Qed.
End Batches.
