(* ===== verification/Routes.v ===== *)
(** * The routes of the control plane ([control/apis/router.go], [control/cmd/server.go])

    The server registers its middleware and routes with gin once, at start-up.  gin is
    the class [Gin]: a group has the base path it was made with and copies the
    middleware its parent has at that moment; a route gets what its group has when it is
    registered.  [LoadHTMLGlob] parses the built pages and panics where it cannot: what
    [html/template] makes of a pattern, which depends on the files of the machine, is
    the class [HtmlTemplates]. *)

From S2P Require Import Prelude RouterTypes.

(** ** What gin offers *)

Inductive middleware := Logger | Recovery | CorsHeaders | AuthCheck.
#[export] Instance middleware_eq_dec : EqDecision middleware.
Proof. solve_decision. Defined.

(** A handler is named by the function that registers it. *)
Record route := mkRoute { rt_method : string; rt_path : string; rt_middleware : list middleware; rt_handler : string }.

(** Groups are numbered in the order they are made; the engine is number 0. *)
Inductive gin_cmd :=
  | LoadHTMLGlob (pattern : string)
  | Static (path root : string)
  | StaticFile (path file : string)
  | Group (parent : nat) (path : string)
  | Use (group : nat) (m : middleware)
  | Handle (group : nat) (method path handler : string).

Class Gin (E : Type) := {
  gin_Default : E;
  gin_run : gin_cmd → E → go E;
  gin_groups : E → list (string * list middleware);
  gin_routes : E → list route
}.

(** [ParseGlob] of [html/template]: the error, if any.  It is one that no file matches
    the pattern, or that a file cannot be read or is no template. *)
Class HtmlTemplates := { template_ParseGlob : string → option error }.

(** *** Paths *)

Definition segment_ok (s : string) : bool :=
  negb (String.eqb s "" || String.eqb s "." || String.eqb s "..").

(** A path that begins with a slash and has only proper segments. *)
Definition clean_abs (p : string) : bool :=
  match strings_Split "/" p with
  | "" :: l => (negb (Nat.eqb (length l) 0) && forallb segment_ok l)%bool
  | _ => false
  end.

(** The same, with or without the slash. *)
Definition clean_rel (p : string) : bool :=
  match strings_Split "/" p with
  | "" :: l => (negb (Nat.eqb (length l) 0) && forallb segment_ok l)%bool
  | l => forallb segment_ok l
  end.

Definition clean_base (p : string) : bool := (String.eqb p "/" || clean_abs p)%bool.

(** The two joined by one slash. *)
Definition join_clean (base rel : string) : string :=
  (if String.eqb base "/" then "" else base) +:+ (if String.prefix "/" rel then rel else "/" +:+ rel).

(** *** Conflicts *)

Fixpoint before_star (p : string) : option string :=
  match p with
  | "" => None
  | String c p => if Ascii.eqb c "*" then Some "" else (λ q, String c q) <$> before_star p
  end.

Definition catches (p q : string) : bool :=
  match before_star p with Some prefix => String.prefix prefix q | None => false end.

(** Two paths of one method that gin refuses to have both: equal ones, and one that
    the wildcard of the other catches. *)
Definition clash (p q : string) : bool := (String.eqb p q || catches p q || catches q p)%bool.

Definition free (method path : string) (routes : list route) : bool :=
  forallb (λ r, negb (String.eqb (rt_method r) method && clash (rt_path r) path)) routes.

(** *** The table of groups and routes that gin documents *)

Record table := mkTable { tb_groups : list (string * list middleware); tb_routes : list route }.

Definition add_route (g : string * list middleware) (method path handler : string) (t : table) : option table :=
  let full := join_clean g.1 path in
  if (clean_base g.1 && clean_rel path && free method full (tb_routes t))%bool
  then Some (mkTable (tb_groups t) (tb_routes t ++ [mkRoute method full g.2 handler]))
  else None.

Definition table_cmd `{HtmlTemplates} (c : gin_cmd) (t : table) : option table :=
  match c with
  | LoadHTMLGlob pattern =>
      match template_ParseGlob pattern with None => Some t | Some _ => None end
  | Static path _ =>
      engine ← tb_groups t !! 0%nat;
      t ← add_route engine "GET" (path +:+ "/*filepath") "Static" t;
      add_route engine "HEAD" (path +:+ "/*filepath") "Static" t
  | StaticFile path _ =>
      engine ← tb_groups t !! 0%nat;
      if forallb (λ r, negb (String.eqb (rt_path r) path)) (tb_routes t)
      then Some (mkTable (tb_groups t) (tb_routes t ++ [mkRoute "GET" path engine.2 "StaticFile";
                                                        mkRoute "HEAD" path engine.2 "StaticFile"]))
      else None
  | Group parent path =>
      g ← tb_groups t !! parent;
      if (clean_base g.1 && clean_rel path)%bool
      then Some (mkTable (tb_groups t ++ [(join_clean g.1 path, g.2)]) (tb_routes t))
      else None
  | Use group m =>
      g ← tb_groups t !! group;
      Some (mkTable (<[group := (g.1, g.2 ++ [m])]> (tb_groups t)) (tb_routes t))
  | Handle group method path handler =>
      g ← tb_groups t !! group;
      add_route g method path handler t
  end.

Definition table_of {E} `{Gin E} (e : E) : table := mkTable (gin_groups e) (gin_routes e).

(** Wherever the table says what comes of a command, gin does that and does not panic;
    pages that cannot be parsed make [template.Must] panic. *)
Class GinLaws (E : Type) `{Gin E} `{HtmlTemplates} := {
  gin_Default_table : table_of gin_Default = mkTable [("/", [Logger; Recovery])] [];
  gin_run_table c e t : table_cmd c (table_of e) = Some t → ∃ e', gin_run c e = Ret e' ∧ table_of e' = t;
  gin_run_pages pattern e err :
    template_ParseGlob pattern = Some err → gin_run (LoadHTMLGlob pattern) e = Panic (ExplicitPanic (err_msg err))
}.

(** ** The program *)

(** [router.GET] and [router.POST]. *)
Definition GET (group : nat) (path handler : string) : gin_cmd := Handle group "GET" path handler.
Definition POST (group : nat) (path handler : string) : gin_cmd := Handle group "POST" path handler.

(** A group with its own middleware. *)
Definition with_auth (group : nat) (path : string) : list gin_cmd := [Group 0 path; Use group AuthCheck].

Definition crud (group : nat) (name : string) : list gin_cmd :=
  [POST group "/store" (name +:+ "Store"); GET group "/list" (name +:+ "List");
   POST group "/update" (name +:+ "Update"); POST group "/delete" (name +:+ "Delete")].

(** The pages that the frontend's build leaves. *)
Definition dist_pages (staticRoot : string) : string := staticRoot +:+ "/frontend/dist/*.html".

Definition page_routes (staticRoot : string) : list gin_cmd :=
  [LoadHTMLGlob (dist_pages staticRoot); Static "/static" (staticRoot +:+ "/frontend/dist/static");
   StaticFile "/" (staticRoot +:+ "/frontend/dist/index.html"); Handle 0 "GET" "/swagger/*any" "Swagger"].

Definition database_routes : list gin_cmd := with_auth 1 "/database" ++ crud 1 "DB".

Definition table_routes : list gin_cmd :=
  with_auth 2 "/table" ++
  [POST 2 "/store" "TableStore"; GET 2 "/list" "TableList"; GET 2 "/list_detail" "TableListDetail";
   POST 2 "/update" "TableUpdate"; POST 2 "/delete" "TableDelete"; POST 2 "/synchronize" "TableSynchronizeToConsul";
   GET 2 "/list_commands" "TableListAllCommands"].

Definition config_routes : list gin_cmd :=
  with_auth 3 "/node_config" ++ crud 3 "NodeConfig" ++
  with_auth 4 "/table_config" ++
  [POST 4 "/store" "TableConfigStore"; GET 4 "/list" "TableConfigList";
   GET 4 "/list_detail" "TableConfigListWithDetailItems"; POST 4 "/update" "TableConfigUpdate";
   POST 4 "/delete" "TableConfigDelete"] ++
  with_auth 5 "/proxy_config" ++
  [POST 5 "/store" "ProxyTableConfigStore"; GET 5 "/list" "ProxyTableConfigList";
   POST 5 "/update" "ProxyTableConfigUpdate"; POST 5 "/synchronize" "ProxyTableConfigSynchronizeToConsul"].

Definition service_routes : list gin_cmd :=
  with_auth 6 "/keycheck" ++ [POST 6 "/list" "KeyCheck"] ++
  with_auth 7 "/user" ++ [GET 7 "/info" "UserInfo"] ++
  with_auth 8 "/service" ++ [POST 8 "/store" "ServiceStore"].

Definition cluster_routes : list gin_cmd :=
  with_auth 9 "/dc" ++ [POST 9 "/store" "DcStore"; POST 9 "/update" "DcUpdate"; GET 9 "/list" "DcList"] ++
  with_auth 10 "/cluster" ++
  [POST 10 "/store" "ClusterStore"; GET 10 "/list" "ClusterList"; POST 10 "/update" "ClusterUpdate";
   POST 10 "/synchronize" "ClusterSynchronizeToConsul"] ++
  with_auth 11 "/group" ++
  [POST 11 "/store" "GroupStore"; GET 11 "/list" "GroupList"; POST 11 "/update" "GroupUpdate";
   POST 11 "/delete" "GroupDelete"; POST 11 "/reduce_metrics" "GroupReduceMetrics"].

Definition node_routes : list gin_cmd :=
  with_auth 12 "/node" ++
  [POST 12 "/store" "NodeStore"; POST 12 "/batch_store" "NodeBatchStore"; POST 12 "/update" "NodeUpdate";
   POST 12 "/change_role" "NodeChangeRole"; POST 12 "/delete" "NodeDelete"; POST 12 "/batch_delete" "NodeBatchDelete";
   GET 12 "/list" "NodeList"; GET 12 "/list_shards" "ShardList"; POST 12 "/ansible" "AnsibleOperation";
   GET 12 "/operation_info" "GetAnsbileOperationInfo"].

(** Only the first group of metrics gets the middleware: the lines of the others name
    the first group again. *)
Definition nodePhysicalMetricsPrefix : nat := 13.

Definition metric_routes : list gin_cmd :=
  with_auth nodePhysicalMetricsPrefix "/node_physical_metric" ++
  [POST 13 "/insert" "NodePhysicalMetricsInsert"; GET 13 "/list" "NodePhysicalMetricsList";
   GET 13 "/node_list" "NodePhysicalMetricsNodeList"] ++
  [Group 0 "/node_running_metric"; Use nodePhysicalMetricsPrefix AuthCheck;
   POST 14 "/insert" "NodeRunningMetricsInsert"; GET 14 "/list" "NodeRunningMetricsList";
   GET 14 "/node_list" "NodeRunningMetricsNodeList"] ++
  [Group 0 "/group_running_metric"; Use nodePhysicalMetricsPrefix AuthCheck;
   POST 15 "/insert" "GroupRunningMetricsInsert"; GET 15 "/list" "GroupRunningMetricsList";
   GET 15 "/group_list" "GroupRunningMetricsGroupList"] ++
  [Group 0 "resource_pool_running_metric"; Use nodePhysicalMetricsPrefix AuthCheck;
   POST 16 "/insert" "ResourcePoolRunningMetricsInsert"; GET 16 "/list" "ResourcePoolRunningMetricsList";
   GET 16 "/pool_list" "ResourcePoolRunningMetricsPoolList"] ++
  [Group 0 "cluster_running_metric"; Use nodePhysicalMetricsPrefix AuthCheck;
   POST 17 "/insert" "ClusterRunningMetricsInsert"; GET 17 "/list" "ClusterRunningMetricsList"] ++
  [Group 0 "table_metric"; Use nodePhysicalMetricsPrefix AuthCheck;
   POST 18 "/insert" "TableMetricsInsert"; GET 18 "/list" "TableMetricsList";
   GET 18 "/table_list" "TableMetricsTableList"] ++
  [Group 0 "system_index"; Use nodePhysicalMetricsPrefix AuthCheck;
   POST 19 "/insert" "SystemIndexInsert"; GET 19 "/list" "SystemIndexList"].

Definition tool_routes : list gin_cmd :=
  with_auth 20 "/version_change" ++
  [GET 20 "/show" "VersionChangeShow"; POST 20 "/clear" "VersionChangeClear"; POST 20 "/version" "VersionChangeVersion";
   POST 20 "/rollback" "VersionChangeRollback"] ++
  with_auth 21 "/tools" ++ [GET 21 "/assign_table_shard_list" "AssignTableShardList"].

Definition inventory_routes : list gin_cmd :=
  with_auth 22 "/machine_category" ++ crud 22 "MachineCategory" ++
  with_auth 23 "/machine" ++ crud 23 "Machine" ++
  with_auth 24 "/ansible_config" ++ crud 24 "AnsibleConfig".

Definition ticket_routes : list gin_cmd :=
  with_auth 25 "/ticket" ++
  [POST 25 "/store" "TicketStcore"; GET 25 "/list" "TicketList"; POST 25 "/update" "TicketUpdate";
   POST 25 "/process" "TicketProcess"; POST 25 "/delete" "TicketDelete"] ++
  with_auth 26 "/config_validator" ++
  [GET 26 "/check_group_as_master" "CheckGroupReadyToBeMaster";
   GET 26 "/unsynchronized_config" "CheckUnsynchronizedConfig"].

Definition RegisterRoutes (staticRoot : string) : list gin_cmd :=
  page_routes staticRoot ++ database_routes ++ table_routes ++ config_routes ++ service_routes ++ cluster_routes ++ node_routes ++
  metric_routes ++ tool_routes ++ inventory_routes ++ ticket_routes.

(** What the server does before it listens. *)
Definition serve {E} `{Gin E} (staticRoot : string) : go E :=
  go_fold (λ e c, gin_run c e) (Use 0 CorsHeaders :: RegisterRoutes staticRoot) gin_Default.

(** ** Theorems *)

Section Serving.
Context {E : Type} {gin : Gin E} {pages : HtmlTemplates} {laws : GinLaws E}.

Fixpoint table_run (cs : list gin_cmd) (t : table) : option table :=
  match cs with
  | [] => Some t
  | c :: cs => t ← table_cmd c t; table_run cs t
  end.

(** gin follows the table. *)
Lemma gin_follows cs e t :
  table_run cs (table_of e) = Some t → ∃ e', go_fold (λ e c, gin_run c e) cs e = Ret e' ∧ table_of e' = t.
Proof.
  revert e. induction cs as [|c cs IH]; cbn [table_run go_fold]; intros e; [by intros [= <-]; exists e|].
  destruct (table_cmd c (table_of e)) as [t1|] eqn:Ec; [|done]. cbn [mbind option_bind].
  destruct (gin_run_table c e t1 Ec) as (e1 & Hrun & Ht). rewrite Hrun, <- Ht. cbn [mbind go_bind]. apply IH.
Qed.

(** What the routes are is what the commands make of gin's default. *)
Lemma serve_returns staticRoot :
  template_ParseGlob (dist_pages staticRoot) = None →
  ∃ e t, serve staticRoot = Ret e ∧ table_of e = t ∧
    table_run (drop 1 (RegisterRoutes staticRoot)) (mkTable [("/", [Logger; Recovery; CorsHeaders])] []) = Some t.
Proof.
  intros Hpages.
  destruct (table_run (drop 1 (RegisterRoutes staticRoot)) (mkTable [("/", [Logger; Recovery; CorsHeaders])] [])) as [t|] eqn:Et;
    [|by vm_compute in Et].
  assert (table_run (Use 0 CorsHeaders :: RegisterRoutes staticRoot) (mkTable [("/", [Logger; Recovery])] []) = Some t) as Et'.
  { change (RegisterRoutes staticRoot) with (LoadHTMLGlob (dist_pages staticRoot) :: drop 1 (RegisterRoutes staticRoot)).
    revert Et. generalize (drop 1 (RegisterRoutes staticRoot)). intros rest Et.
    cbn [table_run table_cmd]. rewrite Hpages. exact Et. }
  rewrite <- gin_Default_table in Et'. destruct (gin_follows _ _ _ Et') as (e & Hrun & He).
  exists e, t. split; [exact Hrun|]. split; [exact He|reflexivity].
Qed.

(** Without pages that parse, nothing is registered. *)
Lemma serve_panics staticRoot err :
  template_ParseGlob (dist_pages staticRoot) = Some err → serve staticRoot = Panic (ExplicitPanic (err_msg err)).
Proof.
  intros Hpages. unfold serve. cbn [go_fold].
  destruct (gin_run_table (Use 0 CorsHeaders) gin_Default (mkTable [("/", [Logger; Recovery; CorsHeaders])] []))
    as (e & -> & _); [by rewrite gin_Default_table|]. cbn [mbind go_bind].
  change (RegisterRoutes staticRoot) with (LoadHTMLGlob (dist_pages staticRoot) :: drop 1 (RegisterRoutes staticRoot)).
  generalize (drop 1 (RegisterRoutes staticRoot)). intros rest. cbn [go_fold]. by rewrite (gin_run_pages _ _ _ Hpages).
Qed.

(** The prefixes whose routes are not checked. *)
Definition unchecked_prefixes : list string :=
  ["/node_running_metric/"; "/group_running_metric/"; "/resource_pool_running_metric/"; "/cluster_running_metric/";
   "/table_metric/"; "/system_index/"].

Definition page (r : route) : bool := bool_decide (rt_handler r ∈ ["Static"; "StaticFile"; "Swagger"]).

Definition unchecked (r : route) : bool :=
  (page r || existsb (λ p, String.prefix p (rt_path r)) unchecked_prefixes)%bool.

Definition expected_middleware (r : route) : list middleware :=
  [Logger; Recovery; CorsHeaders] ++ (if unchecked r then [] else [AuthCheck]).

End Serving.

(** ** A router in memory *)

(** A machine on which the frontend was built under one root, and one without it. *)
Definition built_at (root : string) : HtmlTemplates :=
  {| template_ParseGlob pattern :=
       if String.eqb pattern (dist_pages root) then None
       else Some (mkError ("html/template: pattern matches no files: " +:+ pattern) false) |}.

Definition mem_gin (pages : HtmlTemplates) : Gin table :=
  {| gin_Default := mkTable [("/", [Logger; Recovery])] [];
     gin_run c t :=
       match table_cmd c t with
       | Some t' => Ret t'
       | None => Panic (ExplicitPanic match c with
                                      | LoadHTMLGlob pattern => from_option err_msg "" (template_ParseGlob pattern)
                                      | _ => "route"
                                      end)
       end;
     gin_groups := tb_groups;
     gin_routes := tb_routes |}.

Lemma mem_gin_laws pages : GinLaws table (H:=mem_gin pages).
Proof.
  split; [done| |].
  - intros c e t Hc. exists t. split; [|by destruct t].
    cbn. destruct e as [g r]. cbn in Hc. unfold table_of in Hc. cbn in Hc. by rewrite Hc.
  - intros pattern e err Hp. cbn. by rewrite Hp.
Qed.

