(* ===== verification/KeyCheck.v ===== *)
(** * Checking keys ([control/service/keycheck.go], [control/apis/keycheck.go])

    The control plane is itself a client of the store: to check a key it asks the
    leader of the key's shard, or every server that has the shard, through the Go
    client of [LaserClient.v]. *)

From S2P Require Import Prelude RouterTypes Partition LoadBalance RouterDb Pool ThriftConn Registry Pullers Router.
From S2P Require Import ConfigManager LaserTypes LaserClient ControlStatus Context Api.

(** ** Data *)

(** [StatusToName] of the thrift statuses ([if/laser/ttypes.go]). *)
Definition StatusToName : list (Z * string) :=
  [(0, "OK"); (1, "RS_NOT_FOUND"); (2, "RS_CORRUPTION"); (3, "RS_NOT_SUPPORTED"); (4, "RS_INVALID_ARGUMENT");
   (5, "RS_IO_ERROR"); (6, "RS_MERGE_INPROGRESS"); (7, "RS_IN_COMPLETE"); (8, "RS_SHUTDOWN_INPROGRESS");
   (9, "RS_TIMEDOUT"); (10, "RS_ABORTED"); (11, "RS_BUSY"); (12, "RS_EXPIRED"); (13, "RS_TRYAGAIN");
   (14, "RS_COMPACTION_TOO_LARGE"); (15, "RS_ERROR"); (16, "RS_EMPTY"); (17, "RS_WRITE_IN_FOLLOWER");
   (18, "RS_KEY_EXPIRE"); (19, "RS_KEY_EXISTS"); (20, "RS_PART_FAILED"); (21, "RS_TRAFFIC_RESTRICTION");
   (22, "RS_OPERATION_DENIED"); (101, "SERVICE_NOT_EXISTS_PARTITION"); (102, "SERVICE_UNION_DATA_TYPE_INVALID");
   (200, "CLIENT_THRIFT_CALL_ERROR"); (201, "CLIENT_THRIFT_CALL_NO_SHARD_ID"); (202, "CLIENT_UNION_DATA_TYPE_INVALID");
   (203, "CLIENT_THRIFT_CALL_TIMEOUT"); (204, "CLIENT_THRIFT_FUTURE_TIMEOUT"); (301, "RP_SOURCE_NOT_FOUND");
   (302, "RP_ROLE_ERROR"); (303, "RP_SOURCE_READ_ERROR"); (304, "RP_SOURCE_DB_REMOVED");
   (305, "RP_SOURCE_WAL_LOG_REMOVED"); (401, "GENERATOR_TABLE_NOT_EXISTS"); (402, "GENERATOR_GET_TABLE_LOCK_FAIL");
   (403, "GENERATOR_TABLE_PROCESSING"); (404, "GENERATOR_TABLE_SET_QUEUE_FAIL"); (405, "GENERATOR_TABLE_SET_HASH_FAIL");
   (406, "GENERATOR_TABLE_SET_LOCK_FAIL"); (407, "GENERATOR_TABLE_DEL_LOCK_FAIL");
   (408, "GENERATOR_TABLE_DEL_QUEUE_FAIL"); (10000, "UNKNOWN_ERROR")].

Definition StatusToValue : list (string * Z) := (λ p, (p.2, p.1)) <$> StatusToName.

Definition laser_Status_String (p : Z) : string := default "<UNSET>" ((list_to_map StatusToName : gmap Z string) !! p).

Definition StatusFromString (s : string) : Z + error :=
  match (list_to_map StatusToValue : gmap string Z) !! s with
  | Some v => inl v
  | None => inr (mkError ("not a valid Status string") false)
  end.

Record KeyCheckParams := mkKeyCheckParams {
  kcp_Database : string; kcp_Table : string; kcp_Key : list string; kcp_Checkall : bool
}.
Definition KeyCheckParams_tags (p : KeyCheckParams) : list rule :=
  [req_string (kcp_Database p); req_string (kcp_Table p); RequiredSlice (length (kcp_Key p))].

Record KeyCheckIdInfo := mkKeyCheckIdInfo { kci_PartitionId : string; kci_ShardId : string }.

Record KeyCheckDto := mkKeyCheckDto {
  kcd_Role : string; kcd_Ip : string; kcd_Port : Z; kcd_Dc : string; kcd_Status : string; kcd_Value : string
}.

(** [InitVal]: the name of the service, a variable of the package. *)
Definition InitVal (cfg : Config) : string := "laser_" +:+ cf_serviceName cfg.

Definition getLaserKey (dbName tbName : string) (keyName : list string) : LaserKey :=
  mkLaserKey dbName tbName keyName [].

(** [option.Dc] is set by the caller. *)
Definition KeyCheck_getClientOption (cfg : Config) (serviceName : string) (options : LaserOption) (shardId : Z)
    (dc : string) : ClientOption :=
  {| co_ServiceName := serviceName;
     co_ShardId := shardId;
     co_ShardType := match lo_ReadMode options with
                     | LEADER_READ => ShardType_LEADER
                     | FOLLOWER_READ => ShardType_FOLLOWER
                     | MIXED_READ => ShardType_ALL
                     end;
     co_Protocol := ServerProtocol_THRIFT;
     co_Loadbalance := lo_LoadBalance options;
     co_TargetServerAddress := lo_TargetServerAddress options;
     co_UserBalance := None;
     co_LocalFirstConfig := mkBalanceLocalFirstConfig (cf_httpServerHost cfg) (lo_IpDiffRange options);
     co_PartitionHash := 0;
     co_RouteToEdgeNode := false;
     co_Idc := "";
     co_Dc := dc |}.

Definition checkServerLeader (serverCfg : Server) (shardId : Z) : bool :=
  bool_decide (shardId ∈ default [] (sv_AvailableShardList serverCfg)).

(** ** Operations *)

Section KeyCheck.
Context {KVS : Type} {kvOps : ConsulKV KVS} {jsonServer : Json Server}
  {jsonRouter : Json ServiceRouterConfig} {jsonSchemas : Json (list DatabaseSchema)}
  {jsonCluster : Json ClusterInfo} {hash : CityHash} {order : MapOrder}
  {float : FloatConversion} {rand : Randomness} {thrift : ThriftLib} {Client : Type}
  {f64 : Float64} {net : Network}.
Context (newLaserServiceClient : Transport → ProtocolFactory → Client)
  (closeThriftClient : Client → Client * option error) (thriftIsOpen : Client → bool)
  (numCPU : Z) (now : Z) (fuel : nat).
Abbreviation client := (LaserClient (KVS:=KVS) (thrift:=thrift) (Client:=Client) (f64:=f64)).
Abbreviation get_sync := (GetSync newLaserServiceClient closeThriftClient thriftIsOpen numCPU now fuel).
Implicit Types (c : client) (options : LaserOption) (r : nat → Z).

(** The loop over the servers: each is asked at its own address. *)
Fixpoint ask_servers options (key : LaserKey) (shardId : Z) (servers : ServerList) r (status : Z)
    (ret : list KeyCheckDto) c : go (client * (Z * list KeyCheckDto)) :=
  match servers with
  | [] => mret (c, (status, ret))
  | server :: servers =>
      let options := set_lo_TargetServerAddress (mkServerAddress (sv_Host server) (sv_Port server)) options in
      '(c, (status, val)) ← get_sync options key (r 0%nat) c;
      let nodeRole := if checkServerLeader server shardId then "Leader" else "Follower" in
      ask_servers options key shardId servers (λ i, r (S i)) status
        (ret ++ [mkKeyCheckDto nodeRole (sv_Host server) (sv_Port server) (sv_Dc server)
                   (laser_Status_String status) val]) c
  end.

(** [r] gives the draws of the calls, in their order. *)
Definition getvalue options (serverCfg : Server) (key : LaserKey) (serverList : ServerList) (shardId : Z) r c
  : go (client * (Z * list KeyCheckDto)) :=
  if decide (lo_ReadMode options = LEADER_READ) then
    '(c, (status, val)) ← get_sync options key (r 0%nat) c;
    mret (c, (status, [mkKeyCheckDto "Leader" (sv_Host serverCfg) (sv_Port serverCfg) (sv_Dc serverCfg)
                         (laser_Status_String status) val]))
  else ask_servers options key shardId serverList r 0 [] c.

(** The second [ok] hides the first: [serverCfg] is nil where [Discover] found nothing. *)
Definition ListValue (cfg : Config) (serviceName : string) (param : KeyCheckParams) options r c
  : go (client * (KeyCheckIdInfo * list KeyCheckDto)) :=
  let laserkey := getLaserKey (kcp_Database param) (kcp_Table param) (kcp_Key param) in
  '(shardId, partitionId) ← GetShardIdAndParititionId laserkey c;
  let dc := match Client_GetTableSchema (lk_DatabaseName laserkey) (lk_TableName laserkey) c with
            | Some schema => ts_Dc schema
            | None => ""
            end in
  let idInfo := mkKeyCheckIdInfo (Itoa partitionId) (Itoa shardId) in
  let unknown := mkKeyCheckIdInfo "-" "-" in
  let options := set_lo_ReadMode (if kcp_Checkall param then MIXED_READ else LEADER_READ) options in
  let option := KeyCheck_getClientOption cfg serviceName options (u32 shardId) dc in
  '(c, serverCfg) ← with_router (Router_Discover fuel now option) c;
  '(c, serverList) ← with_router (Router_GetServerList fuel now option) c;
  match serverList with
  | None => mret (c, (unknown, [mkKeyCheckDto "" "" 0 "" "GetServerList Failed" ""]))
  | Some serverList =>
      serverCfg ← go_deref serverCfg;
      '(c, (status, ret)) ← getvalue options serverCfg laserkey serverList (u32 shardId) r c;
      mret (c, (if String.eqb (laser_Status_String status) "SERVICE_NOT_EXISTS_PARTITION" then unknown else idInfo, ret))
  end.

(** The client and its options are made once, when the route is registered. *)
Definition KeyCheck_client (trim : string → string) (cfg : Config) (localIp : string) (httpPort : Z) (kv : KVS)
  : go client :=
  NewLaserClient now fuel trim (cf_projectName cfg) (InitVal cfg) (cf_httpServerHost cfg) localIp httpPort kv.

Definition KeyCheck_options (cfg : Config) : LaserOption :=
  NewClientOptionFactory numCPU LoadBalanceMethod_RANDOM (cf_laserClientTimeout cfg).

Definition KeyCheck_api {rt : Runtime} {sv : StructValidator} {bCheck : GinBinding KeyCheckParams} (cfg : Config)
    (body : string) r c : go (client * Result (ListValResult KeyCheckIdInfo KeyCheckDto)) :=
  with_param (ShouldBindJSON KeyCheckParams_tags body) (λ res, mret (c, res)) (λ param,
    '(c, (id, kv)) ← ListValue cfg (InitVal cfg) param (KeyCheck_options cfg) r c;
    mret (c, ReturnData (mkListValResult [mkKeyCheckIdInfo (kci_PartitionId id) (kci_ShardId id)] kv))).
End KeyCheck.

(** ** Theorems *)

(** The names of the statuses are read back. *)
Theorem laser_Status_roundtrip s : s ∈ StatusToName.*1 → StatusFromString (laser_Status_String s) = inl s.
Proof.
  intros Hs. assert (Forall (λ s, StatusFromString (laser_Status_String s) = inl s) StatusToName.*1) as Hall.
  { repeat (constructor; [vm_compute; reflexivity|]). constructor. }
  rewrite Forall_forall in Hall. by apply Hall.
Qed.

Section Checked.
Context {KVS : Type} {kvOps : ConsulKV KVS} {jsonServer : Json Server}
  {jsonRouter : Json ServiceRouterConfig} {jsonSchemas : Json (list DatabaseSchema)}
  {jsonCluster : Json ClusterInfo} {hash : CityHash} {order : MapOrder}
  {float : FloatConversion} {rand : Randomness} {thrift : ThriftLib} {Client : Type}
  {f64 : Float64} {net : Network}.
Context (newLaserServiceClient : Transport → ProtocolFactory → Client)
  (closeThriftClient : Client → Client * option error) (thriftIsOpen : Client → bool)
  (numCPU : Z) (now : Z) (fuel : nat).
Abbreviation client := (LaserClient (KVS:=KVS) (thrift:=thrift) (Client:=Client) (f64:=f64)).
Abbreviation get_sync := (GetSync newLaserServiceClient closeThriftClient thriftIsOpen numCPU now fuel).
Abbreviation get_value := (getvalue newLaserServiceClient closeThriftClient thriftIsOpen numCPU now fuel).
Abbreviation ask := (ask_servers newLaserServiceClient closeThriftClient thriftIsOpen numCPU now fuel).
Implicit Types (c : client) (options : LaserOption) (r : nat → Z).

(** The table of the key can be routed. *)
Definition routable (key : LaserKey) (cm : ConfigManager) : Prop :=
  match GetTableSchema cm (lk_DatabaseName key) (lk_TableName key) with
  | Some schema => 0 < ts_PartitionNumber schema
  | None => True
  end.

Lemma getRouteInfo_routable key mode x c :
  routable key (lc_configManager c) → ∃ route, getRouteInfo key mode x c = Ret route.
Proof.
  unfold routable, getRouteInfo, Client_GetTableSchema.
  destruct (GetTableSchema _ _ _) as [schema|]; [|eauto]. intros Hn.
  unfold key_partition, GetPartitionId, go_rem. destruct (Z.eqb_spec (ts_PartitionNumber schema) 0); [lia|].
  cbn [mbind go_bind mret go_ret]. eauto.
Qed.

(** One entry of a check of all servers. *)
Definition asked key n (server : Server) (shardId : Z) (dto : KeyCheckDto) : Prop :=
  kcd_Ip dto = sv_Host server ∧ kcd_Port dto = sv_Port server ∧ kcd_Dc dto = sv_Dc server ∧
  kcd_Role dto = (if checkServerLeader server shardId then "Leader" else "Follower") ∧
  ∃ resp k, attempts_of (mkServerAddress (sv_Host server) (sv_Port server)) (RGet key) 0 n k resp ∧
    kcd_Status dto = laser_Status_String (cr_status resp) ∧ kcd_Value dto = GetStringData (cr_resp resp).

Lemma get_sync_ok options key x c :
  client_ok c → unwrapped → routable key (lc_configManager c) → lo_TimeoutRetry options = 0 →
  checkTargetServerAddress (lo_TargetServerAddress options) = true →
  ∃ c' resp k,
    get_sync options key x c = Ret (c', (cr_status resp, GetStringData (cr_resp resp))) ∧
    client_ok c' ∧ lc_configManager c' = lc_configManager c ∧ lc_attempts c' = S (lc_attempts c) ∧
    attempts_of (lo_TargetServerAddress options) (RGet key) 0 (lc_attempts c) k resp.
Proof.
  intros [Hm Hk] Hu Hr Hretry Ht. unfold GetSync, returning, read_command.
  destruct (start_timer_ok (command_timer LaserClient.GET) c Hm (command_timer_known _))
    as (c1 & -> & Hm1 & Ha1 & _ & Hcg1 & Hcm1). cbn [mbind go_bind]. unfold commonCall.
  rewrite <- Hcm1 in Hr. destruct (getRouteInfo_routable key (lo_ReadMode options) x c1 Hr) as [[[[s p] e] d] ->].
  cbn [mbind go_bind]. unfold commonCallWithRouteId.
  destruct (retry_ok newLaserServiceClient closeThriftClient thriftIsOpen numCPU now fuel
    (S (Z.to_nat (lo_TimeoutRetry options))) 0 options (getClientOption options s p e d c1) (RGet key) c1)
    as (c2 & resp & k & -> & Hc2 & Hcm2 & Ha2 & Hat); [split; [done|by rewrite Hcg1]|done|done|lia|lia|].
  rewrite Hretry, Ha1 in *. cbn [Z.sub] in Hat. cbn [mbind go_bind mret go_ret].
  exists c2, resp, k. split_and!; [done|done|congruence| |done].
  pose proof (at_budget _ _ _ _ _ _ Hat). lia.
Qed.

Lemma ask_servers_ok key shardId servers : ∀ options r status ret c,
  client_ok c → unwrapped → routable key (lc_configManager c) → lo_TimeoutRetry options = 0 →
  Forall (λ s, checkTargetServerAddress (mkServerAddress (sv_Host s) (sv_Port s)) = true) servers →
  ∃ c' status' ret',
    ask options key shardId servers r status ret c = Ret (c', (status', ret ++ ret')) ∧
    length ret' = length servers ∧
    ∀ i server, servers !! i = Some server →
      ∃ dto, ret' !! i = Some dto ∧ asked key (lc_attempts c + i) server shardId dto.
Proof.
  induction servers as [|server servers IH]; intros options r status ret c Hc Hu Hr Hretry Hall.
  { exists c, status, []. cbn [ask_servers]. rewrite app_nil_r. done. }
  apply Forall_cons in Hall as [Hs Hall]. cbn [ask_servers].
  set (o := set_lo_TargetServerAddress _ options).
  destruct (get_sync_ok o key (r 0%nat) c) as (c1 & resp & k & -> & Hc1 & Hcm1 & Ha1 & Hat); [done..|].
  cbn [mbind go_bind]. set (dto := mkKeyCheckDto _ _ _ _ _ _).
  destruct (IH o (λ i, r (S i)) (cr_status resp) (ret ++ [dto]) c1) as (c2 & status' & ret' & -> & Hlen & Hget);
    [done|done|by rewrite Hcm1|done|done|].
  exists c2, status', (dto :: ret'). rewrite <- app_assoc. split; [done|]. split; [cbn; lia|].
  intros [|i] s; cbn [lookup list_lookup].
  - intros [= <-]. exists dto. split; [done|]. rewrite Nat.add_0_r. repeat (split; [done|]). by exists resp, k.
  - intros Hi. destruct (Hget i s Hi) as (dto' & Hdto & Hasked). exists dto'. split; [done|].
    by rewrite <- plus_n_Sm, <- plus_Sn_m, <- Ha1.
Qed.

(** C33: asking all servers of a list for a key.  [getvalue], in a mode other than
    [LEADER_READ] and without retries after a timeout, as [ListValue] calls it to check
    all servers, returns, where every server of the list has a host and a port, the
    table of the key, if it is known, has partitions, and no server raises an exception
    the client's type assertion panics on ([unwrapped]).  Then there is one entry per
    server, at the server's place in the list, with its address, its role by whether the
    shard is among those it lists as available, and the status and value of one attempt
    made for it, at its address or at one whose host and port run together to the same
    pool key.  The theorem is of [getvalue] alone: [ListValue] before it panics where
    [Discover] finds no server and [GetServerList] does. *)
Theorem getvalue_asks_all options serverCfg key servers shardId r c :
  client_ok c → unwrapped → routable key (lc_configManager c) → lo_TimeoutRetry options = 0 →
  lo_ReadMode options ≠ LEADER_READ →
  Forall (λ s, checkTargetServerAddress (mkServerAddress (sv_Host s) (sv_Port s)) = true) servers →
  ∃ c' status ret,
    get_value options serverCfg key servers shardId r c = Ret (c', (status, ret)) ∧
    length ret = length servers ∧
    ∀ i server, servers !! i = Some server →
      ∃ dto, ret !! i = Some dto ∧ asked key (lc_attempts c + i) server shardId dto.
Proof.
  intros Hc Hu Hr Hretry Hmode Hall. unfold getvalue. rewrite decide_False by done.
  destruct (ask_servers_ok key shardId servers options r 0 [] c) as (c' & status & ret & Hrun & H); [done..|].
  by exists c', status, ret.
Qed.
End Checked.

(** ** A check of two servers *)

#[local] Existing Instances toy_city stdpp_order amd64_float.
#[local] Instance check_draws : Randomness := fixed_draws 0.
#[local] Instance check_router_json : Json ServiceRouterConfig := const_json DefaultServiceRouterConfig.
#[local] Instance check_server_json : Json Server :=
  const_json (registered_server 5 (leader_server "10.0.0.1" [0; 1])).
#[local] Instance check_schemas_json : Json (list DatabaseSchema) := const_json example_dbs.
#[local] Instance check_cluster_json : Json ClusterInfo := const_json ClusterInfo_zero.
#[local] Existing Instance named_sockets.

Definition two_servers : ServerList := [leader_server "10.0.0.1" [0; 1]; leader_server "10.0.0.2" [2]].

(** The first server times out, the second one answers. *)
Lemma getvalue_asks_all_witness :
  ∃ c' status ret,
    getvalue (net:=slow_start) (λ _ _, true) (λ _, (false, None)) (λ b, b) 8 10 5
      (set_lo_ReadMode MIXED_READ (NewClientOptionFactory 8 LoadBalanceMethod_RANDOM 20))
      (leader_server "10.0.0.1" [0; 1]) (getLaserKey "unknown" "t" ["k"]) two_servers 1 (λ _, 0) client0
      = Ret (c', (status, ret)) ∧ length ret = 2%nat.
Proof.
  destruct (getvalue_asks_all (net:=slow_start) (λ _ _, true) (λ _, (false, None)) (λ b, b) 8 10 5
    (set_lo_ReadMode MIXED_READ (NewClientOptionFactory 8 LoadBalanceMethod_RANDOM 20))
    (leader_server "10.0.0.1" [0; 1]) (getLaserKey "unknown" "t" ["k"]) two_servers 1 (λ _, 0) client0)
    as (c' & status & ret & Hrun & Hlen & _).
  - exact (NewLaserClient_ok _ _ _ _ _ _ _ _ _ _ client0_ok).
  - intros [|n] host port req status; discriminate.
  - vm_compute. exact I.
  - reflexivity.
  - discriminate.
  - repeat constructor.
  - exists c', status, ret. split; [exact Hrun|exact Hlen].
Defined.
