(* ===== verification/VersionChange.v ===== *)
(** * Versions of a table's data ([control/apis/version_change.go])

    The handlers forward a request to the batch manager, a program of its own, once
    the database and the table it names are found; what the batch manager answers is
    passed on.  Every handler also gives the request it forwarded, if any. *)

From S2P Require Import Prelude RouterTypes Registry GoLib ControlStatus ControlData Inventory Catalog Context Mail Tickets Curl Api.

(** ** Data *)

(** The data of the answer is any JSON, of type [D]. *)
Record VersionChangeResult {D : Type} := mkVersionChangeResult {
  vcr_Code : Z; vcr_Message : string; vcr_Data : option D
}.
Arguments VersionChangeResult : clear implicits.
Arguments mkVersionChangeResult {D}.
Definition VersionChangeResult_zero {D} : VersionChangeResult D := mkVersionChangeResult 0 "" None.

Definition VersionChangeShowUri : string := "/version_change/show".
Definition VersionChangeClearUri : string := "/version_change/clear".
Definition VersionChangeVersionUri : string := "/version_change/version".
Definition VersionChangeRollbackUri : string := "/version_change/rollback".

Record VersionChangeClearParams := mkVersionChangeClearParams {
  vcc_DatabaseName : string; vcc_TableName : string; vcc_DatabaseId : Z
}.
Record VersionChangeVersionParams := mkVersionChangeVersionParams {
  vcv_DatabaseName : string; vcv_TableName : string; vcv_DatabaseId : Z
}.
Record VersionChangeRollbackParams := mkVersionChangeRollbackParams {
  vcb_DatabaseName : string; vcb_TableName : string; vcb_DatabaseId : Z; vcb_Version : string
}.

(** ** Handlers *)

Abbreviation forwarded := (option (string * gmap string string)).

Section VersionChange.
Context {DB : Type} {rsDatabase : RowStore DB LaserDatabase} {rsTable : RowStore DB Table}
  {rt : Runtime} {sv : StructValidator} {http : HttpClient} {order : MapOrder}
  {D A : Type} {jsonPost : Json (gmap string A)} {jsonResult : Json (VersionChangeResult D)}
  {bClear : GinBinding VersionChangeClearParams} {bVersion : GinBinding VersionChangeVersionParams}
  {bRollback : GinBinding VersionChangeRollbackParams}.
Implicit Types (db : DB) (cfg : Config).

(** [ReturnData(c, versionChange.Data)]: the data may be nil. *)
Definition version_data (data : option D) : Result D := ReturnJson StatusOk data.

(** The end of every handler: [what] names it in the error. *)
Definition pass_on (what : string) (resp : CurlResponse + error) : Result D :=
  match resp with
  | inr err => ReturnError (StatusWithMessage VersionChangeApiError (err_msg err))
  | inl resp =>
      let versionChangeStr := crs_Body resp in
      if negb (IsOk resp) then ReturnError (StatusWithMessage VersionChangeApiError (what +:+ versionChangeStr))
      else
        match json_Unmarshal versionChangeStr VersionChangeResult_zero with
        | (_, Some err) => ReturnError (StatusWithMessage ParamsInvalid (err_msg err))
        | (versionChange, None) =>
            if negb (Z.eqb (vcr_Code versionChange) 0)
            then ReturnError (StatusWithMessage VersionChangeApiError (vcr_Message versionChange))
            else version_data (vcr_Data versionChange)
        end
  end.

Definition forward (what url : string) (queryMap : gmap string string) : go (forwarded * Result D) :=
  resp ← Get (SetQueries queryMap (SetUrl url (NewRequest (A:=A))));
  mret (Some (url, queryMap), pass_on what resp).

Definition refuse_version (r : Result D) : go (forwarded * Result D) := mret (None, r).
Definition invalid (message : string) : go (forwarded * Result D) :=
  refuse_version (ReturnError (StatusWithMessage ParamsInvalid message)).

Definition VersionChangeShow cfg : go (forwarded * Result D) :=
  forward "VersionChangeShow Api Isok Err:" (cf_batchManagerUrl cfg +:+ VersionChangeShowUri) ∅.

(** The database by its name, which the check must find taken, then the table by the
    id the request has for the database. *)
Definition found_table (databaseName tableName : string) (databaseId : Z) db
    (k : Table → go (forwarded * Result D)) : go (forwarded * Result D) :=
  if Status_Ok (LaserDatabase_CheckDupName databaseName db) then invalid "database not vaild"
  else
    let tableResult := Table_FindOne databaseId tableName db in
    if Z.eqb (t_Id tableResult) 0 then invalid "table not vaild" else k tableResult.

Definition VersionChangeClear cfg (body : string) db : go (forwarded * Result D) :=
  with_param (ShouldBindJSON no_tags body) refuse_version (λ param : VersionChangeClearParams,
    let url := cf_batchManagerUrl cfg +:+ VersionChangeClearUri in
    found_table (vcc_DatabaseName param) (vcc_TableName param) (vcc_DatabaseId param) db (λ tableResult,
    if Z.eqb (t_PartitionNumber tableResult) 0 then invalid "table partitionNumber vaild"
    else
      forward "VersionChangeClear Api Isok Err" url
        (<["partition_num" := Itoa (t_PartitionNumber tableResult)]>
           (<["table_name" := vcc_TableName param]> {["database_name" := vcc_DatabaseName param]})))).

Definition VersionChangeVersion cfg (body : string) db : go (forwarded * Result D) :=
  with_param (ShouldBindJSON no_tags body) refuse_version (λ param : VersionChangeVersionParams,
    let url := cf_batchManagerUrl cfg +:+ VersionChangeVersionUri in
    found_table (vcv_DatabaseName param) (vcv_TableName param) (vcv_DatabaseId param) db (λ tableResult,
    forward "VersionChangeVersion Api Isok Err" url
      (<["table_name" := vcv_TableName param]> {["database_name" := vcv_DatabaseName param]}))).

Definition VersionChangeRollback cfg (body : string) db : go (forwarded * Result D) :=
  with_param (ShouldBindJSON no_tags body) refuse_version (λ param : VersionChangeRollbackParams,
    let url := cf_batchManagerUrl cfg +:+ VersionChangeRollbackUri in
    found_table (vcb_DatabaseName param) (vcb_TableName param) (vcb_DatabaseId param) db (λ tableResult,
    if Z.eqb (t_PartitionNumber tableResult) 0 then invalid "table partitionNumber vaild"
    else
      forward "VersionChangeRollback Api Isok Err" url
        (<["version" := vcb_Version param]> (<["partition_num" := Itoa (t_PartitionNumber tableResult)]>
           (<["table_name" := vcb_TableName param]> {["database_name" := vcb_DatabaseName param]}))))).
End VersionChange.

(** ** Theorems *)

Section Forwarding.
Context {DB : Type} {rsDatabase : RowStore DB LaserDatabase} {rsTable : RowStore DB Table}
  {laws : RowLaws DB LaserDatabase}
  {rt : Runtime} {sv : StructValidator} {http : HttpClient} {order : MapOrder}
  {D A : Type} {jsonPost : Json (gmap string A)} {jsonResult : Json (VersionChangeResult D)}
  {bRollback : GinBinding VersionChangeRollbackParams}.
Implicit Types (db : DB) (cfg : Config).

(** What the check of the name lets through: a name that a row has, and any name where
    the count of the rows failed. *)
Definition name_let_through (name : string) db : Prop :=
  Exists (λ r, row_matches (LaserDatabase_where name) r = true) (rw_rows db) ∨
  is_inr (rw_Count (LaserDatabase_where name) db).

Lemma found_table_forwards name tableName id db (k : Table → go (forwarded * Result D)) f res :
  found_table name tableName id db k = Ret (Some f, res) →
  name_let_through name db ∧ t_Id (Table_FindOne id tableName db) ≠ 0 ∧
  k (Table_FindOne id tableName db) = Ret (Some f, res).
Proof.
  unfold found_table.
  destruct (check_dup_spec (LaserDatabase_where name) DatabaseNameDup db) as [[Hc Hex]|[[Hc _]|[Hc Hf]]]; [done..| | |];
    unfold LaserDatabase_CheckDupName.
  - rewrite (not_ok_code _ _ Hc) by done. destruct (Z.eqb_spec (t_Id (Table_FindOne id tableName db)) 0); [done|].
    intros Hk. split; [by left|done].
  - rewrite Hc. done.
  - rewrite (not_ok_code _ _ Hc) by done. destruct (Z.eqb_spec (t_Id (Table_FindOne id tableName db)) 0); [done|].
    intros Hk. split; [by right|done].
Qed.

Lemma forward_sends what url queries f (res : Result D) :
  forward (A:=A) what url queries = Ret (Some f, res) → f = (url, queries).
Proof.
  unfold forward. destruct (Get _) as [resp| |]; cbn [mbind go_bind]; [|done..]. by intros [= <- _].
Qed.

End Forwarding.

(** ** A rollback *)

(** A batch manager that answers with an empty result. *)
Definition answering : HttpClient :=
  {| http_CanonicalKey k := k; http_NewRequest _ _ := None; url_Query _ := ∅; url_Encode _ := "";
     http_Do _ _ _ := inl (mkHttpResponse 200 ∅ (inl "")) |}.

Definition items_table : Table :=
  mkTable 7 "items" (Some 1) (Some 0) 128 (Some 0) "" 0 Dc_zero 0 Dc_zero 2 0 LaserDatabase_zero TableConfig_zero
    None [] [] 0.

(** The request names one database and has the id of another, of which it finds the
    table: the rollback is forwarded for the database it names. *)
Definition rollback_request : VersionChangeRollbackParams := mkVersionChangeRollbackParams "feed" "items" 2 "v1".

Definition rollback_db : ticket_db := mkTicketDb [feed_row; ads_row] [] [items_table].

Definition rollback_queries : gmap string string :=
  <["version" := "v1"]> (<["partition_num" := "128"]> (<["table_name" := "items"]> {["database_name" := "feed"]})).

#[local] Existing Instances answering stdpp_order tag_validator main_go.

