(* ===== verification/Metrics.v ===== *)
(** * The tables of metrics ([control/service/*_metrics.go], [system_index.go])

    What the collector of reports writes and the pages read: physical and running
    metrics of nodes, running metrics of groups, pools and clusters, metrics of tables
    and of the system.  The rows of the four running metrics share their fields, which
    are the record [Running]; times are in seconds.  gorm is the class [MetricDb]; some
    lists are SQL that the code puts together itself. *)

From S2P Require Import Prelude RouterTypes GoLib ControlStatus ControlData Api.

(** ** [float32] *)

Abbreviation single := SpecFloat.spec_float.
Definition f32_zero : single := SpecFloat.S754_zero false.
Definition f32_add : single → single → single := SpecFloat.SFadd 24 128.
Definition f32_sub : single → single → single := SpecFloat.SFsub 24 128.
Definition f32_div : single → single → single := SpecFloat.SFdiv 24 128.
Definition f32_of_Z (z : Z) : single := SpecFloat.binary_normalize 24 128 z 0 false.

(** [float32(x)] of a double and [float64(x)] of a single. *)
Definition f32_of_f64 (x : double) : single :=
  match x with SpecFloat.S754_finite s m e => SpecFloat.binary_round 24 128 s m e | _ => x end.
Definition f64_of_f32 (x : single) : double :=
  match x with SpecFloat.S754_finite s m e => SpecFloat.binary_round 53 1024 s m e | _ => x end.

(** ** Rows *)

Record Running := mkRunning {
  ru_Qps : Z;
  ru_Kps : Z;
  ru_KpsWrite : Z;
  ru_KpsRead : Z;
  ru_Bps : Z;
  ru_BpsWrite : Z;
  ru_BpsRead : Z;
  ru_DataSize : Z;
  ru_P99 : single;
  ru_P999 : single;
  ru_JitterDuration : Z;
  ru_CapacityIdleRate : single;
  ru_CapacityIdleRateAbsolute : single;
  ru_CollectTime : Z;
  ru_TimeType : Z
}.
Definition Running_zero : Running :=
  mkRunning 0 0 0 0 0 0 0 0 f32_zero f32_zero 0 f32_zero f32_zero 0 0.

(** [{TimeType: t}]. *)
Definition Running_at (timeType : Z) : Running :=
  mkRunning 0 0 0 0 0 0 0 0 f32_zero f32_zero 0 f32_zero f32_zero 0 timeType.

Record NodeRunningMetrics := mkNodeRunningMetrics { nrm_Id : Z; nrm_ServiceAddress : string; nrm_running : Running }.
Record GroupRunningMetrics := mkGroupRunningMetrics { grm_Id : Z; grm_GroupName : string; grm_running : Running }.
Record ResourcePoolRunningMetrics := mkResourcePoolRunningMetrics {
  prm_Id : Z; prm_PoolName : string; prm_running : Running
}.
Record ClusterRunningMetrics := mkClusterRunningMetrics { crm_Id : Z; crm_running : Running }.

Record NodePhysicalMetrics := mkNodePhysicalMetrics {
  npm_Id : Z;
  npm_ServiceAddress : string;
  npm_CpuUsageRate : single;
  npm_CpuUsageRateUser : single;
  npm_CpuUsageRateSystem : single;
  npm_MemorySizeTotal : Z;
  npm_MemorySizeUsage : Z;
  npm_MemoryUsageRate : single;
  npm_DiskSizeTotal : Z;
  npm_DiskSizeUsage : Z;
  npm_DiskUsageRate : single;
  npm_IoUsageRate : single;
  npm_NetworkIn : Z;
  npm_NetworkOut : Z;
  npm_CollectTime : Z;
  npm_TimeType : Z
}.

Record TableMetrics := mkTableMetrics {
  tm_Id : Z;
  tm_DatabaseName : string;
  tm_TableName : string;
  tm_DataSize : Z;
  tm_Kps : Z;
  tm_KpsWrite : Z;
  tm_KpsRead : Z;
  tm_Bps : Z;
  tm_BpsWrite : Z;
  tm_BpsRead : Z;
  tm_PartitionNumber : Z;
  tm_CollectTime : Z;
  tm_TimeType : Z
}.

Record SystemIndex := mkSystemIndex {
  si_Id : Z;
  si_IoRatePerMb : single;
  si_NetAmplificationRatio : single;
  si_DiskAmplificationRatio : single;
  si_CollectTime : Z;
  si_TimeType : Z
}.

(** ** Parameters ([params.go]) *)

Record NodeRunningMetricsInfo := mkNodeRunningMetricsInfo { nri_Id : Z; nri_ServiceAddress : string; nri_running : Running }.
Record GroupRunningMetricsInfo := mkGroupRunningMetricsInfo { gri_Id : Z; gri_GroupName : string; gri_running : Running }.
Record ResourcePoolRunningMetricsInfo := mkResourcePoolRunningMetricsInfo {
  pri_Id : Z; pri_PoolName : string; pri_running : Running
}.
Record ClusterRunningMetricsInfo := mkClusterRunningMetricsInfo { cri_Id : Z; cri_running : Running }.

Record NodePhysicalMetricsInfo := mkNodePhysicalMetricsInfo {
  npi_ServiceAddress : string;
  npi_CpuUsageRate : single;
  npi_CpuUsageRateUser : single;
  npi_CpuUsageRateSystem : single;
  npi_MemorySizeTotal : Z;
  npi_MemorySizeUsage : Z;
  npi_MemoryUsageRate : single;
  npi_DiskSizeTotal : Z;
  npi_DiskSizeUsage : Z;
  npi_DiskUsageRate : single;
  npi_IoUsageRate : single;
  npi_NetworkIn : Z;
  npi_NetworkOut : Z;
  npi_CollectTime : Z;
  npi_TimeType : Z;
  npi_CapacityIdleRateAbsolute : single
}.

Record TableMetricsInfo := mkTableMetricsInfo {
  tmi'_Id : Z;
  tmi'_DatabaseName : string;
  tmi'_TableName : string;
  tmi'_DataSize : Z;
  tmi'_Qps : Z;
  tmi'_Kps : Z;
  tmi'_KpsWrite : Z;
  tmi'_KpsRead : Z;
  tmi'_Bps : Z;
  tmi'_BpsWrite : Z;
  tmi'_BpsRead : Z;
  tmi'_PartitionNumber : Z;
  tmi'_CollectTime : Z;
  tmi'_TimeType : Z
}.

Record SystemIndexInfo := mkSystemIndexInfo {
  sii_Id : Z; sii_IoRatePerMb : single; sii_NetAmplificationRatio : single; sii_DiskAmplificationRatio : single;
  sii_CollectTime : Z; sii_TimeType : Z
}.

(** The period, kind of time and page that every list asks for. *)
Record period := mkPeriod { pe_StartTime : Z; pe_EndTime : Z; pe_TimeType : Z }.
Record page_of := mkPage { pg_Page : Z; pg_Limit : Z }.

Record NodePhysicalMetricsListParams := mkNodePhysicalMetricsListParams {
  npl_period : period; npl_ServiceAddresses : list string; npl_page : page_of
}.
Record NodeRunningMetricsListParams := mkNodeRunningMetricsListParams {
  nrl_period : period; nrl_ServiceAddresses : list string; nrl_page : page_of
}.
Record GroupRunningMetricsListParams := mkGroupRunningMetricsListParams {
  grl_period : period; grl_GroupNames : list string; grl_page : page_of
}.
Record ResourcePoolRunningMetricsListParams := mkResourcePoolRunningMetricsListParams {
  prl_period : period; prl_PoolNames : list string; prl_page : page_of
}.
Record ClusterRunningMetricsListParams := mkClusterRunningMetricsListParams { crl_period : period; crl_page : page_of }.
Record SystemIndexListParams := mkSystemIndexListParams { sil_period : period; sil_page : page_of }.
Record NodeAddressListParams := mkNodeAddressListParams { nal_period : period }.
Record MetricGroupListParams := mkMetricGroupListParams { mgl_period : period }.
Record MetricPoolListParams := mkMetricPoolListParams { mpl_period : period }.
Record MetricTableListParams := mkMetricTableListParams { mtl_period : period }.
Record MetricTable := mkMetricTable { mt_DatabaseName : string; mt_TableName : string }.
Record TableMetricsListParams := mkTableMetricsListParams {
  tml_period : period; tml_Tables : list MetricTable; tml_page : page_of
}.
Record MetricsNodeAddress := mkMetricsNodeAddress { mna_ServiceAddress : string }.
Record MetricsGroupName := mkMetricsGroupName { mgn_GroupName : string }.
Record MetricsPoolName := mkMetricsPoolName { mpn_PoolName : string }.

(** ** The database *)

(** A condition of a list: the non-zero fields of a struct, a column among values, a
    column compared with a time. *)
Inductive metric_cond (Row : Type) :=
  | AtStruct (r : Row)
  | In (column : string) (values : list string)
  | Compare (column op : string) (time : Z).
Arguments AtStruct {Row}. Arguments In {Row}. Arguments Compare {Row}.

(** [Create]; [Count] and [Find] with an order and a page; errors of the last two are
    not looked at. *)
Class MetricDb (DB Row : Type) := {
  md_Create : Row → DB → DB * option error;
  md_Count : list (metric_cond Row) → DB → Z;
  md_Find : list (metric_cond Row) → string → option (Z * Z) → DB → list Row
}.

(** [db.Raw(sql).Scan] into rows of a kind, [db.Raw(sql).Count], and the page of such
    a query. *)
Class RawDb (DB Row : Type) := {
  raw_Scan : string → option (Z * Z) → DB → list Row;
  raw_Count : string → DB → Z
}.

(** [fmt.Sprintf("%s", time.Unix(t, 0))], which depends on the zone of the machine. *)
Class TimeText := { time_String : Z → string }.

Definition page_range (p : page_of) : option (Z * Z) :=
  if (Z.ltb 0 (pg_Page p) && Z.ltb 0 (pg_Limit p))%bool
  then Some (u32 (u32 (pg_Page p - 1) * pg_Limit p), pg_Limit p) else None.

Section Shapes.
Context {DB Row : Type} {mdb : MetricDb DB Row} {rt : Runtime}.

(** [Insert]. *)
Definition insert_row (r : Row) (db : DB) : DB * Status :=
  match md_Create r db with
  | (_, Some err) => (db, StatusWithError (Some err))
  | (db, None) => (db, StatusOk)
  end.

(** [List]: [column] is among [values] where there are any. *)
Definition period_conds (p : period) : list (metric_cond Row) :=
  (if Z.ltb 0 (pe_StartTime p) then [Compare "collect_time" ">=" (pe_StartTime p)] else []) ++
  (if Z.ltb 0 (pe_EndTime p) then [Compare "collect_time" "<=" (pe_EndTime p)] else []).

Definition list_metrics (at_time : Row) (named : list (metric_cond Row)) (p : period) (order : string) (page : page_of)
    (db : DB) : list Row * Z :=
  let conds := [AtStruct at_time] ++ named ++ period_conds p in
  (md_Find conds order (page_range page) db, md_Count conds db).

Definition among (column : string) (values : list string) : list (metric_cond Row) :=
  match values with [] => [] | _ => [In column values] end.
End Shapes.

Definition newest : string := "collect_time desc".

(** ** SQL that the code puts together *)

(** The text so far and what comes before the next condition. *)
Definition add_filter (cond : string) (s : string * string) : string * string :=
  (s.1 +:+ (s.2 +:+ " " +:+ cond), " and").

Definition add_filters `{TimeText} (p : period) (s : string * string) : string * string :=
  let s := if Z.ltb 0 (pe_TimeType p) then add_filter ("time_type = " +:+ Itoa (pe_TimeType p)) s else s in
  let s := if Z.ltb 0 (pe_StartTime p)
           then add_filter ("collect_time >= '" +:+ time_String (pe_StartTime p) +:+ "'") s else s in
  if Z.ltb 0 (pe_EndTime p) then add_filter ("collect_time <= '" +:+ time_String (pe_EndTime p) +:+ "'") s else s.

(** The lists of distinct names. *)
Definition distinct_sql `{TimeText} (column table : string) (p : period) : string :=
  (add_filters p ("select distinct " +:+ column +:+ " from " +:+ table, " where")).1 +:+ " order by " +:+ column.

Definition table_filter (t : MetricTable) : string :=
  "(database_name = '" +:+ mt_DatabaseName t +:+ "' and table_name = '" +:+ mt_TableName t +:+ "')".

(** [tableFilterSql], in which every condition is followed by [" or "]. *)
Definition tables_filter (tables : list MetricTable) : string :=
  foldl (λ sql t, sql +:+ (table_filter t +:+ " or ")) "" tables.

(** The last [" or "] is cut off by its length. *)
Definition cut_or (sql : string) : string := String.substring 0 (String.length sql - String.length " or ") sql.

Definition table_metrics_sql `{TimeText} (p : period) (tables : list MetricTable) : string :=
  let '(filterSql, filterPrefix) := add_filters p ("select * from table_metrics", " where") in
  let tableFilterSql := tables_filter tables in
  let filterSql := if Nat.ltb 0 (String.length tableFilterSql)
                   then filterSql +:+ filterPrefix +:+ (" (" +:+ cut_or tableFilterSql +:+ ")") else filterSql in
  filterSql +:+ " order by collect_time desc".

Definition distinct_tables_sql `{TimeText} (p : period) : string :=
  (add_filters p ("select distinct database_name, table_name from table_metrics", " where")).1.

(** ** Services *)

Section Services.
Context {DB : Type} {rt : Runtime} {tt : TimeText}
  {dbNodeRunning : MetricDb DB NodeRunningMetrics} {dbGroupRunning : MetricDb DB GroupRunningMetrics}
  {dbPoolRunning : MetricDb DB ResourcePoolRunningMetrics} {dbClusterRunning : MetricDb DB ClusterRunningMetrics}
  {dbPhysical : MetricDb DB NodePhysicalMetrics} {dbTable : MetricDb DB TableMetrics} {dbSystem : MetricDb DB SystemIndex}
  {rawAddress : RawDb DB MetricsNodeAddress} {rawGroup : RawDb DB MetricsGroupName} {rawPool : RawDb DB MetricsPoolName}
  {rawTable : RawDb DB MetricTable} {rawTables : RawDb DB TableMetrics}.
Implicit Types (db : DB).

Definition NodeRunningMetrics_Insert (m : NodeRunningMetricsInfo) db : DB * Status :=
  insert_row (mkNodeRunningMetrics 0 (nri_ServiceAddress m) (nri_running m)) db.

Definition NodeRunningMetrics_List (p : NodeRunningMetricsListParams) db : list NodeRunningMetrics * Z :=
  list_metrics (mkNodeRunningMetrics 0 "" (Running_at (pe_TimeType (nrl_period p))))
    (among "service_address" (nrl_ServiceAddresses p)) (nrl_period p) newest (nrl_page p) db.

Definition ListRunningNodeList (p : NodeAddressListParams) db : list MetricsNodeAddress :=
  raw_Scan (distinct_sql "service_address" "node_running_metrics" (nal_period p)) None db.

Definition GroupRunningMetrics_Insert (m : GroupRunningMetricsInfo) db : DB * Status :=
  insert_row (mkGroupRunningMetrics 0 (gri_GroupName m) (gri_running m)) db.

Definition GroupRunningMetrics_List (p : GroupRunningMetricsListParams) db : list GroupRunningMetrics * Z :=
  list_metrics (mkGroupRunningMetrics 0 "" (Running_at (pe_TimeType (grl_period p))))
    (among "group_name" (grl_GroupNames p)) (grl_period p) newest (grl_page p) db.

Definition ListRunningGroupList (p : MetricGroupListParams) db : list MetricsGroupName :=
  raw_Scan (distinct_sql "group_name" "group_running_metrics" (mgl_period p)) None db.

Definition ResourcePoolRunningMetrics_Insert (m : ResourcePoolRunningMetricsInfo) db : DB * Status :=
  insert_row (mkResourcePoolRunningMetrics 0 (pri_PoolName m) (pri_running m)) db.

Definition ResourcePoolRunningMetrics_List (p : ResourcePoolRunningMetricsListParams) db
  : list ResourcePoolRunningMetrics * Z :=
  list_metrics (mkResourcePoolRunningMetrics 0 "" (Running_at (pe_TimeType (prl_period p))))
    (among "pool_name" (prl_PoolNames p)) (prl_period p) newest (prl_page p) db.

Definition ListRunningPoolList (p : MetricPoolListParams) db : list MetricsPoolName :=
  raw_Scan (distinct_sql "pool_name" "resource_pool_running_metrics" (mpl_period p)) None db.

Definition ClusterRunningMetrics_Insert (m : ClusterRunningMetricsInfo) db : DB * Status :=
  insert_row (mkClusterRunningMetrics 0 (cri_running m)) db.

Definition ClusterRunningMetrics_List (p : ClusterRunningMetricsListParams) db : list ClusterRunningMetrics * Z :=
  list_metrics (mkClusterRunningMetrics 0 (Running_at (pe_TimeType (crl_period p)))) [] (crl_period p) newest
    (crl_page p) db.

(** The absolute idle rate is not kept. *)
Definition NodePhysicalMetrics_Insert (m : NodePhysicalMetricsInfo) db : DB * Status :=
  insert_row (mkNodePhysicalMetrics 0 (npi_ServiceAddress m) (npi_CpuUsageRate m) (npi_CpuUsageRateUser m)
    (npi_CpuUsageRateSystem m) (npi_MemorySizeTotal m) (npi_MemorySizeUsage m) (npi_MemoryUsageRate m)
    (npi_DiskSizeTotal m) (npi_DiskSizeUsage m) (npi_DiskUsageRate m) (npi_IoUsageRate m) (npi_NetworkIn m)
    (npi_NetworkOut m) (npi_CollectTime m) (npi_TimeType m)) db.

Definition NodePhysicalMetrics_at (timeType : Z) : NodePhysicalMetrics :=
  mkNodePhysicalMetrics 0 "" f32_zero f32_zero f32_zero 0 0 f32_zero 0 0 f32_zero f32_zero 0 0 0 timeType.

Definition NodePhysicalMetrics_List (p : NodePhysicalMetricsListParams) db : list NodePhysicalMetrics * Z :=
  list_metrics (NodePhysicalMetrics_at (pe_TimeType (npl_period p)))
    (among "service_address" (npl_ServiceAddresses p)) (npl_period p) newest (npl_page p) db.

Definition ListNodeList (p : NodeAddressListParams) db : list MetricsNodeAddress :=
  raw_Scan (distinct_sql "service_address" "node_physical_metrics" (nal_period p)) None db.

(** The queries per second are not kept. *)
Definition TableMetrics_Insert (m : TableMetricsInfo) db : DB * Status :=
  insert_row (mkTableMetrics 0 (tmi'_DatabaseName m) (tmi'_TableName m) (tmi'_DataSize m) (tmi'_Kps m)
    (tmi'_KpsWrite m) (tmi'_KpsRead m) (tmi'_Bps m) (tmi'_BpsWrite m) (tmi'_BpsRead m) (tmi'_PartitionNumber m)
    (tmi'_CollectTime m) (tmi'_TimeType m)) db.

Definition TableMetrics_List (p : TableMetricsListParams) db : list TableMetrics * Z :=
  let filterSql := table_metrics_sql (tml_period p) (tml_Tables p) in
  (raw_Scan filterSql (page_range (tml_page p)) db, raw_Count (Row:=TableMetrics) filterSql db).

Definition ListTableList (p : MetricTableListParams) db : list MetricTable :=
  raw_Scan (distinct_tables_sql (mtl_period p)) None db.

Definition SystemIndex_Insert (m : SystemIndexInfo) db : DB * Status :=
  insert_row (mkSystemIndex 0 (sii_IoRatePerMb m) (sii_NetAmplificationRatio m) (sii_DiskAmplificationRatio m)
    (sii_CollectTime m) (sii_TimeType m)) db.

Definition SystemIndex_List (p : SystemIndexListParams) db : list SystemIndex * Z :=
  list_metrics (mkSystemIndex 0 f32_zero f32_zero f32_zero 0 (pe_TimeType (sil_period p))) [] (sil_period p) ""
    (sil_page p) db.
End Services.

(** ** Handlers ([control/apis/*_metrics.go], [system_index.go]) *)

(** None of the parameters has a tag that asks for anything. *)
Section Handlers.
Context {DB : Type} {rt : Runtime} {tt : TimeText} {sv : StructValidator}
  {dbNodeRunning : MetricDb DB NodeRunningMetrics} {dbGroupRunning : MetricDb DB GroupRunningMetrics}
  {dbPoolRunning : MetricDb DB ResourcePoolRunningMetrics} {dbClusterRunning : MetricDb DB ClusterRunningMetrics}
  {dbPhysical : MetricDb DB NodePhysicalMetrics} {dbTable : MetricDb DB TableMetrics} {dbSystem : MetricDb DB SystemIndex}
  {rawAddress : RawDb DB MetricsNodeAddress} {rawGroup : RawDb DB MetricsGroupName} {rawPool : RawDb DB MetricsPoolName}
  {rawTable : RawDb DB MetricTable} {rawTables : RawDb DB TableMetrics}.
Implicit Types (db : DB) (body query : string).

(** The three shapes: insert, list with a total, list of names. *)
Definition insert_api {P} `{GinBinding P} (insert : P → DB → DB * Status) body db : DB * Result unit :=
  with_param (ShouldBindJSON no_tags body) (pair db) (λ metricInfo, answer (insert metricInfo db)).

Definition list_api {P Row} `{GinBinding P} (list_rows : P → DB → list Row * Z) query db : Result (ListResult Row) :=
  with_param (ShouldBindQuery no_tags query) id (λ listParams,
    let '(data, total) := list_rows listParams db in ReturnData (mkListResult total data)).

Definition names_api {P Row} `{GinBinding P} (list_names : P → DB → list Row) query db : Result (list Row) :=
  with_param (ShouldBindQuery no_tags query) id (λ listParams, ReturnData (list_names listParams db)).

Definition NodeRunningMetricsInsert `{GinBinding NodeRunningMetricsInfo} := insert_api NodeRunningMetrics_Insert.
Definition NodeRunningMetricsList `{GinBinding NodeRunningMetricsListParams} := list_api NodeRunningMetrics_List.
Definition NodeRunningMetricsNodeList `{GinBinding NodeAddressListParams} := names_api ListRunningNodeList.
Definition GroupRunningMetricsInsert `{GinBinding GroupRunningMetricsInfo} := insert_api GroupRunningMetrics_Insert.
Definition GroupRunningMetricsList `{GinBinding GroupRunningMetricsListParams} := list_api GroupRunningMetrics_List.
Definition GroupRunningMetricsGroupList `{GinBinding MetricGroupListParams} := names_api ListRunningGroupList.
Definition ResourcePoolRunningMetricsInsert `{GinBinding ResourcePoolRunningMetricsInfo} :=
  insert_api ResourcePoolRunningMetrics_Insert.
Definition ResourcePoolRunningMetricsList `{GinBinding ResourcePoolRunningMetricsListParams} :=
  list_api ResourcePoolRunningMetrics_List.
Definition ResourcePoolRunningMetricsPoolList `{GinBinding MetricPoolListParams} := names_api ListRunningPoolList.
Definition ClusterRunningMetricsInsert `{GinBinding ClusterRunningMetricsInfo} := insert_api ClusterRunningMetrics_Insert.
Definition ClusterRunningMetricsList `{GinBinding ClusterRunningMetricsListParams} := list_api ClusterRunningMetrics_List.
Definition NodePhysicalMetricsInsert `{GinBinding NodePhysicalMetricsInfo} := insert_api NodePhysicalMetrics_Insert.
Definition NodePhysicalMetricsList `{GinBinding NodePhysicalMetricsListParams} := list_api NodePhysicalMetrics_List.
Definition NodePhysicalMetricsNodeList `{GinBinding NodeAddressListParams} := names_api ListNodeList.
Definition TableMetricsInsert `{GinBinding TableMetricsInfo} := insert_api TableMetrics_Insert.
Definition TableMetricsList `{GinBinding TableMetricsListParams} := list_api TableMetrics_List.
Definition TableMetricsTableList `{GinBinding MetricTableListParams} := names_api ListTableList.
Definition SystemIndexInsert `{GinBinding SystemIndexInfo} := insert_api SystemIndex_Insert.
Definition SystemIndexList `{GinBinding SystemIndexListParams} := list_api SystemIndex_List.
End Handlers.

(** ** Theorems: the SQL *)

(** The conditions a query should have, and the text it should be. *)
Definition period_texts `{TimeText} (p : period) : list string :=
  (if Z.ltb 0 (pe_TimeType p) then ["time_type = " +:+ Itoa (pe_TimeType p)] else []) ++
  (if Z.ltb 0 (pe_StartTime p) then ["collect_time >= '" +:+ time_String (pe_StartTime p) +:+ "'"] else []) ++
  (if Z.ltb 0 (pe_EndTime p) then ["collect_time <= '" +:+ time_String (pe_EndTime p) +:+ "'"] else []).

Definition where_text (conds : list string) : string :=
  match conds with [] => "" | _ => " where " +:+ strings_Join " and " conds end.

Definition table_conds (tables : list MetricTable) : list string :=
  match tables with [] => [] | _ => ["(" +:+ strings_Join " or " (table_filter <$> tables) +:+ ")"] end.

Lemma substring_append s t : String.substring 0 (String.length s) (s +:+ t) = s.
Proof.
  induction s as [|c s IH]; [by destruct t|]. change (String c (String.substring 0 (String.length s) (s +:+ t)) = String c s). by rewrite IH.
Qed.

Lemma cut_or_app s : cut_or (s +:+ " or ") = s.
Proof.
  unfold cut_or. rewrite string_length_append, Nat.add_sub. apply substring_append.
Qed.

Lemma strings_Join_snoc sep l x :
  l ≠ [] → strings_Join sep (l ++ [x]) = strings_Join sep l +:+ sep +:+ x.
Proof.
  induction l as [|s [|s' l] IH]; intros Hl; [done|done|].
  change (strings_Join sep ((s :: s' :: l) ++ [x])) with (s +:+ sep +:+ strings_Join sep ((s' :: l) ++ [x])).
  rewrite IH by done. change (strings_Join sep (s :: s' :: l)) with (s +:+ sep +:+ strings_Join sep (s' :: l)).
  by rewrite !string_append_assoc.
Qed.

(** Adding conditions one by one gives the text with all of them. *)
Lemma add_filter_all base conds :
  foldl (λ s c, add_filter c s) (base, " where") conds =
    (base +:+ where_text conds, match conds with [] => " where" | _ => " and" end).
Proof.
  induction conds as [|c conds IH] using rev_ind; [by cbn; rewrite string_append_nil_r|].
  rewrite foldl_app, IH. cbn [foldl]. unfold add_filter. cbn [fst snd].
  replace (match conds ++ [c] with [] => " where" | _ => " and" end) with " and" by (by destruct conds). f_equal.
  destruct conds as [|c' conds]; [by cbn; rewrite string_append_nil_r|].
  unfold where_text. destruct ((c' :: conds) ++ [c]) as [|? ?] eqn:E; [done|]. rewrite <- E.
  rewrite strings_Join_snoc by done. by rewrite !string_append_assoc.
Qed.

Lemma add_filters_all `{TimeText} p s :
  add_filters p s = foldl (λ s c, add_filter c s) s (period_texts p).
Proof.
  unfold add_filters, period_texts.
  destruct (Z.ltb 0 (pe_TimeType p)), (Z.ltb 0 (pe_StartTime p)), (Z.ltb 0 (pe_EndTime p)); reflexivity.
Qed.

Lemma tables_filter_join t tables :
  tables_filter (t :: tables) = strings_Join " or " (table_filter <$> t :: tables) +:+ " or ".
Proof.
  unfold tables_filter. revert t. induction tables as [|t' tables IH] using rev_ind; intros t; [done|].
  rewrite app_comm_cons, foldl_app, IH. cbn [foldl].
  rewrite fmap_app. change (table_filter <$> [t']) with [table_filter t'].
  rewrite strings_Join_snoc by done. by rewrite !string_append_assoc.
Qed.

(** The SQL the code puts together is the query it means: the conditions that the
    parameters ask for and no others, joined by [and], the tables among them as one
    condition joined by [or], and nothing where there is no condition. *)
Theorem metrics_sql `{TimeText} p tables column table :
  table_metrics_sql p tables =
    "select * from table_metrics" +:+ where_text (period_texts p ++ table_conds tables) +:+
    " order by collect_time desc" ∧
  distinct_sql column table p =
    ("select distinct " +:+ column +:+ " from " +:+ table) +:+ where_text (period_texts p) +:+ " order by " +:+ column ∧
  distinct_tables_sql p =
    "select distinct database_name, table_name from table_metrics" +:+ where_text (period_texts p).
Proof.
  split_and!.
  - unfold table_metrics_sql. rewrite add_filters_all.
    destruct tables as [|t tables].
    { rewrite add_filter_all. cbn [table_conds]. rewrite app_nil_r. by rewrite string_append_assoc. }
    rewrite <- (string_append_assoc "select * from table_metrics" (where_text _)). cbn [table_conds].
    pose proof (add_filter_all "select * from table_metrics"
      (period_texts p ++ ["(" +:+ strings_Join " or " (table_filter <$> t :: tables) +:+ ")"])) as Hall.
    rewrite <- (f_equal fst Hall : (foldl _ _ _).1 = "select * from table_metrics" +:+ where_text _), foldl_app.
    destruct (foldl _ _ (period_texts p)) as [sql prefix]. cbn [foldl]. unfold add_filter. cbn [fst snd].
    rewrite tables_filter_join, cut_or_app.
    rewrite string_length_append. cbn [String.length]. rewrite <- plus_n_Sm. cbn [Nat.ltb Nat.leb].
    by rewrite !string_append_assoc.
  - unfold distinct_sql. rewrite add_filters_all, add_filter_all. cbn [fst]. by rewrite !string_append_assoc.
  - unfold distinct_tables_sql. by rewrite add_filters_all, add_filter_all.
Qed.
