(* ===== verification/Prometheus.v ===== *)
(** * Metrics from Prometheus ([control/service/report_data_collector.go], the queries)

    What the collector of reports asks Prometheus, and how an answer becomes a number.
    Prometheus and the parsing of floats are the class [PrometheusWorld]; every query
    that fails gives zeros and a status that the collector does not look at. *)

From S2P Require Import Prelude RouterTypes Registry GoLib ControlStatus Context Mail Metrics.

(** ** Queries *)

Definition quoted (s : string) : string := quote_mark +:+ s +:+ quote_mark.

Definition PromqlPatternNodeCpuUsage (nodeIP : string) : string :=
  "100 - avg without(cpu) (irate(node_cpu_seconds_total{mode=" +:+ quoted "idle" +:+ ",services=~" +:+
  quoted ".*,laser,.*" +:+ ", instance=" +:+ quoted nodeIP +:+ "}[5m])) * 100".
Definition PromqlPatternNodeCpuSystem (nodeIP : string) : string :=
  "avg without(cpu)(irate(node_cpu_seconds_total{mode=" +:+ quoted "system" +:+ ", services=~" +:+
  quoted ".*,laser,.*" +:+ ", instance=" +:+ quoted nodeIP +:+ "}[5m])) * 100".
Definition PromqlPatternNodeCpuUser (nodeIP : string) : string :=
  "avg without(cpu)(irate(node_cpu_seconds_total{mode=" +:+ quoted "user" +:+ ", services=~" +:+
  quoted ".*,laser,.*" +:+ ", instance=" +:+ quoted nodeIP +:+ "}[5m])) * 100".
Definition PromqlPatternNodeDiskSizeTotal (nodeIP : string) : string :=
  "sort_desc(max(node_filesystem_size_bytes{services=~" +:+ quoted ".*,laser,.*" +:+ ", instance=" +:+
  quoted nodeIP +:+ ", mountpoint=~" +:+ quoted "((/data0|/var|/data1|/data2).*|(/))" +:+ "}) by (mountpoint))".
Definition PromqlPatternNodeDiskSizeFree (nodeIP : string) (mountPoint : string) : string :=
  "avg_over_time(node_filesystem_free_bytes{services=~" +:+ quoted ".*,laser,.*" +:+ ", instance=" +:+
  quoted nodeIP +:+ ", fstype=~" +:+ quoted "ext4|xfs" +:+ ", mountpoint=" +:+ quoted mountPoint +:+ "}[5m])".
Definition PromqlPatternNodeMemSizeTotal (nodeIP : string) : string :=
  "node_memory_MemTotal_bytes{services=~" +:+ quoted ".*,laser,.*" +:+ ", instance=" +:+ quoted nodeIP +:+ "}".
Definition PromqlPatternNodeMemSizeAvailable (nodeIP : string) : string :=
  "avg_over_time(node_memory_MemAvailable_bytes{services=~" +:+ quoted ".*,laser,.*" +:+ ", instance=" +:+
  quoted nodeIP +:+ "}[5m])".
Definition PromqlPatternNodeNetIn (nodeIP : string) : string :=
  "sum(rate(node_network_receive_bytes_total{services=~" +:+ quoted ".*,laser,.*" +:+ ",device!=" +:+
  quoted "lo" +:+ ", instance=" +:+ quoted nodeIP +:+ "}[5m]))".
Definition PromqlPatternNodeNetOut (nodeIP : string) : string :=
  "sum(rate(node_network_transmit_bytes_total{services=~" +:+ quoted ".*,laser,.*" +:+ ",device!=" +:+
  quoted "lo" +:+ ", instance=" +:+ quoted nodeIP +:+ "}[5m]))".
Definition PromqlPatternNodeIOUsageRate (nodeIP : string) : string :=
  "max(rate(node_disk_io_time_seconds_total{instance=" +:+ quoted nodeIP +:+ ", services=~" +:+
  quoted ".*,laser,.*" +:+ "}[5m]) * 100)".
Definition PromqlPatternNodeQps (nodeIP : string) (port : Z) : string :=
  "avg_over_time(ad_core_laser_service_metric_rpc_times{instance=" +:+ quoted (nodeIP +:+ ":" +:+ Itoa port) +:+
  ", timers_type=" +:+ quoted "min_1" +:+ "}[5m])".
Definition PromqlPatternNodeReadKps (nodeIP : string) (port : Z) : string :=
  "sum(avg_over_time(ad_core_rocksdb_table_rocksdb_read_kps_min_1{instance=" +:+
  quoted (nodeIP +:+ ":" +:+ Itoa port) +:+ "}[5m]))".
Definition PromqlPatternNodeWriteKps (nodeIP : string) (port : Z) : string :=
  "sum(avg_over_time(ad_core_rocksdb_table_rocksdb_write_kps_min_1{instance=" +:+
  quoted (nodeIP +:+ ":" +:+ Itoa port) +:+ "}[5m]))".
Definition PromqlPatternNodeReadBps (nodeIP : string) (port : Z) : string :=
  "sum(avg_over_time(ad_core_rocksdb_table_rocksdb_read_bytes_min_1{instance=" +:+
  quoted (nodeIP +:+ ":" +:+ Itoa port) +:+ "}[5m]))".
Definition PromqlPatternNodeWriteBps (nodeIP : string) (port : Z) : string :=
  "sum(avg_over_time(ad_core_rocksdb_table_rocksdb_write_bytes_min_1{instance=" +:+
  quoted (nodeIP +:+ ":" +:+ Itoa port) +:+ "}[5m]))".
Definition PromqlPatternNodeP99 (nodeIP : string) (port : Z) : string :=
  "avg_over_time(ad_core_laser_service_metric_rpc_times{timers_type=" +:+ quoted "percent_0.99" +:+
  ", level=" +:+ quoted "60" +:+ ", instance=" +:+ quoted (nodeIP +:+ ":" +:+ Itoa port) +:+ "}[5m])".
Definition PromqlPatternNodeP999 (nodeIP : string) (port : Z) : string :=
  "avg_over_time(ad_core_laser_service_metric_rpc_times{timers_type=" +:+ quoted "percent_0.999" +:+
  ", level=" +:+ quoted "60" +:+ ", instance=" +:+ quoted (nodeIP +:+ ":" +:+ Itoa port) +:+ "}[5m])".
Definition PromqlPatternNodeDataSize (nodeIP : string) (port : Z) : string :=
  "sum(avg_over_time(ad_core_shard_stat{property=" +:+ quoted "rocksdb.live-sst-files-size" +:+ ", instance=" +:+
  quoted (nodeIP +:+ ":" +:+ Itoa port) +:+ "}[5m]))".
Definition PromqlPatternNodeJitterDuration (instance : string) (instance_again : string) : string :=
  "(avg(count_over_time(ad_core_laser_p999_jitter{instance=" +:+ quoted instance +:+
  "}[1d])) by (instance) / avg(count_over_time(ad_core_laser_service_metric_rpc_times{timers_type=" +:+
  quoted "percent_0.99" +:+ ", level=" +:+ quoted "60" +:+ ", instance=" +:+ quoted instance_again +:+
  "}[1d])) by (instance)) * 24 * 60 * 60".
Definition PromqlPatternTableDataSize (serviceName : string) (databaseName : string) (tableName : string) : string :=
  "sum(avg_over_time(ad_core_rocksdb_table_rocksdb_live_sst_files_size{service_name=" +:+ quoted serviceName +:+
  ", role=" +:+ quoted "leader" +:+ ", database_name=" +:+ quoted databaseName +:+ ",table_name=" +:+
  quoted tableName +:+ "}[5m]))".
Definition PromqlPatternTableReadKps (serviceName : string) (databaseName : string) (tableName : string) : string :=
  "sum(avg_over_time(ad_core_rocksdb_table_rocksdb_read_kps_min_1{service_name=" +:+ quoted serviceName +:+
  ", database_name=" +:+ quoted databaseName +:+ ", table_name=" +:+ quoted tableName +:+ "}[5m]))".
Definition PromqlPatternTableWriteKps (serviceName : string) (databaseName : string) (tableName : string) : string :=
  "sum(avg_over_time(ad_core_rocksdb_table_rocksdb_write_kps_min_1{service_name=" +:+ quoted serviceName +:+
  ", database_name=" +:+ quoted databaseName +:+ ", table_name=" +:+ quoted tableName +:+ "}[5m]))".
Definition PromqlPatternTableReadBps (serviceName : string) (databaseName : string) (tableName : string) : string :=
  "sum(avg_over_time(ad_core_rocksdb_table_rocksdb_read_bytes_min_1{service_name=" +:+ quoted serviceName +:+
  ", database_name=" +:+ quoted databaseName +:+ ", table_name=" +:+ quoted tableName +:+ "}[5m]))".
Definition PromqlPatternTableWriteBps (serviceName : string) (databaseName : string) (tableName : string) : string :=
  "sum(avg_over_time(ad_core_rocksdb_table_rocksdb_write_bytes_min_1{service_name=" +:+ quoted serviceName +:+
  ", database_name=" +:+ quoted databaseName +:+ ", table_name=" +:+ quoted tableName +:+ "}[5m]))".

(** ** Answers *)

(** A value of a result: the time and then the value, which should be a string. *)
Inductive prom_value := PromString (s : string) | PromOther.

Record prom_result := mkPromResult { pres_Metric : gmap string string; pres_Value : list prom_value }.

Record PrometheusResponse := mkPrometheusResponse {
  prs_Status : string; prs_ResultType : string; prs_Result : list prom_result
}.
Definition PrometheusResponse_zero : PrometheusResponse := mkPrometheusResponse "" "" [].

(** [http.Get]: the code, its text, and the body, which may fail to be read;
    [url.PathEscape]; [strconv.ParseFloat(s, 64)], with the number also where it does
    not fit; [int64(x)] and [int32(x)] of a number that does not fit. *)
Class PrometheusWorld := {
  prom_Get : string → (Z * string * (string + error)) + error;
  url_PathEscape : string → string;
  ParseFloat64 : string → double * option error;
  f64_to_int_other : Z → double → Z
}.

(** [int64(x)], [int32(x)]. *)
Definition f64_to_int `{PrometheusWorld} (w : Z) (x : double) : Z :=
  match f64_trunc x with
  | Some z => if (Z.leb (- 2 ^ (w - 1)) z && Z.ltb z (2 ^ (w - 1)))%bool then z else f64_to_int_other w x
  | None => f64_to_int_other w x
  end.

Section Queries.
Context {pw : PrometheusWorld} {rt : Runtime} {jsonProm : Json PrometheusResponse}.
Implicit Types (cfg : Config) (prometheusHost promql nodeIP : string) (port : Z).

Definition prometheusQuery (host promql : string) : PrometheusResponse * Status :=
  let url := "http://" +:+ host +:+ "/api/v1/query?query=" +:+ url_PathEscape promql in
  match prom_Get url with
  | inr err => (PrometheusResponse_zero, StatusWithError (Some err))
  | inl (code, text, body) =>
      if negb (Z.eqb code 200) then (PrometheusResponse_zero, StatusWithMessage HttpRequestError text)
      else
        match body with
        | inr err => (PrometheusResponse_zero, StatusWithError (Some err))
        | inl body =>
            match json_Unmarshal body PrometheusResponse_zero with
            | (response, Some err) => (response, StatusWithError (Some err))
            | (response, None) => (response, StatusOk)
            end
        end
  end.

Definition getSingleValueMetrics prometheusHost promql : string * gmap string string * Status :=
  let '(response, status) := prometheusQuery prometheusHost promql in
  if negb (Status_Ok status) then ("", ∅, status)
  else if negb (String.eqb (prs_Status response) "success") then ("", ∅, StatusError ReportQueryPrometheusFailed)
  else
    match prs_Result response with
    | [] => ("", ∅, StatusError ReportPrometheusEmptyResult)
    | result :: _ =>
        match pres_Value result with
        | _ :: PromString metricValue :: _ => (metricValue, pres_Metric result, status)
        | _ :: PromOther :: _ => ("", ∅, StatusError ReportPrometheusInvalidValueType)
        | _ => ("", ∅, StatusError ReportPrometheusInvalidValueStruct)
        end
    end.

Definition getMetricsWithFloat64Value prometheusHost promql : double * gmap string string * Status :=
  let '(metricValueStr, metrics, status) := getSingleValueMetrics prometheusHost promql in
  if negb (Status_Ok status) then (f64_zero, metrics, status)
  else
    match ParseFloat64 metricValueStr with
    | (metricValue, Some err) => (metricValue, metrics, StatusWithError (Some err))
    | (metricValue, None) => (metricValue, metrics, status)
    end.

Definition getMetricsWithInt64Value prometheusHost promql : Z * gmap string string * Status :=
  let '(value, metrics, status) := getMetricsWithFloat64Value prometheusHost promql in
  (f64_to_int 64 value, metrics, status).

Definition getMetricsWithInt32Value prometheusHost promql : Z * gmap string string * Status :=
  let '(value, metrics, status) := getMetricsWithFloat64Value prometheusHost promql in
  (f64_to_int 32 value, metrics, status).

Definition getMetricsWithFloat32Value prometheusHost promql : single * Status :=
  let '(value, _, status) := getMetricsWithFloat64Value prometheusHost promql in
  (f32_of_f64 value, status).

Definition getServiceName cfg : string := "laser_" +:+ cf_serviceName cfg.

(** *** Nodes *)

Definition getNodeCpuUsageRate cfg nodeIP : single * single * single * Status :=
  let host := cf_clientPrometheusAddress cfg in
  let '(cpuUsageRate, status) := getMetricsWithFloat32Value host (PromqlPatternNodeCpuUsage nodeIP) in
  if negb (Status_Ok status) then (cpuUsageRate, f32_zero, f32_zero, status)
  else
    let '(cpuUsageRateSystem, status) := getMetricsWithFloat32Value host (PromqlPatternNodeCpuSystem nodeIP) in
    if negb (Status_Ok status) then (cpuUsageRate, cpuUsageRateSystem, f32_zero, status)
    else
      let '(cpuUsageRateUser, status) := getMetricsWithFloat32Value host (PromqlPatternNodeCpuUser nodeIP) in
      (cpuUsageRate, cpuUsageRateSystem, cpuUsageRateUser, status).

(** [float32(float64(usage) / float64(total) * 100)]. *)
Definition usage_rate (usage total : Z) : single :=
  f32_of_f64 (f64_mul (f64_div (f64_of_Z usage) (f64_of_Z total)) (f64_of_Z 100)).

Definition getNodeDiskMetrics cfg nodeIP : Z * Z * single * Status :=
  let host := cf_clientPrometheusAddress cfg in
  let '(diskSizeTotal, metrics, status) := getMetricsWithInt64Value host (PromqlPatternNodeDiskSizeTotal nodeIP) in
  if negb (Status_Ok status) then (diskSizeTotal, 0, f32_zero, status)
  else
    match metrics !! "mountpoint" with
    | None => (diskSizeTotal, 0, f32_zero, StatusError ReportPrometheusInvalidResponse)
    | Some mountPoint =>
        let '(diskSizeFree, _, status) :=
          getMetricsWithInt64Value host (PromqlPatternNodeDiskSizeFree nodeIP mountPoint) in
        if negb (Status_Ok status) then (diskSizeTotal, 0, f32_zero, status)
        else
          let diskSizeUsage := i64 (diskSizeTotal - diskSizeFree) in
          (diskSizeTotal, diskSizeUsage, usage_rate diskSizeUsage diskSizeTotal, status)
    end.

Definition getNodeMemoryMetrics cfg nodeIP : Z * Z * single * Status :=
  let host := cf_clientPrometheusAddress cfg in
  let '(memSizeTotal, _, status) := getMetricsWithInt64Value host (PromqlPatternNodeMemSizeTotal nodeIP) in
  if negb (Status_Ok status) then (memSizeTotal, 0, f32_zero, status)
  else
    let '(memSizeAvailable, _, status) := getMetricsWithInt64Value host (PromqlPatternNodeMemSizeAvailable nodeIP) in
    if negb (Status_Ok status) then (memSizeTotal, 0, f32_zero, status)
    else
      let memSizeUsage := i64 (memSizeTotal - memSizeAvailable) in
      (memSizeTotal, memSizeUsage, usage_rate memSizeUsage memSizeTotal, status).

Definition getNodeNetworkMetrics cfg nodeIP : Z * Z * Status :=
  let host := cf_clientPrometheusAddress cfg in
  let '(netIn, _, status) := getMetricsWithInt64Value host (PromqlPatternNodeNetIn nodeIP) in
  if negb (Status_Ok status) then (netIn, 0, status)
  else
    let '(netOut, _, status) := getMetricsWithInt64Value host (PromqlPatternNodeNetOut nodeIP) in
    (netIn, netOut, status).

Definition getNodeIoUsageRate cfg nodeIP : single * Status :=
  getMetricsWithFloat32Value (cf_clientPrometheusAddress cfg) (PromqlPatternNodeIOUsageRate nodeIP).

Definition getNodeQps cfg nodeIP port : Z * Status :=
  let '(qps, _, status) := getMetricsWithInt32Value (cf_serverPrometheusAddress cfg) (PromqlPatternNodeQps nodeIP port) in
  (qps, status).

(** Two numbers that are read and added: keys or bytes per second, read and written. *)
Definition read_write (width : Z) (get : string → Z * gmap string string * Status) (read_ql write_ql : string)
  : Z * Z * Z * Status :=
  let '(read, _, status) := get read_ql in
  if negb (Status_Ok status) then (read, 0, 0, status)
  else
    let '(write, _, status) := get write_ql in
    if negb (Status_Ok status) then (read, write, 0, status)
    else (read, write, wraps width (read + write), status).

Definition getNodeKps cfg nodeIP port : Z * Z * Z * Status :=
  read_write 32 (getMetricsWithInt32Value (cf_serverPrometheusAddress cfg))
    (PromqlPatternNodeReadKps nodeIP port) (PromqlPatternNodeWriteKps nodeIP port).

Definition getNodeBps cfg nodeIP port : Z * Z * Z * Status :=
  read_write 64 (getMetricsWithInt64Value (cf_serverPrometheusAddress cfg))
    (PromqlPatternNodeReadBps nodeIP port) (PromqlPatternNodeWriteBps nodeIP port).

Definition getNodeDelayTime cfg nodeIP port : single * single * Status :=
  let host := cf_serverPrometheusAddress cfg in
  let '(p99, status) := getMetricsWithFloat32Value host (PromqlPatternNodeP99 nodeIP port) in
  if negb (Status_Ok status) then (p99, f32_zero, status)
  else
    let '(p999, status) := getMetricsWithFloat32Value host (PromqlPatternNodeP999 nodeIP port) in
    (p99, p999, status).

Definition getNodeDataSize cfg nodeIP port : Z * Status :=
  let '(dataSize, _, status) :=
    getMetricsWithInt64Value (cf_serverPrometheusAddress cfg) (PromqlPatternNodeDataSize nodeIP port) in
  (dataSize, status).

(** The status it returns is nil. *)
Definition getJitterDuration cfg nodeIP port : Z :=
  let instance := nodeIP +:+ ":" +:+ Itoa port in
  (getMetricsWithInt32Value (cf_serverPrometheusAddress cfg) (PromqlPatternNodeJitterDuration instance instance)).1.1.

(** *** Tables *)

Definition getTableDataSize cfg (databaseName tableName : string) : Z * Status :=
  let '(dataSize, _, status) :=
    getMetricsWithInt64Value (cf_serverPrometheusAddress cfg)
      (PromqlPatternTableDataSize (getServiceName cfg) databaseName tableName) in
  (dataSize, status).

Definition getTableKps cfg (databaseName tableName : string) : Z * Z * Z * Status :=
  let serviceName := getServiceName cfg in
  read_write 32 (getMetricsWithInt32Value (cf_serverPrometheusAddress cfg))
    (PromqlPatternTableReadKps serviceName databaseName tableName)
    (PromqlPatternTableWriteKps serviceName databaseName tableName).

Definition getTableBps cfg (databaseName tableName : string) : Z * Z * Z * Status :=
  let serviceName := getServiceName cfg in
  read_write 64 (getMetricsWithInt64Value (cf_serverPrometheusAddress cfg))
    (PromqlPatternTableReadBps serviceName databaseName tableName)
    (PromqlPatternTableWriteBps serviceName databaseName tableName).
End Queries.
