(* ===== verification/Reports.v ===== *)
(** * The collector of reports ([control/service/report_data_collector.go])

    Twice a day the collector asks Prometheus about every machine and every node, adds
    the nodes up to groups, the groups to pools (data centres) and the pools to
    clusters, and writes a row for each; tables are asked about on their own.  The
    goroutines of a phase all end before the next phase, so that a phase is its
    goroutines one after the other, in the order in which they end: that order, and the
    clock, are the class [ReportRun]. *)

From S2P Require Import Prelude RouterTypes Registry GoLib ControlStatus ControlData Context Metrics Prometheus.

(** [float64] and [float32]: [math.Max], [math.Min] and [math.MaxFloat32]. *)
Definition f64_is_zero (x : double) : bool := match x with SpecFloat.S754_zero _ => true | _ => false end.
Definition f64_is_nan (x : double) : bool := match x with SpecFloat.S754_nan => true | _ => false end.
Definition f64_is_inf (negative : bool) (x : double) : bool :=
  match x with SpecFloat.S754_infinity s => Bool.eqb s negative | _ => false end.
Definition math_Signbit (x : double) : bool :=
  match x with
  | SpecFloat.S754_zero s | SpecFloat.S754_infinity s | SpecFloat.S754_finite s _ _ => s
  | SpecFloat.S754_nan => false
  end.

Definition math_Max (x y : double) : double :=
  if (f64_is_inf false x || f64_is_inf false y)%bool then SpecFloat.S754_infinity false
  else if (f64_is_nan x || f64_is_nan y)%bool then SpecFloat.S754_nan
  else if (f64_is_zero x && f64_is_zero y)%bool then (if math_Signbit x then y else x)
  else if SpecFloat.SFltb y x then x else y.

Definition math_Min (x y : double) : double :=
  if (f64_is_inf true x || f64_is_inf true y)%bool then SpecFloat.S754_infinity true
  else if (f64_is_nan x || f64_is_nan y)%bool then SpecFloat.S754_nan
  else if (f64_is_zero x && f64_is_zero y)%bool then (if math_Signbit x then x else y)
  else if SpecFloat.SFltb x y then x else y.

Definition MaxFloat32 : single := SpecFloat.S754_finite false 16777215 104.

(** [float32(math.Min(float64(x), float64(y)))]. *)
Definition f32_min (x y : single) : single := f32_of_f64 (math_Min (f64_of_f32 x) (f64_of_f32 y)).

(** ** Data *)

Definition RedundancyIndex : single := f32_div (f32_of_Z 3) (f32_of_Z 2).

Definition TimeTypePeacePeak : Z := 1.
Definition TimeTypePeak : Z := 2.

Record ReportMetricsCache := mkReportMetricsCache {
  rc_NodePhysicalMetricsCache : gmap string NodePhysicalMetricsInfo;
  rc_NodeRunningMetricsCache : gmap string NodeRunningMetricsInfo;
  rc_GroupRunningMetricsCache : gmap Z GroupRunningMetricsInfo;
  rc_ResourcePoolRunningMetricsCache : gmap Z ResourcePoolRunningMetricsInfo
}.

Definition NewNodeMetricsCache : ReportMetricsCache := mkReportMetricsCache ∅ ∅ ∅ ∅.

(** The order in which the goroutines of a phase end, and the second at which each
    thing, by its name, is measured. *)
Class ReportRun := {
  run_ends : ∀ {A}, list A → list A;
  run_ends_perm : ∀ {A} (l : list A), run_ends l ≡ₚ l;
  time_Now : string → Z
}.

(** The groups that [Preload("Groups")] gives a data centre, by their ids. *)
Class PoolGroups (DB : Type) := { dc_Groups : DB → Dc → list Z }.

(** ** Sums of running metrics *)

(** One more part of a sum: counts wrap around at their width, delays add up, idle
    rates keep the smallest. *)
Definition add_running (acc m : Running) : Running :=
  mkRunning (i32 (ru_Qps acc + ru_Qps m)) (i32 (ru_Kps acc + ru_Kps m)) (i32 (ru_KpsWrite acc + ru_KpsWrite m))
    (i32 (ru_KpsRead acc + ru_KpsRead m)) (ru_Bps acc) (i64 (ru_BpsWrite acc + ru_BpsWrite m))
    (i64 (ru_BpsRead acc + ru_BpsRead m)) (i64 (ru_DataSize acc + ru_DataSize m))
    (f32_add (ru_P99 acc) (ru_P99 m)) (f32_add (ru_P999 acc) (ru_P999 m))
    (i32 (ru_JitterDuration acc + ru_JitterDuration m))
    (f32_min (ru_CapacityIdleRate acc) (ru_CapacityIdleRate m))
    (f32_min (ru_CapacityIdleRateAbsolute acc) (ru_CapacityIdleRateAbsolute m))
    (ru_CollectTime acc) (ru_TimeType acc).

Definition start_running (now timeType : Z) : Running :=
  mkRunning 0 0 0 0 0 0 0 0 f32_zero f32_zero 0 MaxFloat32 MaxFloat32 now timeType.

(** The loop over the parts: those that are not in the cache are left out and not
    counted. *)
Definition sum_parts (parts : list (option Running)) (s : Running * Z) : Running * Z :=
  foldl (λ s part, match part with Some m => (add_running s.1 m, s.2 + 1) | None => s end) s parts.

Definition finish_running (s : Running * Z) : Running :=
  let '(m, count) := s in
  mkRunning (ru_Qps m) (ru_Kps m) (ru_KpsWrite m) (ru_KpsRead m) (i64 (ru_BpsRead m + ru_BpsWrite m)) (ru_BpsWrite m)
    (ru_BpsRead m) (ru_DataSize m) (f32_div (ru_P99 m) (f32_of_Z count)) (f32_div (ru_P999 m) (f32_of_Z count))
    (ru_JitterDuration m) (ru_CapacityIdleRate m) (ru_CapacityIdleRateAbsolute m) (ru_CollectTime m) (ru_TimeType m).

Section Collector.
Context {DB : Type} {cdb : ControlDb DB} {pool_groups : PoolGroups DB} {rt : Runtime} {pw : PrometheusWorld}
  {jsonProm : Json PrometheusResponse} {run : ReportRun}
  {dbNodeRunning : MetricDb DB NodeRunningMetrics} {dbGroupRunning : MetricDb DB GroupRunningMetrics}
  {dbPoolRunning : MetricDb DB ResourcePoolRunningMetrics} {dbClusterRunning : MetricDb DB ClusterRunningMetrics}
  {dbPhysical : MetricDb DB NodePhysicalMetrics} {dbTable : MetricDb DB TableMetrics}
  (cfg : Config).
Implicit Types (db : DB) (cache : ReportMetricsCache) (timeType : Z).

(** *** Machines and nodes *)

Definition physical_metrics timeType (nodeIP : string) (isEdgeNode : bool) : NodePhysicalMetricsInfo :=
  let '(cpu, cpuSystem, cpuUser, _) := getNodeCpuUsageRate cfg nodeIP in
  let '(diskTotal, diskUsage, diskRate, _) := getNodeDiskMetrics cfg nodeIP in
  let '(memTotal, memUsage, memRate, _) := getNodeMemoryMetrics cfg nodeIP in
  let '(ioRate, _) := getNodeIoUsageRate cfg nodeIP in
  let '(netIn, netOut, _) := getNodeNetworkMetrics cfg nodeIP in
  let idle := f32_of_f64 (f64_sub (f64_of_Z 100)
                (math_Max (f64_of_f32 cpu) (math_Max (f64_of_f32 ioRate) (f64_of_f32 diskRate)))) in
  let idle := if isEdgeNode then f32_min idle (f32_sub (f32_of_Z 100) memRate) else idle in
  mkNodePhysicalMetricsInfo nodeIP cpu cpuUser cpuSystem memTotal memUsage memRate diskTotal diskUsage diskRate
    ioRate netIn netOut (time_Now nodeIP) timeType idle.

(** What is stored in the cache is stored also where the row could not be written. *)
Definition getNodePhysicalMetrics timeType (s : DB * ReportMetricsCache) (node : string * bool) : DB * ReportMetricsCache :=
  let '(db, cache) := s in
  let metrics := physical_metrics timeType node.1 node.2 in
  ((NodePhysicalMetrics_Insert metrics db).1,
   mkReportMetricsCache (<[node.1 := metrics]> (rc_NodePhysicalMetricsCache cache)) (rc_NodeRunningMetricsCache cache)
     (rc_GroupRunningMetricsCache cache) (rc_ResourcePoolRunningMetricsCache cache)).

Definition service_address (host : string) (port : Z) : string := host +:+ ":" +:+ Itoa port.

Definition running_metrics timeType cache (nodeIP : string) (port : Z) : NodeRunningMetricsInfo :=
  let '(qps, _) := getNodeQps cfg nodeIP port in
  let '(kpsRead, kpsWrite, kps, _) := getNodeKps cfg nodeIP port in
  let '(dataSize, _) := getNodeDataSize cfg nodeIP port in
  let '(bpsRead, bpsWrite, bps, _) := getNodeBps cfg nodeIP port in
  let '(p99, p999, _) := getNodeDelayTime cfg nodeIP port in
  let jitter := getJitterDuration cfg nodeIP port in
  let '(idle, idleAbsolute) :=
    match rc_NodePhysicalMetricsCache cache !! nodeIP with
    | Some physical => (f32_div (npi_CapacityIdleRateAbsolute physical) RedundancyIndex, npi_CapacityIdleRateAbsolute physical)
    | None => (f32_zero, f32_zero)
    end in
  let address := service_address nodeIP port in
  mkNodeRunningMetricsInfo 0 address
    (mkRunning qps kps kpsWrite kpsRead bps bpsWrite bpsRead dataSize p99 p999 jitter idle idleAbsolute
       (time_Now address) timeType).

Definition getNodeRunningMetrics timeType (s : DB * ReportMetricsCache) (node : string * Z) : DB * ReportMetricsCache :=
  let '(db, cache) := s in
  let metrics := running_metrics timeType cache node.1 node.2 in
  ((NodeRunningMetrics_Insert metrics db).1,
   mkReportMetricsCache (rc_NodePhysicalMetricsCache cache)
     (<[nri_ServiceAddress metrics := metrics]> (rc_NodeRunningMetricsCache cache))
     (rc_GroupRunningMetricsCache cache) (rc_ResourcePoolRunningMetricsCache cache)).

(** A machine is an edge machine if its first node is. *)
Definition uniqueNodeIps (nodes : list Node) : go (gmap string bool) :=
  go_fold (λ ips node,
      match ips !! n_Host node with
      | Some _ => mret ips
      | None => isEdgeNode ← go_deref (n_IsEdgeNode node); mret (<[n_Host node := isEdgeNode]> ips)
      end) nodes ∅.

Definition getAllNodeMetrics timeType (s : DB * ReportMetricsCache) : go (DB * ReportMetricsCache) :=
  let nodes := (Node_list s.1 (mkNodeListParams 0 0 0 None) false).1 in
  ips ← uniqueNodeIps nodes;
  let s := foldl (getNodePhysicalMetrics timeType) s (run_ends (map_to_list ips)) in
  mret (foldl (getNodeRunningMetrics timeType) s (run_ends ((λ node, (n_Host node, n_Port node)) <$> nodes))).

(** *** Groups, pools and clusters *)

Definition node_part cache (node : Node) : option Running :=
  nri_running <$> rc_NodeRunningMetricsCache cache !! service_address (n_Host node) (n_Port node).

Definition report_group timeType (s : DB * ReportMetricsCache) (group : Group) : DB * ReportMetricsCache :=
  let '(db, cache) := s in
  let name := g_Name (g_row group) in
  let sum := sum_parts (node_part cache <$> g_Nodes group) (start_running (time_Now name) timeType, 0) in
  if Z.eqb sum.2 0 then s
  else
    let metrics := mkGroupRunningMetricsInfo 0 name (finish_running sum) in
    ((GroupRunningMetrics_Insert metrics db).1,
     mkReportMetricsCache (rc_NodePhysicalMetricsCache cache) (rc_NodeRunningMetricsCache cache)
       (<[g_Id (g_row group) := metrics]> (rc_GroupRunningMetricsCache cache)) (rc_ResourcePoolRunningMetricsCache cache)).

Definition getAllGroupRunningMetrics timeType (s : DB * ReportMetricsCache) : DB * ReportMetricsCache :=
  foldl (report_group timeType) s (Group_List s.1 (mkGroupListParams 0 0 0 0 "" true) false).1.

Definition group_part cache (id : Z) : option Running := gri_running <$> rc_GroupRunningMetricsCache cache !! id.

(** The list of data centres, with their groups, is read before the loop. *)
Definition report_pool timeType (s : DB * ReportMetricsCache) (dc : Dc * list Z) : DB * ReportMetricsCache :=
  let '(db, cache) := s in
  let name := dc_Name dc.1 in
  let sum := sum_parts (group_part cache <$> dc.2) (start_running (time_Now name) timeType, 0) in
  if Z.eqb sum.2 0 then s
  else
    let metrics := mkResourcePoolRunningMetricsInfo 0 name (finish_running sum) in
    ((ResourcePoolRunningMetrics_Insert metrics db).1,
     mkReportMetricsCache (rc_NodePhysicalMetricsCache cache) (rc_NodeRunningMetricsCache cache)
       (rc_GroupRunningMetricsCache cache) (<[dc_Id dc.1 := metrics]> (rc_ResourcePoolRunningMetricsCache cache))).

Definition pools db : list (Dc * list Z) :=
  (λ dc, (dc, dc_Groups db dc)) <$> (Dc_List db (mkDcListParams 0 0) false).1.

Definition getAllResourcePoolRunningMetrics timeType (s : DB * ReportMetricsCache) : DB * ReportMetricsCache :=
  foldl (report_pool timeType) s (pools s.1).

Definition pool_part cache (dc : Dc) : option Running :=
  pri_running <$> rc_ResourcePoolRunningMetricsCache cache !! dc_Id dc.

(** A cluster has a row whether or not it has parts. *)
Definition cluster_metrics timeType cache (cluster : Cluster) : ClusterRunningMetricsInfo :=
  mkClusterRunningMetricsInfo 0
    (finish_running (sum_parts (pool_part cache <$> cl_Dcs cluster) (start_running (time_Now (cl_Name cluster)) timeType, 0))).

Definition getClusterRunningMetrics timeType (s : DB * ReportMetricsCache) : DB :=
  foldl (λ db cluster, (ClusterRunningMetrics_Insert (cluster_metrics timeType s.2 cluster) db).1) s.1
    (Cluster_List s.1 (mkClusterListParams 0 0) false).1.

(** *** Tables *)

Definition table_metrics timeType (databaseName tableName : string) (partitionNumber : Z) : TableMetricsInfo :=
  let '(kpsRead, kpsWrite, kps, _) := getTableKps cfg databaseName tableName in
  let '(bpsRead, bpsWrite, bps, _) := getTableBps cfg databaseName tableName in
  let '(dataSize, _) := getTableDataSize cfg databaseName tableName in
  mkTableMetricsInfo 0 databaseName tableName dataSize 0 kps kpsWrite kpsRead bps bpsWrite bpsRead (i32 partitionNumber)
    (time_Now (databaseName +:+ ":" +:+ tableName)) timeType.

Definition getTableMetrics timeType db (table : Table) : DB :=
  (TableMetrics_Insert (table_metrics timeType (ld_Name (t_Database table)) (t_Name table) (t_PartitionNumber table)) db).1.

Definition getAllTableMetrics timeType db : DB :=
  foldl (getTableMetrics timeType) db (run_ends (Table_List db (mkTableListParams 0 0 0 0 "" "") false).1).

(** *** A collection *)

Definition collectReportData timeType db : go DB :=
  s ← getAllNodeMetrics timeType (db, NewNodeMetricsCache);
  let s := getAllGroupRunningMetrics timeType s in
  let s := getAllResourcePoolRunningMetrics timeType s in
  let db := getClusterRunningMetrics timeType s in
  mret (getAllTableMetrics timeType db).
End Collector.

(** *** Schedule *)

(** Which expressions [cron] takes; the others are dropped without a word. *)
Class Cron := { cron_parses : string → bool }.

(** [sync.Once]: the collections that are scheduled, each with its kind of time. *)
Definition GetReportDataCollector `{Cron} (cfg : Config) (reportDataCollector : option (list (string * Z)))
  : list (string * Z) :=
  match reportDataCollector with
  | Some entries => entries
  | None => List.filter (λ e, cron_parses e.1)
              [(cf_cronExpressionPeak cfg, TimeTypePeak); (cf_cronExpressionPeacePeak cfg, TimeTypePeacePeak)]
  end.

(** ** Theorems: sums *)

Definition sum_over {A} (l : list A) (f : A → Z) : Z := sum_values (f <$> l).

(** The counts of a report that the levels sum, and the width of each.  [Bps] is not
    among them: it is computed anew at each level from [BpsRead] and [BpsWrite]. *)
Definition totals : list (Z * (Running → Z)) :=
  [(32, ru_Qps); (32, ru_Kps); (32, ru_KpsWrite); (32, ru_KpsRead); (32, ru_JitterDuration);
   (64, ru_BpsWrite); (64, ru_BpsRead); (64, ru_DataSize)].

Record total_laws (w : Z) (f : Running → Z) : Prop := {
  total_width : 1 ≤ w;
  total_add a b : f (add_running a b) = wraps w (f a + f b);
  total_start now timeType : f (start_running now timeType) = 0;
  total_finish s : f (finish_running s) = f s.1
}.

Lemma totals_laws w f : (w, f) ∈ totals → total_laws w f.
Proof.
  unfold totals. rewrite !elem_of_cons, elem_of_nil.
  intros H; repeat destruct H as [[= -> ->]|H]; try done; split; first [lia|done|by intros []].
Qed.

Lemma sum_over_cons {A} (a : A) l f : sum_over (a :: l) f = f a + sum_over l f.
Proof. done. Qed.

Lemma wraps_sum {A} w (l : list A) f : wraps w (sum_over l (λ a, wraps w (f a))) = wraps w (sum_over l f).
Proof.
  induction l as [|a l IH]; [done|]. rewrite !sum_over_cons.
  by rewrite wraps_add_l, <- wraps_add_r, IH, wraps_add_r.
Qed.

Lemma sum_over_ext {A} (l : list A) f g : (∀ a, a ∈ l → f a = g a) → sum_over l f = sum_over l g.
Proof.
  unfold sum_over. induction l as [|a l IH]; intros H; [done|]. cbn.
  rewrite (H a) by left. f_equal. apply IH. intros b Hb. apply H. by right.
Qed.

Section Sums.
Context {w : Z} {f : Running → Z} (laws : total_laws w f).

Lemma sum_parts_total parts m c :
  f m = wraps w (f m) → f (sum_parts parts (m, c)).1 = wraps w (f m + sum_over parts (from_option f 0)).
Proof.
  revert m c. induction parts as [|[p|] parts IH]; intros m c Hm.
  - change (f m = wraps w (f m + 0)). by rewrite Z.add_0_r.
  - change (sum_parts (Some p :: parts) (m, c)) with (sum_parts parts (add_running m p, c + 1)).
    rewrite IH by (rewrite (total_add _ _ laws), wraps_idem; done).
    rewrite (total_add _ _ laws), wraps_add_l, sum_over_cons. cbn [from_option]. by rewrite Z.add_assoc.
  - change (sum_parts (None :: parts) (m, c)) with (sum_parts parts (m, c)). by rewrite IH, sum_over_cons.
Qed.

(** The sum of a row that is started, added up and finished. *)
Lemma finished_total parts now timeType c :
  f (finish_running (sum_parts parts (start_running now timeType, c))) =
    wraps w (sum_over parts (from_option f 0)).
Proof.
  rewrite (total_finish _ _ laws), sum_parts_total; rewrite (total_start _ _ laws); [done|].
  symmetry. apply wraps_zero, laws.
Qed.
End Sums.

(** A sum without parts counts none, and the other way round. *)
Lemma sum_parts_count parts m c :
  c ≤ (sum_parts parts (m, c)).2 ∧
  ((sum_parts parts (m, c)).2 = c → Forall (λ p, p = None) parts).
Proof.
  revert m c. induction parts as [|[p|] parts IH]; intros m c; [cbn; split; [lia|constructor]| |].
  - change (sum_parts (Some p :: parts) (m, c)) with (sum_parts parts (add_running m p, c + 1)).
    destruct (IH (add_running m p) (c + 1)) as [H _]. split; lia.
  - change (sum_parts (None :: parts) (m, c)) with (sum_parts parts (m, c)).
    destruct (IH m c) as [H1 H2]. split; [done|]. intros Hc. constructor; [done|auto].
Qed.

Lemma no_parts_total parts (f : Running → Z) :
  Forall (λ p, p = None) parts → sum_over parts (from_option f 0) = 0.
Proof. unfold sum_over. induction 1 as [|p parts -> H IH]; [done|]. cbn. apply IH. Qed.

(** A loop in which every turn writes at most its own key. *)
Lemma foldl_keyed {S A V} (P : S → Prop) (step : S → A → S) (key : A → Z) (look : S → Z → option V)
    (val : A → option V) l s :
  (∀ s a, P s → P (step s a)) →
  (∀ s a k, P s → look (step s a) k = if decide (key a = k) then val a ∪ look s k else look s k) →
  P s → NoDup (key <$> l) →
  P (foldl step s l) ∧
  ∀ k, look (foldl step s l) k = (head (List.filter (λ a, Z.eqb (key a) k) l) ≫= val) ∪ look s k.
Proof.
  intros HP Hlook. revert s. induction l as [|a l IH]; intros s Hs Hnd.
  { split; [done|]. intros k. cbn. by destruct (look s k). }
  cbn in Hnd. apply NoDup_cons in Hnd as [Ha Hnd]. cbn [foldl].
  destruct (IH (step s a) (HP _ _ Hs) Hnd) as [HP' Hl]. split; [done|]. intros k. rewrite Hl, Hlook by done. clear Hl.
  cbn [List.filter]. destruct (Z.eqb_spec (key a) k) as [<-|Hk]; [|by rewrite decide_False].
  rewrite decide_True by done.
  assert (head (List.filter (λ a', Z.eqb (key a') (key a)) l) = None) as ->.
  { destruct (List.filter _ l) as [|b l'] eqn:E; [done|]. exfalso.
    assert (List.In b (List.filter (λ a', Z.eqb (key a') (key a)) l)) as Hb by (rewrite E; by left).
    apply filter_In in Hb as [Hb Heq]. apply Z.eqb_eq in Heq. apply Ha. rewrite <- Heq.
    apply list_elem_of_fmap_2. by apply list_elem_of_In. }
  cbn. by destruct (val a), (look s (key a)).
Qed.

Lemma filter_key {A} (key : A → Z) (l : list A) k :
  NoDup (key <$> l) →
  List.filter (λ a, Z.eqb (key a) k) l = option_list (head (List.filter (λ a, Z.eqb (key a) k) l)).
Proof.
  induction l as [|a l IH]; intros Hnd; [done|]. cbn in Hnd. apply NoDup_cons in Hnd as [Ha Hnd].
  cbn [List.filter]. destruct (Z.eqb_spec (key a) k) as [<-|Hk]; [|by apply IH]. cbn. f_equal.
  destruct (List.filter _ l) as [|b l'] eqn:E; [done|]. exfalso. apply Ha.
  assert (List.In b (List.filter (λ a', Z.eqb (key a') (key a)) l)) as Hb by (rewrite E; by left).
  apply filter_In in Hb as [Hb Heq]. apply Z.eqb_eq in Heq. rewrite <- Heq.
  apply list_elem_of_fmap_2. by apply list_elem_of_In.
Qed.

Section Reports.
Context {DB : Type} {cdb : ControlDb DB} {pool_groups : PoolGroups DB} {rt : Runtime} {pw : PrometheusWorld}
  {jsonProm : Json PrometheusResponse} {run : ReportRun}
  {dbNodeRunning : MetricDb DB NodeRunningMetrics} {dbGroupRunning : MetricDb DB GroupRunningMetrics}
  {dbPoolRunning : MetricDb DB ResourcePoolRunningMetrics} {dbClusterRunning : MetricDb DB ClusterRunningMetrics}
  {dbPhysical : MetricDb DB NodePhysicalMetrics} {dbTable : MetricDb DB TableMetrics}.
Implicit Types (db : DB) (cache : ReportMetricsCache) (timeType : Z) (s : DB * ReportMetricsCache).

(** What the nodes of a group, the groups of a pool and the pools of a cluster have
    together of a count, straight from the measurements of the nodes. *)
Definition group_total (f : Running → Z) cache (groups : list Group) (id : Z) : Z :=
  sum_over (List.filter (λ g, Z.eqb (g_Id (g_row g)) id) groups) (λ g,
    sum_over (g_Nodes g) (λ n, from_option f 0 (node_part cache n))).

Definition pool_total (f : Running → Z) cache (groups : list Group) (dcs : list (Dc * list Z)) (dc : Dc) : Z :=
  sum_over (List.filter (λ p : Dc * list Z, Z.eqb (dc_Id p.1) (dc_Id dc)) dcs) (λ p,
    sum_over p.2 (group_total f cache groups)).

Section Field.
Context {w : Z} {f : Running → Z} (laws : total_laws w f).

(** A row that is left out where it has no parts stands for the sum all the same. *)
Lemma row_total {R} (parts : list (option Running)) now timeType (mk : Running → R) (get : R → Running) :
  (∀ m, get (mk m) = m) →
  let sum := sum_parts parts (start_running now timeType, 0) in
  from_option f 0 (get <$> (if Z.eqb sum.2 0 then None else Some (mk (finish_running sum)))) =
    wraps w (sum_over parts (from_option f 0)).
Proof.
  intros Hget sum. destruct (Z.eqb_spec sum.2 0) as [E|E].
  - apply sum_parts_count in E. cbn. rewrite no_parts_total by done. symmetry. apply wraps_zero, laws.
  - cbn [from_option fmap option_fmap option_map]. rewrite Hget. apply finished_total, laws.
Qed.

Lemma keyed_total {A R} (key : A → Z) (l : list A) (val : A → option R) (get : R → Running) (g : A → Z) k :
  NoDup (key <$> l) →
  (∀ a, from_option f 0 (get <$> val a) = wraps w (g a)) →
  from_option f 0 (get <$> ((head (List.filter (λ a, Z.eqb (key a) k) l) ≫= val) ∪ None)) =
    wraps w (sum_over (List.filter (λ a, Z.eqb (key a) k) l) g).
Proof.
  intros Hnd Hval. pose proof (filter_key key l k Hnd) as E. destruct (List.filter _ l) as [|a l']; cbn in E; [|injection E as ->].
  - symmetry. apply wraps_zero, laws.
  - rewrite sum_over_cons. change (sum_over [] g) with 0.
    rewrite Z.add_0_r, <- Hval. cbn. by destruct (val a).
Qed.

Lemma groups_total timeType s id :
  let groups := (Group_List s.1 (mkGroupListParams 0 0 0 0 "" true) false).1 in
  let s1 := getAllGroupRunningMetrics timeType s in
  rc_GroupRunningMetricsCache s.2 = ∅ → NoDup ((λ g, g_Id (g_row g)) <$> groups) →
  rc_ResourcePoolRunningMetricsCache s1.2 = rc_ResourcePoolRunningMetricsCache s.2 ∧
  from_option f 0 (group_part s1.2 id) = wraps w (group_total f s.2 groups id).
Proof.
  intros groups s1 Hempty Hnd.
  pose (val g := let name := g_Name (g_row g) in
    let sum := sum_parts (node_part s.2 <$> g_Nodes g) (start_running (time_Now name) timeType, 0) in
    if Z.eqb sum.2 0 then None else Some (mkGroupRunningMetricsInfo 0 name (finish_running sum))).
  destruct (foldl_keyed
    (λ s', rc_NodeRunningMetricsCache s'.2 = rc_NodeRunningMetricsCache s.2 ∧
           rc_ResourcePoolRunningMetricsCache s'.2 = rc_ResourcePoolRunningMetricsCache s.2)
    (report_group timeType) (λ g, g_Id (g_row g)) (λ s' k, rc_GroupRunningMetricsCache s'.2 !! k) val groups s)
    as [[_ Hpool] Hlook]; [| |done|done|].
  - intros [db c] g Hc. unfold report_group. by destruct (Z.eqb _ 0).
  - intros [db c] g k [Hc _]. unfold report_group, val, node_part. cbn [snd] in *. rewrite Hc.
    destruct (Z.eqb _ 0); [case_decide; [by destruct (_ !! _)|done]|]. cbn.
    case_decide as Hk; [subst k; rewrite lookup_insert_eq; by destruct (_ !! _)|by rewrite lookup_insert_ne].
  - split; [done|]. unfold group_part. subst s1. unfold getAllGroupRunningMetrics. fold groups.
    rewrite Hlook, Hempty, lookup_empty. unfold group_total.
    apply (keyed_total (λ g, g_Id (g_row g)) groups val gri_running); [done|]. intros g. unfold val.
    pose proof (row_total (node_part s.2 <$> g_Nodes g) (time_Now (g_Name (g_row g))) timeType
      (mkGroupRunningMetricsInfo 0 (g_Name (g_row g))) gri_running ltac:(done)) as H. cbn in H |- *. rewrite H.
    unfold sum_over. by rewrite <- list_fmap_compose.
Qed.

Lemma pools_total timeType s s1 groups dc :
  let s2 := getAllResourcePoolRunningMetrics timeType s1 in
  rc_ResourcePoolRunningMetricsCache s1.2 = ∅ → NoDup ((λ p, dc_Id p.1) <$> pools s1.1) →
  (∀ id, from_option f 0 (group_part s1.2 id) = wraps w (group_total f s.2 groups id)) →
  from_option f 0 (pool_part s2.2 dc) = wraps w (pool_total f s.2 groups (pools s1.1) dc).
Proof.
  intros s2 Hempty Hnd Hgroups.
  pose (val (p : Dc * list Z) := let name := dc_Name p.1 in
    let sum := sum_parts (group_part s1.2 <$> p.2) (start_running (time_Now name) timeType, 0) in
    if Z.eqb sum.2 0 then None else Some (mkResourcePoolRunningMetricsInfo 0 name (finish_running sum))).
  destruct (foldl_keyed
    (λ s', rc_GroupRunningMetricsCache s'.2 = rc_GroupRunningMetricsCache s1.2)
    (report_pool timeType) (λ p, dc_Id p.1) (λ s' k, rc_ResourcePoolRunningMetricsCache s'.2 !! k) val (pools s1.1) s1)
    as [_ Hlook]; [| |done|done|].
  - intros [db c] p Hc. unfold report_pool. by destruct (Z.eqb _ 0).
  - intros [db c] p k Hc. unfold report_pool, val, group_part. cbn [snd] in *. rewrite Hc.
    destruct (Z.eqb _ 0); [case_decide; [by destruct (_ !! _)|done]|]. cbn.
    case_decide as Hk; [subst k; rewrite lookup_insert_eq; by destruct (_ !! _)|by rewrite lookup_insert_ne].
  - unfold pool_part. subst s2. unfold getAllResourcePoolRunningMetrics.
    rewrite Hlook, Hempty, lookup_empty. unfold pool_total.
    apply (keyed_total (λ p : Dc * list Z, dc_Id p.1) (pools s1.1) val pri_running); [done|]. intros p. unfold val.
    pose proof (row_total (group_part s1.2 <$> p.2) (time_Now (dc_Name p.1)) timeType
      (mkResourcePoolRunningMetricsInfo 0 (dc_Name p.1)) pri_running ltac:(done)) as H. cbn in H |- *. rewrite H.
    rewrite <- (wraps_sum w p.2). f_equal. unfold sum_over. rewrite <- list_fmap_compose. f_equal.
    apply list_fmap_ext. intros i id _. apply Hgroups.
Qed.
End Field.

(** *** The phases of the nodes *)

Lemma physical_phase cfg timeType s l :
  (foldl (getNodePhysicalMetrics cfg timeType) s l).2 =
    mkReportMetricsCache
      (foldl (λ m (kv : string * NodePhysicalMetricsInfo), <[kv.1 := kv.2]> m) (rc_NodePhysicalMetricsCache s.2)
         ((λ n : string * bool, (n.1, physical_metrics cfg timeType n.1 n.2)) <$> l))
      (rc_NodeRunningMetricsCache s.2) (rc_GroupRunningMetricsCache s.2) (rc_ResourcePoolRunningMetricsCache s.2).
Proof.
  revert s. induction l as [|n l IH]; intros [db c]; [by destruct c|]. cbn [foldl]. by rewrite IH.
Qed.

Lemma running_phase cfg timeType s l :
  (foldl (getNodeRunningMetrics cfg timeType) s l).2 =
    mkReportMetricsCache (rc_NodePhysicalMetricsCache s.2)
      (foldl (λ m (kv : string * NodeRunningMetricsInfo), <[kv.1 := kv.2]> m) (rc_NodeRunningMetricsCache s.2)
         ((λ n : string * Z, (service_address n.1 n.2, running_metrics cfg timeType s.2 n.1 n.2)) <$> l))
      (rc_GroupRunningMetricsCache s.2) (rc_ResourcePoolRunningMetricsCache s.2).
Proof.
  revert s. induction l as [|n l IH]; intros [db c]; [by destruct c|]. cbn [foldl]. rewrite IH. cbn.
  assert (nri_ServiceAddress (running_metrics cfg timeType c n.1 n.2) = service_address n.1 n.2) as ->; [|done].
  unfold running_metrics. by repeat case_match.
Qed.

Lemma nodes_caches cfg timeType db s :
  getAllNodeMetrics cfg timeType (db, NewNodeMetricsCache) = Ret s →
  rc_GroupRunningMetricsCache s.2 = ∅ ∧ rc_ResourcePoolRunningMetricsCache s.2 = ∅.
Proof.
  unfold getAllNodeMetrics. destruct (uniqueNodeIps _) as [ips| |]; cbn; [|done..]. unfold mret, go_ret. intros [= <-].
  by rewrite running_phase, physical_phase.
Qed.

Lemma cluster_total w f cfg timeType db s cluster :
  total_laws w f →
  let groups := (Group_List s.1 (mkGroupListParams 0 0 0 0 "" true) false).1 in
  let s1 := getAllGroupRunningMetrics timeType s in
  let s2 := getAllResourcePoolRunningMetrics timeType s1 in
  getAllNodeMetrics cfg timeType (db, NewNodeMetricsCache) = Ret s →
  NoDup ((λ g, g_Id (g_row g)) <$> groups) → NoDup ((λ p, dc_Id p.1) <$> pools s1.1) →
  f (cri_running (cluster_metrics timeType s2.2 cluster)) =
    wraps w (sum_over (cl_Dcs cluster) (pool_total f s.2 groups (pools s1.1))).
Proof.
  intros laws groups s1 s2 Hs Hgroups Hpools. apply nodes_caches in Hs as [Hg Hp].
  unfold cluster_metrics. cbn [cri_running]. rewrite (finished_total laws), <- (wraps_sum w (cl_Dcs cluster)).
  f_equal. unfold sum_over at 1 2. rewrite <- list_fmap_compose. f_equal. apply list_fmap_ext. intros i dc _.
  apply (pools_total laws); [|done|].
  - etransitivity; [exact (proj1 (groups_total laws timeType s 0 Hg Hgroups))|done].
  - intros id. apply (groups_total laws timeType s id Hg Hgroups).
Qed.

Lemma finished_Bps (s : Running * Z) : ru_Bps (finish_running s) = i64 (ru_BpsRead (finish_running s) + ru_BpsWrite (finish_running s)).
Proof. by destruct s as [m count]. Qed.

(** C30: the counts of the row of a cluster, where no two groups and no two data
    centres have the same id and the collection at the nodes returns.  Each of the eight
    counts of [totals] (Qps, Kps, KpsRead, KpsWrite, BpsRead, BpsWrite, data size,
    jitter) is the sum, at its width, of what the node cache has for the nodes of the
    groups of the data centres of the cluster: no level loses a part or wraps around
    where the others do not.  [Bps] is the sum of the totals of [BpsRead] and [BpsWrite], not
    the sum of the nodes' own [Bps]: a node of which only the write query failed has
    a [Bps] of 0 beside a [BpsRead] that counts.  The averages ([P99], [P999]) and
    minima (idle rates) are not sums and not part of the claim. *)
Theorem report_totals cfg timeType db s cluster :
  let groups := (Group_List s.1 (mkGroupListParams 0 0 0 0 "" true) false).1 in
  let s1 := getAllGroupRunningMetrics timeType s in
  let s2 := getAllResourcePoolRunningMetrics timeType s1 in
  let row := cri_running (cluster_metrics timeType s2.2 cluster) in
  let total f := sum_over (cl_Dcs cluster) (pool_total f s.2 groups (pools s1.1)) in
  getAllNodeMetrics cfg timeType (db, NewNodeMetricsCache) = Ret s →
  NoDup ((λ g, g_Id (g_row g)) <$> groups) → NoDup ((λ p, dc_Id p.1) <$> pools s1.1) →
  (∀ w f, (w, f) ∈ totals → f row = wraps w (total f)) ∧
  ru_Bps row = i64 (total ru_BpsRead + total ru_BpsWrite).
Proof.
  intros groups s1 s2 row total Hs Hgroups Hpools.
  assert (∀ w f, (w, f) ∈ totals → f row = wraps w (total f)) as Hsum
    by (intros w f laws%totals_laws; by apply (cluster_total w f cfg timeType db)).
  split; [done|]. etransitivity; [apply finished_Bps|]. fold row.
  change (finish_running _) with row.
  rewrite (Hsum 64 ru_BpsRead), (Hsum 64 ru_BpsWrite) by (unfold totals; set_solver).
  by rewrite wraps_add_l, wraps_add_r.
Qed.

(** The values of a phase do not depend on the order in which its goroutines end. *)
Lemma phase_order {A V} (f : A → string * V) (m : gmap string V) l l' :
  l ≡ₚ l' → NoDup (fst ∘ f <$> l) →
  foldl (λ m kv, <[kv.1 := kv.2]> m) m (f <$> l) = foldl (λ m kv, <[kv.1 := kv.2]> m) m (f <$> l').
Proof.
  intros Hl Hnd. rewrite list_fmap_compose in Hnd.
  rewrite !foldl_insert_union; [|by rewrite <- Hl|done]. f_equal. apply list_to_map_proper; [done|by rewrite Hl].
Qed.
Definition write_all {V} (l : list (string * V)) : gmap string V := foldl (λ m kv, <[kv.1 := kv.2]> m) ∅ l.

(** What a collection has measured, written down in the order of the lists. *)
Definition measured_machines cfg timeType (ips : gmap string bool) : gmap string NodePhysicalMetricsInfo :=
  write_all ((λ n : string * bool, (n.1, physical_metrics cfg timeType n.1 n.2)) <$> map_to_list ips).

Definition measured_nodes cfg timeType (ips : gmap string bool) (nodes : list Node) : gmap string NodeRunningMetricsInfo :=
  let cache := mkReportMetricsCache (measured_machines cfg timeType ips) ∅ ∅ ∅ in
  write_all ((λ n : string * Z, (service_address n.1 n.2, running_metrics cfg timeType cache n.1 n.2)) <$>
    ((λ n, (n_Host n, n_Port n)) <$> nodes)).

Lemma nodes_canonical cfg timeType db ips :
  let nodes := (Node_list db (mkNodeListParams 0 0 0 None) false).1 in
  NoDup ((λ n, service_address (n_Host n) (n_Port n)) <$> nodes) → uniqueNodeIps nodes = Ret ips →
  ∃ db', getAllNodeMetrics cfg timeType (db, NewNodeMetricsCache) =
    Ret (db', mkReportMetricsCache (measured_machines cfg timeType ips) (measured_nodes cfg timeType ips nodes) ∅ ∅).
Proof.
  intros nodes Hnd Hips. unfold getAllNodeMetrics. cbn [fst]. fold nodes. rewrite Hips. cbn.
  match goal with |- ∃ db', mret ?s = _ => exists s.1; rewrite (surjective_pairing s) at 1 end.
  unfold mret, go_ret. do 2 f_equal. rewrite running_phase, physical_phase. cbn.
  pose proof (λ H, phase_order (λ n : string * bool, (n.1, physical_metrics cfg timeType n.1 n.2)) ∅ _ _
    (run_ends_perm (map_to_list ips)) H) as ->.
  2: { change (NoDup (fst <$> run_ends (map_to_list ips))). rewrite run_ends_perm. apply NoDup_fst_map_to_list. }
  f_equal. apply phase_order; [apply run_ends_perm|]. rewrite run_ends_perm, <- list_fmap_compose. exact Hnd.
Qed.

Lemma written_dom {A V} (f : A → string * V) l :
  NoDup (fst ∘ f <$> l) → dom (write_all (f <$> l)) = list_to_set (fst ∘ f <$> l).
Proof.
  unfold write_all. intros Hnd. rewrite list_fmap_compose in Hnd |- *.
  by rewrite foldl_insert_union, map_union_empty, dom_list_to_map_L.
Qed.
End Reports.

(** Machines: those of the nodes, each once. *)
Lemma uniqueNodeIps_total nodes :
  Forall (λ n, is_Some (n_IsEdgeNode n)) nodes →
  ∃ ips, uniqueNodeIps nodes = Ret ips ∧ dom ips = list_to_set (n_Host <$> nodes).
Proof.
  unfold uniqueNodeIps. induction nodes as [|n nodes IH] using rev_ind; intros Hall; [by exists ∅; rewrite dom_empty_L|].
  apply Forall_app in Hall as [Hall [[e He] _]%Forall_cons]. destruct (IH Hall) as (ips & E & Hdom).
  rewrite go_fold_app, E. cbn. rewrite fmap_app, list_to_set_app_L, <- Hdom. cbn.
  destruct (ips !! n_Host n) as [b|] eqn:Eip; cbn.
  - exists ips. split; [done|]. apply elem_of_dom_2 in Eip. set_solver.
  - rewrite He. cbn. eexists. split; [done|]. rewrite dom_insert_L. set_solver.
Qed.

Lemma physical_metrics_run `{Runtime} `{PrometheusWorld} `{Json PrometheusResponse} (run run' : ReportRun) cfg timeType ip e :
  (∀ name, time_Now (ReportRun:=run) name = time_Now (ReportRun:=run') name) →
  physical_metrics (run:=run) cfg timeType ip e = physical_metrics (run:=run') cfg timeType ip e.
Proof. intros Htime. unfold physical_metrics. by rewrite Htime. Qed.

Lemma running_metrics_run `{Runtime} `{PrometheusWorld} `{Json PrometheusResponse} (run run' : ReportRun) cfg timeType
    cache cache' ip port :
  (∀ name, time_Now (ReportRun:=run) name = time_Now (ReportRun:=run') name) →
  rc_NodePhysicalMetricsCache cache = rc_NodePhysicalMetricsCache cache' →
  running_metrics (run:=run) cfg timeType cache ip port = running_metrics (run:=run') cfg timeType cache' ip port.
Proof. intros Htime Hcache. unfold running_metrics. by rewrite Htime, Hcache. Qed.

Section Runs.
Context `{Runtime} `{PrometheusWorld} `{Json PrometheusResponse} (run run' : ReportRun).
Context (Htime : ∀ name, time_Now (ReportRun:=run) name = time_Now (ReportRun:=run') name).

Lemma measured_machines_run cfg timeType ips :
  measured_machines (run:=run) cfg timeType ips = measured_machines (run:=run') cfg timeType ips.
Proof.
  unfold measured_machines. f_equal. apply list_fmap_ext. intros _ n _. f_equal. by apply physical_metrics_run.
Qed.

Lemma measured_nodes_run cfg timeType ips nodes :
  measured_nodes (run:=run) cfg timeType ips nodes = measured_nodes (run:=run') cfg timeType ips nodes.
Proof.
  unfold measured_nodes. rewrite measured_machines_run. f_equal. apply list_fmap_ext. intros _ n _. f_equal.
  by apply running_metrics_run.
Qed.
End Runs.

(** What a collection measures does not depend on the order in which its goroutines
    end, as long as no two nodes have the same address: every machine and every node is
    measured, and nothing else. *)
Theorem nodes_measured {DB} `{ControlDb DB} `{Runtime} `{PrometheusWorld} `{Json PrometheusResponse}
    `{MetricDb DB NodeRunningMetrics} `{MetricDb DB NodePhysicalMetrics}
    (run run' : ReportRun) cfg timeType (db : DB) :
  let nodes := (Node_list db (mkNodeListParams 0 0 0 None) false).1 in
  let address node := service_address (n_Host node) (n_Port node) in
  (∀ name, time_Now (ReportRun:=run) name = time_Now (ReportRun:=run') name) →
  NoDup (address <$> nodes) → Forall (λ n, is_Some (n_IsEdgeNode n)) nodes →
  ∃ s s', getAllNodeMetrics (run:=run) cfg timeType (db, NewNodeMetricsCache) = Ret s ∧
    getAllNodeMetrics (run:=run') cfg timeType (db, NewNodeMetricsCache) = Ret s' ∧
    s.2 = s'.2 ∧
    dom (rc_NodeRunningMetricsCache s.2) = list_to_set (address <$> nodes) ∧
    dom (rc_NodePhysicalMetricsCache s.2) = list_to_set (n_Host <$> nodes).
Proof.
  intros nodes address Htime Hnd Hedge. destruct (uniqueNodeIps_total nodes Hedge) as (ips & Eips & Hips).
  destruct (nodes_canonical (run:=run) cfg timeType db ips Hnd Eips) as [db1 E1].
  destruct (nodes_canonical (run:=run') cfg timeType db ips Hnd Eips) as [db2 E2].
  do 2 eexists. do 2 (split; [eassumption|]). cbn [snd rc_NodeRunningMetricsCache rc_NodePhysicalMetricsCache].
  split_and!; [|..].
  - rewrite (measured_machines_run run run'), (measured_nodes_run run run'); done.
  - unfold measured_nodes. rewrite written_dom; rewrite <- list_fmap_compose; done.
  - unfold measured_machines. rewrite written_dom; [|apply NoDup_fst_map_to_list].
    rewrite <- Hips. by rewrite <- (list_to_map_to_list ips) at 2; rewrite dom_list_to_map_L.
Qed.

Section Unreachable.
Context `{Runtime} `{PrometheusWorld} `{Json PrometheusResponse} (unreachable : ∀ url, ∃ err, prom_Get url = inr err).

Lemma query_fails host ql :
  ∃ st, getMetricsWithFloat64Value host ql = (f64_zero, ∅, st) ∧ Status_Ok st = false.
Proof.
  unfold getMetricsWithFloat64Value, getSingleValueMetrics, prometheusQuery.
  destruct (unreachable ("http://" +:+ host +:+ "/api/v1/query?query=" +:+ url_PathEscape ql)) as [err ->].
  by exists (StatusWithError (Some err)).
Qed.

Lemma int64_fails host ql : ∃ st, getMetricsWithInt64Value host ql = (0, ∅, st) ∧ Status_Ok st = false.
Proof. unfold getMetricsWithInt64Value. destruct (query_fails host ql) as (st & -> & Hst). by exists st. Qed.

Lemma int32_fails host ql : ∃ st, getMetricsWithInt32Value host ql = (0, ∅, st) ∧ Status_Ok st = false.
Proof. unfold getMetricsWithInt32Value. destruct (query_fails host ql) as (st & -> & Hst). by exists st. Qed.

Lemma float32_fails host ql : ∃ st, getMetricsWithFloat32Value host ql = (f32_zero, st) ∧ Status_Ok st = false.
Proof. unfold getMetricsWithFloat32Value. destruct (query_fails host ql) as (st & -> & Hst). by exists st. Qed.
End Unreachable.

(** Every query in the goal fails. *)
Ltac queries_fail Hfail :=
  repeat match goal with
  | |- context [getMetricsWithInt64Value ?h ?q] => destruct (int64_fails Hfail h q) as (? & -> & ->)
  | |- context [getMetricsWithInt32Value ?h ?q] => destruct (int32_fails Hfail h q) as (? & -> & ->)
  | |- context [getMetricsWithFloat32Value ?h ?q] => destruct (float32_fails Hfail h q) as (? & -> & ->)
  | |- context [getMetricsWithInt64Value ?h ?q] => destruct (int64_fails Hfail h q) as (? & -> & _)
  | |- context [getMetricsWithInt32Value ?h ?q] => destruct (int32_fails Hfail h q) as (? & -> & _)
  | |- context [getMetricsWithFloat32Value ?h ?q] => destruct (float32_fails Hfail h q) as (? & -> & _)
  end.

(** Where Prometheus does not answer, a machine looks idle and a node looks unused:
    the failures are not told from zeros, and the rows are written all the same. *)
Theorem unreachable_looks_idle `{Runtime} `{PrometheusWorld} `{Json PrometheusResponse} `{ReportRun} cfg timeType ip edge port cache :
  (∀ url, ∃ err, prom_Get url = inr err) →
  let machine := physical_metrics cfg timeType ip edge in
  npi_CapacityIdleRateAbsolute machine = f32_of_Z 100 ∧
  (rc_NodePhysicalMetricsCache cache !! ip = Some machine →
   nri_running (running_metrics cfg timeType cache ip port) =
     mkRunning 0 0 0 0 0 0 0 0 f32_zero f32_zero 0 (f32_div (f32_of_Z 100) RedundancyIndex) (f32_of_Z 100)
       (time_Now (service_address ip port)) timeType).
Proof.
  intros Hfail machine. assert (npi_CapacityIdleRateAbsolute machine = f32_of_Z 100) as Hidle.
  { subst machine. unfold physical_metrics, getNodeCpuUsageRate, getNodeDiskMetrics, getNodeMemoryMetrics,
      getNodeIoUsageRate, getNodeNetworkMetrics. queries_fail Hfail. by destruct edge. }
  split; [done|]. intros Hcache. unfold running_metrics. rewrite Hcache, Hidle.
  unfold getNodeQps, getNodeKps, getNodeDataSize, getNodeBps, getNodeDelayTime, getJitterDuration, read_write.
  queries_fail Hfail. done.
Qed.

(** A cluster none of whose data centres has a row gets one all the same, with delays
    that are not numbers and the largest idle rate. *)
Lemma cluster_without_pools `{ReportRun} timeType cache cluster :
  Forall (λ dc, pool_part cache dc = None) (cl_Dcs cluster) →
  let m := cri_running (cluster_metrics timeType cache cluster) in
  ru_P99 m = SpecFloat.S754_nan ∧ ru_P999 m = SpecFloat.S754_nan ∧
  ru_CapacityIdleRate m = MaxFloat32 ∧ ru_CapacityIdleRateAbsolute m = MaxFloat32 ∧ ru_Qps m = 0.
Proof.
  intros Hnone. unfold cluster_metrics.
  assert (∀ s, sum_parts (pool_part cache <$> cl_Dcs cluster) s = s) as ->; [|done].
  induction Hnone as [|dc dcs E Hnone IH]; intros s; [done|]. cbn. rewrite E. apply IH.
Qed.

(** ** Witnesses *)

(** A database that takes every row, and a Prometheus that answers 5 to everything. *)
Definition takes_all {DB Row} : MetricDb DB Row :=
  {| md_Create _ db := (db, None); md_Count _ _ := 0; md_Find _ _ _ _ := [] |}.

Definition always_five : PrometheusWorld :=
  {| prom_Get _ := inl (200, "200 OK", inl "5"); url_PathEscape s := s; ParseFloat64 _ := (f64_of_Z 5, None);
     f64_to_int_other _ _ := 0 |}.

Definition five_response : Json PrometheusResponse :=
  {| json_Marshal _ := inl "";
     json_Unmarshal s _ := (mkPrometheusResponse "success" "vector" [mkPromResult {["mountpoint" := "/"]} [PromOther; PromString s]], None) |}.

Definition unreachable_prometheus : PrometheusWorld :=
  {| prom_Get _ := inr (mkError "connection refused" true); url_PathEscape s := s; ParseFloat64 _ := (f64_zero, None);
     f64_to_int_other _ _ := 0 |}.

Definition in_order : ReportRun.
Proof. refine {| run_ends _ l := l; time_Now _ := 7 |}. done. Defined.

Definition backwards : ReportRun.
Proof. refine {| run_ends _ l := reverse l; time_Now _ := 7 |}. intros. apply reverse_Permutation. Defined.

Definition edge_node (id : Z) (host : string) : Node :=
  mkNode id id None None host 8000 None None (Some true) "" 1 GroupRow_zero 0 NodeConfig_zero None None 0 AnsibleConfig_zero.

Definition report_dc : Dc := mkDc 3 1 "east" 10 "" 0.

Definition report_rows : Rows :=
  mkRows [mkCluster 1 "laser" "" 10 "" [report_dc] 0] [report_dc]
    [mkGroup (mkGroupRow 1 "g" "" 0 "" 1 3 0) NodeConfig_zero [edge_node 1 "a"; edge_node 2 "b"] report_dc]
    [edge_node 1 "a"; edge_node 2 "b"] [].

Definition one_group {DB} : PoolGroups DB := {| dc_Groups _ _ := [1] |}.

#[local] Existing Instances rows_db takes_all five_response main_go.

Definition measured_rows : Rows * ReportMetricsCache :=
  match getAllNodeMetrics (pw:=always_five) (run:=backwards) root_config TimeTypePeak (report_rows, NewNodeMetricsCache) with
  | Ret s => s
  | _ => (report_rows, NewNodeMetricsCache)
  end.

Lemma report_totals_witness :
  ru_Qps (cri_running (cluster_metrics (run:=backwards) TimeTypePeak
    (getAllResourcePoolRunningMetrics (pool_groups:=one_group) (run:=backwards) TimeTypePeak
      (getAllGroupRunningMetrics (run:=backwards) TimeTypePeak measured_rows)).2
    (mkCluster 1 "laser" "" 10 "" [report_dc] 0))) = 10.
Proof.
  etransitivity; [apply (report_totals (pool_groups:=one_group) (pw:=always_five) (run:=backwards) root_config TimeTypePeak report_rows
    measured_rows (mkCluster 1 "laser" "" 10 "" [report_dc] 0)) with (w := 32) (f := ru_Qps)|vm_compute; reflexivity].
  - vm_compute. reflexivity.
  - apply (bool_decide_unpack _). vm_compute. exact I.
  - apply (bool_decide_unpack _). vm_compute. exact I.
  - left.
Defined.

Lemma nodes_measured_witness :
  ∃ s s', getAllNodeMetrics (pw:=always_five) (run:=in_order) root_config TimeTypePeak (report_rows, NewNodeMetricsCache) = Ret s ∧
    getAllNodeMetrics (pw:=always_five) (run:=backwards) root_config TimeTypePeak (report_rows, NewNodeMetricsCache) = Ret s' ∧
    s.2 = s'.2 ∧
    dom (rc_NodeRunningMetricsCache s.2) = list_to_set ["a:8000"; "b:8000"] ∧
    dom (rc_NodePhysicalMetricsCache s.2) = list_to_set ["a"; "b"].
Proof.
  pose (nodes := (Node_list report_rows (mkNodeListParams 0 0 0 None) false).1).
  assert (["a:8000"; "b:8000"] = ((λ node, service_address (n_Host node) (n_Port node)) <$> nodes)) as ->
    by (vm_compute; reflexivity).
  assert (["a"; "b"] = (n_Host <$> nodes)) as -> by (vm_compute; reflexivity).
  apply (nodes_measured (H1:=always_five) in_order backwards root_config TimeTypePeak report_rows).
  - done.
  - apply (bool_decide_unpack _). vm_compute. exact I.
  - vm_compute. repeat constructor; eexists; reflexivity.
Defined.

Lemma unreachable_looks_idle_witness :
  npi_CapacityIdleRateAbsolute (physical_metrics (pw:=unreachable_prometheus) (run:=in_order) root_config TimeTypePeak "a" true) =
    f32_of_Z 100.
Proof.
  apply (unreachable_looks_idle (H0:=unreachable_prometheus) (H2:=in_order) root_config TimeTypePeak "a" true 8000
    NewNodeMetricsCache). intros url. eexists. reflexivity.
Defined.
