(* ===== verification/Startup.v ===== *)
(** * Start-up of the control plane ([control/cmd], [control/service/base.go],
    [control/common/timer.go], [control/service/shard_control_actors.go])

    The server reads its configuration, starts the ticker that ends sessions, migrates
    its tables, loads the cluster, schedules the reports, registers the routes and
    listens.  What it needs of MySQL, gin, viper, the files of the machine and its ports
    is in the classes of the parts. *)

From S2P Require Import Prelude RouterTypes Registry GoLib ControlStatus ControlData ShardManager NodeManager.
From S2P Require Import Partition Context Users Routes Metrics Prometheus Reports.

(** ** Configuration files ([cmd/root.go]) *)

(** [viper.ReadInConfig] of a file. *)
Class ConfigFile := { viper_ReadInConfig : string → Viper + error }.

(** The process goes on with a configuration, or ends with a code. *)
Definition initConfig `{ConfigFile} (unset : Viper) (cfgFile : string) : Viper + Z :=
  if String.eqb cfgFile "" then inl unset
  else match viper_ReadInConfig cfgFile with
       | inl v => inl v
       | inr _ => inr 1
       end.

(** ** Services ([service/base.go], [common/timer.go]) *)

(** [AutoMigrate] of a model, whose error is not looked at. *)
Class Migration (D : Type) := { gorm_AutoMigrate : string → D → D }.

Definition migrated_models : list string :=
  ["LaserDatabase"; "Table"; "ShardStore"; "TableConfigItem"; "TableConfig"; "TrafficRestrictionLimit";
   "ProxyTableConfig"; "NodeRateLimitEntry"; "NodeConfig"; "Cluster"; "Group"; "Node"; "MachineCategory"; "Machine";
   "AnsibleConfig"; "Ticket"; "Dc"; "NodePhysicalMetrics"; "NodeRunningMetrics"; "GroupRunningMetrics";
   "ResourcePoolRunningMetrics"; "ClusterRunningMetrics"; "TableMetrics"; "SystemIndex"].

(** The callback runs every so many nanoseconds; [time.NewTicker] panics on an interval
    that is not positive. *)
Definition InitCleanTokens (interval : Z) : go Z :=
  let d := i64 (interval * 1000000000) in
  if Z.leb d 0 then Panic (ExplicitPanic "non-positive interval for NewTicker") else mret d.

Record services (D : Type) := mkServices { sv_db : D; sv_nodes : NodeManager; sv_reports : list (string * Z) }.
Arguments mkServices {D}. Arguments sv_db {D}. Arguments sv_nodes {D}. Arguments sv_reports {D}.

(** [net.Listen] on an address, which [gin.Engine.Run] starts with: the error, if any. *)
Class Listen := { net_Listen : string → option error }.

Section Startup.
Context {W D E : Type} {open : GormOpen W D} {mig : Migration D} {cdb : ControlDb D} {rt : Runtime}
  {jsonShards : Json ShardsStruct} {city : CityHash} {cron : Cron} {gin : Gin E} {net : Listen}.
Implicit Types (w : W) (ctx : Context D).

(** [ctx.Db()] with nil as the panic of its first use. *)
Definition use_Db w ctx : go (W * Context D * D) :=
  '(w, ctx, db) ← Context_Db w ctx; db ← go_deref db; mret (w, ctx, db).

(** The options of the tables are set on a copy that is dropped. *)
Definition InitService w ctx : go (W * Context D * services D) :=
  '(w, ctx, db) ← use_Db w ctx;
  let db := foldl (λ db model, gorm_AutoMigrate model db) db migrated_models in
  nodes ← InitShard (cf_serviceName (cx_config ctx)) db;
  mret (w, mkContext (cx_config ctx) (Some db) (cx_logMode ctx),
        mkServices db nodes (GetReportDataCollector (cx_config ctx) None)).

(** ** The server ([cmd/server.go]) *)

Definition gin_ReleaseMode : string := "release".

(** [gin.SetMode]. *)
Definition gin_SetMode (mode : string) : go string :=
  if bool_decide (mode ∈ ["debug"; "release"; "test"]) then mret mode else Panic (ExplicitPanic "gin mode unknown").

Record process := mkProcess {
  pc_mode : string;
  pc_cleanEvery : Z;
  pc_services : services D;
  pc_engine : E;
  pc_address : string
}.

(** What comes of [app.Run]: it serves the routes and does not return, or it cannot
    listen and returns its error, which is dropped: the command, and with it the
    process, ends as if nothing had happened. *)
Inductive run_result :=
  | Listening (p : process)
  | Ended (p : process).

Definition app_Run (p : process) : run_result :=
  match net_Listen (pc_address p) with
  | None => Listening p
  | Some _ => Ended p
  end.

(** The whole command.  The validator set here for gin's bindings is the one that the
    handlers of [Api] bind with. *)
Definition server_Run `{Viper} w : go (W * run_result) :=
  let ctx := Context_New in
  let cfg := cx_config ctx in
  mode ← gin_SetMode (if String.eqb (cf_httpServerMode cfg) "" then gin_ReleaseMode else cf_httpServerMode cfg);
  cleanEvery ← InitCleanTokens (SessionSaveSeconds cfg);
  '(w, ctx, services) ← InitService w ctx;
  engine ← serve (cf_staticRoot (cx_config ctx));
  mret (w, app_Run (mkProcess mode cleanEvery services engine
                      (cf_httpServerHost cfg +:+ ":" +:+ Itoa (cf_httpServerPort cfg)))).
End Startup.
Arguments process : clear implicits.
Arguments run_result : clear implicits.
Arguments Listening {D E}.
Arguments Ended {D E}.

(** ** The actors ([service/shard_control_actors.go]) *)

Definition AssignShardsState : Z := 1.
Definition DisableDestinationNodeState : Z := 2.
Definition PushToOnlineState : Z := 3.
Definition WaitForUpdatingState : Z := 4.
Definition UpdateShardsState : Z := 5.
Definition RePushToOnlineState : Z := 6.

Record ShardControlActor := mkShardControlActor { sca_running : bool; sca_state : Z; sca_shardManager : ShardManager }.

Definition ShardControlActor_GetState (actor : ShardControlActor) : Z := sca_state actor.

Definition ShardControlActor_Cancel (actor : ShardControlActor) : ShardControlActor :=
  mkShardControlActor false (sca_state actor) (sca_shardManager actor).

(** The method of the follower's actor hides the one it embeds and calls itself. *)
Fixpoint FollowerDynamicAssignActor_GetState (fuel : nat) (actor : ShardControlActor) : go Z :=
  match fuel with
  | O => OutOfFuel
  | S fuel => FollowerDynamicAssignActor_GetState fuel actor
  end.

Definition FollowerDynamicAssignActor_AssignShards `{MapOrder} `{GoSort} `{FloatToUint} (actor : ShardControlActor)
  : ShardControlActor :=
  mkShardControlActor (sca_running actor) (sca_state actor) (AssignShards (sca_shardManager actor)).1.

(** ** Theorems *)

(** The follower's actor has no state to tell. *)
Lemma follower_GetState_diverges fuel actor : FollowerDynamicAssignActor_GetState fuel actor = OutOfFuel.
Proof. by induction fuel. Qed.

Section Properties.
Context {W D E : Type} {open : GormOpen W D} {mig : Migration D} {cdb : ControlDb D} {rt : Runtime}
  {jsonShards : Json ShardsStruct} {city : CityHash} {cron : Cron} {gin : Gin E} {net : Listen} {pages : HtmlTemplates}
  {laws : GinLaws E} {viper : Viper}.
Implicit Types (w : W) (db : D).

(** The mode is one that gin knows, whatever the configuration says. *)
Lemma mode_known (cfg := NewConfig) :
  let mode := if String.eqb (cf_httpServerMode cfg) "" then gin_ReleaseMode else cf_httpServerMode cfg in
  gin_SetMode mode = Ret mode.
Proof. subst cfg. cbn. by destruct (viper_GetBool "debug"). Qed.

Definition migrate db : D := foldl (λ db model, gorm_AutoMigrate model db) db migrated_models.

Lemma InitService_returns w w1 db nodes :
  opened (gorm_Open (cf_databaseDriver NewConfig) (cf_databaseDsn NewConfig) w) = Some (w1, db) →
  InitShard (cf_serviceName NewConfig) (migrate db) = Ret nodes →
  ∃ logMode, InitService w Context_New =
    Ret (w1, mkContext NewConfig (Some (migrate db)) logMode,
         mkServices (migrate db) nodes (GetReportDataCollector NewConfig None)).
Proof.
  intros Hopen Hnodes. unfold InitService, use_Db, Context_Db, connectToDatabase. cbn [cx_db cx_config Context_New].
  destruct (gorm_Open _ _ w) as [w' [[db'|] [err|]]]; cbn in Hopen; try done. injection Hopen as -> ->.
  exists (if Config_Debug NewConfig then true else false).
  cbn [mbind go_bind mret go_ret cx_db cx_config go_deref].
  destruct (Config_Debug NewConfig); cbn [mbind go_bind mret go_ret cx_db cx_config go_deref cx_logMode];
    fold (migrate db); rewrite Hnodes; done.
Qed.

End Properties.

(** ** Witnesses *)

#[local] Existing Instances rows_db main_go no_json toy_city key_viper.

Definition start_node : Node :=
  mkNode 1 1 (Some NodeActive) (Some NodeStatusEnabled) "h" 80 (Some 1) (Some true) (Some false) "" 1
    GroupRow_zero 0 NodeConfig_zero (Some "0,1") (Some "") 0 AnsibleConfig_zero.

Definition start_rows : Rows :=
  mkRows [mkCluster 1 "c" "" 2 "" [] 0] []
    [mkGroup (mkGroupRow 1 "g" "" 0 "" 1 1 0) NodeConfig_zero [start_node] Dc_zero] [start_node] [].

(** A database that opens at once, and a schedule that takes every expression. *)
Definition opens_at_once : GormOpen unit Rows := {| gorm_Open _ _ w := (w, (Some start_rows, None)) |}.
Definition migrates : Migration Rows := {| gorm_AutoMigrate _ db := db |}.
Definition takes_cron : Cron := {| cron_parses _ := true |}.

(** The address of the configuration is free, or no address is. *)
Definition port_free : Listen := {| net_Listen _ := None |}.
Definition port_taken : Listen := {| net_Listen _ := Some (mkError "bind: address already in use" true) |}.

(** The root of the configuration, with the frontend built under it. *)
Definition built : HtmlTemplates := built_at (cf_staticRoot NewConfig).

