(* ===== verification/Agreement.v ===== *)
(** * Control plane and client together

    The cluster that the control plane publishes ([consul.go], [shard_manager.go]) as
    the client reads it ([config_manager.go]), and the shard that each computes for
    a partition ([metrics_info.go], [partition.go]).  What crosses from one to the
    other is JSON in consul: the control plane's structs and the client's have the
    same tags. *)

From S2P Require Import Prelude RouterTypes Partition Registry ConfigManager GoLib ControlStatus ControlData ShardMetrics StatusManager ShardManager NodeManager ConsulModel.

(** ** What the client decodes *)

Definition client_node (n : NodeVersionData) : NodeShardList :=
  mkNodeShardList (nv_NodeId n) (nv_LeaderShardList n) (nv_FollowerShardList n) (nv_IsEdgeNode n).

Definition client_group (g : GroupVersionData) : ClusterGroup :=
  mkClusterGroup (gv_GroupName g) (client_node <$> gv_Nodes g) (gv_Dc g).

Definition client_dc (d : DataCenterData) : DataCenter := mkDataCenter (dd_Name d) (dd_ShardNumber d).

Definition client_cluster (d : ShardVersionData) : ClusterInfo :=
  mkClusterInfo (sv_ClusterName d) (sv_ShardNumber d) (client_dc <$> sv_Dcs d) (client_group <$> sv_Groups d).

(** [encoding/json] between two structs with the same tags. *)
Class SameTags `{Json ShardVersionData} `{Json ClusterInfo} := {
  same_tags d text : json_Marshal d = inl text → json_Unmarshal text ClusterInfo_zero = (client_cluster d, None)
}.

(** ** The same keys *)

(** The control plane writes where the clients' registry reads: the configurations
    of the service "laser_" followed by the control plane's name for it. *)
Lemma same_configs_path cfg s key (server : Server) :
  sv_ServiceName server = "laser_" +:+ s →
  getConsulUrl cfg s key =
    "http://" +:+ cfg_ConsulAddress cfg +:+ "/v1/kv/" +:+ GetConfigsPath server +:+ key +:+
    "?token=" +:+ cfg_ConsulToken cfg.
Proof.
  intros Hs. unfold getConsulUrl, service_url, GetConfigsPath, GetConfigPath. rewrite Hs.
  unfold CONSUL_REGISTRY_KV_PREFIX, CONSUL_REGISTRY_KV_CONFIG, CONSUL_REGISTRY_KV_CONFIG_CONFIGS.
  by rewrite !string_append_assoc.
Qed.

Lemma same_cluster_key : ConsulClusterInfoKey = LASER_CONFIG_CLUSTER_INFO.
Proof. done. Qed.

(** ** Lemmas *)

Section Lemmas.
Context `{CityHash}.

(** A map of one entry is ranged over in one way. *)
Lemma map_range_unique `{MapOrder} (k v : string) : map_range {[ k := v ]} = [(k, v)].
Proof. apply Permutation_singleton_r. by rewrite map_range_perm, map_to_list_singleton. Qed.

Lemma dc_shard_number_None dc dcs : dc ∉ dc_Name <$> dcs → dc_shard_number dc dcs = None.
Proof.
  induction dcs as [|d dcs IH]; [done|]. cbn. intros [Hne Hnin]%not_elem_of_cons.
  destruct (String.eqb_spec (dc_Name d) dc); [congruence|]. auto.
Qed.

Lemma dc_shard_number_Some dc dcs n :
  NoDup (dc_Name <$> dcs) →
  dc_shard_number dc dcs = Some n ↔ Exists (λ d, dc_Name d = dc ∧ dc_ShardNumber d = n) dcs.
Proof.
  induction dcs as [|d dcs IH]; intros Hnd; [by rewrite Exists_nil|].
  cbn in Hnd. apply NoDup_cons in Hnd as [Hnin Hnd]. rewrite Exists_cons, <- (IH Hnd). cbn.
  destruct (String.eqb_spec (dc_Name d) dc) as [<-|Hne].
  - rewrite (dc_shard_number_None _ _ Hnin). naive_solver.
  - naive_solver.
Qed.

(** The client's table of data centres, with distinct names. *)
Lemma client_dcs_lookup (dcs : list Dc) (m : gmap string DataCenter) dc :
  NoDup (dc_Name <$> dcs) →
  foldl (λ m d, <[ConfigManager.dc_Name d := d]> m) m
     (client_dc <$> ((λ d, mkDataCenterData (dc_Name d) (u32 (dc_ShardNumber d))) <$> dcs)) !! dc =
  match dc_shard_number dc dcs with
  | Some n => Some (mkDataCenter dc (u32 n))
  | None => m !! dc
  end.
Proof.
  revert m. induction dcs as [|d dcs IH]; intros m Hnd; [done|].
  cbn in Hnd. apply NoDup_cons in Hnd as [Hnin Hnd]. cbn [fmap list_fmap foldl dc_shard_number].
  rewrite IH by done. cbn [client_dc ConfigManager.dc_Name dd_Name].
  destruct (String.eqb_spec (dc_Name d) dc) as [<-|Hne].
  - rewrite (dc_shard_number_None _ _ Hnin). by rewrite lookup_insert_eq.
  - destruct (dc_shard_number dc dcs); [done|]. by rewrite lookup_insert_ne.
Qed.
End Lemmas.

(** ** Properties *)

Section Properties.
Context `{CityHash} `{MapOrder} `{GoSort} `{Runtime} {jsonVersion : Json ShardVersionData}
  {jsonText : Json ShardsStruct} {jsonSchemas : Json (list DatabaseSchema)} {jsonCluster : Json ClusterInfo}
  {tags : SameTags} {DB : Type} `{ControlDb DB}.

(** C17: the client and the control plane agree on shards.  The database has one
    cluster with data centres of distinct names; the control plane takes a snapshot
    of it and publishes it, and a client reads that.  Then both compute the same
    shard for every partition, unless the data centre is registered with no shard
    number of its own: the control plane falls back on the cluster's number there,
    the client has no shard for any partition. *)
Theorem shards_agree db cluster info sg now text serviceName router cm dc :
  (Cluster_List db (mkClusterListParams 0 0) false).1 = [cluster] →
  cl_Dcs cluster = (Dc_List db (mkDcListParams 0 0) false).1 →
  NoDup (dc_Name <$> cl_Dcs cluster) →
  Forall (λ d, 0 ≤ dc_ShardNumber d < 2 ^ 32) (cl_Dcs cluster) →
  GetClusterInfo db = Ret (StatusOk, info) →
  GetCurrentVersionData now (UpdateClusterInfo info sg) = (text, StatusOk) →
  let config := mkServiceConfig router (Some {[ ConsulClusterInfoKey := text ]}) in
  let client := ConfigManager_ConfigNotify serviceName config cm in
  if decide (Exists (λ d, dc_Name d = dc ∧ dc_ShardNumber d = 0) (cl_Dcs cluster))
  then GetShardNum db dc = cl_ShardTotal cluster ∧ ∀ p, GetShardId p client dc = UINT32MAX
  else ∀ p, GetShardId p client dc = GetShardIdByShardNumber p (GetShardNum db dc).
Proof.
  intros Hc Hd Hnd Hrange Hinfo Hpub config client.
  assert (ci_ShardTotal info = cl_ShardTotal cluster ∧ ci_Dcs info = cl_Dcs cluster) as [Htotal Hdcs].
  { clear -Hc Hd Hinfo. unfold GetClusterInfo in Hinfo. rewrite Hc, <- Hd in Hinfo.
    destruct (go_fold _ _ _); [|done..]. cbn in Hinfo. by injection Hinfo as <-. }
  set (v := (convertNodeShardsToVersionData (UpdateClusterInfo info sg)).1).
  assert (json_Marshal v = inl text) as Hm.
  { clear -Hpub. unfold GetCurrentVersionData, convertNodeShardsToShardStore in Hpub.
    unfold v. destruct (convertNodeShardsToVersionData _) as [v0 st0]. cbn [fst].
    destruct (Status_Ok st0) eqn:Hst; cbn [negb] in Hpub; [|injection Hpub as _ ->; done].
    destruct (json_Marshal v0) as [data|err]; [|done]. by injection Hpub as ->. }
  apply same_tags in Hm.
  assert (client = set_dcs (foldl (λ m d, <[ConfigManager.dc_Name d := d]> m) ∅ (ConfigManager.ci_Dcs (client_cluster v)))
    (set_clusterInfo (client_cluster v) cm)) as Hclient.
  { unfold client, ConfigManager_ConfigNotify, config. cbn [sc_Configs from_option id].
    rewrite (map_range_unique ConsulClusterInfoKey text). cbn [foldl]. unfold ConfigNotify_pair.
    change (strings_Contains ConsulClusterInfoKey LASER_CONFIG_DATABASE_TABLE_SCHEMA_DATA) with false.
    change (strings_Contains ConsulClusterInfoKey LASER_CONFIG_CLUSTER_INFO) with true.
    cbv iota. by rewrite Hm. }
  assert (GetShardNumber client dc = default (cl_ShardTotal cluster) (dc_shard_number dc (cl_Dcs cluster))) as Hn.
  { unfold GetShardNumber. rewrite Hclient. cbn [cm_dcs cm_clusterInfo set_dcs set_clusterInfo].
    change (ConfigManager.ci_Dcs (client_cluster v)) with
      (client_dc <$> ((λ d, mkDataCenterData (dc_Name d) (u32 (dc_ShardNumber d))) <$> ci_Dcs info)).
    rewrite Hdcs, client_dcs_lookup by done.
    destruct (dc_shard_number dc (cl_Dcs cluster)) as [n|] eqn:E; [|exact Htotal].
    cbn. apply wrapu_small. apply dc_shard_number_Some, Exists_exists in E as (d & Hin & _ & <-); [|done].
    rewrite Forall_forall in Hrange. by apply Hrange. }
  assert (GetShardNum db dc = let n := default 0 (dc_shard_number dc (cl_Dcs cluster)) in
    if Z.eqb n 0 then cl_ShardTotal cluster else n) as Hcn.
  { unfold GetShardNum. rewrite Hc. cbn. by destruct (Z.eqb _ 0). }
  unfold GetShardId, GetShardIdByShardNumber. rewrite Hn, Hcn.
  case_decide as He.
  - apply (dc_shard_number_Some _ _ 0) in He as ->; [|done]. done.
  - destruct (dc_shard_number dc (cl_Dcs cluster)) as [n|] eqn:E; [|done]. cbn.
    destruct (Z.eqb_spec n 0) as [->|]; [|done]. by apply dc_shard_number_Some in E.
Qed.
End Properties.

(** *** Concrete runs: a data centre with a number of shards and one without *)

#[local] Existing Instances toy_city stdpp_order merge_sorting rows_db main_go no_json amd64_uint.

Definition two_dcs : list Dc := [mkDc 1 1 "a" 3 "" 0; mkDc 2 1 "b" 0 "" 0].
Definition two_dc_cluster : Cluster := mkCluster 1 "c" "" 4 "" two_dcs 0.
Definition two_dc_rows : Rows := mkRows [two_dc_cluster] two_dcs [] [] [].
Definition two_dc_info : ControlClusterInfo := mkControlClusterInfo "c" 4 two_dcs [].

#[local] Instance two_dc_json : Json ShardVersionData :=
  table_json [(convertNodeShardsToVersionData (UpdateClusterInfo two_dc_info one_group)).1].

(** The client's decoder of the same text. *)
Definition decode_cluster (text : string) (y : ClusterInfo) : ClusterInfo * option error :=
  match json_Unmarshal text ShardVersionData_zero with
  | (d, None) => (client_cluster d, None)
  | (_, Some err) => (y, Some err)
  end.
Definition client_json : Json ClusterInfo :=
  {| json_Marshal _ := inr (mkError "read only" false); json_Unmarshal := decode_cluster |}.
#[local] Existing Instance client_json.

Definition two_dc_tags : SameTags.
Proof.
  split. intros d text Hd. change (decode_cluster text ClusterInfo_zero = (client_cluster d, None)).
  unfold decode_cluster. by rewrite (json_roundtrip (JsonLaws:=table_json_laws _ _) d text Hd).
Defined.
#[local] Existing Instance two_dc_tags.
#[local] Instance no_schemas : Json (list DatabaseSchema) := named_json "".

Definition two_dc_client : ConfigManager :=
  ConfigManager_ConfigNotify "s" (mkServiceConfig DefaultServiceRouterConfig
    (Some {[ ConsulClusterInfoKey := "#0" ]})) (mkConfigManager "s" ∅ ClusterInfo_zero ∅).

Lemma shards_agree_witness :
  (∀ p, GetShardId p two_dc_client "a" = GetShardIdByShardNumber p (GetShardNum two_dc_rows "a")) ∧
  GetShardNum two_dc_rows "b" = 4 ∧ ∀ p, GetShardId p two_dc_client "b" = UINT32MAX.
Proof.
  assert (∀ dc, let client := two_dc_client in
    if decide (Exists (λ d, dc_Name d = dc ∧ dc_ShardNumber d = 0) two_dcs)
    then GetShardNum two_dc_rows dc = 4 ∧ ∀ p, GetShardId p client dc = UINT32MAX
    else ∀ p, GetShardId p client dc = GetShardIdByShardNumber p (GetShardNum two_dc_rows dc)) as Hag.
  { intros dc. apply (shards_agree two_dc_rows two_dc_cluster two_dc_info one_group midnight "#0").
    - reflexivity.
    - reflexivity.
    - apply (bool_decide_unpack _). vm_compute. exact I.
    - apply (bool_decide_unpack _). vm_compute. exact I.
    - vm_compute. reflexivity.
    - vm_compute. reflexivity. }
  split; [exact (Hag "a")|exact (Hag "b")].
Defined.
